(* ===== verification/_CoqProject ===== *)
-Q . S2P
Prelude.v
GoStrings.v
Json.v
Log.v
Api.v
JsonKV.v
AllowList.v
MagicLink.v
Auth.v
Mux.v
UrlPath.v
Durations.v
AdminServer.v
AdminAccess.v
AdminRegistry.v
AdminInvites.v
ModelDex.v
RouterSpec.v
Discoveries.v
JsonClient.v
AdminReady.v
ApiClient.v
EndToEnd.v
Discovery.v
Proxy.v
WebFiles.v
PeerWire.v
MeshMembers.v
Config.v
Streams.v
YamlDoc.v
AdminMembers.v
Service.v
PeerStream.v
NodeHost.v
TestMesh.v
Join.v
MeshServes.v
MembersRouted.v
Init.v
InitForm.v
Commands.v
InitConfig.v
AdminCli.v
AdminCommands.v
AdminWire.v
Lifecycle.v
Notifier.v
