(* ===== verification/Prelude.v ===== *)
(** * A mesh of model servers, verified

    Speakeasy joins machines that serve language models into a mesh: a
    membership server admits nodes, a relay lets them find each other, and on
    every node a proxy answers model requests from a local server or from a
    peer.  This library models the program and proves what it promises.

    ** The parts and how they interact

    - The membership server (src/pkg/admin) keeps the registry of nodes with a
      logical clock, an allow list, and in a key/value store the invitations
      and the credentials of the members.  Administrators and nodes call it
      over HTTP with the clients of src/api.
    - A node starts its service (src/pkg/mesh/service.go), which logs in, gets
      the addresses of the relay, and opens streams to peers; the polling loop
      (src/pkg/mesh/discovery.go) registers the node, and when the server's
      clock has moved it tells the proxy which peers came, changed or went.
    - The proxy (src/pkg/proxy) merges the models of the peers into its table
      (src/pkg/proxy/modeldex) and sends a request for a model to a local
      server or over a stream to a peer, whose proxy serves it.
    - The commands (src/cmd) install a node, join it to a mesh with an
      invitation link, and start the node or the server with its relay.

    ** The files

    Foundations: Prelude (this file: results, programs over a state, map
    iteration, tactics), GoStrings (strings, strconv, hex), Json
    (encoding/json over trees), Log (pkg/log), Durations (time.Duration and
    the float64 of its seconds), Api (api/, pkg/core/api.go,
    pkg/jsonclient errors and the JSON form of the data).

    Membership server: JsonKV (pkg/jsonkv), AllowList (pkg/admin/allow.go),
    MagicLink (pkg/admin/magiclink), Auth (pkg/admin/auth and the session
    tokens), Mux (net/http's ServeMux), UrlPath (the path of a URL, from the
    client's text to the segments the server routes on), AdminServer (server.go, handlers.go,
    rpc.go, api_node.go, api_admin.go, api_mesh.go: every handler, the routes,
    authentication), and the proofs about it: AdminAccess (who may do what),
    AdminRegistry (registry and clock), AdminInvites (invitations, logins,
    removal of nodes, lists), AdminMembers (registry and allow list together).

    Clients: JsonClient (pkg/jsonclient), ApiClient (api/client*.go,
    api/redeem.go), EndToEnd (client calls against the server's handlers),
    AdminReady (server.go Wait).

    Node: ModelDex (pkg/proxy/modeldex), RouterSpec (what the router promises,
    as a table without addresses, and that ModelDex implements it),
    Discoveries (what model_discovery does), Discovery (the polling loop of
    pkg/mesh/discovery.go), Proxy (pkg/proxy), WebFiles (the files of the user
    interface, pkg/proxy/handlers_ui.go), PeerWire (two proxies that talk to
    each other), MeshMembers (the members a peer lists, over two hops), Config
    (pkg/core/config.go, parts of cmd/mesh, pkg/autoip), Streams (gatekeeper,
    addresses, node key and the response writer of pkg/mesh), Service
    (pkg/mesh/service.go), PeerStream (a request and its response over a
    stream, both ends together), NodeHost (the start of a node; the rest of
    discovery.go, service.go, relay.go, mdns.go and stream_conn.go), Notifier
    (pkg/proxy/socket).

    MeshServes puts the server, the polling loop of a node and the proxies of
    its peers in one world, and MembersRouted keeps the router of a node in
    step with the list of the server there.  TestMesh is the in-process mesh that the tests of
    the proxy use instead (testable).

    Programs: Join (joining end to end, cmd/mesh/app_join.go and
    app_proxy.go), Init (cmd/mesh/app_init.go) and InitForm (its form),
    Commands (cmd/mesh/main.go, app_relay.go, pkg/mesh/relay.go), YamlDoc
    (config.yaml as a document, and the tags of pkg/core/config.go) and
    InitConfig (the file of `mesh init` as the other commands find it), AdminCli
    (the actions of cmd/admincli), AdminCommands (its tables of commands),
    AdminWire (the administrator's commands against the server), Lifecycle
    (pkg/core/utilities.go and the Serve of each service: how the processes
    run and end).

    ** How the code is modelled

    - Code that changes state is a [prog S A]: a sequence of atomic regions,
      each a function on the state, ended by a result.  A region is a critical
      section of the source (a mutex, a database transaction, one access to a
      shared object).  [run] executes a program alone; [sched] executes
      several, one region at a time in a given order, so that theorems about
      concurrency quantify over all orders.  The goroutines of Notifier and
      Lifecycle are transition relations instead.
    - A pair of a value and an error is a [result]; a panic, log.Fatalf or
      os.Exit is a value of its own ([exits], [turn], [logged]).
    - Integers are Z, wrapped where Go wraps them ([tick], [int64]); times are
      nanoseconds, a float64 is the Standard Library's [spec_float] in
      binary64, strings are sequences of bytes.
    - The order of a loop over a Go map is unspecified: [range seed m] is some
      order for each seed, and theorems hold for all.
    - Go maps that are shared through a struct that is copied by value are
      addresses in a heap (ModelDex).
    - What is not source is an interface with the laws the code relies on:
      [Badger] (which accepts keys and values up to a size), [Aead] (AES-GCM), [Hashes] (bcrypt, SHA-256), [JsonText],
      [TimeText], [YamlText], [YamlBlocks] (what is read from a document of
      block mappings), [URLText], [NewRequestText] (which requests net/http
      refuses to make, and with what method it follows a redirect), [GoRetry],
      [Libp2pText] (multiaddresses), [HttpText] (http.ReadResponse),
      [UintOfFloat] (the conversions Go leaves to the machine); or an argument: clock,
      randomness, files, the answers of model servers, the operations of the
      libp2p host.  Each has an instance on which the witnesses are evaluated;
      the readers of YAML and of HTTP responses are proved to have the laws.

    ** What the theorems show

    - Access (AdminAccess, Auth): what a request without credentials or
      without the admin secret can do on any route, and which headers
      authenticate whom.
    - Registry (AdminRegistry, EndToEnd): under every interleaving the clock
      moves by exactly the number of changes, while it does not wrap, so a
      poller misses none; client and server agree on registration and refresh,
      for ids that a path carries as one segment.
    - The allow list (AllowList): what a restart makes of its file, for any
      ids, and that two concurrent additions can lose one.
    - Members (AdminMembers): served one after the other, requests keep every
      registered node on the allow list that the gate of the relay asks; a
      registration that races with a removal does not.
    - Credentials (AdminInvites, Join, AdminWire): the secret of a redemption
      logs in, a one-time invitation is used once, a removed node is out and
      its new connections are refused by the gate of the relay (those it has
      are not modelled), but its session token can authorize it again; `admincli admin invite` and `mesh
      join` take a node from the command to its entry in the registry,
      `admincli admin kick` locks it out, and an invitation lives as long as
      the command says, to the second, or for ever; a negative lifetime is
      what the machine makes of it.
    - Router and proxy (ModelDex, RouterSpec, Proxy, PeerWire, Service): the
      router implements a table of models and is well typed (no two routes
      share a map of peers) as long as no model is named like a node, which
      any peer can break ([announce_under_id]); a chosen peer is
      live and announced the model, what a peer announces is what it exports,
      a forwarded request arrives as it was sent and is served or refused
      there, is never forwarded twice, and runs on direct connections only.
    - The whole mesh (MeshServes): after a poll whose peers answer, the models
      they export are served, from the node's client to a peer's provider, on
      the two paths of the OpenAI interface and for lower-case names.
      The router of a node, through every turn of its polling loop, knows only
      peers of the last list (MembersRouted): after a kick the next turn ends
      the requests to the kicked node, whatever its peers answer.
    - The members (MeshMembers): what a node shows of the mesh is what the
      nodes that answer say of themselves, and every other member once.
    - Discovery: a poll applies exactly the difference of the two lists.
    - NodeHost: a node answers streams and takes updates only in the order of
      its start.
    - Lifecycle: `mesh admin` ends in order, `mesh proxy` only when connected.
    - PeerStream: what the handler of a peer does with its writer is what the
      client of the node gets, status, header and data, for headers without
      a transfer coding.
    - Streams, Notifier, Init: the grouping of addresses, the clients of the
      web interface are neither leaked nor forgotten, `mesh init` keeps the
      keys; InitForm: its form lets exactly the valid settings through that
      can be typed;
      WebFiles: the search for the user interface ends with the nearest web
      directory; AdminCommands: a path of names runs the command of the tables.
    - InitConfig: what of the form of `mesh init` the other commands read,
      what `mesh join` adds to it, and that `mesh admin` on the result lets
      everybody be the administrator.
    - Where the code does not do what it means to, a theorem says what it
      does (races, lost routes, updates that are not retried, requests that
      are lost in the mesh).

    ** Fuel

    Loops over data are structural.  Fuel appears in [digits_fuel] (a number
    has no more decimal than binary digits), [mustaches] and [replace_all]
    (the length of the text: every turn takes a byte), [register_loop] and
    [WaitForAddress] (they try again for ever in the code, so their result is
    None when the fuel is too little; the theorem on the latter says that any
    fuel beyond the first successful poll is enough), [wait_loop] (the same,
    for the attempts of Wait), [parents] (a step up makes a path shorter or
    ends at the top, so the length of the path and two are enough), and [Poll]
    (turns of an endless loop: as many as there are actions drain the channel).

    ** Not modelled

    The log lines of the components (the logger itself is Log) and the texts
    printed on the terminal; timers, sleeps and deadlines; the reverse proxy,
    the web socket and the static files behind the outcomes of the proxy; the
    connections and reservations of the relay (its gate is; [AllowReserve] and
    [AllowConnect] are, but the relay is made without them); the options, dialling and hole punching of libp2p; the failed assertions of
    the handlers; the flag library of admincli and the alignment of its tables;
    the models listed under a provider when config.yaml is decoded (the
    records of whole configurations are); the block of app_proxy.go that is
    commented out (runHybrid only answers that it is not implemented).
    Nil and empty slices are not told apart, and a sort is stable where
    sort.Slice leaves ties open. *)
From stdpp Require Export base gmap strings list fin_maps relations.
From Stdlib Require Export ZArith Lia ZifyNat.
From Stdlib Require Import Ascii String.
#[export] Set Default Goal Selector "!".

Declare Scope go_scope.
Delimit Scope go_scope with go.
#[global] Open Scope go_scope.

(** ** Results: the [(value, error)] pairs of the source *)

Inductive result (E A : Type) : Type :=
  | Ok (a : A)
  | Err (e : E).
Arguments Ok {E A} a.
Arguments Err {E A} e.

Definition is_ok {E A} (r : result E A) : bool :=
  match r with Ok _ => true | Err _ => false end.

(** ** Programs as sequences of atomic actions

    A handler of the server is a sequence of regions that are atomic with
    respect to the other goroutines (a critical section under a mutex, one
    database transaction, one file write), with pure code between them.
    [Atom upd next] is one such region: [upd] is its effect on the shared
    state, and [next] is the rest of the handler, which may depend on the
    state the region started in. *)

Inductive prog (S A : Type) : Type :=
  | Ret (a : A)
  | Atom (upd : S → S) (next : S → prog S A).
Arguments Ret {S A} a.
Arguments Atom {S A} upd next.

Fixpoint pbind {S A B} (p : prog S A) (k : A → prog S B) : prog S B :=
  match p with
  | Ret a => k a
  | Atom upd next => Atom upd (λ s, pbind (next s) k)
  end.

(** The sequential execution of a program, no other goroutine running. *)
Fixpoint run {S A} (p : prog S A) (s : S) : S * A :=
  match p with
  | Ret a => (s, a)
  | Atom upd next => run (next s) (upd s)
  end.

(** One atomic region that returns a value. *)
Definition atomically {S A} (f : S → S * A) : prog S A :=
  Atom (λ s, (f s).1) (λ s, Ret (f s).2).

(** The sequencing of the source: [let*] is a plain statement sequence,
    [let!] is the call followed by [if err != nil { return err }]. *)
Notation "'let*' x := m 'in' k" := (pbind m (λ x, k))
  (at level 10, x pattern, m at level 100, k at level 200,
   format "'[v' 'let*'  x  :=  m  'in' '/' k ']'") : go_scope.
Notation "'let!' x := m 'in' k" :=
  (pbind m (λ r, match r with Ok x => k | Err e => Ret (Err e) end))
  (at level 10, x pattern, m at level 100, k at level 200,
   format "'[v' 'let!'  x  :=  m  'in' '/' k ']'") : go_scope.

(** ** Concurrent execution: a pool of programs, one atomic action at a time *)

Inductive pstep {S A} : S * list (prog S A) → S * list (prog S A) → Prop :=
  | pstep_atom s ps i upd next :
      ps !! i = Some (Atom upd next) →
      pstep (s, ps) (upd s, <[i := next s]> ps).

(** An executable scheduler: the list names the program that moves next. *)
Fixpoint sched {S A} (order : list nat) (s : S) (ps : list (prog S A))
    : S * list (prog S A) :=
  match order with
  | [] => (s, ps)
  | i :: order' =>
      match ps !! i with
      | Some (Atom upd next) => sched order' (upd s) (<[i := next s]> ps)
      | _ => sched order' s ps
      end
  end.

Definition returned {S A} (p : prog S A) : option A :=
  match p with Ret a => Some a | Atom _ _ => None end.

(** [respects I R p]: from a state with [I], every atomic action of [p] keeps
    [I] and relates the states before and after it by [R], whatever the other
    programs that keep [I] did in between. *)
Inductive respects {S A} (I : S → Prop) (R : S → S → Prop) : prog S A → Prop :=
  | respects_ret a : respects I R (Ret a)
  | respects_atom upd next :
      (∀ s, I s → I (upd s)) →
      (∀ s, I s → R s (upd s)) →
      (∀ s, I s → respects I R (next s)) →
      respects I R (Atom upd next).

Create HintDb go discriminated.
Create Rewrite HintDb gostr.
Create Rewrite HintDb acl.
#[export] Hint Constructors respects : go.

(** A program on a component of the state, run on the whole state. *)
Fixpoint zoom {S T A} (get : S → T) (put : T → S → S) (p : prog T A) : prog S A :=
  match p with
  | Ret a => Ret a
  | Atom upd next =>
      Atom (λ s, put (upd (get s)) s) (λ s, zoom get put (next (get s)))
  end.

(** ** Map iteration

    The order of [for k := range m] is not specified and differs from one
    loop to the next: [range seed m] is the order of the loop numbered
    [seed].  Every theorem holds for all orders. *)
Class MapOrder := {
  range {A} (seed : nat) (m : gmap string A) : list (string * A);
  range_perm {A} seed (m : gmap string A) : range seed m ≡ₚ map_to_list m
}.

Lemma elem_of_range `{MapOrder} {A} seed (m : gmap string A) k v :
  (k, v) ∈ range seed m ↔ m !! k = Some v.
Proof. by rewrite range_perm, elem_of_map_to_list. Qed.

Lemma range_nodup_keys `{MapOrder} {A} seed (m : gmap string A) : NoDup (range seed m).*1.
Proof. rewrite range_perm. apply NoDup_fst_map_to_list. Qed.

(** The order used to evaluate the development. *)
Definition map_order : MapOrder :=
  {| range A _ m := map_to_list m; range_perm A _ m := reflexivity _ |}.

(** ** Generic lemmas on programs *)

Section ProgLemmas.
Context {S : Type}.
Implicit Types s : S.

Lemma run_bind {A B} (p : prog S A) (k : A → prog S B) s :
  run (pbind p k) s = let '(s', a) := run p s in run (k a) s'.
Proof. revert s. induction p as [a|upd next IH]; intros s; [done|]. apply IH. Qed.

Lemma run_atomically {A} (f : S → S * A) s : run (atomically f) s = f s.
Proof. simpl. by destruct (f s). Qed.

Lemma run_zoom {T A} (get : S → T) (put : T → S → S) (p : prog T A) s :
  (∀ s t, get (put t s) = t) → (∀ s, put (get s) s = s) →
  (∀ s t t', put t' (put t s) = put t' s) →
  run (zoom get put p) s = (put (run p (get s)).1 s, (run p (get s)).2).
Proof.
  intros Hgp Hpg Hpp. revert s. induction p as [a|upd next IH]; intros s; simpl.
  { by rewrite Hpg. }
  rewrite IH, Hgp, Hpp. done.
Qed.

Lemma respects_zoom {T A} (get : S → T) (put : T → S → S) (p : prog T A)
    (I : S → Prop) (R : S → S → Prop) (J : T → Prop) (Q : T → T → Prop) :
  respects J Q p →
  (∀ s, I s → J (get s)) →
  (∀ s t, I s → J t → Q (get s) t → I (put t s) ∧ R s (put t s)) →
  respects I R (zoom get put p).
Proof.
  intros Hp HIJ Hput. induction Hp as [a|upd next HJ HQ Hn IH]; simpl; [constructor|].
  constructor; intros s Hs.
  - by apply Hput; auto.
  - by apply Hput; auto.
  - by apply IH, HIJ.
Qed.

Lemma respects_bind {A B} I R (p : prog S A) (k : A → prog S B) :
  respects I R p → (∀ a, respects I R (k a)) → respects I R (pbind p k).
Proof. intros Hp Hk. induction Hp; simpl; [done|]. constructor; auto. Qed.

Lemma respects_atomically {A} (I : S → Prop) (R : S → S → Prop) (f : S → S * A) :
  (∀ s, I s → I (f s).1 ∧ R s (f s).1) → respects I R (atomically f).
Proof. intros Hf. constructor; intros s Hs; [by apply Hf..|constructor]. Qed.

(** A pool of programs that respect [I] and a preorder [R] keeps [I] and
    moves the state along [R], under every interleaving. *)
Lemma respects_pool {A} I R `{!PreOrder R} (s s' : S) (ps ps' : list (prog S A)) :
  rtc pstep (s, ps) (s', ps') →
  I s → Forall (respects I R) ps →
  I s' ∧ R s s' ∧ Forall (respects I R) ps'.
Proof.
  intros Hsteps. remember (s, ps) as c eqn:Hc. remember (s', ps') as c' eqn:Hc'.
  revert s ps Hc Hc'. induction Hsteps as [c|c c1 c' Hstep _ IH]; intros s ps -> Hc'.
  { by simplify_eq. }
  inversion Hstep as [? ? i upd next Hi]; subst. intros HI Hps.
  assert (respects I R (Atom upd next)) as Hat by (by eapply Forall_lookup_1 in Hps).
  inversion Hat; subst.
  destruct (IH (upd s) (<[i := next s]> ps)) as (HI' & HR & Hps'); [done..|auto| |].
  { apply Forall_insert; auto. }
  split_and!; [done| |done]. etrans; [|exact HR]. auto.
Qed.

Lemma sched_steps {A} order (s : S) (ps : list (prog S A)) :
  rtc pstep (s, ps) (sched order s ps).
Proof.
  revert s ps. induction order as [|i order IH]; intros s ps; simpl; [done|].
  destruct (ps !! i) as [[a|upd next]|] eqn:Hi; [apply IH| |apply IH].
  eapply rtc_l; [by constructor|apply IH].
Qed.

(** Running one program of a pool to its end is a schedule. *)
Lemma sched_run {A} (p : prog S A) i s (ps : list (prog S A)) :
  ps !! i = Some p →
  ∃ order, sched order s ps = ((run p s).1, <[i := Ret (run p s).2]> ps).
Proof.
  revert s ps. induction p as [a|upd next IH]; intros s ps Hi.
  { exists []. simpl. by rewrite list_insert_id. }
  destruct (IH s (upd s) (<[i := next s]> ps)) as [order Ho].
  { apply list_lookup_insert_eq. by eapply lookup_lt_Some. }
  exists (i :: order). cbn [sched run]. rewrite Hi, Ho. by rewrite list_insert_insert_eq.
Qed.

Lemma sched_app {A} order order' s (ps : list (prog S A)) :
  sched (order ++ order') s ps = let '(s', ps') := sched order s ps in sched order' s' ps'.
Proof.
  revert s ps. induction order as [|i order IH]; intros s ps; [done|]. simpl.
  destruct (ps !! i) as [[]|]; apply IH.
Qed.

(** The sequential run is one of the interleavings. *)
Lemma respects_run {A} I R `{!PreOrder R} (p : prog S A) s :
  respects I R p → I s → I (run p s).1 ∧ R s (run p s).1.
Proof.
  intros Hp. revert s. induction Hp as [a|upd next HI HR Hn IH]; intros s Hs; simpl.
  { by split. }
  destruct (IH s Hs (upd s)) as [? ?]; [auto|]. split; [done|].
  etrans; [|done]. auto.
Qed.
End ProgLemmas.

#[export] Hint Resolve respects_bind respects_atomically : go.

(** Linear arithmetic with division and remainder by constants. *)
Ltac div_lia := zify; Z.to_euclidean_division_equations; lia.

(** Symbolic execution of a handler: push [run] through the sequencing and
    evaluate each atomic region. *)
Ltac run_step :=
  match goal with
  | |- context [run (pbind _ _) _] => rewrite run_bind
  | |- context [run (atomically _) _] => rewrite run_atomically
  | |- context [run (Ret _) _] => progress simpl
  end.
Ltac run_simpl := repeat (run_step; simpl).
