(* ===== verification/GoStrings.v ===== *)
(** * GoStrings: the parts of Go's [strings], [strconv] and [encoding/hex]
    packages the sources use.

    A Go string is a sequence of bytes, here a [string] of 8-bit [ascii]
    characters.  The functions are total and executable; the lemmas are the
    ones the other files need (prefix and split laws, trimming). *)
From Stdlib Require Import Ascii String.
From S2P Require Import Prelude.

(** ** Bytes *)

Definition byte (n : nat) : ascii := ascii_of_nat n.
Definition slash : ascii := "/"%char.
Definition newline : ascii := "010"%char.
Definition str1 (c : ascii) : string := String c "".

(** ** Concatenation, prefixes, substrings *)

Fixpoint rev_onto (s acc : string) : string :=
  match s with "" => acc | String c s' => rev_onto s' (String c acc) end.
Definition reverse (s : string) : string := rev_onto s "".

(** strings.HasPrefix *)
Fixpoint has_prefix (p s : string) : bool :=
  match p, s with
  | "", _ => true
  | String a p', String b s' => bool_decide (a = b) && has_prefix p' s'
  | String _ _, "" => false
  end.

Fixpoint drop_str (n : nat) (s : string) : string :=
  match n, s with
  | O, _ => s
  | S n', String _ s' => drop_str n' s'
  | S _, "" => ""
  end.

Fixpoint take_str (n : nat) (s : string) : string :=
  match n, s with
  | O, _ => ""
  | S n', String c s' => String c (take_str n' s')
  | S _, "" => ""
  end.

(** strings.TrimPrefix *)
Definition trim_prefix (p s : string) : string :=
  if has_prefix p s then drop_str (String.length p) s else s.

(** strings.HasSuffix *)
Definition has_suffix (p s : string) : bool := has_prefix (reverse p) (reverse s).

(** strings.Contains *)
Fixpoint contains (sub s : string) : bool :=
  has_prefix sub s || match s with "" => false | String _ s' => contains sub s' end.

(** strings.Split for a separator of one byte: never the empty list. *)
Fixpoint split_on (sep : ascii) (s : string) : list string :=
  match s with
  | "" => [""]
  | String c s' =>
      if decide (c = sep) then "" :: split_on sep s'
      else match split_on sep s' with
           | [] => [str1 c]
           | w :: ws => String c w :: ws
           end
  end.

Definition has_byte (c : ascii) (s : string) : bool :=
  match split_on c s with _ :: _ :: _ => true | _ => false end.

(** strings.TrimRight with a cutset of one byte. *)
Fixpoint trim_left_byte (c : ascii) (s : string) : string :=
  match s with
  | "" => ""
  | String a s' => if decide (a = c) then trim_left_byte c s' else s
  end.
Definition trim_right_byte (c : ascii) (s : string) : string :=
  reverse (trim_left_byte c (reverse s)).

(** ** strings.TrimSpace

    unicode.IsSpace holds of the ASCII blanks, of U+0085 and U+00A0, and of
    U+1680, U+2000-U+200A, U+2028, U+2029, U+202F, U+205F and U+3000.  On the
    bytes of a string these are the one-, two- and three-byte sequences
    below, at the start of the string as they are and at its end reversed. *)

Definition ascii_space (c : ascii) : bool :=
  let n := nat_of_ascii c in bool_decide (n = 32 ∨ (9 ≤ n ∧ n ≤ 13))%nat.

Definition space2 (a b : ascii) : bool :=
  bool_decide (nat_of_ascii a = 194 ∧ (nat_of_ascii b = 133 ∨ nat_of_ascii b = 160))%nat.

Definition space3 (a b c : ascii) : bool :=
  let x := nat_of_ascii a in let y := nat_of_ascii b in let z := nat_of_ascii c in
  bool_decide ((x = 225 ∧ y = 154 ∧ z = 128) ∨
    (x = 226 ∧ y = 128 ∧ ((128 ≤ z ∧ z ≤ 138) ∨ z = 168 ∨ z = 169 ∨ z = 175)) ∨
    (x = 226 ∧ y = 129 ∧ z = 159) ∨ (x = 227 ∧ y = 128 ∧ z = 128))%nat.

(** [flip] is false at the left end; at the right end the string is reversed
    and so are the byte sequences. *)
Fixpoint trim_spaces (flip : bool) (s : string) : string :=
  match s with
  | "" => ""
  | String a s1 =>
      if ascii_space a then trim_spaces flip s1
      else match s1 with
           | "" => s
           | String b s2 =>
               if (if flip then space2 b a else space2 a b) then trim_spaces flip s2
               else match s2 with
                    | "" => s
                    | String c s3 =>
                        if (if flip then space3 c b a else space3 a b c)
                        then trim_spaces flip s3 else s
                    end
           end
  end.

Definition trim_space (s : string) : string :=
  reverse (trim_spaces true (reverse (trim_spaces false s))).

(** ** Letter case

    [lower_ascii] is unicode.ToLower on ASCII.  strings.EqualFold is used by
    the sources with an ASCII letter string none of whose letters folds to a
    rune outside ASCII, where it is the comparison below. *)

Definition lower_byte (c : ascii) : ascii :=
  let n := nat_of_ascii c in
  if bool_decide (65 ≤ n ∧ n ≤ 90)%nat then byte (n + 32) else c.

Fixpoint map_bytes (f : ascii → ascii) (s : string) : string :=
  match s with "" => "" | String c s' => String (f c) (map_bytes f s') end.

Definition lower_ascii : string → string := map_bytes lower_byte.

Definition equal_fold_ascii (s t : string) : bool :=
  bool_decide (lower_ascii s = lower_ascii t).

Fixpoint all_bytes (f : ascii → bool) (s : string) : bool :=
  match s with "" => true | String c s' => f c && all_bytes f s' end.

Definition is_ascii_byte (c : ascii) : bool := bool_decide (nat_of_ascii c < 128)%nat.

(** strings.ToLower: the fast path of the library on ASCII strings, and
    unicode's case table, a parameter, on the others. *)
Definition to_lower (unicode_lower : string → string) (s : string) : string :=
  if all_bytes is_ascii_byte s then lower_ascii s else unicode_lower s.

(** ** strconv.Itoa and the verb %d *)

Definition digit (n : Z) : ascii := byte (48 + Z.to_nat n).

Fixpoint digits_fuel (fuel : nat) (n : Z) (acc : string) : string :=
  match fuel with
  | O => acc
  | S fuel' =>
      let acc' := String (digit (n mod 10)%Z) acc in
      if bool_decide (n < 10)%Z then acc' else digits_fuel fuel' (n / 10)%Z acc'
  end.

(** A number needs no more decimal digits than its binary length plus one. *)
Definition itoa (n : Z) : string :=
  let m := Z.abs n in
  let ds := digits_fuel (S (Z.to_nat (Z.log2 m))) m "" in
  if bool_decide (n < 0)%Z then "-" +:+ ds else ds.

(** ** encoding/hex *)

Definition hex_digit (n : nat) : ascii :=
  if bool_decide (n < 10)%nat then byte (48 + n) else byte (87 + n).

Fixpoint hex_encode (s : string) : string :=
  match s with
  | "" => ""
  | String c s' =>
      let n := nat_of_ascii c in
      String (hex_digit (n / 16)) (String (hex_digit (n mod 16)) (hex_encode s'))
  end.

(** strings.Join *)
Fixpoint join (sep : string) (l : list string) : string :=
  match l with
  | [] => ""
  | [w] => w
  | w :: l' => w +:+ sep +:+ join sep l'
  end.

(** ** Lemmas *)

Lemma append_cons c s t : String c s +:+ t = String c (s +:+ t).
Proof. done. Qed.

Lemma append_nil_r s : s +:+ "" = s.
Proof. induction s as [|c s IH]; [done|]. by rewrite append_cons, IH. Qed.

Lemma append_assoc s t u : (s +:+ t) +:+ u = s +:+ (t +:+ u).
Proof. induction s as [|c s IH]; [done|]. by rewrite !append_cons, IH. Qed.

Lemma length_append s t : String.length (s +:+ t) = String.length s + String.length t.
Proof. induction s as [|c s IH]; [done|]. rewrite append_cons. simpl. by rewrite IH. Qed.

Lemma has_prefix_app p s : has_prefix p (p +:+ s) = true.
Proof.
  induction p as [|c p IH]; [by destruct s|]. rewrite append_cons. simpl.
  by rewrite bool_decide_true, IH.
Qed.

Lemma has_prefix_refl s : has_prefix s s = true.
Proof. rewrite <-(append_nil_r s) at 2. apply has_prefix_app. Qed.

Lemma drop_str_app p s : drop_str (String.length p) (p +:+ s) = s.
Proof. induction p as [|c p IH]; [done|]. rewrite append_cons. apply IH. Qed.

Lemma trim_prefix_app p s : trim_prefix p (p +:+ s) = s.
Proof. unfold trim_prefix. by rewrite has_prefix_app, drop_str_app. Qed.

Lemma has_prefix_true p s : has_prefix p s = true → ∃ t, s = p +:+ t.
Proof.
  revert s. induction p as [|c p IH]; intros s; [by exists s|].
  destruct s as [|d s]; [done|]. simpl. intros [->%bool_decide_eq_true Hp]%andb_true_iff.
  destruct (IH s Hp) as [t ->]. by exists t.
Qed.

Lemma split_on_cons sep c s :
  c ≠ sep → ∃ w ws, split_on sep s = w :: ws ∧ split_on sep (String c s) = String c w :: ws.
Proof.
  intros Hc. simpl. rewrite decide_False by done.
  destruct (split_on sep s) as [|w ws] eqn:Hs; [|by exists w, ws].
  exfalso. destruct s as [|d s]; [done|]. simpl in Hs. case_decide; [done|].
  by destruct (split_on sep s).
Qed.

Lemma split_on_not_nil sep s : split_on sep s ≠ [].
Proof.
  destruct s as [|c s]; [done|]. simpl. case_decide; [done|]. by destruct (split_on sep s).
Qed.

(** A word without the separator, followed by the separator, is the first
    element of the split. *)
Lemma split_on_app sep w s :
  has_byte sep w = false →
  split_on sep (w +:+ String sep s) = w :: split_on sep s.
Proof.
  unfold has_byte. induction w as [|c w IH]; intros Hw.
  { simpl. by rewrite decide_True. }
  destruct (decide (c = sep)) as [->|Hc].
  { simpl in Hw. rewrite decide_True in Hw by done.
    pose proof (split_on_not_nil sep w). by destruct (split_on sep w). }
  destruct (split_on_cons sep c w Hc) as (v & vs & Hv & Hcv).
  rewrite Hcv in Hw. rewrite append_cons. simpl. rewrite decide_False by done.
  rewrite IH; [done|]. by rewrite Hv.
Qed.

Lemma split_on_app_sep sep w s : split_on sep (w +:+ String sep s) = split_on sep w ++ split_on sep s.
Proof.
  assert (∀ t, split_on sep (String sep t) = "" :: split_on sep t) as Hsep
    by (intros t; cbn [split_on]; by rewrite decide_True).
  induction w as [|c w IH]; [apply Hsep|]. rewrite append_cons.
  destruct (decide (c = sep)) as [->|Hc]; [by rewrite !Hsep, IH|].
  destruct (split_on_cons sep c w Hc) as (v & vs & Hv & ->).
  destruct (split_on_cons sep c (w +:+ String sep s) Hc) as (v' & vs' & Hv' & ->).
  rewrite IH, Hv in Hv'. by simplify_eq/=.
Qed.

Lemma split_on_single sep w : has_byte sep w = false → split_on sep w = [w].
Proof.
  unfold has_byte. induction w as [|c w IH]; intros Hw; [done|].
  destruct (decide (c = sep)) as [->|Hc].
  { simpl in Hw. rewrite decide_True in Hw by done.
    pose proof (split_on_not_nil sep w). by destruct (split_on sep w). }
  destruct (split_on_cons sep c w Hc) as (v & vs & Hv & Hcv). rewrite Hcv in Hw |- *.
  rewrite IH in Hv by (by rewrite Hv). by simplify_eq.
Qed.

Lemma join_cons sep w l : l ≠ [] → join sep (w :: l) = w +:+ sep +:+ join sep l.
Proof. by destruct l. Qed.

(** Splitting then joining with the separator is the identity. *)
Lemma join_split_on sep s : join (str1 sep) (split_on sep s) = s.
Proof.
  induction s as [|c s IH]; [done|]. destruct (decide (c = sep)) as [->|Hc].
  { simpl. rewrite decide_True by done. rewrite join_cons by apply split_on_not_nil.
    by rewrite IH. }
  destruct (split_on_cons sep c s Hc) as (w & ws & Hs & ->). rewrite Hs in IH.
  destruct ws as [|v ws]; [by simplify_eq/=|].
  rewrite join_cons in IH |- * by done. by rewrite append_cons, IH.
Qed.

(** Every element of a split is free of the separator. *)
Lemma split_on_no_sep sep s : Forall (λ w, has_byte sep w = false) (split_on sep s).
Proof.
  induction s as [|c s IH]; [by repeat constructor|].
  destruct (decide (c = sep)) as [->|Hc].
  { simpl. rewrite decide_True by done. by constructor. }
  destruct (split_on_cons sep c s Hc) as (w & ws & Hs & ->). rewrite Hs in IH.
  inversion IH as [|? ? Hw Hws]; subst. constructor; [|done].
  unfold has_byte. destruct (split_on_cons sep c w Hc) as (v & vs & Hv & ->).
  rewrite (split_on_single _ _ Hw) in Hv. by simplify_eq.
Qed.

Lemma append_inj_l p s t : p +:+ s = p +:+ t → s = t.
Proof. induction p as [|c p IH]; [done|]. rewrite !append_cons. intros [=]. auto. Qed.

Lemma all_bytes_app f s t : all_bytes f (s +:+ t) = all_bytes f s && all_bytes f t.
Proof. induction s as [|c s IH]; [done|]. rewrite append_cons. simpl. by rewrite IH, andb_assoc. Qed.

Lemma rev_onto_app s acc : rev_onto s acc = rev_onto s "" +:+ acc.
Proof.
  revert acc. induction s as [|c s IH]; intros acc; [done|]. cbn [rev_onto].
  rewrite IH, (IH (String c "")), append_assoc. done.
Qed.

Lemma reverse_cons c s : reverse (String c s) = reverse s +:+ str1 c.
Proof. unfold reverse. cbn [rev_onto]. by rewrite rev_onto_app. Qed.

Lemma reverse_app s t : reverse (s +:+ t) = reverse t +:+ reverse s.
Proof.
  induction s as [|c s IH]; [by rewrite append_nil_r|].
  by rewrite append_cons, !reverse_cons, IH, append_assoc.
Qed.

Lemma reverse_reverse s : reverse (reverse s) = s.
Proof. induction s as [|c s IH]; [done|]. by rewrite reverse_cons, reverse_app, IH. Qed.

Lemma all_bytes_reverse f s : all_bytes f (reverse s) = all_bytes f s.
Proof.
  induction s as [|c s IH]; [done|]. rewrite reverse_cons, all_bytes_app, IH. simpl.
  by rewrite andb_true_r, andb_comm.
Qed.

(** The visible ASCII characters: text of these is left alone by TrimSpace. *)
Definition graphic (c : ascii) : bool := bool_decide (33 ≤ nat_of_ascii c ∧ nat_of_ascii c ≤ 126)%nat.

Lemma trim_spaces_graphic flip s : all_bytes graphic s = true → trim_spaces flip s = s.
Proof.
  destruct s as [|a [|b s]]; [done|..]; cbn [all_bytes trim_spaces]; rewrite !andb_true_iff;
    unfold graphic; rewrite !bool_decide_eq_true.
  - intros [Ha _]. unfold ascii_space. by rewrite bool_decide_false by lia.
  - intros (Ha & Hb & Hs). unfold ascii_space. rewrite bool_decide_false by lia.
    assert ((if flip then space2 b a else space2 a b) = false) as ->.
    { unfold space2. destruct flip; by rewrite bool_decide_false by lia. }
    destruct s as [|c s]; [done|]. cbn [all_bytes] in Hs. rewrite andb_true_iff, bool_decide_eq_true in Hs.
    assert ((if flip then space3 c b a else space3 a b c) = false) as ->; [|done].
    unfold space3. destruct flip; by rewrite bool_decide_false by lia.
Qed.

Lemma trim_space_graphic s : all_bytes graphic s = true → trim_space s = s.
Proof.
  intros Hs. unfold trim_space. rewrite (trim_spaces_graphic false) by done.
  rewrite trim_spaces_graphic by (by rewrite all_bytes_reverse). apply reverse_reverse.
Qed.

#[export] Hint Rewrite append_assoc append_nil_r trim_prefix_app has_prefix_app : gostr.

#[global] Arguments trim_space : simpl never.

(** Lines of text; fmt's %t. *)
Definition lines (l : list string) : string := join "" ((λ x, x +:+ str1 newline) <$> l).
Definition bool_text (b : bool) : string := if b then "true" else "false".

(** ** Cutting a text at a byte *)

(** What is before the first [c], and what follows it and one more byte. *)
Fixpoint cut_at (c : ascii) (s : string) : string * string :=
  match s with
  | "" => ("", "")
  | String d s' => if decide (d = c) then ("", drop_str 1 s') else let '(l, r) := cut_at c s' in (String d l, r)
  end.

Definition without (c : ascii) : string → bool := all_bytes (λ d, bool_decide (d ≠ c)).
Lemma cut_at_app c l d r : without c l = true → cut_at c (l +:+ String c (String d r)) = (l, r).
Proof.
  unfold without. induction l as [|x l IH]; cbn [all_bytes].
  { intros _. change ("" +:+ ?s) with s. cbn [cut_at]. by rewrite decide_True. }
  rewrite andb_true_iff, bool_decide_eq_true, append_cons. intros [Hx Hl]. cbn [cut_at].
  rewrite decide_False by done. by rewrite IH.
Qed.
Lemma cut_at_end c l : without c l = true → cut_at c (l +:+ str1 c) = (l, "").
Proof.
  unfold without. induction l as [|x l IH]; cbn [all_bytes].
  { intros _. change ("" +:+ ?s) with s. cbn [cut_at str1]. by rewrite decide_True. }
  rewrite andb_true_iff, bool_decide_eq_true, append_cons. intros [Hx Hl]. cbn [cut_at].
  rewrite decide_False by done. by rewrite IH.
Qed.
Lemma byte_lt (c : ascii) : nat_of_ascii c < 256.
Proof. apply nat_ascii_bounded. Qed.
Lemma has_byte_without_eq c s : has_byte c s = negb (without c s).
Proof.
  unfold without, has_byte. induction s as [|x s IH]; [done|]. cbn [all_bytes].
  destruct (decide (x = c)) as [->|Hx].
  - rewrite bool_decide_false by (intros Hn; by apply Hn). cbn [split_on]. rewrite decide_True by done.
    pose proof (split_on_not_nil c s). by destruct (split_on c s).
  - rewrite bool_decide_true by done. cbn [andb]. destruct (split_on_cons c x s Hx) as (w & ws & Hw & ->).
    rewrite <-IH, Hw. by destruct ws.
Qed.
Lemma has_byte_without c s : without c s = true → has_byte c s = false.
Proof.
  unfold without, has_byte. induction s as [|x s IH]; cbn [all_bytes]; [done|].
  rewrite andb_true_iff, bool_decide_eq_true. intros [Hx Hs]. specialize (IH Hs).
  destruct (split_on_cons c x s Hx) as (w & ws & Hw & ->). rewrite Hw in IH. by destruct ws.
Qed.
Lemma all_bytes_impl f g s : (∀ c, f c = true → g c = true) → all_bytes f s = true → all_bytes g s = true.
Proof. intros Hfg. induction s as [|c s IH]; [done|]. cbn [all_bytes]. rewrite !andb_true_iff. naive_solver. Qed.

#[global] Arguments split_on : simpl never.
#[global] Arguments has_prefix : simpl never.
#[global] Arguments trim_prefix : simpl never.
