(* ===== verification/Json.v ===== *)
(** * Json: encoding/json at the level of documents.

    A document is a tree; the library's scanner and printer (text to tree and
    back) and the RFC 3339 text of a [time.Time] are the two interfaces
    [JsonText] and [TimeText].  What the library does with a tree is defined
    here: how a struct, a string, an integer, a bool, a list or a time is
    filled from a tree, with the library's rules (object keys match field
    names without regard to case, unknown keys are skipped, [null] leaves the
    field, a value of the wrong kind is an error that does not stop the
    decoding of the other fields). *)
From Stdlib Require Import Ascii String.
From S2P Require Import Prelude GoStrings.

(** ** Documents *)

(** Object fields keep the order of the text and may repeat.  [JInt] is a
    number literal without fraction and exponent, [JDec m e] is the literal
    of [m * 10^e]. *)
Inductive json : Type :=
  | JNull
  | JBool (b : bool)
  | JInt (z : Z)
  | JDec (m e : Z)
  | JStr (s : string)
  | JArr (l : list json)
  | JObj (fields : list (string * json)).

(** Induction that reaches through the nested lists. *)
Section json_ind.
Variable P : json → Prop.
Hypothesis Pnull : P JNull.
Hypothesis Pbool : ∀ b, P (JBool b).
Hypothesis Pint : ∀ z, P (JInt z).
Hypothesis Pdec : ∀ m e, P (JDec m e).
Hypothesis Pstr : ∀ s, P (JStr s).
Hypothesis Parr : ∀ l, Forall P l → P (JArr l).
Hypothesis Pobj : ∀ fs, Forall (λ kv, P kv.2) fs → P (JObj fs).

Fixpoint json_ind' (j : json) : P j :=
  match j with
  | JNull => Pnull
  | JBool b => Pbool b
  | JInt z => Pint z
  | JDec m e => Pdec m e
  | JStr s => Pstr s
  | JArr l =>
      Parr l ((fix go l : Forall P l :=
        match l with [] => Forall_nil_2 _ | j :: l' => Forall_cons_2 _ _ _ (json_ind' j) (go l') end) l)
  | JObj fs =>
      Pobj fs ((fix go fs : Forall (λ kv, P kv.2) fs :=
        match fs with
        | [] => Forall_nil_2 _
        | kv :: fs' => Forall_cons_2 _ _ _ (json_ind' kv.2) (go fs')
        end) fs)
  end.
End json_ind.

(** ** UTF-8 validity (unicode/utf8.ValidString)

    The encoder replaces invalid bytes, so a string survives encoding exactly
    when it is valid UTF-8. *)

Definition in_range (lo hi : nat) (c : ascii) : bool :=
  bool_decide (lo ≤ nat_of_ascii c ∧ nat_of_ascii c ≤ hi)%nat.
Definition cont : ascii → bool := in_range 128 191.

Fixpoint utf8_ok (s : string) : bool :=
  match s with
  | "" => true
  | String a s1 =>
      if in_range 0 127 a then utf8_ok s1
      else match s1 with
      | "" => false
      | String b s2 =>
          if in_range 194 223 a && cont b then utf8_ok s2
          else match s2 with
          | "" => false
          | String c s3 =>
              if (in_range 224 224 a && in_range 160 191 b
                  || in_range 225 236 a && cont b
                  || in_range 237 237 a && in_range 128 159 b
                  || in_range 238 239 a && cont b) && cont c then utf8_ok s3
              else match s3 with
              | "" => false
              | String d s4 =>
                  if (in_range 240 240 a && in_range 144 191 b
                      || in_range 241 243 a && cont b
                      || in_range 244 244 a && in_range 128 143 b) && cont c && cont d
                  then utf8_ok s4 else false
              end
          end
      end
  end.

Fixpoint json_utf8 (j : json) : bool :=
  match j with
  | JStr s => utf8_ok s
  | JArr l => forallb json_utf8 l
  | JObj fs => forallb (λ kv, utf8_ok kv.1 && json_utf8 kv.2) fs
  | _ => true
  end.

Lemma utf8_graphic s : all_bytes graphic s = true → utf8_ok s = true.
Proof.
  induction s as [|c s IH]; [done|]. cbn [all_bytes utf8_ok]. unfold graphic at 1.
  intros [Hc%bool_decide_eq_true Hs]%andb_true_iff. unfold in_range at 1.
  rewrite bool_decide_true by lia. by apply IH.
Qed.

(** ** The text level *)

(** json.Marshal of a tree, the scanner json.Unmarshal runs first, which wants
    one document and nothing else, and the first document of a text, which is
    what Decoder.Decode reads. *)
Class JsonText := {
  json_print : json → string;
  json_parse : string → option json;
  json_first : string → option json;
  json_parse_print j : json_utf8 j = true → json_parse (json_print j) = Some j;
  (** trailing white space is skipped *)
  json_parse_newline s : json_parse (s +:+ str1 newline) = json_parse s;
  json_first_parse s j : json_parse s = Some j → json_first s = Some j
}.

(** Time.MarshalJSON and Time.UnmarshalJSON: times are nanoseconds since the
    Unix epoch, the text is RFC 3339, for the years the format can write. *)
Class TimeText := {
  time_ok : Z → bool;
  time_print : Z → string;
  time_parse : string → option Z;
  time_print_utf8 t : utf8_ok (time_print t) = true;
  time_parse_print t : time_ok t = true → time_parse (time_print t) = Some t
}.

(** ** Filling Go values from a tree

    A decoder takes the value the variable holds and returns the new one with
    a flag: false is an UnmarshalTypeError, reported at the end. *)

Definition decoder (A : Type) : Type := json → A → A * bool.

Definition dec_string : decoder string := λ j old,
  match j with JNull => (old, true) | JStr s => (s, true) | _ => (old, false) end.

Definition dec_bool : decoder bool := λ j old,
  match j with JNull => (old, true) | JBool b => (b, true) | _ => (old, false) end.

(** An integer field of [bits] bits; out of range is an error. *)
Definition dec_uint (bits : Z) : decoder Z := λ j old,
  match j with
  | JNull => (old, true)
  | JInt z => if bool_decide (0 ≤ z < 2 ^ bits)%Z then (z, true) else (old, false)
  | _ => (old, false)
  end.

Definition dec_int (bits : Z) : decoder Z := λ j old,
  match j with
  | JNull => (old, true)
  | JInt z =>
      if bool_decide (- 2 ^ (bits - 1) ≤ z < 2 ^ (bits - 1))%Z then (z, true) else (old, false)
  | _ => (old, false)
  end.

Definition dec_time `{TimeText} : decoder Z := λ j old,
  match j with
  | JNull => (old, true)
  | JStr s => match time_parse s with Some t => (t, true) | None => (old, false) end
  | _ => (old, false)
  end.

(** A slice field: each element is decoded into a zero value. *)
Fixpoint dec_elems {A} (dec : decoder A) (zero : A) (l : list json) : list A * bool :=
  match l with
  | [] => ([], true)
  | j :: l' =>
      let '(x, ok) := dec j zero in
      let '(xs, oks) := dec_elems dec zero l' in (x :: xs, ok && oks)
  end.
Definition dec_list {A} (dec : decoder A) (zero : A) : decoder (list A) := λ j old,
  match j with
  | JNull => ([], true)
  | JArr l => dec_elems dec zero l
  | _ => (old, false)
  end.

(** Case folding of field names: ASCII upper case, and the two runes outside
    ASCII that fold to an ASCII letter (U+017F to S, U+212A to K). *)
Definition upper_byte (c : ascii) : ascii :=
  let n := nat_of_ascii c in
  if bool_decide (97 ≤ n ∧ n ≤ 122)%nat then byte (n - 32) else c.
Fixpoint fold_name (s : string) : string :=
  match s with
  | "" => ""
  | String a s1 =>
      match s1 with
      | "" => String (upper_byte a) ""
      | String b s2 =>
          if bool_decide (nat_of_ascii a = 197 ∧ nat_of_ascii b = 191)%nat
          then String "S"%char (fold_name s2)
          else match s2 with
          | String c s3 =>
              if bool_decide (nat_of_ascii a = 226 ∧ nat_of_ascii b = 132 ∧ nat_of_ascii c = 170)%nat
              then String "K"%char (fold_name s3)
              else String (upper_byte a) (fold_name s1)
          | "" => String (upper_byte a) (fold_name s1)
          end
      end
  end.
Definition key_is (name k : string) : bool := bool_decide (fold_name k = fold_name name).

(** A struct is filled field by field in the order of the text; [step] is
    the effect of one key. *)
Fixpoint dec_fields {A} (step : string → json → A → A * bool) (fs : list (string * json))
    (old : A) : A * bool :=
  match fs with
  | [] => (old, true)
  | (k, v) :: fs' =>
      let '(x, ok) := step k v old in
      let '(y, oks) := dec_fields step fs' x in (y, ok && oks)
  end.
Definition dec_struct {A} (step : string → json → A → A * bool) : decoder A := λ j old,
  match j with
  | JNull => (old, true)
  | JObj fs => dec_fields step fs old
  | _ => (old, false)
  end.

(** Decoding a field in place: [get] and [set] are the struct's accessors. *)
Definition in_field {A B} (set : B → A → A) (get : A → B) (dec : decoder B) (v : json)
    (old : A) : A * bool :=
  let '(x, ok) := dec v (get old) in (set x old, ok).

(** json.Unmarshal of a text into a variable. *)
Definition unmarshal `{JsonText} {A} (dec : decoder A) (text : string) (old : A) : A * bool :=
  match json_parse text with Some j => dec j old | None => (old, false) end.

(** json.NewDecoder(r).Decode: what follows the first document is not read. *)
Definition decode_first `{JsonText} {A} (dec : decoder A) (text : string) (old : A) : A * bool :=
  match json_first text with Some j => dec j old | None => (old, false) end.

(** ** Lemmas *)

Lemma json_first_print `{JsonText} j : json_utf8 j = true → json_first (json_print j) = Some j.
Proof. intros Hj. by apply json_first_parse, json_parse_print. Qed.

Lemma unmarshal_print `{JsonText} {A} (dec : decoder A) j old :
  json_utf8 j = true → unmarshal dec (json_print j) old = dec j old.
Proof. intros Hj. unfold unmarshal. by rewrite json_parse_print. Qed.

Lemma dec_string_str s old : dec_string (JStr s) old = (s, true).
Proof. done. Qed.
Lemma dec_bool_bool b old : dec_bool (JBool b) old = (b, true).
Proof. done. Qed.
Lemma dec_int_int bits z old :
  (- 2 ^ (bits - 1) ≤ z < 2 ^ (bits - 1))%Z → dec_int bits (JInt z) old = (z, true).
Proof. intros Hz. simpl. by rewrite bool_decide_true. Qed.
Lemma dec_uint_int bits z old :
  (0 ≤ z < 2 ^ bits)%Z → dec_uint bits (JInt z) old = (z, true).
Proof. intros Hz. simpl. by rewrite bool_decide_true. Qed.
Lemma dec_time_print `{TimeText} t old :
  time_ok t = true → dec_time (JStr (time_print t)) old = (t, true).
Proof. intros Ht. simpl. by rewrite time_parse_print. Qed.

#[global] Arguments dec_uint : simpl never.
#[global] Arguments dec_int : simpl never.
#[global] Arguments dec_time : simpl never.
#[global] Arguments key_is : simpl never.
#[global] Arguments utf8_ok : simpl never.

(** Evaluate the comparison of a literal key with a literal field name, then
    run the decoder over a literal object. *)
Ltac decode_keys :=
  repeat match goal with
  | |- context [key_is ?a ?b] =>
      let v := eval vm_compute in (key_is a b) in
      first [constr_eq v true | constr_eq v false];
      change (key_is a b) with v
  end.
Ltac decode_obj :=
  unfold dec_struct, dec_fields, in_field; decode_keys; simpl;
  repeat first
    [ rewrite dec_uint_int by (lia || done)
    | rewrite dec_int_int by (lia || done)
    | rewrite dec_time_print by done
    | progress simpl ].

(** Lists of encoded elements decode to the elements. *)
Lemma dec_list_map {A} (enc : A → json) (dec : decoder A) zero (l : list A) old :
  Forall (λ x, dec (enc x) zero = (x, true)) l →
  dec_list dec zero (JArr (enc <$> l)) old = (l, true).
Proof.
  unfold dec_list. induction 1 as [|x l Hx _ IH]; [done|].
  rewrite fmap_cons. cbn [dec_elems]. by rewrite Hx, IH.
Qed.

(** A slice of strings. *)
Definition strings (l : list string) : json := JArr (JStr <$> l).

Lemma strings_utf8 l : forallb utf8_ok l = true → json_utf8 (strings l) = true.
Proof.
  unfold strings. cbn [json_utf8]. induction l as [|x l IH]; [done|].
  rewrite fmap_cons. simpl. intros [-> Hl]%andb_true_iff. by apply IH.
Qed.

Lemma dec_strings l : dec_elems dec_string "" (JStr <$> l) = (l, true).
Proof. apply (dec_list_map JStr dec_string "" l []). by apply Forall_true. Qed.

(** ** Instances used to evaluate the development

    They are not the library's formats: any pair of functions with the laws
    will do to run the definitions on concrete inputs. *)

Module Codec.
Fixpoint to_tree (j : json) : gen_tree (bool + Z + string) :=
  match j with
  | JNull => GenNode 0 []
  | JBool b => GenLeaf (inl (inl b))
  | JInt z => GenLeaf (inl (inr z))
  | JDec m e => GenNode 1 [GenLeaf (inl (inr m)); GenLeaf (inl (inr e))]
  | JStr s => GenLeaf (inr s)
  | JArr l => GenNode 2 (to_tree <$> l)
  | JObj fs => GenNode 3 ((λ kv, GenNode 4 [GenLeaf (inr kv.1); to_tree kv.2]) <$> fs)
  end.

Fixpoint of_tree (t : gen_tree (bool + Z + string)) : json :=
  match t with
  | GenLeaf (inl (inl b)) => JBool b
  | GenLeaf (inl (inr z)) => JInt z
  | GenLeaf (inr s) => JStr s
  | GenNode 1 [GenLeaf (inl (inr m)); GenLeaf (inl (inr e))] => JDec m e
  | GenNode 2 l => JArr (of_tree <$> l)
  | GenNode 3 l =>
      JObj ((λ t, match t with
                  | GenNode _ [GenLeaf (inr k); t'] => (k, of_tree t')
                  | _ => ("", JNull)
                  end) <$> l)
  | GenNode _ _ => JNull
  end.

Lemma of_to_tree j : of_tree (to_tree j) = j.
Proof.
  induction j as [|b|z|m e|s|l IH|fs IH] using json_ind'; simpl; [done..| |].
  - f_equal. rewrite <-list_fmap_compose. rewrite <-(list_fmap_id l) at 2.
    by apply Forall_fmap_ext_1.
  - f_equal. induction IH as [|[k v] fs Hv _ IHfs]; [done|]. simpl in *.
    f_equal; [by rewrite Hv|exact IHfs].
Qed.

Fixpoint bits (p : positive) : string :=
  match p with
  | xH => ""
  | xO p => String "0"%char (bits p)
  | xI p => String "1"%char (bits p)
  end.
Fixpoint of_bits (s : string) : positive :=
  match s with
  | "" => xH
  | String c s =>
      if decide (c = newline) then of_bits s
      else if decide (c = "1"%char) then xI (of_bits s) else xO (of_bits s)
  end.
Lemma of_bits_bits p : of_bits (bits p) = p.
Proof. induction p; simpl; congruence. Qed.
Lemma of_bits_newline s : of_bits (s +:+ str1 newline) = of_bits s.
Proof. induction s as [|c s IH]; [done|]. rewrite append_cons. cbn [of_bits]. by rewrite IH. Qed.
Lemma bits_utf8 p : utf8_ok (bits p) = true.
Proof. induction p; simpl; done. Qed.

#[export, refine] Instance json_text : JsonText := {
  json_print j := bits (encode (to_tree j));
  json_parse s := of_tree <$> decode (of_bits s);
  json_first s := of_tree <$> decode (of_bits s);
  json_parse_print := _; json_parse_newline := _; json_first_parse := _
}.
Proof.
  - intros j _. rewrite of_bits_bits, decode_encode. simpl. by rewrite of_to_tree.
  - intros s. f_equal. f_equal. apply of_bits_newline.
  - done.
Defined.

#[export, refine] Instance time_text : TimeText := {
  time_ok _ := true;
  time_print t := bits (encode t);
  time_parse s := decode (of_bits s);
  time_print_utf8 := _;
  time_parse_print := _
}.
Proof.
  - intros t. apply bits_utf8.
  - intros t _. by rewrite of_bits_bits, decode_encode.
Defined.
End Codec.
