(* ===== verification/Log.v ===== *)
(** * Log: the logger (pkg/log).

    A logger has a level, which is a set of bits, a name and a printer; what
    is printed is appended to the standard output.  fmt.Sprintf of a format
    and its arguments, and time.Now formatted by a layout, are arguments.
    Panicf and Fatalf do not return. *)
From Stdlib Require Import Ascii String.
From S2P Require Import Prelude GoStrings Json.

(** ** Runes, as fmt counts them
    An invalid byte is a rune of its own. *)
Fixpoint runes (s : string) : list string :=
  match s with
  | "" => []
  | String a s1 =>
      let one := str1 a :: runes s1 in
      match s1 with
      | "" => one
      | String b s2 =>
          if in_range 194 223 a && cont b then String a (str1 b) :: runes s2
          else match s2 with
          | "" => one
          | String c s3 =>
              if (in_range 224 224 a && in_range 160 191 b
                  || in_range 225 236 a && cont b
                  || in_range 237 237 a && in_range 128 159 b
                  || in_range 238 239 a && cont b) && cont c
              then String a (String b (str1 c)) :: runes s3
              else match s3 with
              | "" => one
              | String d s4 =>
                  if (in_range 240 240 a && in_range 144 191 b
                      || in_range 241 243 a && cont b
                      || in_range 244 244 a && in_range 128 143 b) && cont c && cont d
                  then String a (String b (String c (str1 d))) :: runes s4 else one
              end
          end
      end
  end.

(** The verb %-n.ns: at most [n] runes, filled up with blanks. *)
Definition column (n : nat) (s : string) : string :=
  let rs := take n (runes s) in join "" (rs ++ replicate (n - length rs) " ").

(** ** Levels and colours (log.go, printers.go) *)

Definition LogError : Z := 1.
Definition LogWarn : Z := 2.
Definition LogEvent : Z := 4.
Definition LogInfo : Z := 8.
Definition LogHighlight : Z := 16.
Definition LogPrint : Z := 32.
Definition LogDebug : Z := 64.
Definition LogNormal : Z := foldl Z.lor 0%Z [LogError; LogWarn; LogEvent; LogInfo; LogHighlight; LogPrint].
Definition LogAll : Z := foldl Z.lor 0%Z [LogError; LogWarn; LogEvent; LogInfo; LogHighlight; LogPrint; LogDebug].

Definition escape (code : string) : string := String "027" ("[" +:+ code +:+ "m").
Definition ColorReset : string := escape "0".
Definition ColorRed : string := escape "31".
Definition ColorGreen : string := escape "32".
Definition ColorYellow : string := escape "33".
Definition ColorCyan : string := escape "36".
Definition ColorGray : string := escape "2;37".

Definition colorMap : list (Z * string) := [
  (LogError, ColorRed); (LogWarn, ColorYellow); (LogEvent, ColorCyan); (LogInfo, ColorReset);
  (LogHighlight, ColorGreen); (LogPrint, ColorGray); (LogDebug, ColorGray)].
Definition levelMap : list (Z * string) := [
  (LogError, "ERROR"); (LogWarn, "WARN"); (LogEvent, "EVENT"); (LogInfo, "INFO");
  (LogHighlight, "HILI"); (LogPrint, "PRINT"); (LogDebug, "DEBUG")].
Definition level_text (m : list (Z * string)) (default : string) (level : Z) : string :=
  match list_find (λ e, e.1 = level) m with Some (_, (_, text)) => text | None => default end.

Definition DefaultTimeFormat : string := "2006-01-02 15:04:05".

(** A printer: what it writes at the time [now] for a level, a component and a
    message. *)
Definition printer_func : Type := (string → string) → Z → string → string → string.
Definition line_end (msg : string) : string := if has_suffix (str1 newline) msg then "" else str1 newline.

Definition ColorPrinterClassic : printer_func := λ now level component msg,
  let color := level_text colorMap ColorRed level in
  (now DefaultTimeFormat +:+ " | " +:+ color +:+ msg +:+ ColorReset) +:+ line_end msg.
Definition ColorPrinter : printer_func := λ now level component msg,
  let color := level_text colorMap ColorRed level in
  (now DefaultTimeFormat +:+ " | " +:+ color +:+ column 7 component +:+ ColorReset +:+ " | "
   +:+ color +:+ msg +:+ ColorReset) +:+ line_end msg.
Definition BasicPrinter : printer_func := λ now level component msg,
  let levelString := level_text levelMap "----" level in
  (now DefaultTimeFormat +:+ " | " +:+ column 5 levelString +:+ " | " +:+ column 5 component
   +:+ " | " +:+ msg) +:+ line_end msg.

(** ** Loggers *)

Record Log := { fmtTime : string; level : Z; component : string; printer : printer_func }.

Definition Default : Log :=
  {| component := "ALL"; fmtTime := DefaultTimeFormat; level := LogAll; printer := ColorPrinter |}.
Definition SetLevel (v : Z) (l : Log) : Log :=
  {| fmtTime := fmtTime l; level := v; component := component l; printer := printer l |}.
Definition SetTimeFormat (f : string) (l : Log) : Log :=
  {| fmtTime := f; level := level l; component := component l; printer := printer l |}.
Definition SetPrinter (p : printer_func) (l : Log) : Log :=
  {| fmtTime := fmtTime l; level := level l; component := component l; printer := p |}.
Definition SetName (name : string) (l : Log) : Log :=
  {| fmtTime := fmtTime l; level := level l; component := name; printer := printer l |}.
Definition WithName (name : string) (l : Log) : Log :=
  {| component := name; level := level l; fmtTime := fmtTime l; printer := printer l |}.
Definition New (name : string) (d : Log) : Log :=
  {| component := name; level := LogNormal; fmtTime := fmtTime d; printer := printer d |}.

(** Where a call ends: it returns, or the goroutine panics, or the process
    exits with a code. *)
Inductive logged : Type := Logged | Panicked (msg : string) | Exits (code : Z).

Section Printing.
Context {Arg : Type} (Sprintf : string → list Arg → string) (now : string → string).

Definition print (text : string) : prog string () := atomically (λ o, (o +:+ text, ())).

Definition emit (lv : Z) (l : Log) (s : string) (v : list Arg) : prog string logged :=
  if bool_decide (Z.land (level l) lv = lv)
  then let* _ := print (printer l now lv (component l) (Sprintf s v)) in Ret Logged
  else Ret Logged.

Definition Printf := emit LogPrint.
Definition Infof := emit LogInfo.
Definition Eventf := emit LogEvent.
Definition Warnf := emit LogWarn.
Definition Debugf := emit LogDebug.
Definition Highlightf := emit LogHighlight.
Definition Errorf := emit LogError.
Definition Panicf (l : Log) (s : string) (v : list Arg) : prog string logged := Ret (Panicked (Sprintf s v)).
Definition Fatalf (l : Log) (s : string) (v : list Arg) : prog string logged :=
  let* _ := emit LogError l s v in Ret (Exits 1).
Definition ColorPrint (color s : string) (l : Log) : prog string () :=
  let pad := replicate (4 - length (runes color)) " " in
  print (now (fmtTime l) +:+ " | " +:+ join "" pad +:+ color +:+ " | " +:+ component l +:+ s +:+ ColorReset).
Definition ColorPrintf (color s : string) (v : list Arg) : prog string () :=
  print (color +:+ Sprintf s v +:+ ColorReset).

(** *** The functions of the package (default.go)
    They go to the default logger, which the program may have changed. *)
Definition with_default {A} (f : Log → prog string A) : prog (Log * string) A :=
  let* d := atomically (λ s, (s, s.1)) in zoom snd (λ o s, (s.1, o)) (f d).
Definition log_Printf s v := with_default (λ d, Printf d s v).
Definition log_Panicf s v := with_default (λ d, Panicf d s v).
Definition log_Fatalf s v := with_default (λ d, Fatalf d s v).
Definition log_Infof s v := with_default (λ d, Infof d s v).
Definition log_Eventf s v := with_default (λ d, Eventf d s v).
Definition log_Warnf s v := with_default (λ d, Warnf d s v).
Definition log_Debugf s v := with_default (λ d, Debugf d s v).
Definition log_Highlightf s v := with_default (λ d, Highlightf d s v).
Definition log_Errorf s v := with_default (λ d, Errorf d s v).
Definition log_WithName (name : string) : prog (Log * string) Log :=
  with_default (λ d, Ret (WithName name d)).
End Printing.

(** *** The line of a request (pkg/admin/handlers.go, pkg/proxy/handlers.go)
    [forwarded] is the header x-forwarded-for, [d] the text of the time the
    request took. *)
Section Requests.
Context (Sprintf : string → list string → string) (now : string → string).
Definition admin_logRequest (forwarded remote method uri user d : string) : prog (Log * string) logged :=
  let host := if bool_decide (forwarded = "") then remote else forwarded in
  let user := if bool_decide (user = "") then "--" else user in
  with_default (λ l, Infof Sprintf now (WithName "admin" l) ("%s %s %s %s %s" +:+ str1 newline)
    [host; d; user; method; uri]).
Definition proxy_logRequest (forwarded remote method uri user d : string) : prog (Log * string) logged :=
  let host := if bool_decide (forwarded = "") then remote else forwarded in
  let user := if bool_decide (user = "") then "--" else user in
  with_default (λ l, Infof Sprintf now (WithName "admin" l) ("%s %s %s %s %s" +:+ str1 newline)
    [host; d; user; method; uri]).
End Requests.

(** ** Properties *)

(** The levels are single bits. *)
Definition levels : list Z := [LogError; LogWarn; LogEvent; LogInfo; LogHighlight; LogPrint; LogDebug].

Lemma land_bit m k : (0 ≤ k)%Z → Z.land m (2 ^ k) = (2 ^ k)%Z ↔ Z.testbit m k = true.
Proof.
  intros Hk. split.
  - intros Heq. apply (f_equal (λ z, Z.testbit z k)) in Heq.
    rewrite Z.land_spec, Z.pow2_bits_true, andb_true_r in Heq by lia. done.
  - intros Hb. apply Z.bits_inj'. intros i Hi. rewrite Z.land_spec, Z.pow2_bits_eqb by lia.
    destruct (Z.eqb_spec k i) as [<-|]; [by rewrite Hb|apply andb_false_r].
Qed.

Section Properties.
Context {Arg : Type} (Sprintf : string → list Arg → string) (now : string → string).

(** Level number [k] is printed exactly when bit [k] of the logger's level is
    set, and nothing else is written. *)
Lemma run_emit k lv l s v o :
  levels !! k = Some lv →
  run (emit Sprintf now lv l s v) o =
    ((if Z.testbit (level l) (Z.of_nat k) then o +:+ printer l now lv (component l) (Sprintf s v) else o), Logged).
Proof.
  intros Hk. assert (lv = (2 ^ Z.of_nat k)%Z) as ->.
  { do 7 (destruct k as [|k]; [by injection Hk as <-|]). done. }
  unfold emit. case_bool_decide as Hb.
  - apply land_bit in Hb; [|lia]. by rewrite Hb.
  - destruct (Z.testbit (level l) (Z.of_nat k)) eqn:Ht; [|done]. apply land_bit in Ht; [done|lia].
Qed.

(** A new logger is silent about debugging only, one named after the default
    logger about nothing. *)
Lemma named_loggers k lv name :
  levels !! k = Some lv →
  Z.testbit (level (New name Default)) (Z.of_nat k) = negb (bool_decide (lv = LogDebug)) ∧
  Z.testbit (level (WithName name Default)) (Z.of_nat k) = true.
Proof.
  intros Hk. do 7 (destruct k as [|k]; [injection Hk as <-; split; by vm_compute|]). done.
Qed.

(** What a logger prints does not depend on its time format: the printers
    write the time in the default one. *)
Lemma time_format_unused f lv l s v o :
  printer l ∈ [ColorPrinterClassic; ColorPrinter; BasicPrinter] →
  run (emit Sprintf now lv (SetTimeFormat f l) s v) o = run (emit Sprintf now lv l s v) o.
Proof. done. Qed.

(** Every line of a printer ends, unless the message carries its own end. *)
Lemma printers_end_lines lv c msg p :
  p ∈ [ColorPrinterClassic; ColorPrinter; BasicPrinter] → has_suffix (str1 newline) msg = false →
  ∃ t, p now lv c msg = t +:+ str1 newline.
Proof.
  unfold ColorPrinterClassic, ColorPrinter, BasicPrinter, line_end. intros Hp Hs.
  repeat (apply elem_of_cons in Hp as [->|Hp]); [..|by apply not_elem_of_nil in Hp];
    cbv zeta; rewrite Hs; by eexists.
Qed.
End Properties.
