(* ===== verification/Api.v ===== *)
(** * Api: the wire types of the control plane (api/, pkg/core/api.go), the
    error values of pkg/jsonclient/error.go, and the JSON form of each type.

    A Go struct is a record; [enc_*] is json.Marshal of it as a tree (fields
    in declaration order under their Go names) and [dec_*] is json.Unmarshal
    into it.  The round-trip lemmas at the end are what the server's and the
    clients' theorems use. *)
From Stdlib Require Import Ascii String.
From S2P Require Import Prelude GoStrings Json.

(** ** Errors *)

(** [ApiError] is a RequestError (api.Error is an alias of it), [KeyNotFound]
    is badger.ErrKeyNotFound, any other error is its message. *)
Inductive error : Type :=
  | ApiError (code : Z) (msg : string)
  | KeyNotFound
  | OtherError (msg : string).

Definition NewError (code : Z) (msg : string) : error := ApiError code msg.

(** The method Error() of an error. *)
Definition error_string (e : error) : string :=
  match e with
  | ApiError code msg => itoa code +:+ ":" +:+ msg
  | KeyNotFound => "Key not found"
  | OtherError msg => msg
  end.

#[export] Instance error_eq_dec : EqDecision error.
Proof. solve_decision. Defined.

(** ** HTTP statuses *)

Definition StatusOK : Z := 200.
Definition StatusBadRequest : Z := 400.
Definition StatusUnauthorized : Z := 401.
Definition StatusNotFound : Z := 404.
Definition StatusConflict : Z := 409.
Definition StatusGone : Z := 410.
Definition StatusInternalServerError : Z := 500.
Definition StatusServiceUnavailable : Z := 503.

(** http.StatusText *)
Definition status_texts : list (Z * string) := [
  (100%Z, "Continue"); (101%Z, "Switching Protocols"); (102%Z, "Processing");
  (103%Z, "Early Hints"); (200%Z, "OK"); (201%Z, "Created"); (202%Z, "Accepted");
  (203%Z, "Non-Authoritative Information"); (204%Z, "No Content"); (205%Z, "Reset Content");
  (206%Z, "Partial Content"); (207%Z, "Multi-Status"); (208%Z, "Already Reported");
  (226%Z, "IM Used"); (300%Z, "Multiple Choices"); (301%Z, "Moved Permanently");
  (302%Z, "Found"); (303%Z, "See Other"); (304%Z, "Not Modified"); (305%Z, "Use Proxy");
  (307%Z, "Temporary Redirect"); (308%Z, "Permanent Redirect"); (400%Z, "Bad Request");
  (401%Z, "Unauthorized"); (402%Z, "Payment Required"); (403%Z, "Forbidden");
  (404%Z, "Not Found"); (405%Z, "Method Not Allowed"); (406%Z, "Not Acceptable");
  (407%Z, "Proxy Authentication Required"); (408%Z, "Request Timeout"); (409%Z, "Conflict");
  (410%Z, "Gone"); (411%Z, "Length Required"); (412%Z, "Precondition Failed");
  (413%Z, "Request Entity Too Large"); (414%Z, "Request URI Too Long");
  (415%Z, "Unsupported Media Type"); (416%Z, "Requested Range Not Satisfiable");
  (417%Z, "Expectation Failed"); (418%Z, "I'm a teapot"); (421%Z, "Misdirected Request");
  (422%Z, "Unprocessable Entity"); (423%Z, "Locked"); (424%Z, "Failed Dependency");
  (425%Z, "Too Early"); (426%Z, "Upgrade Required"); (428%Z, "Precondition Required");
  (429%Z, "Too Many Requests"); (431%Z, "Request Header Fields Too Large");
  (451%Z, "Unavailable For Legal Reasons"); (500%Z, "Internal Server Error");
  (501%Z, "Not Implemented"); (502%Z, "Bad Gateway"); (503%Z, "Service Unavailable");
  (504%Z, "Gateway Timeout"); (505%Z, "HTTP Version Not Supported");
  (506%Z, "Variant Also Negotiates"); (507%Z, "Insufficient Storage"); (508%Z, "Loop Detected");
  (510%Z, "Not Extended"); (511%Z, "Network Authentication Required")].
Definition StatusText (code : Z) : string :=
  match list_find (λ e, e.1 = code) status_texts with
  | Some (_, (_, text)) => text
  | None => ""
  end.

(** A response as the client receives it: the status, and the body as a text
    (http.Error appends a newline) or as a JSON document. *)
Inductive body : Type :=
  | BText (s : string)
  | BJson (j : json).
Record response := Response { r_status : Z; r_body : body }.

Definition http_error (msg : string) (code : Z) : response :=
  Response code (BText (msg +:+ str1 newline)).

(** ** core.PeerNode, of which api.Node is an alias *)

(** Times are nanoseconds since the Unix epoch; time.Time{} is year one. *)
Definition time_zero : Z := -62135596800 * 1000000000.

Record PeerNode := { ID : string; Name : string; LogicalTime : Z; LastUpdate : Z }.
Definition node_zero : PeerNode :=
  {| ID := ""; Name := ""; LogicalTime := 0; LastUpdate := time_zero |}.
Definition NewPeerNode (id name : string) : PeerNode :=
  {| ID := id; Name := name; LogicalTime := 0; LastUpdate := time_zero |}.

Definition with_ID x n := {| ID := x; Name := n.(Name); LogicalTime := n.(LogicalTime); LastUpdate := n.(LastUpdate) |}.
Definition with_Name x n := {| ID := n.(ID); Name := x; LogicalTime := n.(LogicalTime); LastUpdate := n.(LastUpdate) |}.
Definition with_LogicalTime x n := {| ID := n.(ID); Name := n.(Name); LogicalTime := x; LastUpdate := n.(LastUpdate) |}.
Definition with_LastUpdate x n := {| ID := n.(ID); Name := n.(Name); LogicalTime := n.(LogicalTime); LastUpdate := x |}.

#[export] Instance PeerNode_eq_dec : EqDecision PeerNode.
Proof. solve_decision. Defined.

(** PeerNode.String *)
Definition PeerNode_String (p : PeerNode) : string := p.(ID) +:+ "/" +:+ p.(Name).

Section Wire.
Context `{TimeText}.

Definition enc_node (n : PeerNode) : json :=
  JObj [("ID", JStr n.(ID)); ("Name", JStr n.(Name));
        ("LogicalTime", JInt n.(LogicalTime)); ("LastUpdate", JStr (time_print n.(LastUpdate)))].
Definition dec_node : decoder PeerNode := dec_struct (λ k v n,
  if key_is "ID" k then in_field with_ID ID dec_string v n
  else if key_is "Name" k then in_field with_Name Name dec_string v n
  else if key_is "LogicalTime" k then in_field with_LogicalTime LogicalTime (dec_uint 64) v n
  else if key_is "LastUpdate" k then in_field with_LastUpdate LastUpdate dec_time v n
  else (n, true)).

(** RegisterNodeRequest, also the response of register and refresh. *)
Record RegisterNodeRequest := {
  rn_Node : PeerNode; rn_Token : string; rn_LogicalTime : Z; rn_LastUpdate : Z }.
Definition rn_zero : RegisterNodeRequest :=
  {| rn_Node := node_zero; rn_Token := ""; rn_LogicalTime := 0; rn_LastUpdate := time_zero |}.
Definition enc_register (r : RegisterNodeRequest) : json :=
  JObj [("Node", enc_node r.(rn_Node)); ("Token", JStr r.(rn_Token));
        ("LogicalTime", JInt r.(rn_LogicalTime)); ("LastUpdate", JStr (time_print r.(rn_LastUpdate)))].
Definition dec_register : decoder RegisterNodeRequest := dec_struct (λ k v r,
  let '(Build_RegisterNodeRequest n t l u) := r in
  if key_is "Node" k then in_field (λ x r, Build_RegisterNodeRequest x t l u) rn_Node dec_node v r
  else if key_is "Token" k then in_field (λ x r, Build_RegisterNodeRequest n x l u) rn_Token dec_string v r
  else if key_is "LogicalTime" k then
    in_field (λ x r, Build_RegisterNodeRequest n t x u) rn_LogicalTime (dec_uint 64) v r
  else if key_is "LastUpdate" k then
    in_field (λ x r, Build_RegisterNodeRequest n t l x) rn_LastUpdate dec_time v r
  else (r, true)).

Definition enc_nodes (ns : list PeerNode) : json := JObj [("Nodes", JArr (enc_node <$> ns))].
Definition dec_nodes : decoder (list PeerNode) := dec_struct (λ k v ns,
  if key_is "Nodes" k then dec_list dec_node node_zero v ns else (ns, true)).

(** NodeLoginRequest and NodeLoginResponse. *)
Record NodeLoginRequest := { nl_NodeID : string; nl_MeshId : string; nl_MeshSecret : string }.
Definition nl_zero : NodeLoginRequest := {| nl_NodeID := ""; nl_MeshId := ""; nl_MeshSecret := "" |}.
Definition enc_login (r : NodeLoginRequest) : json :=
  JObj [("NodeID", JStr r.(nl_NodeID)); ("MeshId", JStr r.(nl_MeshId));
        ("MeshSecret", JStr r.(nl_MeshSecret))].
Definition dec_login : decoder NodeLoginRequest := dec_struct (λ k v r,
  let '(Build_NodeLoginRequest n m s) := r in
  if key_is "NodeID" k then in_field (λ x _, Build_NodeLoginRequest x m s) nl_NodeID dec_string v r
  else if key_is "MeshId" k then in_field (λ x _, Build_NodeLoginRequest n x s) nl_MeshId dec_string v r
  else if key_is "MeshSecret" k then
    in_field (λ x _, Build_NodeLoginRequest n m x) nl_MeshSecret dec_string v r
  else (r, true)).

(** CreateInviteRequest: the lifetime is a uint64 of seconds. *)
Record CreateInviteRequest := {
  ci_Name : string; ci_LifetimeSec : Z; ci_OneTime : bool; ci_MeshId : string }.
Definition ci_zero : CreateInviteRequest :=
  {| ci_Name := ""; ci_LifetimeSec := 0; ci_OneTime := false; ci_MeshId := "" |}.
Definition enc_create (r : CreateInviteRequest) : json :=
  JObj [("Name", JStr r.(ci_Name)); ("LifetimeSec", JInt r.(ci_LifetimeSec));
        ("OneTime", JBool r.(ci_OneTime)); ("MeshId", JStr r.(ci_MeshId))].
Definition dec_create : decoder CreateInviteRequest := dec_struct (λ k v r,
  let '(Build_CreateInviteRequest n l o m) := r in
  if key_is "Name" k then in_field (λ x _, Build_CreateInviteRequest x l o m) ci_Name dec_string v r
  else if key_is "LifetimeSec" k then
    in_field (λ x _, Build_CreateInviteRequest n x o m) ci_LifetimeSec (dec_uint 64) v r
  else if key_is "OneTime" k then
    in_field (λ x _, Build_CreateInviteRequest n l x m) ci_OneTime dec_bool v r
  else if key_is "MeshId" k then
    in_field (λ x _, Build_CreateInviteRequest n l o x) ci_MeshId dec_string v r
  else (r, true)).

(** RedeemInviteRequest holds only the node. *)
Definition enc_redeem (n : PeerNode) : json := JObj [("Node", enc_node n)].
Definition dec_redeem : decoder PeerNode := dec_struct (λ k v n,
  if key_is "Node" k then dec_node v n else (n, true)).

(** ** Round trips *)

(** A uint64 value and a time the format can write. *)
Definition u64_ok (z : Z) : bool := bool_decide (0 ≤ z < 2 ^ 64)%Z.
Definition node_ok (n : PeerNode) : bool := u64_ok n.(LogicalTime) && time_ok n.(LastUpdate).

Lemma dec_node_enc n old : node_ok n = true → dec_node (enc_node n) old = (n, true).
Proof.
  destruct n as [i m l u]. unfold node_ok, u64_ok.
  intros [Hl%bool_decide_eq_true Hu]%andb_true_iff. simpl in Hl, Hu.
  unfold dec_node, enc_node. decode_obj. done.
Qed.

Lemma dec_nodes_enc ns old :
  Forall (λ n, node_ok n = true) ns → dec_nodes (enc_nodes ns) old = (ns, true).
Proof.
  intros Hns. unfold dec_nodes, enc_nodes, dec_struct, dec_fields. decode_keys.
  rewrite dec_list_map; [done|]. eapply Forall_impl; [exact Hns|].
  intros n Hn. by apply dec_node_enc.
Qed.

Lemma dec_register_enc r old :
  node_ok r.(rn_Node) = true → u64_ok r.(rn_LogicalTime) = true →
  time_ok r.(rn_LastUpdate) = true →
  dec_register (enc_register r) old = (r, true).
Proof.
  destruct r as [n t l u], old as [on ot ol ou]. unfold u64_ok.
  intros Hn Hl%bool_decide_eq_true Hu. simpl in Hn, Hl, Hu.
  unfold dec_register, enc_register, dec_struct, dec_fields, in_field. decode_keys. cbn [rn_Node].
  rewrite dec_node_enc by done. decode_obj. done.
Qed.

Lemma dec_login_enc r old : dec_login (enc_login r) old = (r, true).
Proof. destruct r, old. unfold dec_login, enc_login. by decode_obj. Qed.

Lemma dec_create_enc r old :
  u64_ok r.(ci_LifetimeSec) = true → dec_create (enc_create r) old = (r, true).
Proof.
  destruct r as [n l o m], old. unfold u64_ok. intros Hl%bool_decide_eq_true. simpl in Hl.
  unfold dec_create, enc_create. by decode_obj.
Qed.

Lemma dec_redeem_enc n old : node_ok n = true → dec_redeem (enc_redeem n) old = (n, true).
Proof.
  intros Hn. unfold dec_redeem, enc_redeem, dec_struct, dec_fields. decode_keys.
  by rewrite dec_node_enc.
Qed.
End Wire.
