(* ===== verification/JsonKV.v ===== *)
(** * JsonKV: the JSON key/value store (pkg/jsonkv/store.go).

    Badger is the interface [Badger]: its transactions as functions on a
    database, with the laws the sources rely on ([contents] is what a reader
    sees; a transaction that returns an error changes nothing).  Any
    transaction may fail, unless the database is [healthy].  The four methods
    of Store are defined on top of it. *)
From Stdlib Require Import Ascii String.
From stdpp Require Import sorting.
From S2P Require Import Prelude GoStrings Json Api.

(** ** Badger *)

Class Badger (DB : Type) := {
  (** View(Get), Update(Set), Update(Delete) *)
  txn_get : string → DB → result error string;
  txn_set : string → string → DB → DB * option error;
  txn_delete : string → DB → DB * option error;
  (** Seek(p) and Next while ValidForPrefix(p), each with item.Value *)
  txn_items : string → DB → list (string * result error string)
}.

(** What Badger accepts: a key is not empty, has at most 65000 bytes and is
    not one of its own; an entry beyond the size of a transaction is refused,
    and a value of up to a megabyte is below it. *)
Definition badger_key (k : string) : bool :=
  bool_decide (k ≠ "") && (Z.of_nat (String.length k) <=? 65000)%Z && negb (has_prefix "!badger!" k).
Definition badger_entry (k v : string) : bool := badger_key k && (Z.of_nat (String.length v) <=? 1048576)%Z.

Class BadgerLaws (DB : Type) `{!Badger DB} := {
  contents : DB → gmap string string;
  healthy : DB → Prop;
  get_ok k d v : txn_get k d = Ok v → contents d !! k = Some v;
  get_missing k d : txn_get k d = Err KeyNotFound → contents d !! k = None;
  set_ok k v d d' : txn_set k v d = (d', None) → contents d' = <[k := v]> (contents d);
  set_err k v d d' e : txn_set k v d = (d', Some e) → contents d' = contents d;
  delete_ok k d d' : txn_delete k d = (d', None) → contents d' = delete k (contents d);
  delete_err k d d' e : txn_delete k d = (d', Some e) → contents d' = contents d;
  items_keys p d k :
    k ∈ (txn_items p d).*1 ↔ has_prefix p k = true ∧ is_Some (contents d !! k);
  items_ok p d k v : (k, Ok v) ∈ txn_items p d → contents d !! k = Some v;
  items_sorted p d : StronglySorted String.le (txn_items p d).*1;
  items_nodup p d : NoDup (txn_items p d).*1;
  healthy_keys k d : healthy d → is_Some (contents d !! k) → badger_key k = true;
  healthy_get k d : healthy d → k ≠ "" →
    txn_get k d = match contents d !! k with Some v => Ok v | None => Err KeyNotFound end;
  healthy_set k v d : healthy d → badger_entry k v = true → (txn_set k v d).2 = None ∧ healthy (txn_set k v d).1;
  healthy_delete k d : healthy d → badger_key k = true → (txn_delete k d).2 = None ∧ healthy (txn_delete k d).1;
  healthy_items p d k r : healthy d → (k, r) ∈ txn_items p d → is_ok r = true
}.
#[global] Hint Mode Badger ! : typeclass_instances.
#[global] Hint Mode BadgerLaws ! - : typeclass_instances.

(** ** Store *)

Section Store.
Context {DB : Type} `{!Badger DB} `{!JsonText}.

(** Open, with what badger.Open returns; Close of a store that may be nil and
    whose database may be closed already. *)
Definition Open (open : string → result error DB) (path : string) : result error (option DB) :=
  match open path with Err e => Err e | Ok db => Ok (Some db) end.
Definition Store_Close (close : DB → option error) (s : option (option DB)) : option (option DB) * option error :=
  match s with
  | Some (Some db) => (Some None, close db)
  | _ => (s, None)
  end.

(** Store.Get: [zero] is what the caller's variable holds. *)
Definition Get {A} (dec : decoder A) (zero : A) (key : string) (db : DB) : result error A :=
  match txn_get key db with
  | Err e => Err e
  | Ok val =>
      let '(x, ok) := unmarshal dec val zero in
      if ok then Ok x else Err (OtherError "json: cannot unmarshal")
  end.

(** Store.Put: the value comes as the tree json.Marshal makes of it. *)
Definition Put (key : string) (v : json) (db : DB) : DB * option error :=
  txn_set key (json_print v) db.

(** Store.Delete *)
Definition Delete (key : string) (db : DB) : DB * option error := txn_delete key db.

(** Store.ForEach: [fn] gets the key, the value's bytes and the variables
    it captures; the first error ends the iteration. *)
Fixpoint for_each {Acc} (fn : string → string → Acc → result error Acc)
    (items : list (string * result error string)) (acc : Acc) : result error Acc :=
  match items with
  | [] => Ok acc
  | (_, Err e) :: _ => Err e
  | (key, Ok val) :: items' =>
      match fn key val acc with
      | Err e => Err e
      | Ok acc' => for_each fn items' acc'
      end
  end.
Definition ForEach {Acc} (prefix : string) (fn : string → string → Acc → result error Acc)
    (db : DB) (acc : Acc) : result error Acc :=
  for_each fn (txn_items prefix db) acc.

Context `{!BadgerLaws DB}.

(** What a reader decodes at a key. *)
Definition stored {A} (dec : decoder A) (zero : A) (key : string) (db : DB) : option A :=
  val ← contents db !! key;
  let '(x, ok) := unmarshal dec val zero in if ok : bool then Some x else None.

Lemma Get_ok {A} (dec : decoder A) zero key db x :
  Get dec zero key db = Ok x → stored dec zero key db = Some x.
Proof.
  unfold Get, stored. destruct (txn_get key db) as [val|e] eqn:Hget; [|done].
  rewrite (get_ok _ _ _ Hget). simpl.
  destruct (unmarshal dec val zero) as [y []]; naive_solver.
Qed.

Lemma Get_missing {A} (dec : decoder A) zero key db :
  Get dec zero key db = Err KeyNotFound → contents db !! key = None.
Proof.
  unfold Get. destruct (txn_get key db) as [val|e] eqn:Hget.
  - destruct (unmarshal dec val zero) as [y []]; naive_solver.
  - intros [= ->]. by apply get_missing.
Qed.

Lemma Get_healthy {A} (dec : decoder A) zero key db :
  healthy db → key ≠ "" →
  Get dec zero key db =
    match contents db !! key with
    | None => Err KeyNotFound
    | Some val => let '(x, ok) := unmarshal dec val zero in
        if ok then Ok x else Err (OtherError "json: cannot unmarshal")
    end.
Proof.
  intros Hh Hkey. unfold Get. rewrite (healthy_get _ _ Hh Hkey). by destruct (contents db !! key).
Qed.

(** A healthy database accepted the keys it holds. *)
Lemma Get_key_ok {A} (dec : decoder A) zero key db x :
  healthy db → Get dec zero key db = Ok x → badger_key key = true.
Proof.
  intros Hh. unfold Get. destruct (txn_get key db) as [val|e] eqn:Hget; [|done]. intros _.
  apply (healthy_keys _ _ Hh). rewrite (get_ok _ _ _ Hget). by eexists.
Qed.

(** On a healthy database Put succeeds, and a Get of the key returns the value. *)
Lemma Put_healthy key v db :
  healthy db → badger_entry key (json_print v) = true →
  ∃ db', Put key v db = (db', None) ∧ healthy db' ∧
         contents db' = <[key := json_print v]> (contents db).
Proof.
  intros Hh Hok. destruct (healthy_set key (json_print v) db Hh Hok) as [Herr Hh'].
  unfold Put. destruct (txn_set key (json_print v) db) as [db' o] eqn:Hset.
  simpl in *. subst o. exists db'. split_and!; [done..|]. by eapply set_ok.
Qed.

Lemma Delete_healthy key db :
  healthy db → badger_key key = true →
  ∃ db', Delete key db = (db', None) ∧ healthy db' ∧ contents db' = delete key (contents db).
Proof.
  intros Hh Hok. destruct (healthy_delete key db Hh Hok) as [Herr Hh'].
  unfold Delete. destruct (txn_delete key db) as [db' o] eqn:Hdel.
  simpl in *. subst o. exists db'. split_and!; [done..|]. by eapply delete_ok.
Qed.

(** Whatever happens, a Delete touches no other key. *)
Lemma Delete_contents key db :
  contents (Delete key db).1 = delete key (contents db) ∨
  (contents (Delete key db).1 = contents db ∧ (Delete key db).2 ≠ None).
Proof.
  unfold Delete. destruct (txn_delete key db) as [db' [e|]] eqn:Hdel; simpl.
  - right. split; [by eapply delete_err|done].
  - left. by eapply delete_ok.
Qed.
End Store.

(** A store may be closed more than once: the database is closed by the first
    call only. *)
Lemma Store_Close_twice {DB : Type} (close close' : DB → option error) s :
  let '(s', _) := Store_Close close s in Store_Close close' s' = (s', None).
Proof. by destruct s as [[db|]|]. Qed.

(** ** A database in memory, for evaluation

    [failing] makes every transaction fail, as a database on a full or
    unreadable disk. *)
Module MemDB.
Record mem := Mem { disk : gmap string string; failing : bool }.

Definition key_le (a b : string * string) : Prop := String.le a.1 b.1.
#[export] Instance key_le_dec : RelDecision key_le.
Proof. intros a b. unfold key_le. apply _. Defined.
#[export] Instance key_le_total : Total key_le.
Proof. intros a b. unfold key_le. apply String.le_total. Qed.
#[export] Instance key_le_trans : Transitive key_le.
Proof. intros a b c. unfold key_le. intros. by etrans. Qed.

Definition sorted_items (p : string) (m : gmap string string) : list (string * string) :=
  merge_sort key_le (filter (λ kv, has_prefix p kv.1 = true) (map_to_list m)).

Definition io_error : error := OtherError "input/output error".
Definition refused : error := OtherError "Key cannot be empty or exceeds the limit".

(** A database that holds only keys it accepts. *)
Definition sound (d : mem) : bool := negb d.(failing) && forallb (λ kv, badger_key kv.1) (map_to_list d.(disk)).

#[export] Instance badger : Badger mem := {
  txn_get k d :=
    if d.(failing) then Err io_error
    else if bool_decide (k = "") then Err refused
    else match d.(disk) !! k with Some v => Ok v | None => Err KeyNotFound end;
  txn_set k v d :=
    if d.(failing) then (d, Some io_error)
    else if negb (badger_entry k v) then (d, Some refused) else (Mem (<[k := v]> d.(disk)) false, None);
  txn_delete k d :=
    if d.(failing) then (d, Some io_error)
    else if negb (badger_key k) then (d, Some refused) else (Mem (delete k d.(disk)) false, None);
  txn_items p d :=
    (λ kv, (kv.1, if d.(failing) then Err io_error else Ok kv.2)) <$> sorted_items p d.(disk)
}.

Lemma items_fst p d : (txn_items p d).*1 = (sorted_items p d.(disk)).*1.
Proof. simpl. rewrite <-list_fmap_compose. done. Qed.

Lemma elem_of_sorted_items p m kv :
  kv ∈ sorted_items p m ↔ has_prefix p kv.1 = true ∧ m !! kv.1 = Some kv.2.
Proof.
  unfold sorted_items. rewrite merge_sort_Permutation, list_elem_of_filter.
  destruct kv as [k v]. by rewrite elem_of_map_to_list.
Qed.

Lemma keys_sorted l : StronglySorted key_le l → StronglySorted String.le l.*1.
Proof.
  induction 1 as [|kv l _ IH Hkv]; [constructor|]. rewrite fmap_cons.
  constructor; [done|]. by apply Forall_fmap.
Qed.

Lemma sound_spec d : sound d = true ↔ d.(failing) = false ∧ ∀ k v, d.(disk) !! k = Some v → badger_key k = true.
Proof.
  unfold sound. rewrite andb_true_iff, negb_true_iff, forallb_forall. apply and_iff_compat_l. split.
  - intros Hm k v Hv. apply (Hm (k, v)), list_elem_of_In. by apply elem_of_map_to_list.
  - intros Hm [k v] Hin%list_elem_of_In. apply elem_of_map_to_list in Hin. by eapply Hm.
Qed.
Lemma sound_insert k v d : sound d = true → badger_key k = true → sound (Mem (<[k := v]> d.(disk)) false) = true.
Proof.
  intros [_ Hm]%sound_spec Hk. apply sound_spec. split; [done|]. intros k' v'. simpl.
  rewrite lookup_insert_Some. intros [[-> _]|[_ Hv]]; [done|by eapply Hm].
Qed.
Lemma sound_delete k d : sound d = true → sound (Mem (delete k d.(disk)) false) = true.
Proof.
  intros [_ Hm]%sound_spec. apply sound_spec. split; [done|]. intros k' v'. simpl.
  intros [_ Hv]%lookup_delete_Some. by eapply Hm.
Qed.

#[export, refine] Instance badger_laws : BadgerLaws mem := {
  contents := disk; healthy d := sound d = true }.
Proof.
  - intros k [m []] v; simpl; [done|]. case_bool_decide; [done|]. destruct (m !! k); naive_solver.
  - intros k [m []]; simpl; [done|]. case_bool_decide; [done|]. destruct (m !! k); naive_solver.
  - intros k v [m []] d'; simpl; [done|]. destruct (badger_entry k v); naive_solver.
  - intros k v [m []] d' e; simpl; [naive_solver|]. destruct (badger_entry k v); naive_solver.
  - intros k [m []] d'; simpl; [done|]. destruct (badger_key k); naive_solver.
  - intros k [m []] d' e; simpl; [naive_solver|]. destruct (badger_key k); naive_solver.
  - intros p d k. rewrite items_fst, list_elem_of_fmap. split.
    + intros ([k' v] & -> & [? Hv]%elem_of_sorted_items). simpl in *. eauto.
    + intros [Hp [v Hv]]. exists (k, v). by rewrite elem_of_sorted_items.
  - intros p d k v. simpl. intros ([k' v'] & Heq & [? Hv]%elem_of_sorted_items)%list_elem_of_fmap.
    destruct d as [m []]; by simplify_eq/=.
  - intros p d. rewrite items_fst. apply keys_sorted.
    apply Sorted_StronglySorted; [apply _|]. apply Sorted_merge_sort. apply _.
  - intros p d. rewrite items_fst. unfold sorted_items. rewrite merge_sort_Permutation.
    apply NoDup_fmap_fst.
    + intros k v1 v2. rewrite !list_elem_of_filter, !elem_of_map_to_list. naive_solver.
    + apply NoDup_filter, NoDup_map_to_list.
  - intros k d [_ Hm]%sound_spec [v Hv]. by eapply Hm.
  - intros k d [Hf _]%sound_spec Hk. simpl. by rewrite Hf, bool_decide_false.
  - intros k v d Hd Hk. pose proof Hd as [Hf _]%sound_spec. simpl. rewrite Hf, Hk. split; [done|].
    apply andb_true_iff in Hk as [Hk _]. by apply sound_insert.
  - intros k d Hd Hk. pose proof Hd as [Hf _]%sound_spec. simpl. rewrite Hf, Hk. split; [done|].
    by apply sound_delete.
  - intros p d k r [Hf _]%sound_spec. simpl. rewrite Hf. intros ([k' v'] & Heq & _)%list_elem_of_fmap.
    by simplify_eq/=.
Defined.
End MemDB.
