(* ===== verification/AllowList.v ===== *)
(** * AllowList: the peer ACL and its file (pkg/admin/allow.go).

    The list is a set in memory under a mutex, and a file with one id per
    line.  Add and Remove change the set and take a snapshot in one critical
    section, and write the snapshot to the file after the mutex is released:
    two atomic regions.  The gatekeeper of Streams asks it who is admitted. *)
From Stdlib Require Import Ascii String.
From S2P Require Import Prelude GoStrings Json Api.

(** [allow] is the Go map[string]struct{}; [file] is the contents of the file
    at [path], None when there is none; [writable] says whether a write of
    the file succeeds. *)
Record AllowList := {
  allow : gmap string (); path : string; file : option string; writable : bool }.

Definition with_allow m l := {| allow := m; path := l.(path); file := l.(file); writable := l.(writable) |}.
Definition with_file f l := {| allow := l.(allow); path := l.(path); file := f; writable := l.(writable) |}.

(** ** Loading *)

(** os.Open of the file, and the bytes a reader gets. *)
Inductive opened : Type :=
  | NotExist
  | OpenError (e : error)
  | Contents (text : string).

(** bufio.ScanLines: lines end at a newline, the last one may lack it, and a
    carriage return before the newline is dropped. *)
Definition drop_last_empty (ls : list string) : list string :=
  match last ls with Some "" => removelast ls | _ => ls end.
Definition scan_lines (text : string) : list string := drop_last_empty (split_on newline text).
Definition dropCR (line : string) : string :=
  match reverse line with
  | String c s => if decide (c = "013"%char) then reverse s else line
  | "" => line
  end.

(** bufio.MaxScanTokenSize: a line that does not fit in the buffer with its
    newline ends the scan with ErrTooLong. *)
Definition MaxScanTokenSize : nat := 64 * 1024.
Definition ErrTooLong : error := OtherError "bufio.Scanner: token too long".

Fixpoint load_lines (lines : list string) (m : gmap string ()) : gmap string () * option error :=
  match lines with
  | [] => (m, None)
  | l :: lines' =>
      if bool_decide (MaxScanTokenSize ≤ String.length l) then (m, Some ErrTooLong)
      else
        let line := trim_space (dropCR l) in
        if bool_decide (line = "") || has_prefix "#" line then load_lines lines' m
        else load_lines lines' (<[line := ()]> m)
  end.

(** The first component is the pointer, nil when Open fails. *)
Definition NewAllowList (p : string) (o : opened) : option AllowList * option error :=
  let l f := {| allow := ∅; path := p; file := f; writable := true |} in
  if bool_decide (p = "") then (Some (l None), None)
  else match o with
       | NotExist => (Some (l None), None)
       | OpenError e => (None, Some e)
       | Contents text =>
           let '(m, err) := load_lines (scan_lines text) ∅ in
           (Some (with_allow m (l (Some text))), err)
       end.

(** ** Operations *)

Fixpoint file_text (ids : list string) : string :=
  match ids with [] => "" | id :: ids' => id +:+ str1 newline +:+ file_text ids' end.

(** os.WriteFile replaces the file; its error is discarded by the callers. *)
Definition persist (ids : list string) (l : AllowList) : AllowList :=
  if l.(writable) then with_file (Some (file_text ids)) l else l.

Lemma persist_allow ids l : allow (persist ids l) = allow l.
Proof. unfold persist. by destruct (writable l). Qed.
Lemma persist_writable ids l : writable (persist ids l) = writable l.
Proof. unfold persist. by destruct (writable l) eqn:?. Qed.
Lemma persist_file ids l : writable l = true → file (persist ids l) = Some (file_text ids).
Proof. unfold persist. by intros ->. Qed.
#[export] Hint Rewrite persist_allow persist_writable : acl.
#[export] Hint Rewrite persist_file using (rewrite ?persist_writable; done) : acl.

Section Operations.
Context `{!MapOrder}.

Definition snapshot (seed : nat) (m : gmap string ()) : list string := (range seed m).*1.

Definition Has (id : string) : prog AllowList bool :=
  atomically (λ l, (l, bool_decide (is_Some (l.(allow) !! id)))).

(** The critical section returns the path and the snapshot; the write is a
    region of its own. *)
Definition Add (seed : nat) (id : string) : prog AllowList () :=
  let* (p, ids) := atomically (λ l,
    let m := <[id := ()]> l.(allow) in (with_allow m l, (l.(path), snapshot seed m))) in
  if bool_decide (p = "") then Ret () else atomically (λ l, (persist ids l, ())).

Definition Remove (seed : nat) (id : string) : prog AllowList () :=
  let* (p, ids) := atomically (λ l,
    let m := delete id l.(allow) in (with_allow m l, (l.(path), snapshot seed m))) in
  if bool_decide (p = "") then Ret () else atomically (λ l, (persist ids l, ())).

Definition Peers (seed : nat) : prog AllowList (list string) :=
  atomically (λ l, (l, snapshot seed l.(allow))).

Lemma run_Has id l : run (Has id) l = (l, bool_decide (is_Some (l.(allow) !! id))).
Proof. done. Qed.

Lemma run_Add_allow seed id l : allow (run (Add seed id) l).1 = <[id := ()]> l.(allow).
Proof. simpl. case_bool_decide; [done|]. simpl. by rewrite persist_allow. Qed.

Lemma run_Remove_allow seed id l : allow (run (Remove seed id) l).1 = delete id l.(allow).
Proof. simpl. case_bool_decide; [done|]. simpl. by rewrite persist_allow. Qed.

(** What every region of Add and Remove preserves and does, for the clients
    that embed the list in a larger state. *)
Lemma Add_respects (Q : AllowList → AllowList → Prop) seed id :
  (∀ l, Q l (with_allow (<[id := ()]> l.(allow)) l)) → (∀ l ids, Q l (persist ids l)) →
  respects (λ _, True) Q (Add seed id).
Proof.
  intros HQ Hp. apply respects_bind; [by apply respects_atomically; intros; split; simpl|].
  intros [p ids]. case_bool_decide; [constructor|].
  by apply respects_atomically; intros; split; simpl.
Qed.

Lemma Remove_respects (Q : AllowList → AllowList → Prop) seed id :
  (∀ l, Q l (with_allow (delete id l.(allow)) l)) → (∀ l ids, Q l (persist ids l)) →
  respects (λ _, True) Q (Remove seed id).
Proof.
  intros HQ Hp. apply respects_bind; [by apply respects_atomically; intros; split; simpl|].
  intros [p ids]. case_bool_decide; [constructor|].
  by apply respects_atomically; intros; split; simpl.
Qed.
End Operations.

(** ** Persistence *)

(** An id the file format can carry: what the loader makes of its line is the
    id itself. *)
Definition clean_id (id : string) : bool :=
  negb (has_byte newline id) && bool_decide (trim_space (dropCR id) = id)
  && negb (bool_decide (id = "")) && negb (has_prefix "#" id)
  && bool_decide (String.length id < MaxScanTokenSize).

Lemma clean_id_spec id :
  clean_id id = true →
  has_byte newline id = false ∧ trim_space (dropCR id) = id ∧ id ≠ "" ∧
  has_prefix "#" id = false ∧ String.length id < MaxScanTokenSize.
Proof.
  unfold clean_id. rewrite !andb_true_iff, !negb_true_iff, !bool_decide_eq_true, bool_decide_eq_false.
  tauto.
Qed.

(** What the loader makes of one id: the lines of its text that are neither
    blank nor a comment. *)
Definition kept_line (line : string) : bool := negb (bool_decide (line = "") || has_prefix "#" line).
Definition file_ids (id : string) : list string :=
  filter (λ line, kept_line line = true) ((λ line, trim_space (dropCR line)) <$> split_on newline id).

Lemma file_ids_clean id : clean_id id = true → file_ids id = [id].
Proof.
  intros (Hnl & Htrim & Hne & Hhash & _)%clean_id_spec. unfold file_ids, kept_line.
  rewrite split_on_single by done. cbn. rewrite Htrim, Hhash, bool_decide_false by done. done.
Qed.

Lemma scan_file_text ids : scan_lines (file_text ids) = ids ≫= split_on newline.
Proof.
  unfold scan_lines, drop_last_empty. assert (split_on newline (file_text ids) = (ids ≫= split_on newline) ++ [""]) as ->.
  { induction ids as [|id ids IH]; [done|]. cbn [file_text mbind list_bind].
    change (str1 newline +:+ file_text ids) with (String newline (file_text ids)).
    by rewrite split_on_app_sep, IH, app_assoc. }
  by rewrite last_snoc, removelast_last.
Qed.

(** Loading short lines inserts each that is kept. *)
Lemma load_lines_short lines m :
  Forall (λ line, String.length line < MaxScanTokenSize) lines →
  load_lines lines m = (foldl (λ m id, <[id := ()]> m) m
    (filter (λ line, kept_line line = true) ((λ line, trim_space (dropCR line)) <$> lines)), None).
Proof.
  intros Hlines. revert m. induction Hlines as [|line lines Hlen _ IH]; intros m; [done|]. cbn [load_lines fmap list_fmap].
  rewrite bool_decide_false by lia. rewrite filter_cons. set (x := trim_space (dropCR line)).
  assert (bool_decide (x = "") || has_prefix "#" x = negb (kept_line x)) as -> by (unfold kept_line; by rewrite negb_involutive).
  case_decide as Hk; [|apply not_true_is_false in Hk]; rewrite Hk; apply IH.
Qed.

Lemma load_file_text ids :
  (∀ id line, id ∈ ids → line ∈ split_on newline id → String.length line < MaxScanTokenSize) →
  load_lines (scan_lines (file_text ids)) ∅ = (foldl (λ m id, <[id := ()]> m) ∅ (ids ≫= file_ids), None).
Proof.
  intros Hshort. rewrite scan_file_text, load_lines_short.
  - do 2 f_equal. clear Hshort. induction ids as [|id ids IH]; [done|]. cbn [mbind list_bind].
    by rewrite fmap_app, filter_app, IH.
  - apply Forall_forall. intros line (id & Hline & Hid)%list_elem_of_bind. by eapply Hshort.
Qed.

Lemma foldl_insert_lookup ids (m : gmap string ()) k :
  foldl (λ m id, <[id := ()]> m) m ids !! k = if decide (k ∈ ids) then Some () else m !! k.
Proof.
  revert m. induction ids as [|id ids IH]; intros m.
  { by rewrite decide_False by apply not_elem_of_nil. }
  cbn [foldl]. rewrite IH. destruct (decide (k = id)) as [->|Hne].
  - rewrite lookup_insert_eq. rewrite (decide_True (P := id ∈ id :: ids)) by left. by case_decide.
  - rewrite lookup_insert_ne by done. destruct (decide (k ∈ ids)) as [Hin|Hin].
    + rewrite decide_True; [done|by right].
    + rewrite decide_False; [done|]. by rewrite elem_of_cons; intros [?|?].
Qed.

Lemma elem_of_snapshot `{MapOrder} seed (m : gmap string ()) k : k ∈ snapshot seed m ↔ is_Some (m !! k).
Proof.
  unfold snapshot. rewrite list_elem_of_fmap. split.
  - intros ([k' v] & -> & Hin%elem_of_range). eauto.
  - intros [v Hv]. exists (k, v). split; [done|]. by apply elem_of_range.
Qed.

Lemma foldl_insert_perm `{MapOrder} seed (m : gmap string ()) :
  foldl (λ m id, <[id := ()]> m) ∅ (snapshot seed m) = m.
Proof.
  apply map_eq. intros k. rewrite foldl_insert_lookup, lookup_empty.
  case_decide as Hin; rewrite elem_of_snapshot in Hin; destruct (m !! k) as [[]|] eqn:Hk; try done; by destruct Hin.
Qed.

(** The file of a list, written by Add or Remove. *)
Lemma persist_load `{MapOrder} seed l :
  (∀ id line, is_Some (l.(allow) !! id) → line ∈ split_on newline id → String.length line < MaxScanTokenSize) →
  l.(path) ≠ "" → l.(writable) = true →
  ∃ m, (∀ k, is_Some (m !! k) ↔ ∃ id, is_Some (l.(allow) !! id) ∧ k ∈ file_ids id) ∧
    ((∀ k, is_Some (l.(allow) !! k) → clean_id k = true) → m = l.(allow)) ∧
    NewAllowList l.(path) (Contents (file_text (snapshot seed l.(allow))))
      = (Some (with_allow m (persist (snapshot seed l.(allow)) l)), None).
Proof.
  intros Hshort Hpath Hw. destruct l as [m p f w]. simpl in *. subst w. unfold persist. simpl.
  exists (foldl (λ m id, <[id := ()]> m) ∅ (snapshot seed m ≫= file_ids)). split_and!.
  - intros k. rewrite foldl_insert_lookup, lookup_empty. setoid_rewrite <-(elem_of_snapshot seed).
    case_decide as Hin; rewrite list_elem_of_bind in Hin.
    + destruct Hin as (id & ? & ?). split; eauto.
    + split; [by intros []|]. intros (id & ? & ?). destruct Hin. eauto.
  - intros Hclean. rewrite <-(foldl_insert_perm seed m) at 2. f_equal.
    assert (Forall (λ id, clean_id id = true) (snapshot seed m)) as Hall.
    { apply Forall_forall. intros k Hk%elem_of_snapshot. by apply Hclean. }
    induction Hall as [|id ids Hid _ IH]; [done|]. cbn [mbind list_bind]. by rewrite file_ids_clean, IH.
  - unfold NewAllowList. rewrite (bool_decide_false _ Hpath), load_file_text; [done|].
    intros id line Hid%elem_of_snapshot. by apply Hshort.
Qed.

Lemma clean_lines_short id line :
  clean_id id = true → line ∈ split_on newline id → String.length line < MaxScanTokenSize.
Proof.
  intros (Hnl & _ & _ & _ & Hlen)%clean_id_spec. rewrite split_on_single by done.
  by intros ->%list_elem_of_singleton.
Qed.

Lemma persist_reload `{MapOrder} seed l :
  (∀ k, is_Some (l.(allow) !! k) → clean_id k = true) → l.(path) ≠ "" → l.(writable) = true →
  let l' := persist (snapshot seed l.(allow)) l in
  NewAllowList l.(path) (Contents (file_text (snapshot seed l.(allow)))) = (Some l', None).
Proof.
  intros Hclean Hpath Hw. destruct (persist_load seed l) as (m & _ & Hm & ->); [|done..|].
  - intros id line Hid. apply clean_lines_short. by apply Hclean.
  - rewrite Hm by done. simpl. unfold persist. by rewrite Hw.
Qed.

(** ** Properties *)

Section Properties.
Context `{!MapOrder}.

(** C23: What a restart makes of the file.  An Add or Remove that no other call
    interleaves, on a list with a file that can be written, leaves the whole
    list in the file.  A server that restarts and loads it gets, with no
    error, the lines of the ids in memory, trimmed, that are neither blank nor
    a comment, as long as no line reaches the 64 kB of the scanner; this is
    exactly the set in memory when every id is one the line format can carry.
    So an id that starts with a hash sign or has a line break, which the
    server admits, is not the id that comes back. *)
Theorem acl_survives_restart (remove : bool) seed id l l' :
  l' = (run (if remove then Remove seed id else Add seed id) l).1 → l.(path) ≠ "" → l.(writable) = true →
  (∀ id line, is_Some (l'.(allow) !! id) → line ∈ split_on newline id → String.length line < MaxScanTokenSize) →
  ∃ text m, l'.(file) = Some text ∧ NewAllowList l.(path) (Contents text) = (Some (with_allow m l'), None) ∧
    (∀ k, is_Some (m !! k) ↔ ∃ id, is_Some (l'.(allow) !! id) ∧ k ∈ file_ids id) ∧
    ((∀ k, is_Some (l'.(allow) !! k) → clean_id k = true) → m = l'.(allow)).
Proof.
  intros Hl' Hpath Hw. set (m := if remove then delete id l.(allow) else <[id := ()]> l.(allow)).
  assert (l' = persist (snapshot seed m) (with_allow m l)) as ->.
  { subst m; rewrite Hl'. destruct remove; simpl; by rewrite bool_decide_false. }
  rewrite persist_allow. intros Hshort.
  destruct (persist_load seed (with_allow m l)) as (m' & Hm' & Hclean & Hload); [done..|].
  exists (file_text (snapshot seed m)), m'. split; [by rewrite persist_file|]. by split_and!.
Qed.

(** C39: Two concurrent Adds: the snapshot is written after the mutex is
  released, so the writes can happen in the other order than the critical
  sections.  Both calls return, memory holds both ids, and the file is the
  older snapshot: a restart loses the second id. *)
Theorem acl_concurrent_add_loses_id seed l a b :
clean_id a = true → (∀ k, is_Some (l.(allow) !! k) → clean_id k = true) →
a ≠ b → l.(allow) !! b = None → l.(path) ≠ "" → l.(writable) = true →
∃ order l' ps text l'',
  sched order l [Add seed a; Add seed b] = (l', ps) ∧
  returned <$> ps = [Some (); Some ()] ∧
  is_Some (l'.(allow) !! a) ∧ is_Some (l'.(allow) !! b) ∧
  l'.(file) = Some text ∧ NewAllowList l.(path) (Contents text) = (Some l'', None) ∧
  l''.(allow) !! b = None.
Proof.
intros Ha Hclean Hab Hb Hpath Hw.
set (m := <[a := ()]> l.(allow)).
pose proof (persist_reload seed (with_allow m l)) as Hload. simpl in Hload.
assert (∀ k, is_Some (m !! k) → clean_id k = true) as Hm.
{ intros k Hk. destruct (decide (a = k)) as [<-|Hne]; [done|]. apply Hclean.
  unfold m in Hk. by rewrite lookup_insert_ne in Hk. }
specialize (Hload Hm Hpath Hw).
eexists [0; 1; 1; 0], _, _, (file_text (snapshot seed m)), _.
split; [|split; [|split; [|split; [|split; [|split]]]]].
1: { simpl. rewrite !bool_decide_false by done. simpl. reflexivity. }
- done.
- autorewrite with acl. simpl. rewrite lookup_insert_ne by done. by rewrite lookup_insert_eq.
- autorewrite with acl. simpl. by rewrite lookup_insert_eq.
- by autorewrite with acl.
- exact Hload.
- autorewrite with acl. simpl. unfold m. by rewrite lookup_insert_ne.
Qed.

End Properties.

(** ** Witnesses *)

Definition acl_ex : AllowList :=
  {| allow := {[ "12D3KooWa" := () ]}; path := "allow.list"; file := None; writable := true |}.

Lemma acl_ex_clean k : is_Some (acl_ex.(allow) !! k) → clean_id k = true.
Proof. unfold acl_ex. simpl. intros [v [<- _]%lookup_singleton_Some]. by vm_compute. Qed.

(** The server admits any id; a comment is gone after a restart. *)
Lemma acl_survives_restart_witness :
  (∃ text, (run (@Remove map_order 0 "12D3KooWb") acl_ex).1.(file) = Some text ∧
    NewAllowList "allow.list" (Contents text)
      = (Some (run (@Remove map_order 0 "12D3KooWb") acl_ex).1, None)) ∧
  ∃ text m, (run (@Add map_order 0 "#b") acl_ex).1.(file) = Some text ∧
    NewAllowList "allow.list" (Contents text) = (Some (with_allow m (run (@Add map_order 0 "#b") acl_ex).1), None) ∧
    is_Some ((run (@Add map_order 0 "#b") acl_ex).1.(allow) !! "#b") ∧
    is_Some (m !! "12D3KooWa") ∧ ¬ is_Some (m !! "#b").
Proof.
  split.
  - destruct (@acl_survives_restart map_order true 0 "12D3KooWb" acl_ex _ eq_refl) as (text & m & Htext & Hload & _ & Hm);
      [done|done| |].
    { intros id line Hid. apply clean_lines_short. by apply acl_ex_clean. }
    exists text. split; [done|]. change "allow.list" with acl_ex.(path). rewrite Hload, Hm by exact acl_ex_clean. done.
  - destruct (@acl_survives_restart map_order false 0 "#b" acl_ex _ eq_refl) as (text & m & Htext & Hload & Hm & _);
      [done|done| |].
    { simpl. intros id line Hid Hline. rewrite lookup_insert_is_Some in Hid. destruct Hid as [<-|[_ Hid]].
      - vm_compute in Hline. apply list_elem_of_singleton in Hline as ->. apply Nat.ltb_lt. by vm_compute.
      - eapply clean_lines_short; [|exact Hline]. by apply acl_ex_clean. }
    exists text, m. split; [done|]. split; [done|]. split; [|split].
    + by eexists; vm_compute.
    + apply Hm. exists "12D3KooWa". split; [by eexists; vm_compute|]. by left.
    + intros (id & Hid & Hin)%Hm. simpl in Hid. rewrite lookup_insert_is_Some in Hid. destruct Hid as [<-|[_ [v Hid]]].
      * vm_compute in Hin. by apply not_elem_of_nil in Hin.
      * apply lookup_singleton_Some in Hid as [<- _]. vm_compute in Hin. by apply list_elem_of_singleton in Hin.
Defined.

Lemma acl_concurrent_add_loses_id_witness :
  ∃ order l' ps text l'',
    sched order acl_ex [@Add map_order 0 "12D3KooWb"; @Add map_order 0 "12D3KooWc"] = (l', ps) ∧
    returned <$> ps = [Some (); Some ()] ∧
    is_Some (l'.(allow) !! "12D3KooWb") ∧ is_Some (l'.(allow) !! "12D3KooWc") ∧
    l'.(file) = Some text ∧ NewAllowList "allow.list" (Contents text) = (Some l'', None) ∧
    l''.(allow) !! "12D3KooWc" = None.
Proof.
  apply (@acl_concurrent_add_loses_id map_order 0 acl_ex);
    [by vm_compute|exact acl_ex_clean|done|done|done|done].
Defined.
