(* ===== verification/MagicLink.v ===== *)
(** * MagicLink: authenticated encryption of JSON values
    (pkg/admin/magiclink/crypt.go).

    AES-GCM is the interface [Aead]; base64.RawURLEncoding is defined here.
    [Encrypt] draws a fresh nonce and returns nonce and ciphertext in base64,
    [Decrypt] undoes it; the methods of MagicLink do the same for the JSON
    text of a value. *)
From Stdlib Require Import Ascii String.
From S2P Require Import Prelude GoStrings Json Api.

(** ** crypto/cipher: AES in Galois counter mode

    [gcm_open_inv] is authenticity: Open recomputes the tag over the
    ciphertext, and under one key and nonce Seal is a bijection onto the
    accepted ciphertexts. *)
Class Aead := {
  gcm_seal : string → string → string → string;
  gcm_open : string → string → string → option string;
  gcm_open_seal key nonce p : gcm_open key nonce (gcm_seal key nonce p) = Some p;
  gcm_open_inv key nonce c p : gcm_open key nonce c = Some p → c = gcm_seal key nonce p
}.

(** ** encoding/base64, RawURLEncoding *)

Definition b64_char (n : nat) : ascii :=
  if bool_decide (n < 26)%nat then byte (65 + n)
  else if bool_decide (n < 52)%nat then byte (71 + n)
  else if bool_decide (n < 62)%nat then byte (n - 4)
  else if bool_decide (n = 62)%nat then "-"%char else "_"%char.

Definition b64_val (c : ascii) : option nat :=
  let n := nat_of_ascii c in
  if bool_decide (65 ≤ n ∧ n ≤ 90)%nat then Some (n - 65)
  else if bool_decide (97 ≤ n ∧ n ≤ 122)%nat then Some (n - 71)
  else if bool_decide (48 ≤ n ∧ n ≤ 57)%nat then Some (n + 4)
  else if bool_decide (n = 45)%nat then Some 62
  else if bool_decide (n = 95)%nat then Some 63 else None.

Fixpoint b64_encode (s : string) : string :=
  match s with
  | "" => ""
  | String a "" =>
      let x := nat_of_ascii a in
      String (b64_char (x / 4)) (String (b64_char ((x mod 4) * 16)) "")
  | String a (String b "") =>
      let x := nat_of_ascii a in let y := nat_of_ascii b in
      String (b64_char (x / 4)) (String (b64_char ((x mod 4) * 16 + y / 16))
        (String (b64_char ((y mod 16) * 4)) ""))
  | String a (String b (String c s')) =>
      let x := nat_of_ascii a in let y := nat_of_ascii b in let z := nat_of_ascii c in
      String (b64_char (x / 4)) (String (b64_char ((x mod 4) * 16 + y / 16))
        (String (b64_char ((y mod 16) * 4 + z / 64))
          (String (b64_char (z mod 64)) (b64_encode s'))))
  end.

(** The decoder skips line ends; the unused low bits of a short last group
    are not checked (the encoding is not Strict). *)
Fixpoint strip_eol (s : string) : string :=
  match s with
  | "" => ""
  | String c s' =>
      if bool_decide (c = "010"%char ∨ c = "013"%char) then strip_eol s' else String c (strip_eol s')
  end.

Fixpoint b64_groups (s : string) : option string :=
  match s with
  | "" => Some ""
  | String _ "" => None
  | String a (String b "") =>
      p ← b64_val a; q ← b64_val b; Some (str1 (byte (p * 4 + q / 16)))
  | String a (String b (String c "")) =>
      p ← b64_val a; q ← b64_val b; r ← b64_val c;
      Some (String (byte (p * 4 + q / 16)) (str1 (byte ((q mod 16) * 16 + r / 4))))
  | String a (String b (String c (String d s'))) =>
      p ← b64_val a; q ← b64_val b; r ← b64_val c; t ← b64_val d;
      rest ← b64_groups s';
      Some (String (byte (p * 4 + q / 16)) (String (byte ((q mod 16) * 16 + r / 4))
        (String (byte ((r mod 4) * 64 + t)) rest)))
  end.
Definition b64_decode (s : string) : option string := b64_groups (strip_eol s).

Lemma b64_val_char n : n < 64 → b64_val (b64_char n) = Some n.
Proof.
  intros Hn. assert (Forall (λ n, b64_val (b64_char n) = Some n) (seq 0 64)) as Hall.
  { by repeat (constructor; [by vm_compute|]). }
  rewrite Forall_forall in Hall. apply Hall, elem_of_seq. lia.
Qed.

Lemma b64_char_no_eol n : n < 64 → bool_decide (b64_char n = "010"%char ∨ b64_char n = "013"%char) = false.
Proof.
  intros Hn. assert (Forall (λ n, bool_decide (b64_char n = "010"%char ∨ b64_char n = "013"%char) = false)
    (seq 0 64)) as Hall.
  { by repeat (constructor; [by vm_compute|]). }
  rewrite Forall_forall in Hall. apply Hall, elem_of_seq. lia.
Qed.

Lemma byte_eq (c : ascii) n : n = nat_of_ascii c → byte n = c.
Proof. intros ->. apply ascii_nat_embedding. Qed.

(** Induction three bytes at a time. *)
Lemma string_ind3 (P : string → Prop) :
  P "" → (∀ a, P (str1 a)) → (∀ a b, P (String a (str1 b))) →
  (∀ a b c s, P s → P (String a (String b (String c s)))) → ∀ s, P s.
Proof.
  intros H0 H1 H2 H3. fix IH 1. intros [|a [|b [|c s]]]; [done|apply H1|apply H2|].
  apply H3, IH.
Qed.

Lemma b64_decode_encode s : b64_decode (b64_encode s) = Some s.
Proof.
  unfold b64_decode.
  induction s as [|a|a b|a b c s IH] using string_ind3; [done|..]; cbn [b64_encode strip_eol str1].
  all: pose proof (byte_lt a); try pose proof (byte_lt b); try pose proof (byte_lt c).
  all: rewrite !b64_char_no_eol by div_lia; cbn [b64_groups].
  all: rewrite !b64_val_char by div_lia; cbn [mbind option_bind].
  3: rewrite IH; cbn [mbind option_bind].
  all: unfold str1; repeat f_equal; apply byte_eq; div_lia.
Qed.

Lemma b64_char_graphic n : n < 64 → graphic (b64_char n) = true.
Proof.
  intros Hn. assert (Forall (λ n, graphic (b64_char n) = true) (seq 0 64)) as Hall.
  { by repeat (constructor; [by vm_compute|]). }
  rewrite Forall_forall in Hall. apply Hall, elem_of_seq. lia.
Qed.

Lemma b64_encode_graphic s : all_bytes graphic (b64_encode s) = true.
Proof.
  induction s as [|a|a b|a b c s IH] using string_ind3; [done|..]; cbn [b64_encode str1 all_bytes].
  all: pose proof (byte_lt a); try pose proof (byte_lt b); try pose proof (byte_lt c).
  all: rewrite !b64_char_graphic by div_lia; done.
Qed.

(** ** Encrypt and Decrypt *)

Section Crypt.
Context `{!Aead}.

Definition EncryptionKey : Type := string.
Definition keySize : nat := 32.

(** crypto/rand fills a buffer or fails. *)
Definition GenerateKey (rand : option string) : result error EncryptionKey :=
  match rand with Some key => Ok key | None => Err (OtherError "rand") end.

(** aes.NewCipher takes keys of 16, 24 and 32 bytes. *)
Definition aes_key_ok (key : EncryptionKey) : bool :=
  bool_decide (String.length key ∈ [16; 24; 32]).
Definition nonceSize : nat := 12.

Definition Encrypt (rand : option string) (plaintext : string) (key : EncryptionKey)
    : result error string :=
  if negb (aes_key_ok key) then Err (OtherError "crypto/aes: invalid key size")
  else match rand with
       | None => Err (OtherError "rand")
       | Some nonce => Ok (b64_encode (nonce +:+ gcm_seal key nonce plaintext))
       end.

Definition Decrypt (ciphertextB64 : string) (key : EncryptionKey) : result error string :=
  match b64_decode ciphertextB64 with
  | None => Err (OtherError "illegal base64 data")
  | Some sealed =>
      if negb (aes_key_ok key) then Err (OtherError "crypto/aes: invalid key size")
      else if bool_decide (String.length sealed < nonceSize)%nat
      then Err (OtherError "ciphertext too short")
      else
        let nonce := take_str nonceSize sealed in
        let ciphertext := drop_str nonceSize sealed in
        match gcm_open key nonce ciphertext with
        | None => Err (OtherError "decrypt failed")
        | Some plain => Ok plain
        end
  end.

(** MagicLink.Encrypt of the tree of a value, MagicLink.Decrypt into one. *)
Definition MagicLink_Encrypt `{!JsonText} (rand : option string) (key : EncryptionKey) (v : json)
    : result error string :=
  Encrypt rand (json_print v) key.

Definition MagicLink_Decrypt `{!JsonText} {A} (key : EncryptionKey) (dec : decoder A) (zero : A)
    (value : string) : result error A :=
  match Decrypt value key with
  | Err e => Err e
  | Ok data =>
      let '(x, ok) := unmarshal dec data zero in
      if ok then Ok x else Err (OtherError "json: cannot unmarshal")
  end.

Lemma take_drop_str n s : n ≤ String.length s → take_str n s +:+ drop_str n s = s.
Proof.
  revert s. induction n as [|n IH]; intros s Hn; [done|].
  destruct s as [|c s]; simpl in *; [lia|]. rewrite append_cons, IH; [done|lia].
Qed.

Lemma length_take_str n s : n ≤ String.length s → String.length (take_str n s) = n.
Proof.
  revert s. induction n as [|n IH]; intros s Hs; [done|].
  destruct s as [|c s]; simpl in *; [lia|]. rewrite IH; lia.
Qed.

Lemma take_str_app p s : take_str (String.length p) (p +:+ s) = p.
Proof. induction p as [|c p IH]; [by destruct s|]. rewrite append_cons. simpl. by rewrite IH. Qed.

Lemma Decrypt_Encrypt nonce p key :
  aes_key_ok key = true → String.length nonce = nonceSize →
  ∃ c, Encrypt (Some nonce) p key = Ok c ∧ Decrypt c key = Ok p.
Proof.
  intros Hkey Hn. unfold Encrypt, Decrypt. rewrite Hkey. cbn [negb]. eexists; split; [done|].
  rewrite b64_decode_encode, bool_decide_false by (rewrite length_append; lia).
  rewrite <-Hn, take_str_app, drop_str_app, gcm_open_seal. done.
Qed.

(** Decrypt accepts only what Encrypt made under the same key. *)
Lemma Decrypt_inv c key p :
  Decrypt c key = Ok p →
  ∃ nonce, String.length nonce = nonceSize ∧
    b64_decode c = Some (nonce +:+ gcm_seal key nonce p).
Proof.
  unfold Decrypt. destruct (b64_decode c) as [sealed|]; [|done].
  destruct (aes_key_ok key); cbn [negb]; [|done]. case_bool_decide as Hlen; [done|].
  destruct (gcm_open key _ _) as [p'|] eqn:Hopen; [|done]. intros [= ->].
  apply gcm_open_inv in Hopen. exists (take_str nonceSize sealed). split.
  - apply length_take_str. lia.
  - rewrite <-Hopen, take_drop_str by lia. done.
Qed.
End Crypt.

(** A toy cipher with the laws, to evaluate the definitions: the "tag" is the
    key and nonce themselves. *)
Module ToyAead.
Definition mac (key nonce : string) : string := key +:+ nonce.
#[export, refine] Instance toy_aead : Aead := {
  gcm_seal key nonce p := mac key nonce +:+ p;
  gcm_open key nonce c :=
    if has_prefix (mac key nonce) c then Some (trim_prefix (mac key nonce) c) else None }.
Proof.
  - intros key nonce p. by rewrite has_prefix_app, trim_prefix_app.
  - intros key nonce c p. destruct (has_prefix _ c) eqn:Hp; [|done].
    apply has_prefix_true in Hp as [t ->]. rewrite trim_prefix_app. by intros [= ->].
Defined.
End ToyAead.

#[global] Arguments drop_str : simpl never.
#[global] Arguments take_str : simpl never.
