(* ===== verification/Auth.v ===== *)
(** * Auth: who is calling (pkg/admin/auth, and the session tokens of
    pkg/admin/api_node.go).

    A request carries a bearer token.  A token that starts with "mesh-" is a
    session token, checked by decrypting it under the server's magic key; any
    other token is looked up among the registered passwords. *)
From Stdlib Require Import Ascii String.
From S2P Require Import Prelude GoStrings Json Api MagicLink.

Definition SessionTokenPrefix : string := "mesh-".

Record Properties := { User : string; Group : string }.

#[export] Instance Properties_eq_dec : EqDecision Properties.
Proof. solve_decision. Defined.

(** TokenAuth: passwords to users, and the session function, nil until
    SetSessionAuth.  TokenUser has the fields of Properties. *)
Record TokenAuth := { users : gmap string Properties; session : option (string → option Properties) }.

Definition NewTokenAuth : TokenAuth := {| users := ∅; session := None |}.
Definition AddUser (user group password : string) (a : TokenAuth) : TokenAuth :=
  {| users := <[password := {| User := user; Group := group |}]> a.(users); session := a.(session) |}.
Definition SetSessionAuth (fn : string → option Properties) (a : TokenAuth) : TokenAuth :=
  {| users := a.(users); session := Some fn |}.

Definition bearer : string := "bearer ".

(** DoAuth of a request with this Authorization header ("" when absent). *)
Definition DoAuth (a : TokenAuth) (header : string) : option Properties * Z :=
  if bool_decide (String.length bearer < String.length header)
     && equal_fold_ascii (take_str (String.length bearer) header) bearer then
    let token := trim_space (drop_str (String.length bearer) header) in
    if has_prefix SessionTokenPrefix token then
      match a.(session) with
      | None => (None, StatusUnauthorized)
      | Some fn =>
          match fn token with
          | None => (None, StatusUnauthorized)
          | Some user => (Some user, StatusOK)
          end
      end
    else
      match a.(users) !! token with
      | None => (None, StatusUnauthorized)
      | Some user => (Some user, StatusOK)
      end
  else (None, StatusUnauthorized).

(** The token a header carries, if it is a bearer header. *)
Definition bearer_token (header : string) : option string :=
  if bool_decide (String.length bearer < String.length header)
     && equal_fold_ascii (take_str (String.length bearer) header) bearer
  then Some (trim_space (drop_str (String.length bearer) header)) else None.

(** ** Session tokens *)

Section Sessions.
Context `{!Aead} `{!JsonText}.

Record sessionClaims := { sc_NodeID : string; sc_Expires : Z }.
Definition sc_zero : sessionClaims := {| sc_NodeID := ""; sc_Expires := 0 |}.
Definition enc_claims (c : sessionClaims) : json :=
  JObj [("NodeID", JStr c.(sc_NodeID)); ("Expires", JInt c.(sc_Expires))].
Definition dec_claims : decoder sessionClaims := dec_struct (λ k v c,
  let '(Build_sessionClaims n e) := c in
  if key_is "NodeID" k then in_field (λ x _, Build_sessionClaims x e) sc_NodeID dec_string v c
  else if key_is "Expires" k then in_field (λ x _, Build_sessionClaims n x) sc_Expires (dec_int 64) v c
  else (c, true)).

(** Time.Unix: whole seconds, rounded down. *)
Definition unix (t : Z) : Z := t / 1000000000.

(** issueSessionToken: [now] is the clock, [rand] the nonce that
    magiclink.Encrypt draws; a lifetime of zero never expires. *)
Definition issueSessionToken (key : EncryptionKey) (nodeID : string) (lifetime now : Z)
    (rand : option string) : result error (string * Z) :=
  let expires := if bool_decide (0 < lifetime)%Z then unix (now + lifetime) else 0%Z in
  let claims := {| sc_NodeID := nodeID; sc_Expires := expires |} in
  match MagicLink_Encrypt rand key (enc_claims claims) with
  | Err e => Err e
  | Ok raw => Ok (SessionTokenPrefix +:+ raw, expires)
  end.

Definition authenticateSessionToken (key : EncryptionKey) (now : Z) (token : string)
    : result error Properties :=
  if negb (has_prefix SessionTokenPrefix token) then Err (OtherError "not a session token")
  else
    let payload := trim_prefix SessionTokenPrefix token in
    match MagicLink_Decrypt key dec_claims sc_zero payload with
    | Err e => Err e
    | Ok claims =>
        if bool_decide (claims.(sc_NodeID) = "") then Err (OtherError "invalid session")
        else if bool_decide (claims.(sc_Expires) ≠ 0 ∧ claims.(sc_Expires) ≤ unix now)%Z
        then Err (OtherError "session expired")
        else Ok {| User := claims.(sc_NodeID); Group := "mesh" |}
    end.

(** The authenticator NewServer sets up: the admin password, and sessions
    under the server's key. *)
Definition server_auth (adminKey : string) (key : EncryptionKey) (now : Z) : TokenAuth :=
  SetSessionAuth (λ token,
    match authenticateSessionToken key now token with Ok props => Some props | Err _ => None end)
    (AddUser "admin" "admin" adminKey NewTokenAuth).

(** ** Lemmas *)

Definition int64_ok (z : Z) : bool := bool_decide (- 2 ^ 63 ≤ z < 2 ^ 63)%Z.

Lemma dec_claims_enc c old :
  int64_ok c.(sc_Expires) = true → dec_claims (enc_claims c) old = (c, true).
Proof.
  destruct c as [n e], old. unfold int64_ok. intros He%bool_decide_eq_true. simpl in He.
  unfold dec_claims, enc_claims. by decode_obj.
Qed.

Lemma enc_claims_utf8 c : utf8_ok c.(sc_NodeID) = true → json_utf8 (enc_claims c) = true.
Proof. intros Hn. simpl. by rewrite Hn. Qed.

(** A token without a lifetime. *)
Lemma issue_authenticates key nodeID now nonce :
  aes_key_ok key = true → String.length nonce = nonceSize → nodeID ≠ "" → utf8_ok nodeID = true →
  ∃ token, issueSessionToken key nodeID 0 now (Some nonce) = Ok (token, 0%Z) ∧
    ∀ now', authenticateSessionToken key now' token = Ok {| User := nodeID; Group := "mesh" |}.
Proof.
  intros Hkey Hnonce Hid Hutf8.
  destruct (Decrypt_Encrypt nonce (json_print (enc_claims {| sc_NodeID := nodeID; sc_Expires := 0 |}))
              key Hkey Hnonce) as (c & Henc & Hdec).
  exists (SessionTokenPrefix +:+ c). unfold issueSessionToken, MagicLink_Encrypt.
  cbn [bool_decide]. rewrite bool_decide_false by lia. rewrite Henc. split; [done|]. intros now'.
  unfold authenticateSessionToken, MagicLink_Decrypt.
  rewrite has_prefix_app, trim_prefix_app, Hdec. cbn [negb].
  rewrite unmarshal_print by (by apply enc_claims_utf8). rewrite dec_claims_enc by done.
  simpl. by rewrite bool_decide_false.
Qed.

(** A token is visible ASCII text. *)
Lemma issue_graphic key nodeID lifetime now rand token expires :
  issueSessionToken key nodeID lifetime now rand = Ok (token, expires) →
  all_bytes graphic token = true ∧ token ≠ "".
Proof.
  unfold issueSessionToken, MagicLink_Encrypt, Encrypt. destruct (negb _); [done|].
  destruct rand as [nonce|]; [|done]. intros [= <- _]. rewrite all_bytes_app, b64_encode_graphic.
  done.
Qed.

(** It is what the server reads of the header that carries it. *)
Lemma bearer_token_graphic token :
  token ≠ "" → all_bytes graphic token = true → bearer_token ("Bearer " +:+ token) = Some token.
Proof.
  intros Hne Hg. unfold bearer_token.
  change (String.length bearer) with (String.length "Bearer "). rewrite take_str_app, drop_str_app.
  rewrite trim_space_graphic by done. rewrite bool_decide_true; [done|].
  rewrite length_append. destruct token; [done|]. simpl. lia.
Qed.

(** What a token must be to be accepted. *)
Lemma authenticate_inv key now token props :
  authenticateSessionToken key now token = Ok props →
  ∃ payload nonce text claims,
    token = SessionTokenPrefix +:+ payload ∧
    b64_decode payload = Some (nonce +:+ gcm_seal key nonce text) ∧
    unmarshal dec_claims text sc_zero = (claims, true) ∧
    claims.(sc_NodeID) ≠ "" ∧ (claims.(sc_Expires) = 0 ∨ unix now < claims.(sc_Expires))%Z ∧
    props = {| User := claims.(sc_NodeID); Group := "mesh" |}.
Proof.
  unfold authenticateSessionToken. destruct (has_prefix _ token) eqn:Hp; simpl; [|done].
  apply has_prefix_true in Hp as [payload ->]. rewrite trim_prefix_app.
  unfold MagicLink_Decrypt. destruct (Decrypt payload key) as [text|] eqn:Hdec; [|done].
  destruct (unmarshal dec_claims text sc_zero) as [claims []] eqn:Hun; [|done].
  case_bool_decide as Hid; [done|]. case_bool_decide as Hexp; [done|]. intros [= <-].
  apply Decrypt_inv in Hdec as (nonce & _ & Hdec).
  exists payload, nonce, text, claims. split_and!; auto. lia.
Qed.

Lemma DoAuth_server_inv adminKey key now header props code :
  DoAuth (server_auth adminKey key now) header = (Some props, code) →
  ∃ token, bearer_token header = Some token ∧ code = StatusOK ∧
    ((props = {| User := "admin"; Group := "admin" |} ∧ token = adminKey ∧
      has_prefix SessionTokenPrefix adminKey = false) ∨
     (props.(Group) = "mesh" ∧ ∃ payload nonce text claims,
        token = SessionTokenPrefix +:+ payload ∧
        b64_decode payload = Some (nonce +:+ gcm_seal key nonce text) ∧
        unmarshal dec_claims text sc_zero = (claims, true) ∧
        props.(User) = claims.(sc_NodeID) ∧ props.(User) ≠ "" ∧
        (claims.(sc_Expires) = 0 ∨ unix now < claims.(sc_Expires))%Z)).
Proof.
  unfold DoAuth, bearer_token. destruct (_ && _); [|done].
  generalize (trim_space (drop_str (String.length bearer) header)). intros token Hauth.
  exists token. split; [done|].
  destruct (has_prefix SessionTokenPrefix token) eqn:Hp.
  - cbn [session server_auth SetSessionAuth] in Hauth.
    destruct (authenticateSessionToken key now token) as [p|] eqn:Ha; [|done].
    simplify_eq. split; [done|]. right.
    apply authenticate_inv in Ha as (pl & n & t & c & ? & ? & ? & ? & ? & ->).
    split; [done|]. by exists pl, n, t, c.
  - cbn [users server_auth SetSessionAuth AddUser NewTokenAuth] in Hauth.
    destruct (decide (adminKey = token)) as [<-|Hne].
    + rewrite lookup_insert_eq in Hauth. injection Hauth as <- <-. split; [done|]. by left.
    + by rewrite lookup_insert_ne, lookup_empty in Hauth.
Qed.

(** The holder of the admin secret is the admin, unless the secret looks
    like a session token. *)
Lemma DoAuth_admin adminKey key now header :
  bearer_token header = Some adminKey → has_prefix SessionTokenPrefix adminKey = false →
  DoAuth (server_auth adminKey key now) header
    = (Some {| User := "admin"; Group := "admin" |}, StatusOK).
Proof.
  unfold bearer_token, DoAuth. destruct (_ && _); [|done].
  generalize (trim_space (drop_str (String.length bearer) header)). intros token [= ->] ->.
  cbn [users server_auth SetSessionAuth AddUser NewTokenAuth]. by rewrite lookup_insert_eq.
Qed.

Lemma DoAuth_code adminKey key now header p c :
  DoAuth (server_auth adminKey key now) header = (p, c) →
  (p = None ∧ c = StatusUnauthorized) ∨ (is_Some p ∧ c = StatusOK).
Proof.
  unfold DoAuth. destruct (_ && _); [|naive_solver]. destruct (has_prefix _ _).
  - destruct (session _) as [fn|]; [|naive_solver]. destruct (fn _); naive_solver.
  - destruct (users _ !! _); naive_solver.
Qed.

(** A live session token in the header is accepted. *)
Lemma DoAuth_session adminKey key now header token props :
  bearer_token header = Some token → authenticateSessionToken key now token = Ok props →
  DoAuth (server_auth adminKey key now) header = (Some props, StatusOK).
Proof.
  unfold bearer_token, DoAuth. destruct (_ && _); [|done].
  generalize (trim_space (drop_str (String.length bearer) header)). intros tok [= ->] Ha.
  assert (has_prefix SessionTokenPrefix token = true) as ->.
  { unfold authenticateSessionToken in Ha. by destruct (has_prefix SessionTokenPrefix token). }
  cbn [session server_auth SetSessionAuth]. by rewrite Ha.
Qed.

(** ** Properties *)

(** C21: A session token issued to a node authenticates that node, as a
    member of group "mesh", as long as the token has not expired. *)
Theorem session_token_roundtrip key nodeID lifetime now now' nonce :
  aes_key_ok key = true → String.length nonce = nonceSize →
  nodeID ≠ "" → utf8_ok nodeID = true →
  (lifetime ≤ 0 ∨ int64_ok (unix (now + lifetime)) = true ∧ unix now' < unix (now + lifetime))%Z →
  ∃ token expires,
    issueSessionToken key nodeID lifetime now (Some nonce) = Ok (token, expires) ∧
    authenticateSessionToken key now' token = Ok {| User := nodeID; Group := "mesh" |}.
Proof.
  intros Hkey Hnonce Hid Hutf8 Hlife.
  set (expires := if bool_decide (0 < lifetime)%Z then unix (now + lifetime) else 0%Z).
  set (claims := {| sc_NodeID := nodeID; sc_Expires := expires |}).
  destruct (Decrypt_Encrypt nonce (json_print (enc_claims claims)) key Hkey Hnonce) as (c & Henc & Hdec).
  exists (SessionTokenPrefix +:+ c), expires. unfold issueSessionToken, MagicLink_Encrypt.
  fold expires claims. rewrite Henc. split; [done|].
  unfold authenticateSessionToken, MagicLink_Decrypt.
  rewrite has_prefix_app, trim_prefix_app, Hdec. cbn [negb].
  rewrite unmarshal_print by (by apply enc_claims_utf8). rewrite dec_claims_enc.
  - simpl. rewrite bool_decide_false by done. rewrite bool_decide_false; [done|].
    unfold expires. case_bool_decide; lia.
  - simpl. unfold expires. case_bool_decide; [|done]. destruct Hlife as [?|[? _]]; [lia|done].
Qed.

(** C20: Nobody becomes admin with a session token and no session without
    the key: DoAuth on the server's authenticator accepts a header only in
    two ways.  Group "admin" is given exactly to the holder of the admin
    secret, when the secret does not itself look like a session token; and
    every other accepted caller presented "mesh-" followed by the base64
    of a ciphertext sealed under the server's key whose claims name it. *)
Theorem server_auth_sound adminKey key now header props code :
  DoAuth (server_auth adminKey key now) header = (Some props, code) →
  ∃ token, bearer_token header = Some token ∧ code = StatusOK ∧
    ((props = {| User := "admin"; Group := "admin" |} ∧ token = adminKey ∧
      has_prefix SessionTokenPrefix adminKey = false) ∨
     (props.(Group) = "mesh" ∧ ∃ payload nonce text claims,
        token = SessionTokenPrefix +:+ payload ∧
        b64_decode payload = Some (nonce +:+ gcm_seal key nonce text) ∧
        unmarshal dec_claims text sc_zero = (claims, true) ∧
        props.(User) = claims.(sc_NodeID) ∧ props.(User) ≠ "" ∧
        (claims.(sc_Expires) = 0 ∨ unix now < claims.(sc_Expires))%Z)).
Proof. apply DoAuth_server_inv. Qed.
End Sessions.

(** ** Witnesses *)

Module AuthEx.
Import ToyAead Codec.
Definition key32 : string := "0123456789abcdef0123456789abcdef".
Definition nonce12 : string := "nonce-------".
Definition session_header : string :=
  match issueSessionToken key32 "12D3KooWa" 0 0 (Some nonce12) with
  | Ok (t, _) => "Bearer " +:+ t
  | Err _ => ""
  end.
End AuthEx.

Lemma session_token_roundtrip_witness :
  ∃ token expires,
    @issueSessionToken ToyAead.toy_aead Codec.json_text AuthEx.key32 "12D3KooWa" 3000000000 0
      (Some AuthEx.nonce12) = Ok (token, expires) ∧
    @authenticateSessionToken ToyAead.toy_aead Codec.json_text AuthEx.key32 2000000000 token
      = Ok {| User := "12D3KooWa"; Group := "mesh" |}.
Proof.
  apply session_token_roundtrip; [by vm_compute|done|done|by vm_compute|].
  right. split; [by vm_compute|by vm_compute].
Defined.

Lemma server_auth_sound_witness :
  ∃ token, bearer_token AuthEx.session_header = Some token ∧ StatusOK = StatusOK ∧
    (({| User := "12D3KooWa"; Group := "mesh" |} = {| User := "admin"; Group := "admin" |} ∧ token = "secret" ∧
      has_prefix SessionTokenPrefix "secret" = false) ∨
     (Group {| User := "12D3KooWa"; Group := "mesh" |} = "mesh" ∧ ∃ payload nonce text claims,
        token = SessionTokenPrefix +:+ payload ∧
        b64_decode payload = Some (nonce +:+ @gcm_seal ToyAead.toy_aead AuthEx.key32 nonce text) ∧
        @unmarshal Codec.json_text _ dec_claims text sc_zero = (claims, true) ∧
        "12D3KooWa" = claims.(sc_NodeID) ∧ "12D3KooWa" ≠ "" ∧
        (claims.(sc_Expires) = 0 ∨ unix 0 < claims.(sc_Expires))%Z)).
Proof.
  apply (@server_auth_sound ToyAead.toy_aead Codec.json_text "secret" AuthEx.key32 0
           AuthEx.session_header {| User := "12D3KooWa"; Group := "mesh" |} StatusOK).
  by vm_compute.
Defined.
