(* ===== verification/Mux.v ===== *)
(** * Mux: net/http's ServeMux, as far as the sources use it.

    A pattern has an optional method and a path of literal segments and named
    wildcards; a trailing slash makes it match every path below.  Paths are
    the lists of their unescaped segments after the first slash, already
    clean (the mux redirects an unclean path before it matches): "/ui/" is
    ["ui"; ""], "/" is [""].  A request goes to the pattern the routing tree
    finds: patterns of its method first (GET serves HEAD), then patterns
    without a method; at each segment the literal first, then a wildcard,
    then a trailing slash. *)
From Stdlib Require Import Ascii String.
From S2P Require Import Prelude GoStrings.

Inductive seg : Type :=
  | Lit (s : string)
  | Var (name : string).

Record pattern (H : Type) := Pattern {
  p_method : string; p_segs : list seg; p_tail : bool; p_handler : H }.
Arguments Pattern {H}.
Arguments p_method {H}.
Arguments p_segs {H}.
Arguments p_tail {H}.
Arguments p_handler {H}.

(** What a match gives: the handler and the values of the wildcards. *)
Definition matched (H : Type) : Type := option (H * list (string * string)).

Section Mux.
Context {H : Type}.

(** A candidate: what is left of the pattern, and the wildcards bound so far. *)
Definition cand : Type := list seg * bool * H * list (string * string).

Definition step_lit (s : string) (c : cand) : option cand :=
  match c with
  | (Lit s' :: segs, tail, h, vars) => if decide (s' = s) then Some (segs, tail, h, vars) else None
  | _ => None
  end.
(** A wildcard does not match the empty segment of a trailing slash. *)
Definition step_var (s : string) (c : cand) : option cand :=
  match c with
  | (Var x :: segs, tail, h, vars) =>
      if decide (s = "") then None else Some (segs, tail, h, vars ++ [(x, s)])
  | _ => None
  end.
Definition ends_exact (c : cand) : option (H * list (string * string)) :=
  match c with ([], false, h, vars) => Some (h, vars) | _ => None end.
Definition ends_tail (c : cand) : option (H * list (string * string)) :=
  match c with ([], true, h, vars) => Some (h, vars) | _ => None end.

Fixpoint match_path (path : list string) (cs : list cand) : matched H :=
  match path with
  | [] => head (omap ends_exact cs)
  | s :: path' =>
      match match_path path' (omap (step_lit s) cs) with
      | Some m => Some m
      | None =>
          match match_path path' (omap (step_var s) cs) with
          | Some m => Some m
          | None => head (omap ends_tail cs)
          end
      end
  end.

Definition candidates (method : string) (ps : list (pattern H)) : list cand :=
  omap (λ p, if decide (p.(p_method) = method)
             then Some (p.(p_segs), p.(p_tail), p.(p_handler), []) else None) ps.

Definition route (ps : list (pattern H)) (method : string) (path : list string) : matched H :=
  let by_method m := match_path path (candidates m ps) in
  match by_method method with
  | Some m => Some m
  | None =>
      match (if bool_decide (method = "HEAD") then by_method "GET" else None) with
      | Some m => Some m
      | None => by_method ""
      end
  end.

(** Request.PathValue: "" for an unknown name. *)
Fixpoint path_value (vars : list (string * string)) (name : string) : string :=
  match vars with
  | [] => ""
  | (x, v) :: vars' => if decide (x = name) then v else path_value vars' name
  end.

(** The declarative reading of a pattern: the wildcards' values when the
    pattern matches the path. *)
Fixpoint seg_match (segs : list seg) (tail : bool) (path : list string)
    : option (list (string * string)) :=
  match segs, path with
  | [], [] => if tail then None else Some []
  | [], _ :: _ => if tail then Some [] else None
  | Lit s' :: segs', s :: path' => if decide (s' = s) then seg_match segs' tail path' else None
  | Var x :: segs', s :: path' =>
      if decide (s = "") then None
      else vars ← seg_match segs' tail path'; Some ((x, s) :: vars)
  | _ :: _, [] => None
  end.

Lemma match_path_sound path cs h vars :
  match_path path cs = Some (h, vars) →
  ∃ segs tail vars0 vars1, (segs, tail, h, vars0) ∈ cs ∧
    seg_match segs tail path = Some vars1 ∧ vars = vars0 ++ vars1.
Proof.
  revert cs vars. induction path as [|s path IH]; intros cs vars; cbn [match_path].
  { intros Hm%head_Some_elem_of%list_elem_of_omap.
    destruct Hm as ([[[segs tail] h'] vars0] & Hc & Hend).
    destruct segs, tail; simplify_eq/=. eexists [], false, vars, []. by rewrite app_nil_r. }
  destruct (match_path path (omap (step_lit s) cs)) as [[h' vars']|] eqn:Hlit.
  { intros [= -> ->]. apply IH in Hlit as (segs & tail & v0 & v1 & Hc & Hm & ->).
    apply list_elem_of_omap in Hc as ([[[[|[s'|x] segs'] tail'] h''] v0'] & Hc & Hs); simplify_eq/=.
    case_decide; [|done]. simplify_eq. exists (Lit s :: segs), tail, v0, v1. split; [done|].
    cbn [seg_match]. by rewrite decide_True. }
  destruct (match_path path (omap (step_var s) cs)) as [[h' vars']|] eqn:Hvar.
  { intros [= -> ->]. apply IH in Hvar as (segs & tail & v0 & v1 & Hc & Hm & ->).
    apply list_elem_of_omap in Hc as ([[[[|[s'|x] segs'] tail'] h''] v0'] & Hc & Hs); simplify_eq/=.
    case_decide; [done|]. simplify_eq. exists (Var x :: segs), tail, v0', ((x, s) :: v1).
    split; [done|]. cbn [seg_match]. rewrite decide_False, Hm by done. by rewrite <-app_assoc. }
  intros Hm%head_Some_elem_of%list_elem_of_omap.
  destruct Hm as ([[[segs tail] h'] vars0] & Hc & Hend).
  destruct segs, tail; simplify_eq/=. eexists [], true, vars, []. by rewrite app_nil_r.
Qed.

(** The request's handler comes from a pattern of the table that matches
    its path, with the values of that match. *)
Lemma route_sound ps method path h vars :
  route ps method path = Some (h, vars) →
  ∃ p, p ∈ ps ∧ p.(p_handler) = h ∧ seg_match p.(p_segs) p.(p_tail) path = Some vars.
Proof.
  assert (∀ mth, match_path path (candidates mth ps) = Some (h, vars) →
    ∃ p, p ∈ ps ∧ p.(p_handler) = h ∧ seg_match p.(p_segs) p.(p_tail) path = Some vars) as Hm.
  { intros mth (segs & tail & v0 & v1 & Hc & Hsm & ->)%match_path_sound.
    apply list_elem_of_omap in Hc as (p & Hp & Hcand). case_decide; [|done].
    simplify_eq. by exists p. }
  unfold route. destruct (match_path path (candidates method ps)) eqn:H1; [naive_solver|].
  case_bool_decide; [|naive_solver].
  destruct (match_path path (candidates "GET" ps)) eqn:H2; naive_solver.
Qed.
End Mux.
