(* ===== verification/UrlPath.v ===== *)
(** * UrlPath: the path of a URL, from the client's text to the segments the
    mux matches.

    What net/url and net/http do between the location that a client asks for
    and the segments that ServeMux compares: the query and the fragment are
    cut off, the path is sent in its escaped form (URL.EscapedPath), cleaned
    (path.Clean), and unescaped segment by segment.  A path that is not clean
    is redirected to the clean one. *)
From Stdlib Require Import Ascii String.
From S2P Require Import Prelude GoStrings.

(** ** Clean, of path and path/filepath *)

(** Clean, on the elements between the slashes: [out] is what was kept, the
    last element first. *)
Fixpoint clean_elems (rooted : bool) (out elems : list string) : list string :=
  match elems with
  | [] => rev out
  | e :: elems' =>
      if bool_decide (e = "" ∨ e = ".") then clean_elems rooted out elems'
      else if bool_decide (e = "..") then
        match out with
        | [] => clean_elems rooted (if rooted then [] else [".."]) elems'
        | o :: out' => if bool_decide (o = "..") then clean_elems rooted (".." :: out) elems'
                       else clean_elems rooted out' elems'
        end
      else clean_elems rooted (e :: out) elems'
  end.

Definition Clean (path : string) : string :=
  let rooted := has_prefix "/" path in
  match clean_elems rooted [] (split_on slash path) with
  | [] => if rooted then "/" else "."
  | elems => (if rooted then "/" else "") +:+ join "/" elems
  end.

(** An element that Clean keeps as it is. *)
Definition kept (e : string) : Prop := e ≠ "" ∧ e ≠ "." ∧ e ≠ ".." ∧ has_byte slash e = false.
Definition path_of (elems : list string) : string := "/" +:+ join "/" elems.

Lemma clean_kept rooted out elems : Forall kept elems → clean_elems rooted out elems = rev out ++ elems.
Proof.
  intros Hk. revert out. induction Hk as [|e elems (Hne & Hd & Hdd & _) _ IH]; intros out; cbn [clean_elems].
  { by rewrite app_nil_r. }
  rewrite !bool_decide_false by naive_solver. rewrite IH. simpl. by rewrite <-app_assoc.
Qed.

Lemma split_join elems :
  elems ≠ [] → Forall (λ e, has_byte slash e = false) elems → split_on slash (join "/" elems) = elems.
Proof.
  intros Hne Hall. induction Hall as [|e elems He Hall IH]; [done|].
  destruct elems as [|e' elems]; [by apply split_on_single|].
  rewrite join_cons by done. change (e +:+ "/" +:+ ?x) with (e +:+ String slash x). by rewrite split_on_app, IH.
Qed.

Lemma kept_no_slash elems : Forall kept elems → Forall (λ e, has_byte slash e = false) elems.
Proof. intros H. eapply Forall_impl; [exact H|]. by intros e (_ & _ & _ & ?). Qed.

(** [path_of] without the slash of the root. *)
Definition base_of (elems : list string) : string := join "/" ("" :: elems).

Lemma base_path elems : elems ≠ [] → path_of elems = base_of elems.
Proof. intros Hne. unfold path_of, base_of. by rewrite join_cons. Qed.

Lemma join_snoc x l e : join "/" ((x :: l) ++ [e]) = join "/" (x :: l) +:+ "/" +:+ e.
Proof.
  revert x. induction l as [|y l IH]; intros x; [done|].
  change ((x :: y :: l) ++ [e]) with (x :: ((y :: l) ++ [e])). rewrite join_cons by by destruct l.
  rewrite (join_cons "/" x (y :: l)), IH by done. by rewrite !append_assoc.
Qed.

Lemma path_snoc elems e : path_of (elems ++ [e]) = base_of elems +:+ "/" +:+ e.
Proof. rewrite base_path by by destruct elems. unfold base_of. by rewrite app_comm_cons, join_snoc. Qed.

Lemma split_base elems : Forall kept elems → split_on slash (base_of elems) = "" :: elems.
Proof. intros Hk%kept_no_slash. apply split_join; [done|]. by constructor. Qed.

Lemma base_rooted elems t : has_prefix "/" (base_of elems +:+ "/" +:+ t) = true.
Proof. destruct elems as [|e elems]; [done|]. unfold base_of. by rewrite join_cons, !append_assoc. Qed.

(** Clean keeps an absolute path, with or without a slash at the end. *)
Lemma Clean_path elems : Forall kept elems → Clean (path_of elems) = path_of elems.
Proof.
  intros Hk. destruct elems as [|e elems] using rev_ind; [by vm_compute|clear IHelems].
  unfold Clean. rewrite path_snoc, base_rooted, <-path_snoc, base_path by by destruct elems.
  rewrite split_base by done. cbn [clean_elems]. rewrite bool_decide_true, clean_kept by (by left || done).
  change (rev [] ++ ?l) with l. rewrite <-base_path by by destruct elems. by destruct elems.
Qed.

(** ** Escapes (net/url) *)

Definition alnum_byte (c : ascii) : bool :=
  let n := nat_of_ascii c in
  bool_decide (48 ≤ n ≤ 57)%nat || bool_decide (65 ≤ n ≤ 90)%nat || bool_decide (97 ≤ n ≤ 122)%nat.
(** shouldEscape and the bytes validEncoded accepts, for a path. *)
Definition should_escape (c : ascii) : bool :=
  negb (alnum_byte c
        || bool_decide (c ∈ ["-"; "_"; "."; "~"; "$"; "&"; "+"; ","; "/"; ":"; ";"; "="; "@"]%char)).
Definition valid_byte (c : ascii) : bool :=
  negb (should_escape c) || bool_decide (c ∈ ["!"; "'"; "("; ")"; "*"; "["; "]"; "%"]%char).

Definition upper_hex (n : nat) : ascii := ascii_of_nat (if bool_decide (n < 10)%nat then 48 + n else 55 + n).
Definition hex_value (c : ascii) : option nat :=
  let n := nat_of_ascii c in
  if bool_decide (48 ≤ n ≤ 57)%nat then Some (n - 48)
  else if bool_decide (65 ≤ n ≤ 70)%nat then Some (n - 55)
  else if bool_decide (97 ≤ n ≤ 102)%nat then Some (n - 87) else None.

Fixpoint escape (s : string) : string :=
  match s with
  | "" => ""
  | String c s' =>
      if should_escape c
      then String "%" (String (upper_hex (nat_of_ascii c / 16)) (String (upper_hex (nat_of_ascii c mod 16)) (escape s')))
      else String c (escape s')
  end.
(** A malformed escape is no URL: http.NewRequest fails ([NewRequestText]). *)
Fixpoint unescape (s : string) : string :=
  match s with
  | "" => ""
  | String c s1 =>
      match s1 with
      | String a (String b s2) =>
          match hex_value a, hex_value b with
          | Some x, Some y =>
              if decide (c = "%"%char) then String (ascii_of_nat (16 * x + y)) (unescape s2)
              else String c (unescape s1)
          | _, _ => String c (unescape s1)
          end
      | _ => String c (unescape s1)
      end
  end.

(** ** From the location to the segments *)

(** The path of a location, without fragment and query; the empty path is
    sent as the root. *)
Definition url_path (location : string) : string :=
  let p := (cut_at "?" (cut_at "#" location).1).1 in if bool_decide (p = "") then "/" else p.
(** URL.EscapedPath of the URL that was parsed from it. *)
Definition escaped_path (p : string) : string := if all_bytes valid_byte p then p else escape (unescape p).

(** net/http's cleanPath: path.Clean that keeps a slash at the end. *)
Definition clean_path (p : string) : string :=
  let np := Clean p in
  if bool_decide (last (split_on slash p) = Some "" ∧ np ≠ "/") then np +:+ "/" else np.

(** The segments ServeMux matches; None when the path is not clean. *)
Definition clean_segments (location : string) : option (list string) :=
  let p := escaped_path (url_path location) in
  if bool_decide (clean_path p = p) then Some (unescape <$> tail (split_on slash p)) else None.
(** The segments of the request that follows the redirect: the location has
    the escaped path, escaped once more. *)
Definition redirected_segments (location : string) : list string :=
  tail (split_on slash (clean_path (escaped_path (url_path location)))).

(** ** Lemmas *)

Lemma hex_value_upper n : (n < 16)%nat → hex_value (upper_hex n) = Some n.
Proof. intros Hn. do 16 (destruct n as [|n]; [by vm_compute|]). lia. Qed.

Lemma unescape_other c s : c ≠ "%"%char → unescape (String c s) = String c (unescape s).
Proof.
  intros Hc. cbn [unescape]. destruct s as [|a [|b s]]; [done..|].
  destruct (hex_value a), (hex_value b); try done. by rewrite decide_False.
Qed.

Lemma unescape_escaped s : unescape (escape s) = s.
Proof.
  induction s as [|c s IH]; [done|]. cbn [escape]. destruct (should_escape c) eqn:Hc.
  - pose proof (byte_lt c) as Hlt. cbn [unescape]. rewrite !hex_value_upper by div_lia.
    rewrite decide_True by done. rewrite IH, <-Nat.div_mod by done. by rewrite ascii_nat_embedding.
  - rewrite unescape_other, IH; [done|]. intros ->. by vm_compute in Hc.
Qed.

Lemma unescape_id s : without "%" s = true → unescape s = s.
Proof.
  unfold without. induction s as [|c s IH]; [done|]. cbn [all_bytes].
  rewrite andb_true_iff, bool_decide_eq_true. intros [Hc Hs]. by rewrite unescape_other, IH.
Qed.

Lemma escape_app s t : escape (s +:+ t) = escape s +:+ escape t.
Proof.
  induction s as [|c s IH]; [done|]. rewrite append_cons. cbn [escape]. rewrite IH. by destruct (should_escape c).
Qed.

Lemma escape_join l : escape (join "/" l) = join "/" (escape <$> l).
Proof.
  induction l as [|e l IH]; [done|]. destruct l as [|e' l]; [done|].
  rewrite fmap_cons, !join_cons by done. by rewrite !escape_app, IH.
Qed.

Lemma upper_hex_bytes n : (n < 16)%nat → upper_hex n ≠ slash.
Proof. intros Hn. do 16 (destruct n as [|n]; [by vm_compute|]). lia. Qed.

Lemma escape_no_slash s : has_byte slash s = false → has_byte slash (escape s) = false.
Proof.
  rewrite !has_byte_without_eq, !negb_false_iff. unfold without.
  induction s as [|c s IH]; [done|]. cbn [all_bytes escape]. rewrite andb_true_iff. intros [Hc Hs].
  pose proof (byte_lt c). destruct (should_escape c); cbn [all_bytes]; rewrite IH by done; [|by rewrite Hc].
  rewrite !bool_decide_true; [done|apply upper_hex_bytes; div_lia..|done].
Qed.

Lemma cut_at_none c s : without c s = true → (cut_at c s).1 = s.
Proof.
  unfold without. induction s as [|d s IH]; [done|]. cbn [all_bytes cut_at].
  rewrite andb_true_iff, bool_decide_eq_true. intros [Hd Hs]. rewrite decide_False by done.
  specialize (IH Hs). destruct (cut_at c s). cbn [fst] in *. by rewrite IH.
Qed.

(** A segment that a client may write as it is. *)
Definition plain_segment (e : string) : bool :=
  bool_decide (e ≠ "" ∧ e ≠ "." ∧ e ≠ "..") &&
  without slash e && without "%" e && without "?" e && without "#" e.

Lemma plain_segment_spec e :
  plain_segment e = true →
  kept e ∧ without "%" e = true ∧ without "?" e = true ∧ without "#" e = true.
Proof.
  unfold plain_segment, kept. rewrite !andb_true_iff, bool_decide_eq_true.
  intros [[[[(? & ? & ?) Hs] ?] ?] ?]. by rewrite has_byte_without_eq, Hs.
Qed.

Lemma plain_segment_ne e : plain_segment e = true → e ≠ "".
Proof. by intros ((? & _) & _)%plain_segment_spec. Qed.

Lemma without_join c l :
  c ≠ slash → Forall (λ e, without c e = true) l → without c (join "/" l) = true.
Proof.
  intros Hc. unfold without. induction 1 as [|e l He Hl IH]; [done|]. destruct l as [|e' l]; [done|].
  rewrite join_cons, !all_bytes_app, He, IH by done. cbn. by rewrite bool_decide_true.
Qed.

Lemma without_path c elems :
  c ≠ slash → Forall (λ e, without c e = true) elems → without c (path_of elems) = true.
Proof.
  intros Hc Hl. unfold path_of. change ("/" +:+ ?s) with (String slash s). unfold without. cbn [all_bytes].
  rewrite bool_decide_true by done. by apply without_join.
Qed.

Lemma escape_kept e : kept e → kept (escape e).
Proof.
  intros (Hne & Hd & Hdd & Hs). pose proof (unescape_escaped e) as He. unfold kept.
  split_and!; [intros Heq; rewrite Heq in He; subst e; by vm_compute in Hne, Hd, Hdd..|by apply escape_no_slash].
Qed.

Lemma clean_path_of elems : elems ≠ [] → Forall kept elems → clean_path (path_of elems) = path_of elems.
Proof.
  intros Hne Hk. unfold clean_path. rewrite Clean_path by done.
  rewrite bool_decide_false; [done|]. rewrite base_path, split_base by done. intros [Hlast _].
  destruct elems as [|e elems _] using rev_ind; [done|]. rewrite app_comm_cons, last_snoc in Hlast.
  apply Forall_app in Hk as [_ [(Hx & _) _]%Forall_cons]. by injection Hlast.
Qed.

(** A path of plain segments arrives as these segments. *)
Lemma clean_segments_plain elems :
  elems ≠ [] → Forall (λ e, plain_segment e = true) elems → clean_segments (path_of elems) = Some elems.
Proof.
  intros Hne Hall.
  assert (Forall kept elems ∧ Forall (λ e, without "%" e = true) elems ∧ Forall (λ e, without "?" e = true) elems ∧
    Forall (λ e, without "#" e = true) elems) as (Hk & Hp & Hq & Hh).
  { split_and!; (eapply Forall_impl; [exact Hall|]; by intros e (? & ? & ? & ?)%plain_segment_spec). }
  unfold clean_segments, url_path. rewrite (cut_at_none "#"), (cut_at_none "?") by (by apply without_path).
  rewrite (bool_decide_false (path_of elems = "")) by (unfold path_of; by rewrite append_cons). unfold escaped_path. destruct (all_bytes valid_byte _).
  - rewrite bool_decide_true by (by apply clean_path_of). rewrite base_path, split_base by done. cbn [tail].
    f_equal. rewrite <-(list_fmap_id elems) at 2. apply Forall_fmap_ext_1. eapply Forall_impl; [exact Hp|].
    intros e He. by apply unescape_id.
  - rewrite unescape_id by (by apply without_path).
    assert (escape (path_of elems) = path_of (escape <$> elems)) as ->.
    { unfold path_of. rewrite escape_app, escape_join. done. }
    assert (Forall kept (escape <$> elems)) as Hk' by (apply Forall_fmap; eapply Forall_impl; [exact Hk|]; apply escape_kept).
    assert (escape <$> elems ≠ []) as Hne' by (by destruct elems).
    rewrite bool_decide_true by (by apply clean_path_of). rewrite base_path, split_base by done. cbn [tail].
    f_equal. rewrite <-list_fmap_compose. transitivity (id <$> elems); [|apply list_fmap_id].
    apply list_fmap_ext. intros i e _. apply unescape_escaped.
Qed.
