(* ===== verification/Durations.v ===== *)
(** * Durations: time.Duration and the float64 of its seconds.

    A duration is an int64 of nanoseconds.  Duration.Seconds is a float64, so
    its arithmetic is that of the Standard Library's specification of IEEE 754
    in binary64; the lemmas bound what rounding does to the whole seconds. *)
From Stdlib Require Import ZArith.
From S2P Require Import Prelude.
From Stdlib Require Import SpecFloat.
#[local] Open Scope Z_scope.

(** ** Conversions and seconds *)

Definition Second : Z := 1000000000.

(** float64(k) for an int64: the nearest float64. *)
Definition float64_of_int (k : Z) : spec_float := binary_normalize 53 1024 k 0 false.

(** time.Second as a float64, and Duration.Seconds: / and % truncate. *)
Definition second_float : spec_float := Eval vm_compute in float64_of_int Second.
Definition Seconds (d : Z) : spec_float :=
  SFadd 53 1024 (float64_of_int (Z.quot d Second)) (SFdiv 53 1024 (float64_of_int (Z.rem d Second)) second_float).

(** What uint64(f) is when the integer part of f is out of range: the machine
    decides. *)
Class UintOfFloat := {
  uint64_out : spec_float → Z;
  uint64_out_range f : 0 ≤ uint64_out f < 2 ^ 64
}.

(** uint64(f) cuts off the fraction. *)
Definition uint64_of_float `{!UintOfFloat} (f : spec_float) : Z :=
  let fits v := if bool_decide (0 ≤ v < 2 ^ 64) then v else uint64_out f in
  match f with
  | S754_zero _ => 0
  | S754_finite s m e =>
      let a := if bool_decide (0 ≤ e) then Zpos m * 2 ^ e else Zpos m / 2 ^ (- e) in
      fits (if s then - a else a)
  | S754_infinity _ | S754_nan => uint64_out f
  end.

Lemma uint64_of_float_range `{!UintOfFloat} f : 0 ≤ uint64_of_float f < 2 ^ 64.
Proof.
  unfold uint64_of_float. destruct f; try apply uint64_out_range; [lia|].
  case_bool_decide; [done|apply uint64_out_range].
Qed.

(** ** Rounding to 53 bits *)

Abbreviation round_aux := (binary_round_aux 53 1024 false).

Lemma digits_log2 p : Zpos (digits2_pos p) = Z.log2 (Zpos p) + 1.
Proof.
  assert (∀ q, digits2_pos q = Pos.size q) as H by (induction q; simpl; congruence).
  rewrite H. destruct p; simpl; lia.
Qed.

Lemma shr_1_half x : 0 ≤ shr_m x → shr_m (shr_1 x) = shr_m x / 2.
Proof.
  destruct x as [[|[p|p|]|p] r s]; cbn [shr_m shr_1]; intros H; try lia;
    rewrite ?Pos2Z.inj_xI, ?(Pos2Z.inj_xO p); Z.to_euclidean_division_equations; lia.
Qed.

Lemma iter_shr_1 n x : 0 ≤ shr_m x → shr_m (iter_pos shr_1 n x) = shr_m x / 2 ^ Zpos n.
Proof.
  revert x. induction n as [n IH|n IH|]; intros x Hx; cbn [iter_pos].
  - assert (0 ≤ shr_m (shr_1 x)) as H1 by (rewrite shr_1_half by done; apply Z.div_pos; lia).
    assert (0 ≤ shr_m (iter_pos shr_1 n (shr_1 x))) as H2 by (rewrite IH by done; apply Z.div_pos; lia).
    rewrite IH, IH, shr_1_half by done. rewrite !Z.div_div by lia. f_equal.
    rewrite <-Z.pow_add_r, <-Z.pow_succ_r by lia. f_equal. lia.
  - assert (0 ≤ shr_m (iter_pos shr_1 n x)) as H2 by (rewrite IH by done; apply Z.div_pos; lia).
    rewrite IH, IH by done. rewrite !Z.div_div by lia. f_equal.
    rewrite <-Z.pow_add_r by lia. f_equal. lia.
  - by apply shr_1_half.
Qed.

Lemma shr_m_of_loc m l : shr_m (shr_record_of_loc m l) = m.
Proof. by destruct l as [|[]]. Qed.

(** Shifting a mantissa of at least 53 bits. *)
Lemma shr_fexp_wide m e l (n := Z.log2 m - 52) :
  2 ^ 52 ≤ m → -1074 ≤ e → ∃ r, shr_fexp 53 1024 m e l = (r, e + n) ∧ shr_m r = m / 2 ^ n ∧
     (n = 0 → r = shr_record_of_loc m l).
Proof.
  intros Hm He. assert (52 ≤ Z.log2 m) as Hl by (by apply Z.log2_le_pow2; lia).
  unfold shr_fexp. assert (fexp 53 1024 (Zdigits2 m + e) - e = n) as ->.
  { destruct m as [|p|p]; [lia| |lia]. cbn [Zdigits2]. rewrite digits_log2. unfold fexp, emin, n. lia. }
  unfold shr. destruct n as [|p|p] eqn:Hn; [|eexists; split_and!; [done| |done]|lia].
  - eexists. split_and!; [by rewrite Z.add_0_r| |done]. by rewrite shr_m_of_loc, Z.div_1_r.
  - rewrite iter_shr_1 by (rewrite shr_m_of_loc; lia). by rewrite shr_m_of_loc.
Qed.

Lemma round_nearest_cases q l : round_nearest_even q l = q ∨ round_nearest_even q l = q + 1.
Proof. destruct l as [|[]]; cbn; try tauto. destruct (Z.even q); tauto. Qed.

(** The result is one of the two neighbours in 53 bits, and exact if there is
    nothing to cut off. *)
Lemma round_aux_neighbour m e l (n := Z.log2 m - 52) :
  2 ^ 52 ≤ m → -1074 ≤ e → e + n ≤ 900 → ∃ m' e' r,
    round_aux m e l = S754_finite false m' e' ∧ e + n ≤ e' ≤ e + n + 1 ∧ Zpos m' * 2 ^ (e' - (e + n)) = r ∧
    (r = m / 2 ^ n ∨ r = m / 2 ^ n + 1) ∧ (n = 0 → l = loc_Exact → r = m).
Proof.
  intros Hm He Hen. assert (52 ≤ Z.log2 m) as Hl by (by apply Z.log2_le_pow2; lia).
  unfold binary_round_aux. destruct (shr_fexp_wide m e l Hm He) as (x & -> & Hx & Hx0). fold n in Hx, Hx0 |- *.
  set (q := m / 2 ^ n) in *.
  assert (2 ^ 52 ≤ q < 2 ^ 53) as Hq.
  { destruct (Z.log2_spec m) as [H1 H2]; [lia|]. unfold q. split.
    - apply Z.div_le_lower_bound; [lia|]. rewrite <-Z.pow_add_r by lia. unfold n. by replace (_ - 52 + 52) with (Z.log2 m) by lia.
    - apply Z.div_lt_upper_bound; [lia|]. rewrite <-Z.pow_add_r by lia. unfold n.
      by replace (_ - 52 + 53) with (Z.succ (Z.log2 m)) by lia. }
  set (r := round_nearest_even (shr_m x) (loc_of_shr_record x)).
  assert (r = q ∨ r = q + 1) as Hr by (unfold r; rewrite Hx; apply round_nearest_cases).
  assert (n = 0 → l = loc_Exact → r = m) as Hr0.
  { intros Hn ->. unfold r. by rewrite (Hx0 Hn). }
  destruct (shr_fexp_wide r (e + n) loc_Exact) as (y & -> & Hy & Hy0); [lia..|].
  rewrite Hy. assert (r = 2 ^ 53 ∨ Z.log2 r = 52) as Hr53.
  { destruct (decide (r = 2 ^ 53)); [by left|right]. apply Z.log2_unique; lia. }
  destruct Hr53 as [->|Hlr].
  - change (Z.log2 (2 ^ 53) - 52) with 1. change (2 ^ 53 / 2 ^ 1) with (2 ^ 52).
    change (2 ^ 52) with (Zpos (2 ^ 52)%positive). cbn [Z.sub].
    rewrite (proj2 (Z.leb_le _ _)) by (cbn; lia). do 3 eexists. split_and!; [done|lia|lia| |exact Hr|exact Hr0].
    replace (e + n + 1 - (e + n)) with 1 by lia. done.
  - rewrite Hlr. change (52 - 52) with 0. rewrite Z.pow_0_r, Z.div_1_r.
    destruct r as [|p|p] eqn:Hp; [lia| |lia]. rewrite (proj2 (Z.leb_le _ _)) by (cbn; lia).
    do 3 eexists. split_and!; [done|lia|lia| |exact Hr|exact Hr0].
    replace (e + n + 0 - (e + n)) with 0 by lia. lia.
Qed.

(** A positive float64 whose value is [r * 2 ^ g]. *)
Definition is_float (f : spec_float) (g r : Z) : Prop :=
  ∃ m e, f = S754_finite false m e ∧ g ≤ e ≤ g + 1 ∧ Zpos m * 2 ^ (e - g) = r.

Lemma iter_xO m p : Zpos (Pos.iter xO m p) = Zpos m * 2 ^ Zpos p.
Proof.
  induction p as [|p IH] using Pos.peano_ind; [cbn; lia|].
  rewrite Pos.iter_succ, Pos2Z.inj_succ, Z.pow_succ_r, Pos2Z.inj_xO, IH by lia. lia.
Qed.

Lemma shl_align_value m e e' :
  e' ≤ e → Zpos (shl_align m e e').1 = Zpos m * 2 ^ (e - e') ∧ (shl_align m e e').2 = e'.
Proof.
  intros He. unfold shl_align. destruct (e' - e) as [|p|p] eqn:Hd; [|lia|].
  - assert (e = e') as -> by lia. rewrite Z.sub_diag. cbn. lia.
  - replace (e - e') with (Zpos p) by lia. cbn [fst snd]. split; [|done]. apply iter_xO.
Qed.

Lemma fexp_digits p e : -1000 ≤ Z.log2 (Zpos p) + e → fexp 53 1024 (Zpos (digits2_pos p) + e) = Z.log2 (Zpos p) - 52 + e.
Proof. intros H. rewrite digits_log2. unfold fexp, emin. lia. Qed.

(** A positive number times a power of two, rounded. *)
Lemma binary_round_neighbour p e (g := Z.log2 (Zpos p) - 52 + e) :
  -1000 ≤ e ≤ 0 → g ≤ 800 → ∃ r, is_float (binary_round 53 1024 false p e) g r ∧
    if decide (g ≤ e) then r = Zpos p * 2 ^ (e - g)
    else r = Zpos p / 2 ^ (g - e) ∨ r = Zpos p / 2 ^ (g - e) + 1.
Proof.
  intros He Hg. assert (0 ≤ Z.log2 (Zpos p)) as Hl by apply Z.log2_nonneg.
  unfold binary_round. rewrite fexp_digits by lia. fold g.
  case_decide as Hge.
  - destruct (shl_align_value p e g Hge) as [Hm Hz]. destruct (shl_align p e g) as [m z]. cbn in Hm, Hz. subst z.
    assert (Z.log2 (Zpos m) = 52) as Hlm.
    { rewrite Hm, Z.log2_mul_pow2 by lia. unfold g. lia. }
    destruct (Z.log2_spec (Zpos m)) as [H52 _]; [lia|]. rewrite Hlm in H52.
    destruct (round_aux_neighbour (Zpos m) g loc_Exact) as (m' & e' & r & -> & He' & Hv & _ & Hr); [lia..|].
    rewrite Hlm in He', Hv, Hr. rewrite Z.add_0_r in He', Hv. exists r. split; [by exists m', e'|].
    rewrite <-Hm. by apply Hr.
  - assert (shl_align p e g = (p, e)) as -> by (unfold shl_align; destruct (g - e) eqn:?; [done|done|lia]).
    assert (2 ^ 52 ≤ Zpos p) as Hp by (apply Z.log2_le_pow2; lia).
    destruct (round_aux_neighbour (Zpos p) e loc_Exact) as (m' & e' & r & -> & He' & Hv & Hr & _); [lia..|].
    replace (e + (Z.log2 (Zpos p) - 52)) with g in He', Hv by lia. exists r. split; [by exists m', e'|].
    by replace (g - e) with (Z.log2 (Zpos p) - 52) by lia.
Qed.

Lemma float64_of_int_exact k (g := Z.log2 k - 52) : 0 < k < 2 ^ 53 → is_float (float64_of_int k) g (k * 2 ^ (- g)).
Proof.
  intros Hk. destruct k as [|p|p]; [lia| |lia]. assert (Z.log2 (Zpos p) < 53) by (apply Z.log2_lt_pow2; lia).
  destruct (binary_round_neighbour p 0) as (r & Hr & Hv); [lia..|].
  rewrite decide_True in Hv by lia. rewrite Z.add_0_r in Hr, Hv. subst r. exact Hr.
Qed.

Lemma quotient_range r : 2 ^ 52 ≤ r < 2 ^ 53 → 2 ^ 52 ≤ r * 2 ^ 30 / Second < 2 ^ 54.
Proof.
  unfold Second. intros Hr. split; [apply Z.div_le_lower_bound|apply Z.div_lt_upper_bound]; lia.
Qed.

(** A part of a second as a float64. *)
Lemma nanoseconds_float n :
  0 < n < Second → ∃ h r, is_float (SFdiv 53 1024 (float64_of_int n) second_float) h r ∧
    -200 ≤ h ≤ -52 ∧ 0 < r ∧ r * Second ≤ n * 2 ^ (- h) + Second.
Proof.
  intros Hn. unfold Second in Hn. set (g := Z.log2 n - 52).
  assert (0 ≤ Z.log2 n < 30) as Hl by (split; [apply Z.log2_nonneg|apply Z.log2_lt_pow2; lia]).
  destruct (float64_of_int_exact n) as (m & e & -> & He & Hv); [lia|]. fold g in He, Hv.
  set (r := n * 2 ^ (- g)) in *.
  assert (Z.log2 r = 52) as Hlr by (unfold r; rewrite Z.log2_mul_pow2 by lia; unfold g; lia).
  assert (2 ^ 52 ≤ r < 2 ^ 53) as Hr.
  { destruct (Z.log2_spec r) as [H1 H2]; [unfold r; lia|]. rewrite Hlr in H1, H2. done. }
  unfold SFdiv, second_float. cbn [xorb]. unfold SFdiv_core_binary. cbn [Zdigits2].
  assert (Z.log2 (Zpos m) + e = 52 + g) as Hlm.
  { rewrite <-Hlr, <-Hv. rewrite Z.log2_mul_pow2 by lia. lia. }
  rewrite digits_log2. replace (Zpos (digits2_pos 8388608000000000)) with 53 by done.
  replace (Z.min _ _) with (g - 30) by (unfold fexp, emin; lia).
  replace (e - -23 - (g - 30)) with (53 + (e - g)) by lia.
  destruct (53 + (e - g)) as [|s|s] eqn:Hs; [lia| |lia].
  assert (Z.shiftl (Zpos m) (Zpos s) = r * 2 ^ 53) as ->.
  { rewrite <-Hs, Z.shiftl_mul_pow2, Z.pow_add_r by lia. lia. }
  rewrite (surjective_pairing (Z.div_eucl _ _)).
  change (Z.div_eucl (r * 2 ^ 53) (Zpos 8388608000000000)).1 with (r * 2 ^ 53 / 8388608000000000).
  assert (r * 2 ^ 53 / 8388608000000000 = r * 2 ^ 30 / Second) as ->.
  { change (2 ^ 53) with (2 ^ 30 * 2 ^ 23). change 8388608000000000 with (Second * 2 ^ 23).
    rewrite Z.mul_assoc. apply Z.div_mul_cancel_r; unfold Second; lia. }
  pose proof (quotient_range r Hr) as Hq. set (q := r * 2 ^ 30 / Second) in *.
  assert (52 ≤ Z.log2 q < 54) as Hlq by (split; [apply Z.log2_le_pow2|apply Z.log2_lt_pow2]; lia).
  destruct (round_aux_neighbour q (g - 30) (new_location 8388608000000000 (Z.div_eucl (r * 2 ^ 53) 8388608000000000).2))
    as (m' & e' & r' & -> & He' & Hv' & Hr' & _); [lia..|].
  set (k := Z.log2 q - 52) in *. exists (g - 30 + k), r'. split; [by exists m', e'|].
  assert (0 < r') as Hpos by (rewrite <-Hv'; lia).
  split; [unfold g, k; lia|]. split; [done|].
  assert (r' ≤ q / 2 ^ k + 1) as Hle by lia.
  assert (q / 2 ^ k * Second ≤ n * 2 ^ (- (g - 30 + k))) as Hb; [|unfold Second in *; lia].
  assert (q * Second ≤ r * 2 ^ 30) as H1 by (unfold q, Second; pose proof (Z.mul_div_le (r * 2 ^ 30) 1000000000); lia).
  assert (r * 2 ^ 30 = n * 2 ^ (- (g - 30 + k)) * 2 ^ k) as H2.
  { unfold r. rewrite <-!Z.mul_assoc, <-!Z.pow_add_r by (unfold g, k; lia). do 2 f_equal. lia. }
  assert (q / 2 ^ k * 2 ^ k ≤ q) as H3.
  { pose proof (Z.mul_div_le q (2 ^ k)). lia. }
  apply (Z.mul_le_mono_pos_r _ _ (2 ^ k)); [lia|]. unfold Second in *. lia.
Qed.

Lemma mantissa_of f g k :
  g ≤ -1 → is_float f g (k * 2 ^ (- g)) → ∃ m e, f = S754_finite false m e ∧ g ≤ e ≤ g + 1 ∧ Zpos m = k * 2 ^ (- e).
Proof.
  intros Hg (m & e & -> & He & Hv). exists m, e. split_and!; [done|lia..|].
  apply (Z.mul_cancel_r _ _ (2 ^ (e - g))); [lia|]. rewrite Hv, <-Z.mul_assoc, <-Z.pow_add_r by lia.
  do 2 f_equal. lia.
Qed.

Lemma nanoseconds_mantissa n :
  0 < n < Second → ∃ m e, SFdiv 53 1024 (float64_of_int n) second_float = S754_finite false m e ∧
    -200 ≤ e ≤ -51 ∧ Zpos m * Second ≤ n * 2 ^ (- e) + Second.
Proof.
  intros Hn. destruct (nanoseconds_float n Hn) as (h & r & (m & e & -> & He & <-) & Hh & Hr & Hle).
  exists m, e. split; [done|]. split; [lia|].
  replace (- h) with (- e + (e - h)) in Hle by lia. rewrite Z.pow_add_r in Hle by lia.
  assert (1 ≤ 2 ^ (e - h)) as Hd by lia. set (D := 2 ^ (e - h)) in *.
  apply (Z.mul_le_mono_pos_r _ _ D); [lia|]. unfold Second in *. nia.
Qed.

(** Rounding does not leave the second. *)
Lemma rounded_between s n P Y T M Q D :
  0 ≤ s → 0 < n < Second → 0 < D → P = Q * D → 0 < Y → Y * Second ≤ n * P + Second * T →
  T * 2 ^ 51 ≤ P → M = s * P + Y →
  s * Q ≤ M / D < (s + 1) * Q ∧ (2 ^ 30 ≤ (Second - n) * Q → M / D + 1 < (s + 1) * Q).
Proof.
  intros Hs Hn HD -> HY HYb HT ->.
  assert (Y < Q * D) as HYP by (unfold Second in *; nia).
  assert (s * (Q * D) + Y < (s + 1) * Q * D) as Hlt by lia.
  split; [split; [apply Z.div_le_lower_bound; lia|apply Z.div_lt_upper_bound; lia]|]. intros HQ.
  set (q := (s * (Q * D) + Y) / D).
  assert (q * D ≤ s * (Q * D) + Y) as Hq by (pose proof (Z.mul_div_le (s * (Q * D) + Y) D HD); unfold q; lia).
  apply (Z.mul_lt_mono_pos_r D); [done|].
  assert (2 ^ 30 * D ≤ (Second - n) * (Q * D)) as HQD.
  { rewrite Z.mul_assoc. apply Z.mul_le_mono_nonneg_r; lia. }
  assert (1 * (Q * D) ≤ (Second - n) * (Q * D)) as HnP by (apply Z.mul_le_mono_nonneg_r; lia).
  set (P := Q * D) in *. replace ((s + 1) * Q * D) with (s * P + P) by (unfold P; lia).
  unfold Second in *. lia.
Qed.

(** The sum of whole seconds and a part of a second, and what is left when it
    is cut to an integer. *)
Lemma sum_seconds s n x m e :
  0 < s < 2 ^ 34 → 0 < n < Second → is_float x (Z.log2 s - 52) (s * 2 ^ (52 - Z.log2 s)) →
  -200 ≤ e ≤ -51 → Zpos m * Second ≤ n * 2 ^ (- e) + Second →
  ∃ m' e', SFadd 53 1024 x (S754_finite false m e) = S754_finite false m' e' ∧ e' < 0 ∧
    s ≤ Zpos m' / 2 ^ (- e') ≤ s + 1 ∧ (2 ^ 30 ≤ (Second - n) * 2 ^ (52 - Z.log2 s) → Zpos m' / 2 ^ (- e') = s).
Proof.
  intros Hs Hn Hx He Hm. set (l := Z.log2 s) in *. set (g := l - 52) in *.
  assert (0 ≤ l < 34) as Hl by (split; [apply Z.log2_nonneg|apply Z.log2_lt_pow2; lia]).
  replace (52 - l) with (- g) in Hx |- * by lia.
  destruct (mantissa_of x g s) as (mx & ex & -> & Hex & Hmx); [lia|done|]. unfold SFadd. cbn [cond_Zopp].
  set (ez := Z.min ex e).
  destruct (shl_align_value mx ex ez) as [-> _]; [lia|]. destruct (shl_align_value m e ez) as [-> _]; [lia|].
  rewrite Hmx, <-Z.mul_assoc, <-Z.pow_add_r by lia. replace (- ex + (ex - ez)) with (- ez) by lia.
  set (P := 2 ^ (- ez)). set (Y := Zpos m * 2 ^ (e - ez)). set (T := 2 ^ (e - ez)).
  assert (Y * Second ≤ n * P + Second * T) as HY.
  { apply (Z.mul_le_mono_nonneg_r _ _ T) in Hm; [|lia]. assert (2 ^ (- e) * T = P) as HT.
    { unfold T, P. rewrite <-Z.pow_add_r by lia. f_equal. lia. }
    unfold Y. rewrite Z.mul_add_distr_r, <-(Z.mul_assoc n), HT in Hm. fold T. lia. }
  assert (T * 2 ^ 51 ≤ P) as HTP.
  { unfold T, P. rewrite <-Z.pow_add_r by lia. apply Z.pow_le_mono_r; lia. }
  assert (0 < Y) as HY0 by (unfold Y; lia). assert (0 < P) as HP by (unfold P; lia).
  assert (Y < P) as HYP by (unfold Second in *; nia).
  destruct (s * P + Y) as [|M|M] eqn:HM; [lia| |lia]. cbn [binary_normalize].
  assert (Z.log2 (Zpos M) = l - ez) as HlM.
  { destruct (Z.log2_spec s) as [H1 H2]; [lia|]. fold l in H1, H2. rewrite Z.pow_succ_r in H2 by lia.
    apply Z.log2_unique; [lia|]. rewrite <-HM. unfold Z.sub. rewrite Z.pow_succ_r, Z.pow_add_r by lia.
    fold P. nia. }
  destruct (binary_round_neighbour M ez) as (r & (m' & e' & -> & He' & Hv) & Hr); [lia..|].
  rewrite HlM in He', Hv, Hr. replace (l - ez - 52 + ez) with g in He', Hv, Hr by lia.
  exists m', e'. split; [done|]. split; [lia|]. set (Q := 2 ^ (- g)).
  assert (s * Q ≤ r ≤ (s + 1) * Q ∧ (2 ^ 30 ≤ (Second - n) * Q → r < (s + 1) * Q)) as [Hrange Hsmall].
  { case_decide as Hge.
    - rewrite Hr. assert (P * 2 ^ (ez - g) = Q) as <- by (unfold P, Q; rewrite <-Z.pow_add_r by lia; f_equal; lia).
      assert (0 < 2 ^ (ez - g)) by lia. rewrite <-HM. nia.
    - assert (P = Q * 2 ^ (g - ez)) as HPQ by (unfold P, Q; rewrite <-Z.pow_add_r by lia; f_equal; lia).
      destruct (rounded_between s n P Y T (Zpos M) Q (2 ^ (g - ez))) as [H1 H2]; [lia|done|lia|done..|].
      split; [lia|]. intros HQ. specialize (H2 HQ). lia. }
  assert (Q = 2 ^ (- e') * 2 ^ (e' - g)) as HQ by (unfold Q; rewrite <-Z.pow_add_r by lia; f_equal; lia).
  assert (0 < 2 ^ (e' - g)) as HD by lia. assert (0 < 2 ^ (- e')) as HE by lia.
  rewrite <-Hv, HQ, !Z.mul_assoc in Hrange. rewrite <-Hv in Hsmall. rewrite HQ in Hsmall at 2.
  rewrite !Z.mul_assoc in Hsmall.
  assert (s * 2 ^ (- e') ≤ Zpos m' ≤ (s + 1) * 2 ^ (- e')) as [Hlo Hhi].
  { split; apply (Z.mul_le_mono_pos_r _ _ (2 ^ (e' - g))); lia. }
  split; [split|].
  - by apply Z.div_le_lower_bound; [|lia].
  - apply Z.div_le_upper_bound; lia.
  - intros Hgap. apply Hsmall, Z.mul_lt_mono_pos_r in Hgap; [|lia].
    symmetry. apply (Z.div_unique _ _ _ (Zpos m' - s * 2 ^ (- e'))); lia.
Qed.

(** ** The seconds of a duration *)

(** A positive float64 below 1 in its last place, and its integer part. *)
Definition cuts_to (f : spec_float) (l : Z) : Prop :=
  ∃ m e, f = S754_finite false m e ∧ e < 0 ∧ Zpos m / 2 ^ (- e) = l.

Lemma less_than_a_second n : 0 < n < Second → cuts_to (SFdiv 53 1024 (float64_of_int n) second_float) 0.
Proof.
  intros Hn. destruct (nanoseconds_mantissa n Hn) as (m & e & -> & He & Hm).
  assert (2 ^ 51 ≤ 2 ^ (- e)) as HE by (apply Z.pow_le_mono_r; lia).
  exists m, e. split; [done|]. split; [lia|]. apply Z.div_small. unfold Second in *. nia.
Qed.

Lemma whole_seconds s : 0 < s < 2 ^ 34 →
  is_float (float64_of_int s) (Z.log2 s - 52) (s * 2 ^ (52 - Z.log2 s)) ∧ cuts_to (float64_of_int s) s.
Proof.
  intros Hs. pose proof (float64_of_int_exact s) as Hf. cbv zeta in Hf.
  replace (- (Z.log2 s - 52)) with (52 - Z.log2 s) in Hf by lia. specialize (Hf ltac:(lia)). split; [done|].
  assert (Z.log2 s < 34) by (apply Z.log2_lt_pow2; lia).
  replace (52 - Z.log2 s) with (- (Z.log2 s - 52)) in Hf by lia.
  destruct (mantissa_of (float64_of_int s) (Z.log2 s - 52) s) as (m & e & -> & He & Hm); [lia|done|].
  exists m, e. split; [done|]. split; [lia|]. rewrite Hm. apply Z.div_mul. lia.
Qed.

(** The seconds of a positive duration, cut, are its whole seconds, or one
    more: rounding to a float64 reaches the next second only from the last
    nanoseconds before it, and only above 2^23 seconds (97 days). *)
Lemma seconds_shape d (s := d / Second) :
  0 < d ≤ 2 ^ 63 → ∃ l, cuts_to (Seconds d) l ∧
  s ≤ l ≤ s + 1 ∧ (d mod Second = 0 ∨ s < 2 ^ 23 ∨ s = (2 ^ 63 - 1) / Second → l = s).
Proof.
  intros Hd. unfold Seconds. rewrite Z.quot_div_nonneg, Z.rem_mod_nonneg by (unfold Second; lia). fold s.
  assert (0 ≤ s < 2 ^ 34) as Hs.
  { unfold s, Second. split; [apply Z.div_pos; lia|apply Z.div_lt_upper_bound; lia]. }
  set (n := d mod Second). assert (0 ≤ n < Second) as Hn by (apply Z.mod_pos_bound; unfold Second; lia).
  assert (d = Second * s + n) as Hsn by (unfold s, n; apply Z.div_mod; unfold Second; lia).
  destruct (decide (s = 0)) as [->|Hs0].
  { exists 0. split; [|lia]. change (SFadd 53 1024 (float64_of_int 0) ?y) with (SFadd 53 1024 (S754_zero false) y).
    destruct (less_than_a_second n) as (m & e & -> & He & Hl); [lia|]. by exists m, e. }
  destruct (whole_seconds s) as [Hx Hcut]; [lia|]. destruct (decide (n = 0)) as [->|Hn0].
  { exists s. split; [|lia]. change (SFdiv 53 1024 (float64_of_int 0) second_float) with (S754_zero false).
    destruct Hcut as (m & e & -> & He & Hl). by exists m, e. }
  destruct (nanoseconds_mantissa n) as (m & e & -> & He & Hm); [lia|].
  destruct (sum_seconds s n (float64_of_int s) m e) as (m' & e' & -> & He' & Hb & Hex); [lia|lia|exact Hx|lia|done|].
  exists (Zpos m' / 2 ^ (- e')). split; [by exists m', e'|]. split; [done|].
  intros [?|[Hs23|Hmax]]; [lia| |]; apply Hex.
  - assert (Z.log2 s < 23) by (apply Z.log2_lt_pow2; lia).
    assert (2 ^ 30 ≤ 2 ^ (52 - Z.log2 s)) by (apply Z.pow_le_mono_r; lia). nia.
  - rewrite Hmax in Hsn |- *. change (Z.log2 ((2 ^ 63 - 1) / Second)) with 33.
    change ((2 ^ 63 - 1) / Second) with 9223372036 in Hsn. unfold Second in *. lia.
Qed.

(** *** Negative durations *)

Lemma round_aux_opp m e l : binary_round_aux 53 1024 true m e l = SFopp (binary_round_aux 53 1024 false m e l).
Proof.
  unfold binary_round_aux. destruct (shr_fexp 53 1024 m e l) as [r e'].
  destruct (shr_fexp 53 1024 _ e' loc_Exact) as [r' e'']. by destruct (shr_m r'); [|destruct (Z.leb _ _)|].
Qed.

Lemma normalize_opp p e b : binary_normalize 53 1024 (Zneg p) e b = SFopp (binary_normalize 53 1024 (Zpos p) e b).
Proof. cbn [binary_normalize]. unfold binary_round. destruct (shl_align _ _ _). apply round_aux_opp. Qed.

Lemma SFdiv_opp x : SFdiv 53 1024 (SFopp x) second_float = SFopp (SFdiv 53 1024 x second_float).
Proof.
  destruct x as [[]|[]| |s m e]; try done. unfold second_float. cbn [SFopp SFdiv].
  destruct (SFdiv_core_binary _ _ _ _ _ _) as [[mz ez] lz]. destruct s; cbn [negb xorb]; [|by rewrite round_aux_opp].
  rewrite round_aux_opp. by destruct (binary_round_aux _ _ _ _ _ _) as [[]|[]| |[]].
Qed.

Lemma float64_of_int_opp k : 0 < k → float64_of_int (- k) = SFopp (float64_of_int k).
Proof. intros Hk. destruct k as [|p|p]; [lia| |lia]. apply normalize_opp. Qed.

Lemma Seconds_opp d : 0 < d ≤ 2 ^ 63 → Seconds (- d) = SFopp (Seconds d).
Proof.
  intros Hd. unfold Seconds. rewrite Z.quot_opp_l, Z.rem_opp_l by (unfold Second; lia).
  rewrite Z.quot_div_nonneg, Z.rem_mod_nonneg by (unfold Second; lia).
  set (s := d / Second). set (n := d mod Second).
  assert (0 ≤ n < Second) as Hn by (apply Z.mod_pos_bound; unfold Second; lia).
  assert (0 ≤ s < 2 ^ 34) as Hs.
  { unfold s, Second. split; [apply Z.div_pos; lia|apply Z.div_lt_upper_bound; lia]. }
  assert (d = Second * s + n) as Hsn by (unfold s, n; apply Z.div_mod; unfold Second; lia).
  destruct (decide (s = 0)) as [->|Hs0].
  { change (float64_of_int (- 0)) with (S754_zero false). change (float64_of_int 0) with (S754_zero false).
    rewrite float64_of_int_opp, SFdiv_opp by lia.
    destruct (less_than_a_second n) as (m & e & -> & _); [lia|]. done. }
  rewrite float64_of_int_opp by lia. destruct (whole_seconds s) as [_ (m & e & -> & _)]; [lia|].
  destruct (decide (n = 0)) as [->|Hn0].
  { by change (SFdiv 53 1024 (float64_of_int (- 0)) second_float) with (S754_zero false). }
  rewrite float64_of_int_opp, SFdiv_opp by lia. destruct (less_than_a_second n) as (m' & e' & -> & _); [lia|].
  cbn [SFopp negb SFadd cond_Zopp]. apply normalize_opp.
Qed.

(** ** The seconds of a duration as an integer *)

Section Cut.
Context `{!UintOfFloat}.

(** Cutting a float, positive or negative. *)
Lemma uint64_of_cut f l :
  cuts_to f l → (l < 2 ^ 64 → uint64_of_float f = l) ∧
    uint64_of_float (SFopp f) = if bool_decide (l = 0) then 0 else uint64_out (SFopp f).
Proof.
  intros (m & e & -> & He & <-). assert (0 ≤ Zpos m / 2 ^ (- e)) by (apply Z.div_pos; lia).
  unfold uint64_of_float. cbn [SFopp negb]. rewrite (bool_decide_false (0 ≤ e)) by lia. split.
  - intros Hl. by rewrite bool_decide_true by lia.
  - case_bool_decide; case_bool_decide; lia.
Qed.

Lemma seconds_cut d (s := d / Second) :
  0 ≤ d < 2 ^ 63 → let l := uint64_of_float (Seconds d) in
  s ≤ l ≤ s + 1 ∧ (d mod Second = 0 ∨ s < 2 ^ 23 ∨ s = (2 ^ 63 - 1) / Second → l = s).
Proof.
  intros Hd l. destruct (decide (d = 0)) as [->|Hd0]; [done|].
  destruct (seconds_shape d) as (l' & Hcut & Hl'); [lia|]. destruct (uint64_of_cut _ _ Hcut) as [Hl _].
  assert (s < 2 ^ 34) by (unfold s, Second; apply Z.div_lt_upper_bound; lia).
  unfold l. rewrite Hl; [done|]. fold s in Hl'. lia.
Qed.

(** A negative duration: 0 above minus one second, and from there on up to
    the machine. *)
Lemma seconds_negative d :
  - 2 ^ 63 ≤ d < 0 →
  uint64_of_float (Seconds d) = if bool_decide (- Second < d) then 0 else uint64_out (Seconds d).
Proof.
  intros Hd. destruct (seconds_shape (- d)) as (l & Hcut & Hl & Hex); [lia|].
  pose proof (Seconds_opp (- d)) as Hopp. rewrite Z.opp_involutive in Hopp. rewrite Hopp by lia.
  destruct (uint64_of_cut _ _ Hcut) as [_ ->]. case_bool_decide as Hl0; case_bool_decide as Hsec; try done.
  - assert (1 ≤ - d / Second) by (apply Z.div_le_lower_bound; unfold Second in *; lia). lia.
  - destruct Hl0. rewrite (Z.div_small (- d)) in Hex by lia. apply Hex. by right; left.
Qed.
End Cut.
