(* ===== verification/AdminServer.v ===== *)
(** * AdminServer: the membership server (pkg/admin).

    [Server] is the server's mutable state; every handler is a [prog] over
    it, one atomic region per critical section of [s.lock], per access to the
    allow list and per database transaction, in the order of the source.
    [routes] and [ServeHTTP] are the HTTP surface: mux, authentication, the
    admin check and the mapping of errors to responses. *)
From Stdlib Require Import Ascii String.
From stdpp Require Import sorting.
From S2P Require Import Prelude GoStrings Json Durations Api JsonKV AllowList MagicLink Auth Mux.

(** ** Libraries outside the repository

    google/uuid's text form of 16 random bytes, and bcrypt (salted with
    random bytes; a password of more than 72 bytes is refused).  crypto/sha256
    is the digest function. *)
Class Hashes := {
  uuid_string : string → string;
  sha256 : string → string;
  bcrypt_hash : string → string → option string;
  bcrypt_check : string → string → bool;
  bcrypt_check_hash salt pw h : bcrypt_hash salt pw = Some h → bcrypt_check h pw = true
}.

(** ** State *)

Record NodeReference := { nr_Node : PeerNode; nr_Token : string; nr_LastPing : Z }.

Record Server (DB : Type) := MkServer {
  adminKey : string; advertiseURL : string; magicKey : EncryptionKey;
  relayAddress : list string;
  lastUpdate : Z; logicalTime : Z; nodes : gmap string NodeReference;
  acl : AllowList; kv : DB }.
Arguments MkServer {DB}.
Arguments adminKey {DB}.
Arguments advertiseURL {DB}.
Arguments magicKey {DB}.
Arguments relayAddress {DB}.
Arguments lastUpdate {DB}.
Arguments logicalTime {DB}.
Arguments nodes {DB}.
Arguments acl {DB}.
Arguments kv {DB}.

(** What a request draws from the outside: the readings of the clock, the
    buffers of crypto/rand (None when it fails) and the map iteration orders,
    each numbered by its place in the handler. *)
Record Env := { now : nat → Z; rand : nat → option string; seed : nat → nat }.

(** JsonRPC: the path values, the first JSON value of the body (None when the
    body has no well-formed one) and the authenticated user. *)
Record JsonRPC := {
  PathVar : string → string; rpc_body : option json; rpc_user : option Properties }.

(** JsonRPC.GetObject *)
Definition GetObject {A} (dec : decoder A) (zero : A) (ctx : JsonRPC) : result error A :=
  match ctx.(rpc_body) with
  | None => Err (NewError StatusBadRequest "bad request")
  | Some j =>
      let '(x, ok) := dec j zero in
      if ok then Ok x else Err (NewError StatusBadRequest "bad request")
  end.

Section Server.
Context {DB : Type} `{!Badger DB} `{!JsonText} `{!TimeText} `{!Aead} `{!Hashes} `{!MapOrder}.

Definition with_clock (t lt : Z) (m : gmap string NodeReference) (s : Server DB) : Server DB :=
  MkServer s.(adminKey) s.(advertiseURL) s.(magicKey) s.(relayAddress) t lt m s.(acl) s.(kv).
Definition with_acl (l : AllowList) (s : Server DB) : Server DB :=
  MkServer s.(adminKey) s.(advertiseURL) s.(magicKey) s.(relayAddress)
    s.(lastUpdate) s.(logicalTime) s.(nodes) l s.(kv).
Definition with_kv (d : DB) (s : Server DB) : Server DB :=
  MkServer s.(adminKey) s.(advertiseURL) s.(magicKey) s.(relayAddress)
    s.(lastUpdate) s.(logicalTime) s.(nodes) s.(acl) d.

(** A handler answers with a JSON document (ReplyObject) or an error. *)
Definition reply : Type := result error json.
Definition handler : Type := Env → JsonRPC → prog (Server DB) reply.

Definition fail {A} (e : error) : prog (Server DB) (result error A) := Ret (Err e).
Definition ReplyObject (j : json) : prog (Server DB) reply := Ret (Ok j).

(** One region that only reads. *)
Definition reads {A} (f : Server DB → A) : prog (Server DB) A := atomically (λ s, (s, f s)).

(** s.acl and s.kv as parts of the server. *)
Definition on_acl {A} : prog AllowList A → prog (Server DB) A := zoom acl with_acl.
Definition kv_Get {A} (dec : decoder A) (zero : A) (key : string) : prog (Server DB) (result error A) :=
  reads (λ s, Get dec zero key s.(kv)).
Definition kv_update (f : DB → DB * option error) : prog (Server DB) (result error ()) :=
  atomically (λ s, let '(d, e) := f s.(kv) in
    (with_kv d s, match e with None => Ok () | Some e => Err e end)).
Definition kv_Put (key : string) (v : json) := kv_update (Put key v).
Definition kv_Delete (key : string) := kv_update (Delete key).

(** Handlers that answer 400 with the text of the decoding error. *)
Definition GetObject_400 {A} (dec : decoder A) (zero : A) (ctx : JsonRPC) : result error A :=
  match GetObject dec zero ctx with
  | Ok x => Ok x
  | Err e => Err (NewError StatusBadRequest (error_string e))
  end.

(** The increment of the uint64 clock. *)
Definition tick (lt : Z) : Z := (lt + 1) mod 2 ^ 64.

(** ** api_node.go *)

(** newNodeToken: 16 random bytes in hex, or the time's text if there are
    none. *)
Definition newNodeToken (env : Env) : string :=
  match env.(rand) 0 with
  | Some b => hex_encode b
  | None => hex_encode (time_print (env.(now) 1))
  end.

Definition apiNodeAuthorize : handler := λ env ctx,
  let! req := Ret (GetObject_400 dec_register rn_zero ctx) in
  let node := req.(rn_Node) in
  if bool_decide (node.(ID) = "") then fail (NewError StatusBadRequest "node peer id is required")
  else
    let* _ := on_acl (Add (env.(seed) 0) node.(ID)) in
    ReplyObject (enc_node node).

Definition apiNodeRegister : handler := λ env ctx,
  let! req := Ret (GetObject_400 dec_register rn_zero ctx) in
  if bool_decide (req.(rn_Node).(Name) = "")
  then fail (NewError StatusBadRequest "node name is required")
  else if bool_decide (req.(rn_Node).(ID) = "")
  then fail (NewError StatusBadRequest "node peer id is required")
  else
    let* allowed := on_acl (Has req.(rn_Node).(ID)) in
    if negb allowed then fail (NewError StatusBadRequest "node not Authorized")
    else
      let* resp := atomically (λ s,
        let lu := env.(now) 0 in
        let lt := tick s.(logicalTime) in
        let node := with_LogicalTime lt (with_LastUpdate lu req.(rn_Node)) in
        let resp := {| rn_Node := node; rn_Token := newNodeToken env;
                       rn_LogicalTime := lt; rn_LastUpdate := lu |} in
        let ref := {| nr_Node := node; nr_LastPing := env.(now) 2; nr_Token := resp.(rn_Token) |} in
        (with_clock lu lt (<[node.(ID) := ref]> s.(nodes)) s, resp)) in
      ReplyObject (enc_register resp).

(** The closure updateNode of apiNodeRefresh: the new registry when the
    token is the registration's. *)
Definition updateNode (id token : string) (t : Z) (m : gmap string NodeReference)
    : option (gmap string NodeReference) :=
  if bool_decide (token = "") then None
  else match m !! id with
       | None => None
       | Some ref =>
           if bool_decide (ref.(nr_Token) ≠ token) then None
           else Some (<[id := {| nr_Node := ref.(nr_Node); nr_Token := ref.(nr_Token);
                                 nr_LastPing := t |}]> m)
       end.

Definition apiNodeRefresh : handler := λ env ctx,
  let id := ctx.(PathVar) "id" in
  if bool_decide (id = "") then fail (NewError StatusBadRequest "node id is required")
  else
    let! req := Ret (GetObject_400 dec_register rn_zero ctx) in
    if bool_decide (req.(rn_Node).(ID) ≠ id) then fail (NewError StatusBadRequest "node id mismatch")
    else
      let* (resp, valid) := atomically (λ s,
        let resp := {| rn_Node := req.(rn_Node); rn_Token := req.(rn_Token);
                       rn_LogicalTime := s.(logicalTime); rn_LastUpdate := s.(lastUpdate) |} in
        match updateNode id req.(rn_Token) (env.(now) 0) s.(nodes) with
        | Some m => (with_clock s.(lastUpdate) s.(logicalTime) m s, (resp, true))
        | None => (s, (resp, false))
        end) in
      if negb valid then fail (NewError StatusConflict "node registration invalid")
      else ReplyObject (enc_register resp).

(** The critical section shared by unregister and delete: drop the node,
    and move the clock when there was one. *)
Definition drop_node (t : Z) (id : string) (s : Server DB) : Server DB :=
  if bool_decide (is_Some (s.(nodes) !! id))
  then with_clock t (tick s.(logicalTime)) (delete id s.(nodes)) s
  else s.

Definition enc_ref (r : NodeReference) : json :=
  JObj [("Node", enc_node r.(nr_Node)); ("Token", JStr r.(nr_Token));
        ("LastPing", JStr (time_print r.(nr_LastPing)))].

Definition apiNodeUnregister : handler := λ env ctx,
  let id := ctx.(PathVar) "id" in
  if bool_decide (id = "") then fail (NewError StatusBadRequest "node id is required")
  else
    let* node := atomically (λ s, (drop_node (env.(now) 0) id s, s.(nodes) !! id)) in
    let* _ := on_acl (Remove (env.(seed) 0) id) in
    match node with
    | None => fail (NewError StatusNotFound "node not found")
    | Some ref => ReplyObject (enc_ref ref)
    end.

Definition apiNodeList : handler := λ env ctx,
  let* refs := reads (λ s, (range (env.(seed) 0) s.(nodes)).*2) in
  ReplyObject (enc_nodes (nr_Node <$> refs)).

Definition apiRelayGet : handler := λ env ctx,
  let* s := reads id in
  ReplyObject (JObj [("ID", JStr ""); ("MultiAddress", strings s.(relayAddress));
    ("LastUpdate", JStr (time_print s.(lastUpdate))); ("LogicalTime", JInt s.(logicalTime))]).

(** ** api_admin.go: the records in the database *)

Record inviteSecret := {
  UUID : string; MeshId : string; OneTime : bool; Expires : Z; InviteAs : string }.
Definition invite_zero : inviteSecret :=
  {| UUID := ""; MeshId := ""; OneTime := false; Expires := 0; InviteAs := "" |}.
Definition enc_invite (i : inviteSecret) : json :=
  JObj [("UUID", JStr i.(UUID)); ("MeshId", JStr i.(MeshId)); ("OneTime", JBool i.(OneTime));
        ("Expires", JInt i.(Expires)); ("InviteAs", JStr i.(InviteAs))].
Definition dec_invite : decoder inviteSecret := dec_struct (λ k v i,
  let '(Build_inviteSecret u m o e a) := i in
  if key_is "UUID" k then in_field (λ x _, Build_inviteSecret x m o e a) UUID dec_string v i
  else if key_is "MeshId" k then in_field (λ x _, Build_inviteSecret u x o e a) MeshId dec_string v i
  else if key_is "OneTime" k then in_field (λ x _, Build_inviteSecret u m x e a) OneTime dec_bool v i
  else if key_is "Expires" k then in_field (λ x _, Build_inviteSecret u m o x a) Expires (dec_int 64) v i
  else if key_is "InviteAs" k then in_field (λ x _, Build_inviteSecret u m o e x) InviteAs dec_string v i
  else (i, true)).

Record meshNodeRecord := {
  NodeID : string; mn_Name : string; AddedAt : Z; InvitedAs : string; PasswordHash : string }.
Definition mn_zero : meshNodeRecord :=
  {| NodeID := ""; mn_Name := ""; AddedAt := time_zero; InvitedAs := ""; PasswordHash := "" |}.
Definition enc_mn (r : meshNodeRecord) : json :=
  JObj [("NodeID", JStr r.(NodeID)); ("Name", JStr r.(mn_Name));
        ("AddedAt", JStr (time_print r.(AddedAt))); ("InvitedAs", JStr r.(InvitedAs));
        ("PasswordHash", JStr r.(PasswordHash))].
Definition dec_mn : decoder meshNodeRecord := dec_struct (λ k v r,
  let '(Build_meshNodeRecord n m a i p) := r in
  if key_is "NodeID" k then in_field (λ x _, Build_meshNodeRecord x m a i p) NodeID dec_string v r
  else if key_is "Name" k then in_field (λ x _, Build_meshNodeRecord n x a i p) mn_Name dec_string v r
  else if key_is "AddedAt" k then in_field (λ x _, Build_meshNodeRecord n m x i p) AddedAt dec_time v r
  else if key_is "InvitedAs" k then
    in_field (λ x _, Build_meshNodeRecord n m a x p) InvitedAs dec_string v r
  else if key_is "PasswordHash" k then
    in_field (λ x _, Build_meshNodeRecord n m a i x) PasswordHash dec_string v r
  else (r, true)).

Definition newInviteID (b : option string) : result error string :=
  match b with Some b => Ok (uuid_string b) | None => Err (OtherError "rand") end.
Definition invitePublicID (uuid : string) : string := hex_encode (sha256 uuid).
Definition inviteKVKey (meshID inviteID : string) : string :=
  "/invites/" +:+ meshID +:+ "/" +:+ inviteID.
Definition meshNodeKVKey (meshID nodeID : string) : string :=
  "/mesh/" +:+ meshID +:+ "/nodes/" +:+ nodeID.

(** parseMeshNodeKVKey: ok false is None. *)
Definition parseMeshNodeKVKey (key : string) : option (string * string) :=
  if negb (has_prefix "/mesh/" key) then None
  else match split_on slash (trim_prefix "/mesh/" key) with
       | [m; mid; n] =>
           if bool_decide (mid ≠ "nodes" ∨ m = "" ∨ n = "") then None else Some (m, n)
       | _ => None
       end.

Definition newNodeLoginSecret (b : option string) : result error string :=
  match b with Some b => Ok (hex_encode b) | None => Err (OtherError "rand") end.
Definition hashLoginSecret (salt : option string) (secret : string) : result error string :=
  match salt with
  | None => Err (OtherError "rand")
  | Some salt => match bcrypt_hash salt secret with
                 | Some h => Ok h
                 | None => Err (OtherError "bcrypt: password length exceeds 72 bytes")
                 end
  end.

(** ** api_admin.go: invitations *)

(** Conversion to int64, and the int64 product that makes a Duration. *)
Definition int64 (z : Z) : Z := (z + 2 ^ 63) mod 2 ^ 64 - 2 ^ 63.
Definition invite_expiry (now lifetimeSec : Z) : Z :=
  if bool_decide (lifetimeSec ≠ 0)%Z
  then unix (now + int64 (int64 lifetimeSec * Second)) else 0%Z.

Definition invite_link (s : Server DB) (inviteID : string) : string :=
  trim_right_byte slash s.(advertiseURL) +:+ "/api/v1/redeem/" +:+ inviteID.

Definition adminCreateInviteLink : handler := λ env ctx,
  let! req := Ret (GetObject dec_create ci_zero ctx) in
  if bool_decide (req.(ci_MeshId) = "") then fail (NewError StatusBadRequest "mesh id is required")
  else
    let meshID := "default" in
    let! inviteUUID := Ret (newInviteID (env.(rand) 0)) in
    let invite := {| UUID := inviteUUID; OneTime := req.(ci_OneTime); MeshId := meshID;
      InviteAs := req.(ci_Name); Expires := invite_expiry (env.(now) 0) req.(ci_LifetimeSec) |} in
    let inviteID := invitePublicID inviteUUID in
    let! _ := kv_Put (inviteKVKey meshID inviteID) (enc_invite invite) in
    let* link := reads (λ s, invite_link s inviteID) in
    ReplyObject (JObj [("InviteId", JStr inviteID); ("InviteLink", JStr link)]).

Definition adminRedeemInviteLink : handler := λ env ctx,
  let inviteID := ctx.(PathVar) "id" in
  if bool_decide (inviteID = "") then fail (NewError StatusBadRequest "invite id is required")
  else
    let key := inviteKVKey "default" inviteID in
    let* got := kv_Get dec_invite invite_zero key in
    match got with
    | Err KeyNotFound => fail (NewError StatusNotFound "invite not found")
    | Err e => fail e
    | Ok invite =>
        if bool_decide (invite.(Expires) ≠ 0 ∧ invite.(Expires) ≤ unix (env.(now) 0))%Z then
          let* _ := kv_Delete key in
          fail (NewError StatusGone "invite expired")
        else
          let! req := Ret (GetObject dec_redeem node_zero ctx) in
          if bool_decide (req.(ID) = "") then fail (NewError StatusBadRequest "node peer id is required")
          else
            let name := if bool_decide (req.(Name) = "") then invite.(InviteAs) else req.(Name) in
            let* _ := on_acl (Add (env.(seed) 0) req.(ID)) in
            let! secret := Ret (newNodeLoginSecret (env.(rand) 0)) in
            let! hash := Ret (hashLoginSecret (env.(rand) 1) secret) in
            let! _ := kv_Put (meshNodeKVKey invite.(MeshId) req.(ID))
              (enc_mn {| NodeID := req.(ID); mn_Name := name; AddedAt := env.(now) 1;
                         InvitedAs := invite.(InviteAs); PasswordHash := hash |}) in
            let! _ := (if invite.(OneTime) then kv_Delete key else Ret (Ok ())) in
            let* server := reads advertiseURL in
            ReplyObject (JObj [("MeshId", JStr invite.(MeshId)); ("MeshSecret", JStr secret);
                               ("MeshServer", JStr server)])
    end.

(** ForEach's callback over the invitations: the listed ones and the keys
    of the expired ones, in the order of the database. *)
Definition list_invite (base : string) (now : Z) (key data : string)
    (acc : list json * list string) : result error (list json * list string) :=
  let '(invites, expired) := acc in
  let '(invite, ok) := unmarshal dec_invite data invite_zero in
  if negb ok then Err (OtherError "json: cannot unmarshal")
  else
    let id := trim_prefix "/invites/default/" key in
    if bool_decide (id = "") then Ok acc
    else if bool_decide (invite.(Expires) ≠ 0 ∧ invite.(Expires) ≤ now)%Z
    then Ok (invites, expired ++ [key])
    else Ok (invites ++ [JObj [("InviteId", JStr id);
               ("InviteLink", JStr (base +:+ "/api/v1/redeem/" +:+ id));
               ("Name", JStr invite.(InviteAs)); ("OneTime", JBool invite.(OneTime));
               ("Expires", JInt invite.(Expires)); ("MeshId", JStr invite.(MeshId))]], expired).

(** [for _, key := range keys { _ = s.kv.Delete(key) }] *)
Fixpoint delete_quietly (keys : list string) : prog (Server DB) () :=
  match keys with
  | [] => Ret ()
  | key :: keys' => let* _ := kv_Delete key in delete_quietly keys'
  end.

Definition adminListInviteLinks : handler := λ env ctx,
  let* got := reads (λ s,
    ForEach "/invites/default/"
      (list_invite (trim_right_byte slash s.(advertiseURL)) (unix (env.(now) 0))) s.(kv) ([], [])) in
  match got with
  | Err e => fail e
  | Ok (invites, expired) =>
      let* _ := delete_quietly expired in
      ReplyObject (JObj [("Invites", JArr invites)])
  end.

Definition adminDeleteInviteLink : handler := λ env ctx,
  let inviteID := ctx.(PathVar) "id" in
  if bool_decide (inviteID = "") then fail (NewError StatusBadRequest "invite id is required")
  else
    let key := inviteKVKey "default" inviteID in
    let* got := kv_Get dec_invite invite_zero key in
    match got with
    | Err KeyNotFound => fail (NewError StatusNotFound "invite not found")
    | Err e => fail e
    | Ok _ =>
        let! _ := kv_Delete key in
        ReplyObject (JObj [("Invite", JStr inviteID)])
    end.

(** ** api_admin.go: nodes *)

Record AdminNode := {
  an_ID : string; an_Name : string; an_MeshId : string; an_AddedAt : Z; an_InvitedAs : string }.
Definition enc_admin_node (n : AdminNode) : json :=
  JObj [("ID", JStr n.(an_ID)); ("Name", JStr n.(an_Name)); ("MeshId", JStr n.(an_MeshId));
        ("AddedAt", JStr (time_print n.(an_AddedAt))); ("InvitedAs", JStr n.(an_InvitedAs))].

Definition list_node (key data : string) (acc : list AdminNode) : result error (list AdminNode) :=
  match parseMeshNodeKVKey key with
  | None => Ok acc
  | Some (meshID, nodeID) =>
      let '(rec, ok) := unmarshal dec_mn data mn_zero in
      if negb ok then Err (OtherError "json: cannot unmarshal")
      else
        let id := if bool_decide (rec.(NodeID) = "") then nodeID else rec.(NodeID) in
        Ok (acc ++ [{| an_ID := id; an_Name := rec.(mn_Name); an_MeshId := meshID;
                       an_AddedAt := rec.(AddedAt); an_InvitedAs := rec.(InvitedAs) |}])
  end.

(** The comparison of sort.Slice: by mesh, then name, then id. *)
Definition str_lt (a b : string) : bool := String.ltb a b.
Definition node_less (a b : AdminNode) : bool :=
  if bool_decide (a.(an_MeshId) ≠ b.(an_MeshId)) then str_lt a.(an_MeshId) b.(an_MeshId)
  else if bool_decide (a.(an_Name) ≠ b.(an_Name)) then str_lt a.(an_Name) b.(an_Name)
  else str_lt a.(an_ID) b.(an_ID).
Definition node_not_after (a b : AdminNode) : Prop := node_less b a = false.
#[export] Instance node_not_after_dec : RelDecision node_not_after.
Proof. intros a b. unfold node_not_after. apply _. Defined.

Definition adminListNodes : handler := λ env ctx,
  let* got := reads (λ s, ForEach "/mesh/" list_node s.(kv) []) in
  match got with
  | Err e => fail e
  | Ok ns => ReplyObject (JObj [("Nodes", JArr (enc_admin_node <$> merge_sort node_not_after ns))])
  end.

Definition mesh_key_of (id key data : string) (keys : list string) : result error (list string) :=
  match parseMeshNodeKVKey key with
  | None => Ok keys
  | Some (_, nodeID) =>
      if bool_decide (nodeID = id) then Ok (keys ++ [key])
      else
        let '(rec, ok) := unmarshal dec_mn data mn_zero in
        if negb ok then Err (OtherError "json: cannot unmarshal")
        else if bool_decide (rec.(NodeID) = id) then Ok (keys ++ [key]) else Ok keys
  end.
Definition meshKeysForNode (id : string) : prog (Server DB) (result error (list string)) :=
  reads (λ s, ForEach "/mesh/" (mesh_key_of id) s.(kv) []).

(** The loop over the keys, left at the first error. *)
Fixpoint delete_keys (keys : list string) : prog (Server DB) (result error ()) :=
  match keys with
  | [] => Ret (Ok ())
  | key :: keys' => let! _ := kv_Delete key in delete_keys keys'
  end.

Definition adminDeleteNode : handler := λ env ctx,
  let id := ctx.(PathVar) "id" in
  if bool_decide (id = "") then fail (NewError StatusBadRequest "node id is required")
  else
    let! keys := meshKeysForNode id in
    let* registered := atomically (λ s,
      (drop_node (env.(now) 0) id s, bool_decide (is_Some (s.(nodes) !! id)))) in
    let* _ := on_acl (Remove (env.(seed) 0) id) in
    if bool_decide (keys = []) && negb registered
    then fail (NewError StatusNotFound "node not found")
    else
      let! _ := delete_keys keys in
      ReplyObject (JObj [("NodeID", JStr id)]).

Definition adminKickPeer : handler := λ env ctx, adminDeleteNode env ctx.

(** ** api_node.go: login *)

Definition apiNodeLogin : handler := λ env ctx,
  let! req := Ret (GetObject dec_login nl_zero ctx) in
  if bool_decide (req.(nl_NodeID) = "" ∨ req.(nl_MeshSecret) = "")
  then fail (NewError StatusBadRequest "node id and mesh secret are required")
  else
    let meshID := if bool_decide (req.(nl_MeshId) = "") then "default" else req.(nl_MeshId) in
    let* got := kv_Get dec_mn mn_zero (meshNodeKVKey meshID req.(nl_NodeID)) in
    match got with
    | Err KeyNotFound => fail (NewError StatusUnauthorized "invalid credentials")
    | Err e => fail e
    | Ok rec =>
        if bool_decide (rec.(PasswordHash) = "")
           || negb (bcrypt_check rec.(PasswordHash) req.(nl_MeshSecret))
        then fail (NewError StatusUnauthorized "invalid credentials")
        else
          let* key := reads magicKey in
          let! (token, expires) :=
            Ret (issueSessionToken key req.(nl_NodeID) 0 (env.(now) 0) (env.(rand) 0)) in
          ReplyObject (JObj [("Token", JStr token); ("NodeID", JStr req.(nl_NodeID));
                             ("Expires", JInt expires)])
    end.

(** ** server.go: the HTTP surface *)

Record request := {
  rq_method : string; rq_path : list string; rq_authorization : string; rq_body : option json }.

(** The deferred error mapping of handle and authenticated. *)
Definition respond (r : reply) : response :=
  match r with
  | Ok j => Response StatusOK (BJson j)
  | Err (ApiError code msg) => http_error msg code
  | Err e => http_error (error_string e) StatusInternalServerError
  end.

Definition asAdmin (fn : handler) : handler := λ env ctx,
  match ctx.(rpc_user) with
  | Some user =>
      if bool_decide (user.(Group) ≠ "admin")
      then fail (NewError StatusUnauthorized "not authorized") else fn env ctx
  | None => fail (OtherError "nil pointer dereference")
  end.

Definition rpc_of (rq : request) (vars : list (string * string)) (user : option Properties) : JsonRPC :=
  {| PathVar := path_value vars; rpc_body := rq.(rq_body); rpc_user := user |}.

Definition handle (fn : handler) (env : Env) (rq : request) (vars : list (string * string))
    : prog (Server DB) response :=
  let* r := fn env (rpc_of rq vars None) in Ret (respond r).

(** The clock reading numbered 9 is the one authenticateSessionToken takes. *)
Definition authenticated (fn : handler) (env : Env) (rq : request) (vars : list (string * string))
    : prog (Server DB) response :=
  let* (user, code) :=
    reads (λ s, DoAuth (server_auth s.(adminKey) s.(magicKey) (env.(now) 9)) rq.(rq_authorization)) in
  if bool_decide (code ≠ StatusOK) then Ret (http_error "unauthorized" StatusUnauthorized)
  else let* r := fn env (rpc_of rq vars user) in Ret (respond r).

Definition http_handler : Type := Env → request → list (string * string) → prog (Server DB) response.

Definition notFoundHandler : http_handler := λ env rq vars,
  Ret (Response StatusNotFound (BText ("404 Not Found: /" +:+ join "/" rq.(rq_path)))).

Definition routes : list (pattern http_handler) := [
  Pattern "POST" [Lit "api"; Lit "v1"; Lit "login"] false (handle apiNodeLogin);
  Pattern "GET" [Lit "api"; Lit "v1"; Lit "relay"] false (authenticated apiRelayGet);
  Pattern "POST" [Lit "api"; Lit "v1"; Lit "authorize"] false (authenticated apiNodeAuthorize);
  Pattern "POST" [Lit "api"; Lit "v1"; Lit "nodes"] false (authenticated apiNodeRegister);
  Pattern "DELETE" [Lit "api"; Lit "v1"; Lit "nodes"; Var "id"] false (authenticated apiNodeUnregister);
  Pattern "POST" [Lit "api"; Lit "v1"; Lit "nodes"; Var "id"] false (authenticated apiNodeRefresh);
  Pattern "GET" [Lit "api"; Lit "v1"; Lit "nodes"] false (authenticated apiNodeList);
  Pattern "GET" [Lit "api"; Lit "v1"; Lit "admin"; Lit "nodes"] false
    (authenticated (asAdmin adminListNodes));
  Pattern "DELETE" [Lit "api"; Lit "v1"; Lit "admin"; Lit "nodes"; Var "id"] false
    (authenticated (asAdmin adminDeleteNode));
  Pattern "POST" [Lit "api"; Lit "v1"; Lit "admin"; Lit "nodes"; Var "id"] false
    (authenticated (asAdmin adminDeleteNode));
  Pattern "POST" [Lit "api"; Lit "v1"; Lit "admin"; Lit "invite"] false
    (authenticated (asAdmin adminCreateInviteLink));
  Pattern "GET" [Lit "api"; Lit "v1"; Lit "admin"; Lit "invite"] false
    (authenticated (asAdmin adminListInviteLinks));
  Pattern "DELETE" [Lit "api"; Lit "v1"; Lit "admin"; Lit "invite"; Var "id"] false
    (authenticated (asAdmin adminDeleteInviteLink));
  Pattern "DELETE" [Lit "api"; Lit "v1"; Lit "admin"; Lit "peer"; Var "id"] false
    (authenticated (asAdmin adminKickPeer));
  Pattern "POST" [Lit "api"; Lit "v1"; Lit "redeem"; Var "id"] false (handle adminRedeemInviteLink);
  Pattern "" [] true notFoundHandler ].

(** One request, from the mux to the response. *)
Definition ServeHTTP (env : Env) (rq : request) : prog (Server DB) response :=
  match route routes rq.(rq_method) rq.(rq_path) with
  | Some (h, vars) => h env rq vars
  | None => Ret (http_error "404 page not found" StatusNotFound)
  end.

(** NewServer, with the list the ACL file gave, the opened database and the
    fresh magic key. *)
Definition NewServer (key url : string) (acl0 : AllowList) (kv0 : DB)
    (magic : EncryptionKey) : Server DB :=
  MkServer key url magic [] time_zero 0 ∅ acl0 kv0.

(** WithAdvertiseURL and WithRelayAddresses *)
Definition WithAdvertiseURL (url : string) (s : Server DB) : Server DB :=
  MkServer s.(adminKey) url s.(magicKey) s.(relayAddress) s.(lastUpdate) s.(logicalTime)
    s.(nodes) s.(acl) s.(kv).
Definition WithRelayAddresses (addrs : list string) (s : Server DB) : Server DB :=
  MkServer s.(adminKey) s.(advertiseURL) s.(magicKey) addrs s.(lastUpdate) s.(logicalTime)
    s.(nodes) s.(acl) s.(kv).
End Server.

(** ** A server to evaluate

    The instances of the outside libraries that the witnesses run on, a
    server with an empty database and the admin secret "secret", and a
    source of time and randomness. *)
Module ServerEx.
Export MemDB ToyAead Codec AuthEx.

#[export, refine] Instance toy_hashes : Hashes := {
  uuid_string b := b;
  sha256 s := s;
  bcrypt_hash salt pw := if bool_decide (72 < String.length pw)%nat then None else Some ("$" +:+ pw);
  bcrypt_check h pw := bool_decide (h = "$" +:+ pw)
}.
Proof.
  intros salt pw h. case_bool_decide; [done|]. intros [= <-]. by apply bool_decide_eq_true.
Defined.
#[export] Existing Instance map_order.

Definition acl0 : AllowList :=
  {| allow := ∅; path := "allow.list"; file := None; writable := true |}.
Definition server0 : Server mem :=
  NewServer "secret" "https://mesh.example/" acl0 (Mem ∅ false) key32.
Definition env0 : Env :=
  {| now i := (1000000000 * (100 + Z.of_nat i))%Z; rand _ := Some nonce12; seed _ := 0 |}.
Definition rq_anon : request :=
  {| rq_method := "POST"; rq_path := ["api"; "v1"; "nodes"]; rq_authorization := "";
     rq_body := None |}.
Definition rq_member : request :=
  {| rq_method := "GET"; rq_path := ["api"; "v1"; "admin"; "nodes"];
     rq_authorization := session_header; rq_body := None |}.
End ServerEx.
