(* ===== verification/AdminRegistry.v ===== *)
(** * AdminRegistry: the node registry of the membership server and its clock.

    The registry is what mesh nodes poll: they compare the server's logical
    clock with the one they saw last and fetch the list when it moved
    (pkg/mesh/discovery.go).  The theorems say that this protocol cannot miss
    a change, whatever requests run concurrently, and what each registry
    operation does. *)
From Stdlib Require Import Ascii String.
From S2P Require Import Prelude GoStrings Json Api JsonKV AllowList MagicLink Auth Mux.
From S2P Require Import AdminServer.

Section Registry.
Context {DB : Type} `{!Badger DB} `{!JsonText} `{!TimeText} `{!Aead} `{!Hashes} `{!MapOrder}.
Implicit Types (s : Server DB) (env : Env) (rq : request).

(** ** Running the regions of a handler *)

Lemma run_reads {A} (f : Server DB → A) s : run (reads f) s = (s, f s).
Proof. done. Qed.

Lemma run_on_acl {A} (p : prog AllowList A) s :
  run (on_acl p) s = (with_acl (run p s.(acl)).1 s, (run p s.(acl)).2).
Proof. unfold on_acl. by apply run_zoom; try done; intros []. Qed.

(** A handler that stops at a failed decoding. *)
Lemma GetObject_400_err {A} (dec : decoder A) zero ctx e :
  GetObject_400 dec zero ctx = Err e → ∃ msg, e = ApiError StatusBadRequest msg.
Proof. unfold GetObject_400. destruct (GetObject dec zero ctx); naive_solver. Qed.

(** ** The clock and the registry *)

(** What a poller can see of the registry. *)
Definition view s : gmap string PeerNode := nr_Node <$> s.(nodes).

(** The clock is a uint64, and a node is filed under its own id. *)
Definition registry_ok s : Prop :=
  (0 ≤ s.(logicalTime) < 2 ^ 64)%Z ∧ (∀ id node, view s !! id = Some node → node.(ID) = id).

(** No entry is younger than the clock. *)
Definition dated s : Prop :=
  ∀ id node, view s !! id = Some node → (node.(LogicalTime) ≤ s.(logicalTime))%Z.

(** What one atomic region does, while the clock does not wrap: it leaves
    what a poller sees and the clock, or it changes what a poller sees, moves
    the clock by one, and dates what is new with it. *)
Definition moves s s' : Prop :=
  (view s' = view s ∧ s'.(logicalTime) = s.(logicalTime) ∧ s'.(lastUpdate) = s.(lastUpdate)) ∨
  (view s' ≠ view s ∧ s'.(logicalTime) = (s.(logicalTime) + 1)%Z ∧
   ∀ id node, view s' !! id = Some node → view s !! id = Some node ∨ node.(LogicalTime) = s'.(logicalTime)).

Definition evolves s s' : Prop :=
  registry_ok s → dated s → (s.(logicalTime) + 1 < 2 ^ 64)%Z → registry_ok s' ∧ moves s s'.

Lemma evolves_0 s s' :
  view s' = view s → s'.(logicalTime) = s.(logicalTime) → s'.(lastUpdate) = s.(lastUpdate) → evolves s s'.
Proof. intros Hv Hl Hu Hs _ _. unfold registry_ok. rewrite Hv, Hl. split; [done|by left]. Qed.

Lemma moves_dated s s' : dated s → moves s s' → dated s'.
Proof.
  intros Hd [(Hv & Hl & _)|(_ & Hl & Hc)] id node Hn.
  - rewrite Hl. rewrite Hv in Hn. by apply Hd in Hn.
  - destruct (Hc _ _ Hn) as [Hold|]; [apply Hd in Hold|]; lia.
Qed.

(** The two critical sections that change the registry. *)
Lemma evolves_1 s t m :
  nr_Node <$> m ≠ view s → (∀ id node, nr_Node <$> m !! id = Some node → node.(ID) = id) →
  (∀ id node, nr_Node <$> m !! id = Some node →
     view s !! id = Some node ∨ node.(LogicalTime) = tick s.(logicalTime)) →
  evolves s (with_clock t (tick s.(logicalTime)) m s).
Proof.
  intros Hne Hm Hc [Hlt _] _ Hnw.
  assert (tick s.(logicalTime) = s.(logicalTime) + 1)%Z as Htick by (unfold tick; rewrite Z.mod_small; lia).
  unfold registry_ok, moves, view in *. simpl. rewrite Htick in *. split.
  - split; [lia|]. intros id node. rewrite lookup_fmap. apply Hm.
  - right. split_and!; [done..|]. intros id node. rewrite lookup_fmap. apply Hc.
Qed.

Lemma register_evolves s u v node ref :
  nr_Node ref = with_LogicalTime (tick s.(logicalTime)) (with_LastUpdate v node) →
  evolves s (with_clock u (tick s.(logicalTime)) (<[node.(ID) := ref]> s.(nodes)) s).
Proof.
  intros Href Hs Hd Hnw. pose proof Hs as [Hlt Hid]. apply evolves_1; try done.
  - intros Heq. apply (f_equal (lookup node.(ID))) in Heq. rewrite fmap_insert, lookup_insert_eq in Heq.
    symmetry in Heq. apply Hd in Heq. rewrite Href in Heq. cbn [LogicalTime with_LogicalTime] in Heq.
    unfold tick in Heq. rewrite Z.mod_small in Heq; lia.
  - intros id n. destruct (decide (ID node = id)) as [<-|Hne].
    + rewrite lookup_insert_eq. simpl. rewrite Href. by intros [= <-].
    + rewrite lookup_insert_ne by done. rewrite <-lookup_fmap. apply Hid.
  - intros id n. destruct (decide (ID node = id)) as [<-|Hne].
    + rewrite lookup_insert_eq. simpl. rewrite Href. intros [= <-]. by right.
    + rewrite lookup_insert_ne by done. rewrite <-lookup_fmap. by left.
Qed.

Lemma drop_node_evolves s t id : evolves s (drop_node t id s).
Proof.
  unfold drop_node. case_bool_decide as Hreg; [|by apply evolves_0]. intros Hs. pose proof Hs as [_ Hid].
  revert Hs. apply evolves_1.
  - intros Heq. apply (f_equal (lookup id)) in Heq. rewrite fmap_delete, lookup_delete_eq in Heq.
    destruct Hreg as [ref Href]. unfold view in Heq. by rewrite lookup_fmap, Href in Heq.
  - intros id' n Hn. rewrite <-lookup_fmap, fmap_delete, lookup_delete_Some in Hn. by apply Hid, Hn.
  - intros id' n Hn. rewrite <-lookup_fmap, fmap_delete, lookup_delete_Some in Hn. left. tauto.
Qed.

Lemma updateNode_view id token t m m' :
  updateNode id token t m = Some m' → nr_Node <$> m' = nr_Node <$> m.
Proof.
  unfold updateNode. case_bool_decide; [done|]. destruct (m !! id) as [ref|] eqn:Hid; [|done].
  case_bool_decide; [done|]. intros [= <-]. rewrite fmap_insert. simpl.
  apply insert_id. by rewrite lookup_fmap, Hid.
Qed.

Lemma refresh_evolves s id token t m' :
  updateNode id token t s.(nodes) = Some m' →
  evolves s (with_clock s.(lastUpdate) s.(logicalTime) m' s).
Proof.
  intros Hup. apply updateNode_view in Hup. by apply evolves_0.
Qed.

(** ** Every region of every handler *)

Lemma reads_evolves {A} (f : Server DB → A) : respects (λ _, True) evolves (reads f).
Proof. apply respects_atomically. intros s _. split; [done|]. by apply evolves_0. Qed.

Lemma on_acl_evolves {A} (p : prog AllowList A) :
  respects (λ _, True) (λ _ _, True) p → respects (λ _, True) evolves (on_acl p).
Proof.
  intros Hp. unfold on_acl. eapply (respects_zoom acl with_acl p); [exact Hp|done|].
  intros s l _ _ _. split; [done|]. by apply evolves_0.
Qed.

Lemma kv_update_evolves f : respects (λ _, True) evolves (kv_update f : prog (Server DB) _).
Proof.
  apply respects_atomically. intros s _. split; [done|]. destruct (f (kv s)) as [d e].
  by apply evolves_0.
Qed.

Lemma delete_quietly_evolves ks :
  respects (λ _, True) evolves (delete_quietly ks : prog (Server DB) _).
Proof.
  induction ks as [|k ks IH]; cbn [delete_quietly]; [constructor|].
  apply respects_bind; [apply kv_update_evolves|auto].
Qed.

Lemma delete_keys_evolves ks :
  respects (λ _, True) evolves (delete_keys ks : prog (Server DB) _).
Proof.
  induction ks as [|k ks IH]; cbn [delete_keys]; [constructor|].
  apply respects_bind; [apply kv_update_evolves|]. intros []; [done|constructor].
Qed.

Lemma acl_write_evolves (p : prog AllowList ()) :
  (∃ seed id, p = Add seed id ∨ p = Remove seed id) → respects (λ _, True) evolves (on_acl p).
Proof.
  intros (sd & id & [-> | ->]); apply on_acl_evolves;
    [apply Add_respects | apply Remove_respects]; done.
Qed.

Lemma acl_read_evolves id : respects (λ _, True) evolves (on_acl (Has id) : prog (Server DB) _).
Proof. by apply on_acl_evolves, respects_atomically. Qed.
End Registry.

#[export] Hint Resolve reads_evolves kv_update_evolves delete_quietly_evolves delete_keys_evolves
  acl_read_evolves drop_node_evolves : go.
#[export] Hint Extern 1 (respects _ evolves (on_acl (Add _ _))) =>
  (apply acl_write_evolves; eauto) : go.
#[export] Hint Extern 1 (respects _ evolves (on_acl (Remove _ _))) =>
  (apply acl_write_evolves; eauto) : go.

(** Walk a handler: one goal per atomic region that changes the registry. *)
Ltac evolve :=
  repeat (cbn [pbind]; first
    [ progress eauto with go nocore
    | match goal with
      | |- respects _ _ (Ret _) => constructor
      | |- respects _ _ (fail _) => constructor
      | |- respects _ _ (ReplyObject _) => constructor
      | |- respects _ _ (pbind _ _) => apply respects_bind; [|intros ?]
      | |- respects _ _ (kv_Get _ _ _) => apply reads_evolves
      | |- respects _ _ (kv_Put _ _) => apply kv_update_evolves
      | |- respects _ _ (kv_Delete _) => apply kv_update_evolves
      | |- respects _ _ (meshKeysForNode _) => apply reads_evolves
      | |- respects _ _ (if bool_decide _ then _ else _) => case_bool_decide
      | |- respects _ _ (match ?x with _ => _ end) => destruct x
      end ]).

Section Handlers.
Context {DB : Type} `{!Badger DB} `{!JsonText} `{!TimeText} `{!Aead} `{!Hashes} `{!MapOrder}.
Implicit Types (s : Server DB) (env : Env) (rq : request).

Definition quiet (fn : handler) : Prop :=
  ∀ env ctx, respects (λ _ : Server DB, True) evolves (fn env ctx).

Lemma apiNodeAuthorize_evolves : quiet apiNodeAuthorize.
Proof. intros env ctx. unfold apiNodeAuthorize. evolve. Qed.

Lemma apiNodeRegister_evolves : quiet apiNodeRegister.
Proof.
  intros env ctx. unfold apiNodeRegister. evolve.
  apply respects_atomically. intros s _. split; [done|]. simpl.
  by eapply (register_evolves s).
Qed.

Lemma apiNodeRefresh_evolves : quiet apiNodeRefresh.
Proof.
  intros env ctx. unfold apiNodeRefresh. evolve.
  apply respects_atomically. intros s _. split; [done|].
  destruct (updateNode _ _ _ _) as [m|] eqn:Hup; [|by apply evolves_0]. by eapply refresh_evolves.
Qed.

Lemma apiNodeUnregister_evolves : quiet apiNodeUnregister.
Proof.
  intros env ctx. unfold apiNodeUnregister. evolve.
Qed.

Lemma adminDeleteNode_evolves : quiet adminDeleteNode.
Proof.
  intros env ctx. unfold adminDeleteNode. evolve.
Qed.

Lemma adminRedeemInviteLink_evolves : quiet adminRedeemInviteLink.
Proof. intros env ctx. unfold adminRedeemInviteLink. evolve. Qed.
Lemma adminCreateInviteLink_evolves : quiet adminCreateInviteLink.
Proof. intros env ctx. unfold adminCreateInviteLink. evolve. Qed.
Lemma adminListInviteLinks_evolves : quiet adminListInviteLinks.
Proof. intros env ctx. unfold adminListInviteLinks. evolve. Qed.
Lemma adminDeleteInviteLink_evolves : quiet adminDeleteInviteLink.
Proof. intros env ctx. unfold adminDeleteInviteLink. evolve. Qed.
Lemma adminListNodes_evolves : quiet adminListNodes.
Proof. intros env ctx. unfold adminListNodes. evolve. Qed.
Lemma apiNodeLogin_evolves : quiet apiNodeLogin.
Proof. intros env ctx. unfold apiNodeLogin. evolve. Qed.
Lemma apiNodeList_evolves : quiet apiNodeList.
Proof. intros env ctx. unfold apiNodeList. evolve. Qed.
Lemma apiRelayGet_evolves : quiet apiRelayGet.
Proof. intros env ctx. unfold apiRelayGet. evolve. Qed.

(** The wrappers of the HTTP surface. *)
Lemma asAdmin_evolves fn : quiet fn → quiet (asAdmin fn).
Proof. intros Hfn env ctx. unfold asAdmin. evolve. Qed.

Lemma handle_evolves fn env rq vars :
  quiet fn → respects (λ _ : Server DB, True) evolves (handle fn env rq vars).
Proof. intros Hfn. unfold handle. evolve. Qed.

Lemma authenticated_evolves fn env rq vars :
  quiet fn → respects (λ _ : Server DB, True) evolves (authenticated fn env rq vars).
Proof. intros Hfn. unfold authenticated. evolve. Qed.

Lemma ServeHTTP_evolves env rq : respects (λ _ : Server DB, True) evolves (ServeHTTP env rq).
Proof.
  unfold ServeHTTP. destruct (route _ _ _) as [[h vars]|] eqn:Hr; [|constructor].
  apply route_sound in Hr as (p & Hp & <- & _). unfold routes in Hp.
  repeat (apply elem_of_cons in Hp as [->|Hp]); [..|by apply not_elem_of_nil in Hp];
    simpl p_handler; [..|apply respects_ret];
    first [apply handle_evolves | apply authenticated_evolves]; try apply asAdmin_evolves;
    first [apply apiNodeAuthorize_evolves | apply apiNodeRegister_evolves
      | apply apiNodeRefresh_evolves | apply apiNodeUnregister_evolves
      | apply adminDeleteNode_evolves | apply adminRedeemInviteLink_evolves
      | apply adminCreateInviteLink_evolves | apply adminListInviteLinks_evolves
      | apply adminDeleteInviteLink_evolves | apply adminListNodes_evolves
      | apply apiNodeLogin_evolves | apply apiNodeList_evolves | apply apiRelayGet_evolves].
Qed.
End Handlers.

(** ** Properties *)

Section Properties.
Context {DB : Type} `{!Badger DB} `{!JsonText} `{!TimeText} `{!Aead} `{!Hashes} `{!MapOrder}.
Implicit Types (s : Server DB) (env : Env) (rq : request).

(** How many of the atomic regions of a schedule change what a poller
    sees. *)
Fixpoint registry_changes {A} (order : list nat) s (ps : list (prog (Server DB) A)) : nat :=
  match order with
  | [] => 0
  | i :: order' =>
      match ps !! i with
      | Some (Atom upd next) =>
          (if bool_decide (view (upd s) = view s) then 0 else 1)
          + registry_changes order' (upd s) (<[i := next s]> ps)
      | _ => registry_changes order' s ps
      end
  end.

Lemma sched_evolves {A} order s (ps : list (prog (Server DB) A)) :
  Forall (respects (λ _, True) evolves) ps → registry_ok s → dated s →
  (s.(logicalTime) + Z.of_nat (length order) < 2 ^ 64)%Z →
  let s' := (sched order s ps).1 in
  registry_ok s' ∧ dated s' ∧
  s'.(logicalTime) = (s.(logicalTime) + Z.of_nat (registry_changes order s ps))%Z ∧
  (registry_changes order s ps = 0 → view s' = view s ∧ s'.(lastUpdate) = s.(lastUpdate)) ∧
  ∀ id node, view s' !! id = Some node →
    view s !! id = Some node ∨ (s.(logicalTime) < node.(LogicalTime) ≤ s'.(logicalTime))%Z.
Proof.
  revert s ps. induction order as [|i order IH]; intros s ps Hps Hs Hd Hnw; cbn [sched registry_changes].
  { cbn [fst]. split_and!; [done..|lia|done|by left]. }
  cbn [length] in Hnw. destruct (ps !! i) as [[a|upd next]|] eqn:Hi; [apply IH; [done..|lia]| |apply IH; [done..|lia]].
  assert (respects (λ _, True) evolves (Atom upd next)) as Hat by (by eapply Forall_lookup_1 in Hps).
  inversion Hat as [|? ? _ Hev Hnext]; subst.
  destruct (Hev s I Hs Hd) as [Hs1 Hm]; [lia|]. pose proof (moves_dated _ _ Hd Hm) as Hd1.
  destruct (IH (upd s) (<[i := next s]> ps)) as (Hs' & Hd' & Hl & Hz & Hc); [by apply Forall_insert; auto|done..| |].
  { destruct Hm as [(_ & Heq & _)|(_ & Heq & _)]; lia. }
  split; [done|]. split; [done|]. destruct Hm as [(Hv & Hl1 & Hu)|(Hv & Hl1 & Hc1)].
  - rewrite bool_decide_true by done. rewrite Hl1, Hv, Hu in *. by split_and!.
  - rewrite bool_decide_false by done. split_and!; [lia|lia|]. intros id node Hn.
    destruct (Hc _ _ Hn) as [Hold|]; [|right; lia]. destruct (Hc1 _ _ Hold) as [|]; [by left|right; lia].
Qed.

(** C9: The logical clock counts the changes of the registry under every
    interleaving of any set of requests, authenticated or not, while it does
    not wrap: it moves by exactly the number of atomic regions, among all
    those of the requests, that changed the nodes a poller sees; every entry
    that is new or different carries a logical time later than the old
    clock; and if the clock stands where it stood, the nodes are the same.
    So a poller that compares clocks misses no change. *)
Theorem registry_clock_tracks_changes (reqs : list (Env * request)) order s :
  registry_ok s → dated s → (s.(logicalTime) + Z.of_nat (length order) < 2 ^ 64)%Z →
  let ps := (λ er, ServeHTTP er.1 er.2) <$> reqs in
  let s' := (sched order s ps).1 in
  registry_ok s' ∧ dated s' ∧
  s'.(logicalTime) = (s.(logicalTime) + Z.of_nat (registry_changes order s ps))%Z ∧
  (∀ id node, view s' !! id = Some node →
     view s !! id = Some node ∨ (s.(logicalTime) < node.(LogicalTime) ≤ s'.(logicalTime))%Z) ∧
  (s'.(logicalTime) = s.(logicalTime) → view s' = view s ∧ s'.(lastUpdate) = s.(lastUpdate)).
Proof.
  intros Hs Hd Hnw ps s'.
  destruct (sched_evolves order s ps) as (Hs' & Hd' & Hl & Hz & Hc); [|done..|].
  - apply Forall_fmap, Forall_true. intros [env rq]. apply ServeHTTP_evolves.
  - split_and!; [done..|]. intros Heq. apply Hz. fold s' in Hl. lia.
Qed.

(** C30: Registration succeeds exactly for a named node whose id is on the
    allow list.  It then files the node under its id with the next value of
    the clock, answers with the token that refresh will ask for, and
    touches neither the allow list nor the database; a refusal is a 400
    that changes nothing. *)
Theorem register_outcome env ctx s req s' r :
  GetObject_400 dec_register rn_zero ctx = Ok req →
  run (apiNodeRegister env ctx) s = (s', r) →
  (is_ok r = true ↔ req.(rn_Node).(Name) ≠ "" ∧ req.(rn_Node).(ID) ≠ "" ∧
                    is_Some (s.(acl).(allow) !! req.(rn_Node).(ID))) ∧
  (is_ok r = false → s' = s ∧ ∃ msg, r = Err (ApiError StatusBadRequest msg)) ∧
  (is_ok r = true →
     let node := with_LogicalTime s'.(logicalTime) (with_LastUpdate s'.(lastUpdate) req.(rn_Node)) in
     s'.(logicalTime) = tick s.(logicalTime) ∧ s'.(acl) = s.(acl) ∧ s'.(kv) = s.(kv) ∧
     view s' = <[node.(ID) := node]> (view s) ∧
     nr_Token <$> s'.(nodes) !! node.(ID) = Some (newNodeToken env) ∧
     r = Ok (enc_register {| rn_Node := node; rn_Token := newNodeToken env;
       rn_LogicalTime := s'.(logicalTime); rn_LastUpdate := s'.(lastUpdate) |})).
Proof.
  intros Hreq. unfold apiNodeRegister. rewrite Hreq. cbn [pbind].
  case_bool_decide as Hname; [by intros [= <- <-]; naive_solver|].
  case_bool_decide as Hid; [by intros [= <- <-]; naive_solver|].
  rewrite run_bind, run_on_acl, run_Has. simpl.
  case_bool_decide as Hallow; simpl; intros [= <- <-]; simpl.
  - split; [done|]. split; [done|]. intros _. split_and!; try done.
    + unfold view. simpl. by rewrite fmap_insert.
    + by rewrite lookup_insert_eq.
  - split; [naive_solver|]. split; [|done]. intros _. split; [by destruct s|eauto].
Qed.

(** Refresh belongs to the holder of the registration token: it answers
    200 (with the server's clock) exactly when the presented token is
    non-empty and is the one stored for that id, and 409 otherwise.  It
    never changes what pollers see, and a 409 changes nothing at all. *)
Theorem refresh_checks_token env ctx s req s' r :
  let id := ctx.(PathVar) "id" in
  GetObject_400 dec_register rn_zero ctx = Ok req → req.(rn_Node).(ID) = id → id ≠ "" →
  run (apiNodeRefresh env ctx) s = (s', r) →
  (is_ok r = true ↔ req.(rn_Token) ≠ "" ∧ nr_Token <$> s.(nodes) !! id = Some req.(rn_Token)) ∧
  view s' = view s ∧ (nr_Token <$> s'.(nodes)) = (nr_Token <$> s.(nodes)) ∧
  s'.(logicalTime) = s.(logicalTime) ∧ s'.(acl) = s.(acl) ∧ s'.(kv) = s.(kv) ∧
  (is_ok r = true → r = Ok (enc_register {| rn_Node := req.(rn_Node); rn_Token := req.(rn_Token);
       rn_LogicalTime := s.(logicalTime); rn_LastUpdate := s.(lastUpdate) |})) ∧
  (is_ok r = false → s' = s ∧ r = Err (ApiError StatusConflict "node registration invalid")).
Proof.
  intros id Hreq Hid Hne. unfold apiNodeRefresh. fold id.
  rewrite (bool_decide_false _ Hne), Hreq. cbn [pbind].
  rewrite bool_decide_false by (by intros []). rewrite run_bind, run_atomically.
  destruct (updateNode _ _ _ _) as [m|] eqn:Hup; cbn [run fst snd negb]; intros [= <- <-]; simpl.
  - pose proof (updateNode_view _ _ _ _ _ Hup) as Hv. unfold updateNode in Hup.
    case_bool_decide as Htok; [done|]. destruct (nodes s !! id) as [ref|] eqn:Hl; [|done].
    case_bool_decide as Heq; [done|]. simplify_eq/=.
    split_and!; try done; [by rewrite Heq|].
    rewrite fmap_insert. simpl. apply insert_id. by rewrite lookup_fmap, Hl.
  - split_and!; try done. unfold updateNode in Hup.
    case_bool_decide as Htok; [naive_solver|]. destruct (nodes s !! id) as [ref|] eqn:Hl; [|naive_solver].
    simpl. case_bool_decide; [|done]. naive_solver.
Qed.

(** The node list is the registry: the nodes a client decodes from the
    answer are those of the registry, each id once, in whatever order the
    map is iterated. *)
Theorem node_list_complete env ctx s :
  registry_ok s → (∀ id node, view s !! id = Some node → node_ok node = true) →
  ∃ j ns, run (apiNodeList env ctx) s = (s, Ok j) ∧ dec_nodes j [] = (ns, true) ∧
    NoDup (ID <$> ns) ∧ (∀ node, node ∈ ns ↔ view s !! node.(ID) = Some node).
Proof.
  intros [_ Hid] Hok. set (refs := range (env.(seed) 0) s.(nodes)).
  assert (∀ id ref, (id, ref) ∈ refs → view s !! id = Some (nr_Node ref)) as Hin.
  { intros id ref Hr%elem_of_range. unfold view. by rewrite lookup_fmap, Hr. }
  assert (ID <$> (nr_Node <$> refs.*2) = refs.*1) as Hids.
  { rewrite <-!list_fmap_compose. apply list_fmap_ext. intros i [id ref] Hi. simpl.
    apply list_elem_of_lookup_2 in Hi. eauto. }
  exists (enc_nodes (nr_Node <$> refs.*2)), (nr_Node <$> refs.*2).
  split; [done|]. split; [|split].
  - apply dec_nodes_enc, Forall_forall. intros n Hn.
    apply list_elem_of_fmap in Hn as (ref & -> & ([id ref'] & -> & Hr)%list_elem_of_fmap). eauto.
  - rewrite Hids. apply range_nodup_keys.
  - intros node. rewrite list_elem_of_fmap. split.
    + intros (ref & -> & ([id ref'] & -> & Hr)%list_elem_of_fmap). simpl.
      pose proof (Hin _ _ Hr) as Hv. pose proof (Hid _ _ Hv) as Heq. by rewrite Heq.
    + unfold view. rewrite lookup_fmap. intros (ref & Hr & ->)%fmap_Some. exists ref.
      split; [done|]. apply list_elem_of_fmap. eexists (_, ref). split; [done|].
      by apply elem_of_range.
Qed.
End Properties.

(** ** Witnesses *)

Import ServerEx.

Definition node_a : PeerNode := {| ID := "12D3KooWa"; Name := "a"; LogicalTime := 7; LastUpdate := 0 |}.
Definition server_a : Server mem :=
  with_clock 5 7 {[ "12D3KooWa" := {| nr_Node := node_a; nr_Token := "tok"; nr_LastPing := 0 |} ]}
    (with_acl {| allow := {[ "12D3KooWa" := () ]}; path := ""; file := None; writable := true |} server0).
Definition ctx_a : JsonRPC :=
  {| PathVar x := if decide (x = "id") then "12D3KooWa" else "";
     rpc_body := Some (enc_register {| rn_Node := node_a; rn_Token := "tok"; rn_LogicalTime := 0;
                                       rn_LastUpdate := 0 |});
     rpc_user := None |}.

Lemma server_a_ok : registry_ok server_a.
Proof.
  split; [by vm_compute|]. unfold view, server_a. simpl. intros id node.
  rewrite map_fmap_singleton. intros [<- <-]%lookup_singleton_Some. done.
Qed.

(** A node that registers while the administrator kicks it: the clock counts
    both. *)
Definition rq_register : request :=
  {| rq_method := "POST"; rq_path := ["api"; "v1"; "nodes"]; rq_authorization := "Bearer secret";
     rq_body := rpc_body ctx_a |}.
Definition rq_kick : request :=
  {| rq_method := "DELETE"; rq_path := ["api"; "v1"; "admin"; "nodes"; "12D3KooWa"];
     rq_authorization := "Bearer secret"; rq_body := None |}.
Definition racing : list (prog (Server mem) response) :=
  (λ er, ServeHTTP er.1 er.2) <$> [(env0, rq_register); (env0, rq_kick)].
Definition race_order : list nat := [0; 1; 0; 1; 0; 1; 1; 1; 0; 0].

Lemma registry_clock_tracks_changes_witness :
  registry_changes race_order server_a racing = 2 ∧
  (sched race_order server_a racing).1.(logicalTime) = 9%Z ∧
  view (sched race_order server_a racing).1 = ∅.
Proof.
  destruct (registry_clock_tracks_changes [(env0, rq_register); (env0, rq_kick)] race_order server_a
    server_a_ok) as (_ & _ & Hl & _).
  - intros id node Hn. unfold view, server_a in Hn. simpl in Hn. rewrite map_fmap_singleton in Hn.
    by apply lookup_singleton_Some in Hn as [_ <-].
  - by vm_compute.
  - fold racing in Hl. assert (registry_changes race_order server_a racing = 2) as Hn by (by vm_compute).
    rewrite Hn in Hl. split_and!; [done|by rewrite Hl|by vm_compute].
Defined.

Lemma register_outcome_witness :
  let '(s', r) := run (apiNodeRegister env0 ctx_a) server_a in
  is_ok r = true ∧ s'.(logicalTime) = 8%Z.
Proof.
  destruct (run (apiNodeRegister env0 ctx_a) server_a) as [s' r] eqn:Hrun.
  pose proof (register_outcome env0 ctx_a server_a
    {| rn_Node := node_a; rn_Token := "tok"; rn_LogicalTime := 0; rn_LastUpdate := 0 |} s' r
    ltac:(by vm_compute) Hrun) as (Hok & _ & Hs').
  assert (is_ok r = true) as Hr.
  { apply Hok. split_and!; [done|done|]. by vm_compute; eexists. }
  split; [done|]. by destruct (Hs' Hr) as [-> _].
Defined.

Lemma refresh_checks_token_witness :
  let '(s', r) := run (apiNodeRefresh env0 ctx_a) server_a in
  is_ok r = true ∧ s'.(logicalTime) = 7%Z.
Proof.
  destruct (run (apiNodeRefresh env0 ctx_a) server_a) as [s' r] eqn:Hrun.
  pose proof (refresh_checks_token env0 ctx_a server_a
    {| rn_Node := node_a; rn_Token := "tok"; rn_LogicalTime := 0; rn_LastUpdate := 0 |} s' r
    ltac:(by vm_compute) eq_refl ltac:(done) Hrun) as (Hok & _ & _ & Hl & _).
  split; [|by rewrite Hl]. apply Hok. split; [done|]. by vm_compute.
Defined.

Lemma node_list_complete_witness :
  ∃ j ns, run (apiNodeList env0 ctx_a) server_a = (server_a, Ok j) ∧ dec_nodes j [] = (ns, true) ∧
    NoDup (ID <$> ns) ∧ (∀ node, node ∈ ns ↔ view server_a !! node.(ID) = Some node).
Proof.
  apply node_list_complete; [exact server_a_ok|]. unfold view, server_a. simpl. intros id node.
  rewrite map_fmap_singleton. intros [<- <-]%lookup_singleton_Some. by vm_compute.
Defined.
