(* ===== verification/AdminInvites.v ===== *)
(** * AdminInvites: invitations, credentials and the removal of nodes.

    The life of a node's credentials on the membership server: an
    administrator creates an invitation, a node redeems it for a secret, logs
    in with the secret, and is deleted or kicked.  The records live in the
    key/value store; the theorems follow them through the handlers. *)
From Stdlib Require Import Ascii String.
From stdpp Require Import sorting.
From S2P Require Import Prelude GoStrings Json Durations Api JsonKV AllowList MagicLink Auth Mux.
From S2P Require Import AdminServer AdminAccess AdminRegistry.

(** ** Keys of the store *)

Lemma invite_mesh_keys_differ m i m' n : inviteKVKey m i ≠ meshNodeKVKey m' n.
Proof. discriminate. Qed.

Lemma inviteKVKey_inj m i j : inviteKVKey m i = inviteKVKey m j → i = j.
Proof. unfold inviteKVKey. intros H. do 3 apply append_inj_l in H. done. Qed.

Lemma meshNodeKVKey_inj m n n' : meshNodeKVKey m n = meshNodeKVKey m n' → n = n'.
Proof. unfold meshNodeKVKey. intros H. do 3 apply append_inj_l in H. done. Qed.

Definition plain (id : string) : Prop := id ≠ "" ∧ has_byte slash id = false.

Lemma parse_meshNodeKVKey m n :
  plain m → plain n → parseMeshNodeKVKey (meshNodeKVKey m n) = Some (m, n).
Proof.
  intros [Hm Hms] [Hn Hns]. unfold parseMeshNodeKVKey, meshNodeKVKey.
  rewrite has_prefix_app, trim_prefix_app. cbn [negb].
  change ("/nodes/" +:+ n) with (String slash ("nodes" +:+ String slash n)).
  rewrite !split_on_app, split_on_single by done. by rewrite bool_decide_false by naive_solver.
Qed.

Lemma parse_meshNodeKVKey_inv key m n :
  parseMeshNodeKVKey key = Some (m, n) → key = meshNodeKVKey m n ∧ plain m ∧ plain n.
Proof.
  unfold parseMeshNodeKVKey. destruct (has_prefix "/mesh/" key) eqn:Hp; [|done]. cbn [negb].
  apply has_prefix_true in Hp as [t ->]. rewrite trim_prefix_app.
  pose proof (split_on_no_sep slash t) as Hno. pose proof (join_split_on slash t) as Hj.
  destruct (split_on slash t) as [|a [|b [|c [|]]]]; try done.
  case_bool_decide as Hc; [done|]. intros [= -> ->].
  assert (b = "nodes") as -> by (apply dec_stable; tauto).
  inversion_clear Hno as [|? ? Ha Hno']. inversion_clear Hno' as [|? ? _ Hno''].
  inversion_clear Hno'' as [|? ? Hcs _]. split; [|unfold plain; tauto].
  rewrite <-Hj. reflexivity.
Qed.

Section Invites.
Context {DB : Type} `{!Badger DB} `{!JsonText} `{!TimeText} `{!Aead} `{!Hashes} `{!MapOrder}.
Implicit Types (s : Server DB) (env : Env).

Lemma dec_mn_enc r old : time_ok r.(AddedAt) = true → dec_mn (enc_mn r) old = (r, true).
Proof. destruct r, old. intros Ht. unfold dec_mn, enc_mn. by decode_obj. Qed.

Lemma dec_invite_enc i old :
  int64_ok i.(Expires) = true → dec_invite (enc_invite i) old = (i, true).
Proof.
  destruct i, old. unfold int64_ok. intros He%bool_decide_eq_true.
  unfold dec_invite, enc_invite. by decode_obj.
Qed.

Definition mn_ok (r : meshNodeRecord) : bool :=
  utf8_ok r.(NodeID) && utf8_ok r.(mn_Name) && utf8_ok r.(InvitedAs) && utf8_ok r.(PasswordHash)
  && time_ok r.(AddedAt).

Lemma mn_ok_spec r :
  mn_ok r = true → json_utf8 (enc_mn r) = true ∧ ∀ old, dec_mn (enc_mn r) old = (r, true).
Proof.
  unfold mn_ok. rewrite !andb_true_iff. intros ((((Hn & Hm) & Hi) & Hp) & Ht). split.
  - simpl. by rewrite Hn, Hm, Hi, Hp, time_print_utf8.
  - intros old. by apply dec_mn_enc.
Qed.

(** ** Regions on the store *)

Context `{!BadgerLaws DB}.

Lemma run_kv_Get {A} (dec : decoder A) zero key s :
  run (kv_Get dec zero key) s = (s, Get dec zero key s.(kv)).
Proof. done. Qed.

Lemma run_kv_Put key v s :
  healthy s.(kv) → badger_entry key (json_print v) = true →
  ∃ d, run (kv_Put key v) s = (with_kv d s, Ok ()) ∧ healthy d ∧
       contents d = <[key := json_print v]> (contents s.(kv)).
Proof.
  intros Hh Hok. destruct (Put_healthy key v _ Hh Hok) as (d & Hput & Hd & Hc).
  exists d. unfold kv_Put, kv_update. by rewrite run_atomically, Hput.
Qed.

Lemma run_kv_Delete key s :
  healthy s.(kv) → badger_key key = true →
  ∃ d, run (kv_Delete key) s = (with_kv d s, Ok ()) ∧ healthy d ∧
       contents d = delete key (contents s.(kv)).
Proof.
  intros Hh Hok. destruct (Delete_healthy key _ Hh Hok) as (d & Hdel & Hd & Hc).
  exists d. unfold kv_Delete, kv_update. by rewrite run_atomically, Hdel.
Qed.

Lemma run_kv_Delete_inv key s s' r :
  run (kv_Delete key) s = (s', r) →
  ∃ d, s' = with_kv d s ∧
    ((r = Ok () ∧ contents d = delete key (contents s.(kv))) ∨
     (∃ e, r = Err e ∧ contents d = contents s.(kv))).
Proof.
  unfold kv_Delete, kv_update. rewrite run_atomically. unfold Delete.
  destruct (txn_delete key s.(kv)) as [d [e|]] eqn:Hd; intros [= <- <-]; exists d; split; try done.
  - right. exists e. split; [done|]. by eapply delete_err.
  - left. split; [done|]. by eapply delete_ok.
Qed.
End Invites.

(** ** Redeeming *)

Section Redeem.
Context {DB : Type} `{!Badger DB} `{!JsonText} `{!TimeText} `{!Aead} `{!Hashes} `{!MapOrder}.
Context `{!BadgerLaws DB}.
Implicit Types (s : Server DB) (env : Env).

Definition expired (now : Z) (i : inviteSecret) : Prop :=
  (i.(Expires) ≠ 0 ∧ i.(Expires) ≤ unix now)%Z.

(** The part of the handler after the invitation was read. *)
Definition redeem_rest env ctx (key : string) (got : result error inviteSecret)
    : prog (Server DB) reply :=
  match got with
  | Err KeyNotFound => fail (NewError StatusNotFound "invite not found")
  | Err e => fail e
  | Ok invite =>
      if bool_decide (invite.(Expires) ≠ 0 ∧ invite.(Expires) ≤ unix (env.(now) 0))%Z then
        let* _ := kv_Delete key in
        fail (NewError StatusGone "invite expired")
      else
        let! req := Ret (GetObject dec_redeem node_zero ctx) in
        if bool_decide (req.(ID) = "") then fail (NewError StatusBadRequest "node peer id is required")
        else
          let name := if bool_decide (req.(Name) = "") then invite.(InviteAs) else req.(Name) in
          let* _ := on_acl (Add (env.(seed) 0) req.(ID)) in
          let! secret := Ret (newNodeLoginSecret (env.(rand) 0)) in
          let! hash := Ret (hashLoginSecret (env.(rand) 1) secret) in
          let! _ := kv_Put (meshNodeKVKey invite.(MeshId) req.(ID))
            (enc_mn {| NodeID := req.(ID); mn_Name := name; AddedAt := env.(now) 1;
                       InvitedAs := invite.(InviteAs); PasswordHash := hash |}) in
          let! _ := (if invite.(OneTime) then kv_Delete key else Ret (Ok ())) in
          let* server := reads advertiseURL in
          ReplyObject (JObj [("MeshId", JStr invite.(MeshId)); ("MeshSecret", JStr secret);
                             ("MeshServer", JStr server)])
  end.

Lemma redeem_split env ctx :
  ctx.(PathVar) "id" ≠ "" →
  let key := inviteKVKey "default" (ctx.(PathVar) "id") in
  adminRedeemInviteLink env ctx
    = pbind (kv_Get dec_invite invite_zero key) (redeem_rest env ctx key).
Proof. intros Hid key. unfold adminRedeemInviteLink. by rewrite bool_decide_false. Qed.

Lemma run_redeem env ctx s :
  ctx.(PathVar) "id" ≠ "" →
  let key := inviteKVKey "default" (ctx.(PathVar) "id") in
  run (adminRedeemInviteLink env ctx) s
    = run (redeem_rest env ctx key (Get dec_invite invite_zero key s.(kv))) s.
Proof. intros Hid key. by rewrite redeem_split, run_bind, run_kv_Get. Qed.

Definition redeem_record env (invite : inviteSecret) (req : PeerNode) (hash : string) : meshNodeRecord :=
  {| NodeID := req.(ID);
     mn_Name := if bool_decide (req.(Name) = "") then invite.(InviteAs) else req.(Name);
     AddedAt := env.(now) 1; InvitedAs := invite.(InviteAs); PasswordHash := hash |}.

(** The database takes the record. *)
Definition record_fits env (invite : inviteSecret) (req : PeerNode) (hash : string) : Prop :=
  badger_entry (meshNodeKVKey invite.(MeshId) req.(ID)) (json_print (enc_mn (redeem_record env invite req hash))) = true.

(** What a successful redemption needs from the request and from the
    sources of randomness: a decodable node with an id, whose record is not
    too long for the database, sixteen random bytes for the secret and a salt. *)
Record redeem_input env ctx (invite : inviteSecret) (req : PeerNode) (secret hash : string) : Prop := {
  ri_req : GetObject dec_redeem node_zero ctx = Ok req;
  ri_id : req.(ID) ≠ "";
  ri_fits : record_fits env invite req hash;
  ri_secret : newNodeLoginSecret (env.(rand) 0) = Ok secret;
  ri_hash : hashLoginSecret (env.(rand) 1) secret = Ok hash }.

Definition redeem_reply (invite : inviteSecret) (secret url : string) : json :=
  JObj [("MeshId", JStr invite.(MeshId)); ("MeshSecret", JStr secret); ("MeshServer", JStr url)].

Lemma run_redeem_rest env ctx key invite req secret hash s :
  healthy s.(kv) → badger_key key = true → ¬ expired (env.(now) 0) invite →
  redeem_input env ctx invite req secret hash →
  ∃ s', run (redeem_rest env ctx key (Ok invite)) s
          = (s', Ok (redeem_reply invite secret s.(advertiseURL))) ∧
    healthy s'.(kv) ∧ s'.(acl).(allow) = <[req.(ID) := ()]> s.(acl).(allow) ∧
    s' = with_kv s'.(kv) (with_acl s'.(acl) s) ∧ s'.(magicKey) = s.(magicKey) ∧ s'.(nodes) = s.(nodes) ∧
    contents s'.(kv) =
      (if invite.(OneTime) then delete key else id)
        (<[meshNodeKVKey invite.(MeshId) req.(ID) :=
             json_print (enc_mn (redeem_record env invite req hash))]> (contents s.(kv))).
Proof.
  intros Hh Hkey Hexp [Hreq Hid Hfits Hsec Hhash]. unfold redeem_rest.
  rewrite bool_decide_false by done. rewrite Hreq. cbn [pbind].
  rewrite (bool_decide_false _ Hid), run_bind, run_on_acl, Hsec. cbn [pbind].
  rewrite Hhash. cbn [pbind]. fold (redeem_record env invite req hash).
  set (s1 := with_acl _ s).
  destruct (run_kv_Put (meshNodeKVKey invite.(MeshId) req.(ID))
    (enc_mn (redeem_record env invite req hash)) s1) as (d & Hput & Hd & Hc); [done..|].
  rewrite run_bind, Hput. destruct (OneTime invite).
  - destruct (run_kv_Delete key (with_kv d s1)) as (d' & Hdel & Hd' & Hc'); [done..|].
    rewrite run_bind, Hdel. eexists. split; [reflexivity|]. simpl in *.
    split_and!; [done|apply run_Add_allow|done..|]. by rewrite Hc', Hc.
  - eexists. split; [reflexivity|]. simpl in *. split_and!; [done|apply run_Add_allow|done..].
Qed.

(** ** Logging in *)

Lemma run_login env ctx s req meshID rec :
  GetObject dec_login nl_zero ctx = Ok req → req.(nl_NodeID) ≠ "" → req.(nl_MeshSecret) ≠ "" →
  meshID = (if bool_decide (req.(nl_MeshId) = "") then "default" else req.(nl_MeshId)) →
  Get dec_mn mn_zero (meshNodeKVKey meshID req.(nl_NodeID)) s.(kv) = Ok rec →
  run (apiNodeLogin env ctx) s =
    if bool_decide (rec.(PasswordHash) = "")
       || negb (bcrypt_check rec.(PasswordHash) req.(nl_MeshSecret))
    then (s, Err (NewError StatusUnauthorized "invalid credentials"))
    else (s, match issueSessionToken s.(magicKey) req.(nl_NodeID) 0 (env.(now) 0) (env.(rand) 0) with
             | Ok (token, expires) =>
                 Ok (JObj [("Token", JStr token); ("NodeID", JStr req.(nl_NodeID));
                           ("Expires", JInt expires)])
             | Err e => Err e
             end).
Proof.
  intros Hreq Hid Hsec -> Hget. unfold apiNodeLogin. rewrite Hreq. cbn [pbind].
  rewrite bool_decide_false by naive_solver. rewrite run_bind, run_kv_Get, Hget.
  destruct (_ || _); [done|]. rewrite run_bind, run_reads. by destruct (issueSessionToken _ _ _ _ _) as [[]|].
Qed.

Lemma run_login_missing env ctx s req meshID :
  GetObject dec_login nl_zero ctx = Ok req → req.(nl_NodeID) ≠ "" → req.(nl_MeshSecret) ≠ "" →
  meshID = (if bool_decide (req.(nl_MeshId) = "") then "default" else req.(nl_MeshId)) →
  contents s.(kv) !! meshNodeKVKey meshID req.(nl_NodeID) = None →
  ∃ e, run (apiNodeLogin env ctx) s = (s, Err e) ∧
    (healthy s.(kv) → e = ApiError StatusUnauthorized "invalid credentials").
Proof.
  intros Hreq Hid Hsec -> Hnone. unfold apiNodeLogin. rewrite Hreq. cbn [pbind].
  rewrite bool_decide_false by naive_solver. rewrite run_bind, run_kv_Get.
  destruct (Get _ _ _ _) as [rec|e] eqn:Hget.
  - apply Get_ok in Hget. unfold stored in Hget. by rewrite Hnone in Hget.
  - exists (match e with KeyNotFound => NewError StatusUnauthorized "invalid credentials" | _ => e end).
    split; [by destruct e|]. intros Hh. rewrite Get_healthy, Hnone in Hget by done. by simplify_eq.
Qed.
End Redeem.

(** ** Properties of invitations *)

Section InviteProperties.
Context {DB : Type} `{!Badger DB} `{!JsonText} `{!TimeText} `{!Aead} `{!Hashes} `{!MapOrder}.
Context `{!BadgerLaws DB}.
Implicit Types (s : Server DB) (env : Env).

Lemma sched_reads {A B} (f : Server DB → A) (k : A → prog (Server DB) B) i order s ps :
  ps !! i = Some (pbind (reads f) k) →
  sched (i :: order) s ps = sched order s (<[i := k (f s)]> ps).
Proof. intros Hi. cbn [sched]. by rewrite Hi. Qed.

Lemma hash_not_empty env i secret hash :
  hashLoginSecret (env.(rand) i) secret = Ok hash → bcrypt_check hash secret = true.
Proof.
  unfold hashLoginSecret. destruct (rand env i) as [salt|]; [|done].
  destruct (bcrypt_hash salt secret) as [h|] eqn:Hh; [|done]. intros [= <-].
  by eapply bcrypt_check_hash.
Qed.

(** C10: The secret a redemption hands out works: after a valid invitation
    is redeemed, the node is on the allow list, its record is stored under
    the invitation's mesh, the invitation is gone exactly when it was
    one-time, and a login with the returned secret succeeds with a session
    token that authenticates the node as a mesh member, at any later time. *)
Theorem redeem_then_login env ctx s invite req secret hash env' ctx' nonce :
  let key := inviteKVKey "default" (ctx.(PathVar) "id") in
  ctx.(PathVar) "id" ≠ "" → healthy s.(kv) →
  Get dec_invite invite_zero key s.(kv) = Ok invite → ¬ expired (env.(now) 0) invite →
  redeem_input env ctx invite req secret hash →
  mn_ok (redeem_record env invite req hash) = true → hash ≠ "" → secret ≠ "" →
  GetObject dec_login nl_zero ctx'
    = Ok {| nl_NodeID := req.(ID); nl_MeshId := invite.(MeshId); nl_MeshSecret := secret |} →
  invite.(MeshId) ≠ "" →
  aes_key_ok s.(magicKey) = true → env'.(rand) 0 = Some nonce → String.length nonce = nonceSize →
  ∃ s' token,
    run (adminRedeemInviteLink env ctx) s = (s', Ok (redeem_reply invite secret s.(advertiseURL))) ∧
    is_Some (s'.(acl).(allow) !! req.(ID)) ∧
    stored dec_mn mn_zero (meshNodeKVKey invite.(MeshId) req.(ID)) s'.(kv)
      = Some (redeem_record env invite req hash) ∧
    contents s'.(kv) !! key = (if invite.(OneTime) then None else contents s.(kv) !! key) ∧
    run (apiNodeLogin env' ctx') s'
      = (s', Ok (JObj [("Token", JStr token); ("NodeID", JStr req.(ID)); ("Expires", JInt 0)])) ∧
    ∀ now', authenticateSessionToken s.(magicKey) now' token
      = Ok {| User := req.(ID); Group := "mesh" |}.
Proof.
  intros key Hpath Hh Hget Hexp Hin Hok Hhash Hsecret Hlogin Hmesh Hkey Hrand Hnonce.
  pose proof (Get_key_ok _ _ _ _ _ Hh Hget) as Hkok.
  destruct (run_redeem_rest env ctx key invite req secret hash s Hh Hkok Hexp Hin)
    as (s' & Hrun & Hh' & Hallow & _ & Hmagic & _ & Hc).
  destruct (mn_ok_spec _ Hok) as [Hutf8 Hdec].
  assert (utf8_ok req.(ID) = true) as Hidutf8.
  { unfold mn_ok in Hok. rewrite !andb_true_iff in Hok. tauto. }
  destruct (issue_authenticates s'.(magicKey) req.(ID) (env'.(now) 0) nonce) as (token & Hissue & Hauth);
    [by rewrite Hmagic|done|by destruct Hin|done|].
  assert (contents s'.(kv) !! meshNodeKVKey (MeshId invite) (ID req)
    = Some (json_print (enc_mn (redeem_record env invite req hash)))) as Hrec.
  { rewrite Hc. destruct (OneTime invite); simpl;
      rewrite ?lookup_delete_ne by apply invite_mesh_keys_differ; by rewrite lookup_insert_eq. }
  exists s', token. rewrite run_redeem by done. fold key. rewrite Hget. split; [done|]. split; [|split; [|split; [|split]]].
  - rewrite Hallow, lookup_insert_eq. by eexists.
  - unfold stored. rewrite Hrec. simpl. by rewrite unmarshal_print, Hdec.
  - rewrite Hc. destruct (OneTime invite); simpl; [by rewrite lookup_delete_eq|].
    rewrite lookup_insert_ne; [done|]. intros ?. by eapply invite_mesh_keys_differ.
  - erewrite run_login with (meshID := MeshId invite)
      (rec := redeem_record env invite req hash); [|done|by destruct Hin|done| |].
    + cbn [nl_MeshSecret nl_NodeID redeem_record PasswordHash]. destruct Hin as [_ _ _ _ Hhs].
      rewrite (hash_not_empty _ _ _ _ Hhs), (bool_decide_false _ Hhash). simpl.
      by rewrite Hrand, Hissue.
    + simpl. by rewrite bool_decide_false.
    + cbn [nl_NodeID]. rewrite Get_healthy, Hrec by done. by rewrite unmarshal_print, Hdec.
  - rewrite <-Hmagic. exact Hauth.
Qed.

(** C17: A one-time invitation admits one node, sequentially: once a
    redemption of it succeeded, every later redemption of the same link,
    whoever sends it, is refused and changes nothing (404 while the
    database works). *)
Theorem one_time_invite_used_once env ctx s invite req secret hash env' ctx' :
  let key := inviteKVKey "default" (ctx.(PathVar) "id") in
  ctx.(PathVar) "id" ≠ "" → healthy s.(kv) →
  Get dec_invite invite_zero key s.(kv) = Ok invite → ¬ expired (env.(now) 0) invite →
  invite.(OneTime) = true → redeem_input env ctx invite req secret hash →
  ctx'.(PathVar) "id" = ctx.(PathVar) "id" →
  ∃ s', run (adminRedeemInviteLink env ctx) s = (s', Ok (redeem_reply invite secret s.(advertiseURL))) ∧
    run (adminRedeemInviteLink env' ctx') s'
      = (s', Err (ApiError StatusNotFound "invite not found")).
Proof.
  intros key Hpath Hh Hget Hexp Hone Hin Hsame.
  pose proof (Get_key_ok _ _ _ _ _ Hh Hget) as Hkok.
  destruct (run_redeem_rest env ctx key invite req secret hash s Hh Hkok Hexp Hin)
    as (s' & Hrun & Hh' & _ & _ & _ & _ & Hc).
  exists s'. rewrite run_redeem by done. fold key. rewrite Hget. split; [done|].
  rewrite run_redeem by congruence. rewrite Hsame. fold key.
  rewrite Get_healthy, Hc, Hone by done. simpl. by rewrite lookup_delete_eq.
Qed.

(** C38: Concurrently it may admit two: reading the invitation and deleting
    it are two transactions, and when both requests read it before either
    deletes it, both redemptions succeed and both nodes are admitted. *)
Theorem one_time_invite_race env ctx s invite req secret hash env' ctx' req' secret' hash' :
  let key := inviteKVKey "default" (ctx.(PathVar) "id") in
  ctx.(PathVar) "id" ≠ "" → healthy s.(kv) →
  Get dec_invite invite_zero key s.(kv) = Ok invite →
  ¬ expired (env.(now) 0) invite → ¬ expired (env'.(now) 0) invite →
  redeem_input env ctx invite req secret hash → redeem_input env' ctx' invite req' secret' hash' →
  ctx'.(PathVar) "id" = ctx.(PathVar) "id" →
  ∃ order s' r r',
    sched order s [adminRedeemInviteLink env ctx; adminRedeemInviteLink env' ctx']
      = (s', [Ret (Ok r); Ret (Ok r')]) ∧
    is_Some (s'.(acl).(allow) !! req.(ID)) ∧ is_Some (s'.(acl).(allow) !! req'.(ID)).
Proof.
  intros key Hpath Hh Hget Hexp Hexp' Hin Hin' Hsame.
  pose proof (Get_key_ok _ _ _ _ _ Hh Hget) as Hkok.
  destruct (run_redeem_rest env' ctx' key invite req' secret' hash' s Hh Hkok Hexp' Hin')
    as (s1 & Hrun1 & Hh1 & Hallow1 & _).
  destruct (run_redeem_rest env ctx key invite req secret hash s1 Hh1 Hkok Hexp Hin)
    as (s2 & Hrun2 & _ & Hallow2 & _).
  set (p1 := redeem_rest env ctx key (Ok invite) : prog (Server DB) reply).
  set (p2 := redeem_rest env' ctx' key (Ok invite) : prog (Server DB) reply).
  fold p1 in Hrun2. fold p2 in Hrun1.
  destruct (sched_run p2 1 s [p1; p2]) as [o1 Ho1]; [done|].
  destruct (sched_run p1 0 s1 (<[1 := Ret (run p2 s).2]> [p1; p2])) as [o2 Ho2]; [done|].
  exists ([0; 1] ++ o1 ++ o2), s2, (redeem_reply invite secret s1.(advertiseURL)),
    (redeem_reply invite secret' s.(advertiseURL)).
  split; [|rewrite Hallow2, Hallow1; split].
  - rewrite !redeem_split by congruence. rewrite Hsame. fold key.
    cbn [app]. unfold kv_Get. erewrite sched_reads by done. erewrite sched_reads by done.
    cbv beta. rewrite !Hget. cbn [list_insert insert]. fold p1 p2.
    rewrite sched_app, Ho1, Hrun1. rewrite Hrun1 in Ho2. cbn [fst snd] in *.
    rewrite Ho2, Hrun2. done.
  - rewrite lookup_insert_eq. by eexists.
  - destruct (decide (ID req = ID req')) as [->|Hne]; [rewrite lookup_insert_eq; by eexists|].
    rewrite lookup_insert_ne, lookup_insert_eq by done. by eexists.
Qed.
End InviteProperties.

(** ** Creating an invitation *)

Section Create.
Context {DB : Type} `{!Badger DB} `{!JsonText} `{!TimeText} `{!Aead} `{!Hashes} `{!MapOrder}.
Context `{!BadgerLaws DB}.
Implicit Types (s : Server DB) (env : Env).

Lemma int64_small z : (- 2 ^ 63 ≤ z < 2 ^ 63)%Z → int64 z = z.
Proof. intros Hz. unfold int64. rewrite Z.mod_small; lia. Qed.

(** The longest lifetime, in seconds, whose nanoseconds fit in an int64. *)
Definition max_lifetime : Z := 9223372036.

Lemma invite_expiry_exact t l :
  (0 < l ≤ max_lifetime)%Z → invite_expiry t l = (unix t + l)%Z.
Proof.
  unfold max_lifetime. intros Hl. unfold invite_expiry. rewrite bool_decide_true by lia.
  rewrite (int64_small l) by lia. unfold Second. rewrite int64_small by lia.
  unfold unix. rewrite Z.div_add by lia. done.
Qed.

(** The lifetime of an invitation is honoured up to 9223372036 seconds
    (292 years) and not above: there the product of seconds and nanoseconds
    wraps in the int64 of time.Duration, and every lifetime up to twice
    that bound produces an invitation that is already expired. *)
Theorem invite_expiry_bounds t l :
  (0 ≤ l < 2 ^ 64)%Z →
  (l = 0%Z → invite_expiry t l = 0%Z) ∧
  (0 < l ≤ max_lifetime → invite_expiry t l = unix t + l)%Z ∧
  (max_lifetime < l ≤ 2 * max_lifetime → invite_expiry t l < unix t)%Z.
Proof.
  intros Hl. split_and!.
  - intros ->. done.
  - apply invite_expiry_exact.
  - unfold max_lifetime. intros Hb. unfold invite_expiry. rewrite bool_decide_true by lia.
    rewrite (int64_small l) by lia. unfold int64, Second, unix.
    rewrite <-(Z.mod_unique_pos _ _ 1 (l * 1000000000 + 2 ^ 63 - 2 ^ 64)) by lia.
    apply Z.div_lt_upper_bound; [lia|]. pose proof (Z.mod_pos_bound t 1000000000).
    pose proof (Z.div_mod t 1000000000). lia.
Qed.

Definition created_invite env (req : CreateInviteRequest) (uuid : string) : inviteSecret :=
  {| UUID := uuid; MeshId := "default"; OneTime := req.(ci_OneTime);
     Expires := invite_expiry (env.(now) 0) req.(ci_LifetimeSec); InviteAs := req.(ci_Name) |}.

(** An invitation that was created can be redeemed: the answer names
    its id (the digest of a fresh UUID) and a link under the advertised
    URL without its trailing slashes; the store holds the invitation under
    that id with the requested name, use and expiry; and a redemption of
    the link before the expiry succeeds. *)
Theorem create_then_redeem env ctx s req b env' ctx' node secret hash :
  let id := invitePublicID (uuid_string b) in
  let invite := created_invite env req (uuid_string b) in
  healthy s.(kv) → GetObject dec_create ci_zero ctx = Ok req → req.(ci_MeshId) ≠ "" →
  env.(rand) 0 = Some b → utf8_ok (uuid_string b) = true → utf8_ok req.(ci_Name) = true →
  int64_ok invite.(Expires) = true → id ≠ "" → ctx'.(PathVar) "id" = id →
  badger_entry (inviteKVKey "default" id) (json_print (enc_invite invite)) = true →
  ¬ expired (env'.(now) 0) invite → redeem_input env' ctx' invite node secret hash →
  ∃ s' s'',
    run (adminCreateInviteLink env ctx) s =
      (s', Ok (JObj [("InviteId", JStr id);
         ("InviteLink", JStr (trim_right_byte slash s.(advertiseURL) +:+ "/api/v1/redeem/" +:+ id))])) ∧
    stored dec_invite invite_zero (inviteKVKey "default" id) s'.(kv) = Some invite ∧
    run (adminRedeemInviteLink env' ctx') s' = (s'', Ok (redeem_reply invite secret s.(advertiseURL))) ∧
    is_Some (s''.(acl).(allow) !! node.(ID)).
Proof.
  intros id invite Hh Hreq Hmesh Hrand Huuid Hname Hexp64 Hid Hpath Hfits Hexp Hin.
  set (key := inviteKVKey "default" id).
  destruct (run_kv_Put key (enc_invite invite) s Hh Hfits) as (d & Hput & Hd & Hc).
  assert (json_utf8 (enc_invite invite) = true) as Hutf8 by (simpl; by rewrite Huuid, Hname).
  assert (contents d !! key = Some (json_print (enc_invite invite))) as Hstored.
  { by rewrite Hc, lookup_insert_eq. }
  apply andb_true_iff in Hfits as [Hkok _].
  destruct (run_redeem_rest env' ctx' key invite node secret hash (with_kv d s) Hd Hkok Hexp Hin)
    as (s'' & Hrun & _ & Hallow & _).
  exists (with_kv d s), s''. split; [|split; [|split]].
  - unfold adminCreateInviteLink. rewrite Hreq. cbn [pbind].
    rewrite (bool_decide_false _ Hmesh), Hrand. cbn [pbind newInviteID].
    fold (created_invite env req (uuid_string b)). fold id invite key.
    rewrite run_bind, Hput. done.
  - unfold stored. simpl. rewrite Hstored. simpl. by rewrite unmarshal_print, dec_invite_enc.
  - rewrite run_redeem by congruence. rewrite Hpath. fold key.
    rewrite Get_healthy by done. simpl. rewrite Hstored.
    by rewrite unmarshal_print, dec_invite_enc by done.
  - rewrite Hallow, lookup_insert_eq. by eexists.
Qed.

(** An expired invitation admits nobody: its redemption is answered 410,
    the invitation is deleted (while the database works), and the allow
    list, the node records and the registry stay as they were. *)
Theorem expired_invite_refused env ctx s invite :
  let key := inviteKVKey "default" (ctx.(PathVar) "id") in
  ctx.(PathVar) "id" ≠ "" → Get dec_invite invite_zero key s.(kv) = Ok invite →
  expired (env.(now) 0) invite →
  ∃ d, run (adminRedeemInviteLink env ctx) s
         = (with_kv d s, Err (ApiError StatusGone "invite expired")) ∧
    (∀ k, k ≠ key → contents d !! k = contents s.(kv) !! k) ∧
    (healthy s.(kv) → contents d !! key = None).
Proof.
  intros key Hpath Hget Hexp. rewrite run_redeem by done. fold key. rewrite Hget.
  unfold redeem_rest. rewrite bool_decide_true by exact Hexp. rewrite run_bind.
  destruct (run (kv_Delete key) s) as [s' r] eqn:Hdel.
  destruct (run_kv_Delete_inv _ _ _ _ Hdel) as (d & -> & Hd). exists d. split; [done|]. split.
  - intros k Hk. destruct Hd as [[_ ->]|(? & _ & ->)]; [|done]. by rewrite lookup_delete_ne.
  - intros Hh. destruct (run_kv_Delete key s Hh (Get_key_ok _ _ _ _ _ Hh Hget)) as (d' & Hrun & _ & Hc).
    rewrite Hdel in Hrun. simplify_eq. destruct Hd as [[_ ->]|(? & ? & _)]; [|done].
    by rewrite lookup_delete_eq.
Qed.
End Create.

(** ** Removing a node *)

Section Delete.
Context {DB : Type} `{!Badger DB} `{!JsonText} `{!TimeText} `{!Aead} `{!Hashes} `{!MapOrder}.
Implicit Types (s : Server DB) (env : Env).

(** The keys collected by the iteration: those it started with, and of the
    items exactly some that are record keys, all those of the id included. *)
Lemma for_each_mesh_keys id items acc keys :
  for_each (mesh_key_of id) items acc = Ok keys →
  (∀ k, k ∈ keys → k ∈ acc ∨ k ∈ items.*1 ∧ is_Some (parseMeshNodeKVKey k)) ∧
  (∀ k, k ∈ acc → k ∈ keys) ∧
  (∀ k m, k ∈ items.*1 → parseMeshNodeKVKey k = Some (m, id) → k ∈ keys).
Proof.
  revert acc. induction items as [|[k [v|e]] items IH]; intros acc; simpl.
  - intros [= <-]. split_and!; [by left|done|]. by intros k m Hk%not_elem_of_nil.
  - destruct (mesh_key_of id k v acc) as [acc'|] eqn:Hk; [|done]. intros Hrest.
    destruct (IH acc' Hrest) as (Hsub & Hacc & Hall).
    assert ((acc' = acc ∧ ∀ m, parseMeshNodeKVKey k ≠ Some (m, id)) ∨
            (acc' = acc ++ [k] ∧ is_Some (parseMeshNodeKVKey k))) as Hacc'.
    { unfold mesh_key_of in Hk. destruct (parseMeshNodeKVKey k) as [[m n]|]; [|naive_solver].
      case_bool_decide; [naive_solver|]. destruct (unmarshal _ _ _) as [rec []]; [|done]. simpl in Hk.
      case_bool_decide; naive_solver. }
    destruct Hacc' as [[-> Hno]|[-> Hp]].
    + split_and!; [|done|].
      * intros k' Hk'. destruct (Hsub k' Hk') as [|[? ?]]; [by left|]. right. split; [by right|done].
      * intros k' m [->|Hin]%elem_of_cons Hp'; [by destruct (Hno m)|by eapply Hall].
    + split_and!.
      * intros k' Hk'. destruct (Hsub k' Hk') as [[|Hk''%list_elem_of_singleton]%elem_of_app|[? ?]].
        -- by left.
        -- subst k'. right. split; [by left|done].
        -- right. split; [by right|done].
      * intros k' Hk'. apply Hacc, elem_of_app. by left.
      * intros k' m [->|Hin]%elem_of_cons Hp'; [|by eapply Hall].
        apply Hacc, elem_of_app. right. by left.
  - done.
Qed.

Context `{!BadgerLaws DB}.

Lemma run_delete_keys ks s s' r :
  run (delete_keys ks) s = (s', r) →
  ∃ d, s' = with_kv d s ∧
    (∀ k, k ∉ ks → contents d !! k = contents s.(kv) !! k) ∧
    (r = Ok () → ∀ k, k ∈ ks → contents d !! k = None).
Proof.
  revert s. induction ks as [|k ks IH]; intros s.
  { intros [= <- <-]. exists (kv s). destruct s. split_and!; [done..|]. by intros _ k ?%not_elem_of_nil. }
  cbn [delete_keys]. rewrite run_bind. destruct (run (kv_Delete k) s) as [s1 r1] eqn:Hdel.
  destruct (run_kv_Delete_inv _ _ _ _ Hdel) as (d & -> & [[-> Hc]|(e & -> & Hc)]).
  - intros (d' & -> & Hother & Hgone)%IH. exists d'. split; [done|]. simpl in *. split.
    + intros k' Hk'. apply not_elem_of_cons in Hk' as [Hne Hk'].
      by rewrite Hother, Hc, lookup_delete_ne by done.
    + intros Hr k' [->|Hk']%elem_of_cons; [|by apply Hgone].
      destruct (decide (k ∈ ks)) as [Hin|Hin]; [by apply Hgone|].
      by rewrite Hother, Hc, lookup_delete_eq.
  - intros [= <- <-]. exists d. split_and!; [done| |done]. intros k' _. by rewrite Hc.
Qed.

Lemma drop_node_spec t id s :
  (drop_node t id s).(nodes) = delete id s.(nodes) ∧ (drop_node t id s).(kv) = s.(kv) ∧
  (drop_node t id s).(acl) = s.(acl) ∧ (drop_node t id s).(magicKey) = s.(magicKey) ∧
  (drop_node t id s).(adminKey) = s.(adminKey).
Proof.
  unfold drop_node. case_bool_decide as Hn; [done|]. split; [|done].
  symmetry. apply delete_id. by apply eq_None_not_Some.
Qed.

(** The whole handler, on every outcome. *)
Lemma run_adminDeleteNode env ctx s s' r :
  let id := ctx.(PathVar) "id" in
  id ≠ "" → run (adminDeleteNode env ctx) s = (s', r) →
  s'.(magicKey) = s.(magicKey) ∧ s'.(adminKey) = s.(adminKey) ∧
  (∀ k, parseMeshNodeKVKey k = None → contents s'.(kv) !! k = contents s.(kv) !! k) ∧
  (is_ok r = true →
     s'.(nodes) = delete id s.(nodes) ∧ s'.(acl).(allow) = delete id s.(acl).(allow) ∧
     ∀ m, plain m → plain id → contents s'.(kv) !! meshNodeKVKey m id = None).
Proof.
  intros id Hid. unfold adminDeleteNode. fold id. rewrite (bool_decide_false _ Hid).
  unfold meshKeysForNode. rewrite run_bind, run_reads. unfold ForEach.
  destruct (for_each _ _ _) as [ks|e] eqn:Hks; [|by intros [= <- <-]].
  apply for_each_mesh_keys in Hks as (Hsub & _ & Hall).
  rewrite run_bind, run_atomically. cbn [fst snd]. rewrite run_bind, run_on_acl.
  destruct (drop_node_spec (env.(now) 0) id s) as (Hn & Hkv & Hacl & Hmk & Hak).
  set (s1 := with_acl _ _).
  assert (s1.(kv) = s.(kv) ∧ s1.(nodes) = delete id s.(nodes) ∧ s1.(magicKey) = s.(magicKey) ∧
    s1.(adminKey) = s.(adminKey) ∧ s1.(acl).(allow) = delete id s.(acl).(allow)) as (K1 & K2 & K3 & K4 & K5).
  { subst s1. unfold with_acl. cbn [acl kv nodes magicKey adminKey].
    split_and!; try done. by rewrite run_Remove_allow, Hacl. }
  clearbody s1.
  destruct (_ && _); [intros [= <- <-]; by rewrite K1, K3, K4|].
  rewrite run_bind. destruct (run (delete_keys ks) s1) as [s2 r2] eqn:Hdel.
  destruct (run_delete_keys _ _ _ _ Hdel) as (d & -> & Hother & Hgone). intros Hrun.
  assert (s' = with_kv d s1 ∧ (is_ok r = true → r2 = Ok ())) as [-> Hr].
  { destruct r2 as [[]|]; injection Hrun as <- <-; split; done. }
  simpl. split_and!; [done..| |].
  - intros k Hk. rewrite Hother, K1; [done|].
    intros [?%not_elem_of_nil|[_ [? Hp]]]%Hsub; [done|by rewrite Hk in Hp].
  - intros Hok. split_and!; [done..|].
    intros m Hm Hpl.
    destruct (contents d !! meshNodeKVKey m id) as [v|] eqn:Hv; [|done].
    rewrite <-Hv. apply Hgone; [by apply Hr|]. apply (Hall _ m); [|by apply parse_meshNodeKVKey].
    apply items_keys. split; [apply has_prefix_app|].
    destruct (decide (meshNodeKVKey m id ∈ ks)) as [Hin|Hin].
    + by rewrite Hgone in Hv by (auto || by apply Hr).
    + rewrite <-K1, <-Hother, Hv by done. by eexists.
Qed.
End Delete.

Section DeleteProperties.
Context {DB : Type} `{!Badger DB} `{!JsonText} `{!TimeText} `{!Aead} `{!Hashes} `{!MapOrder}.
Context `{!BadgerLaws DB}.
Implicit Types (s : Server DB) (env : Env).

(** A deleted (or kicked) node is out: when the handler answers 200 for
    an id without a slash, the id is in neither the registry nor the allow
    list, no mesh has a record for it, and whatever secret it presents, a
    login as that node is refused and changes nothing. *)
Theorem delete_revokes_node env ctx s s' j :
  let id := ctx.(PathVar) "id" in
  plain id → run (adminDeleteNode env ctx) s = (s', Ok j) →
  s'.(nodes) !! id = None ∧ s'.(acl).(allow) !! id = None ∧
  ∀ env' ctx' req,
    GetObject dec_login nl_zero ctx' = Ok req → req.(nl_NodeID) = id → req.(nl_MeshSecret) ≠ "" →
    has_byte slash req.(nl_MeshId) = false →
    ∃ e, run (apiNodeLogin env' ctx') s' = (s', Err e) ∧
      (healthy s'.(kv) → e = ApiError StatusUnauthorized "invalid credentials").
Proof.
  intros id Hid Hrun. destruct (run_adminDeleteNode env ctx s s' _ (proj1 Hid) Hrun) as (_ & _ & _ & Hok).
  destruct (Hok eq_refl) as (Hn & Ha & Hrec). split; [by rewrite Hn, lookup_delete_eq|]. split; [by rewrite Ha, lookup_delete_eq|].
  intros env' ctx' req Hreq Hnid Hsec Hmesh. eapply run_login_missing; [done| |done|done|].
  { rewrite Hnid. apply Hid. }
  rewrite Hnid. apply Hrec; [|done]. case_bool_decide as Hm; [by split|done].
Qed.

Lemma route_authorize :
  route (routes (DB := DB)) "POST" ["api"; "v1"; "authorize"] = Some (authenticated apiNodeAuthorize, []).
Proof. find_route. Qed.

(** C40: But its session is not revoked: sessions are self-contained.  A
    request to authorize, whose header carries a session token that was good
    before a node was kicked, is accepted by the server after the kick, and
    puts whatever id it names, the kicked one included, back on the allow
    list. *)
Theorem kick_keeps_sessions env ctx s s' j token props env' rq req :
  let id := ctx.(PathVar) "id" in
  id ≠ "" → run (adminKickPeer env ctx) s = (s', Ok j) →
  authenticateSessionToken s.(magicKey) (env'.(now) 9) token = Ok props →
  rq.(rq_method) = "POST" → rq.(rq_path) = ["api"; "v1"; "authorize"] →
  bearer_token rq.(rq_authorization) = Some token →
  GetObject_400 dec_register rn_zero (rpc_of rq [] (Some props)) = Ok req → req.(rn_Node).(ID) = id →
  s'.(acl).(allow) !! id = None ∧
  ∃ s'', run (ServeHTTP env' rq) s' = (s'', respond (Ok (enc_node req.(rn_Node)))) ∧
    is_Some (s''.(acl).(allow) !! id).
Proof.
  intros id Hid Hrun Hauth Hmethod Hpath Htoken Hreq Hnode.
  destruct (run_adminDeleteNode env ctx s s' _ Hid Hrun) as (Hmk & _ & _ & Hok).
  destruct (Hok eq_refl) as (_ & Hallow & _). split; [by rewrite Hallow, lookup_delete_eq|].
  unfold ServeHTTP. rewrite Hmethod, Hpath, route_authorize.
  rewrite (authenticated_accepted _ _ _ _ _ props).
  2: { unfold auth_of. rewrite Hmk. by eapply DoAuth_session. }
  unfold apiNodeAuthorize. rewrite Hreq. cbn [pbind]. rewrite bool_decide_false by congruence.
  rewrite run_bind, run_on_acl. eexists. split; [reflexivity|].
  unfold with_acl. cbn [acl]. rewrite run_Add_allow, Hnode, lookup_insert_eq. by eexists.
Qed.

Lemma no_slash_cancel w w' t t' :
  has_byte slash w = false → has_byte slash w' = false →
  w +:+ String slash t = w' +:+ String slash t' → w = w' ∧ t = t'.
Proof.
  intros Hw Hw' Heq. apply (f_equal (split_on slash)) in Heq.
  rewrite !split_on_app in Heq by done. injection Heq as -> Heq. split; [done|].
  by rewrite <-(join_split_on slash t), Heq, join_split_on.
Qed.

Lemma parse_slash_id m n :
  plain m → has_byte slash n = true → parseMeshNodeKVKey (meshNodeKVKey m n) = None.
Proof.
  intros Hm Hn. destruct (parseMeshNodeKVKey _) as [[m' n']|] eqn:Hp; [|done].
  apply parse_meshNodeKVKey_inv in Hp as (Heq & Hm' & Hn'). unfold meshNodeKVKey in Heq.
  apply append_inj_l in Heq.
  destruct (no_slash_cancel m m' ("nodes/" +:+ n) ("nodes/" +:+ n')) as [_ Hc];
    [apply Hm|apply Hm'|exact Heq|].
  apply append_inj_l in Hc as ->. destruct Hn' as [_ Hn']. congruence.
Qed.

(** A record filed under an id with a slash cannot be deleted: no
    request to the delete endpoint, for this id or any other, removes it,
    so the secret of such a node works for ever. *)
Theorem slash_id_undeletable env ctx s s' r m n :
  ctx.(PathVar) "id" ≠ "" → run (adminDeleteNode env ctx) s = (s', r) →
  plain m → has_byte slash n = true →
  contents s'.(kv) !! meshNodeKVKey m n = contents s.(kv) !! meshNodeKVKey m n.
Proof.
  intros Hid Hrun Hm Hn. destruct (run_adminDeleteNode env ctx s s' r Hid Hrun) as (_ & _ & Hk & _).
  by apply Hk, parse_slash_id.
Qed.
End DeleteProperties.

(** The keys of the node records round trip: parsing accepts exactly the
    keys that were built from a mesh id and a node id that are non-empty and
    have no slash, and gives these back. *)
Theorem mesh_key_roundtrip key m n :
  parseMeshNodeKVKey key = Some (m, n) ↔
  key = meshNodeKVKey m n ∧ m ≠ "" ∧ n ≠ "" ∧ has_byte slash m = false ∧ has_byte slash n = false.
Proof.
  split.
  - intros (-> & [? ?] & [? ?])%parse_meshNodeKVKey_inv. done.
  - intros (-> & ? & ? & ? & ?). by apply parse_meshNodeKVKey.
Qed.

(** ** Listing the nodes *)

Section Order.
(** One level of a lexicographic comparison. *)
Definition lex (x y : string) (rest : Prop) : Prop := (x ≠ y ∧ String.le x y) ∨ (x = y ∧ rest).

Lemma lex_trans x y z P Q W : lex x y P → lex y z Q → (P → Q → W) → lex x z W.
Proof.
  unfold lex. intros [[Hxy Hle]|[-> HP]] [[Hyz Hle']|[-> HQ]] HW; [|left; done|left; done|right; auto].
  left. split; [|by etrans]. intros ->. apply Hxy. by apply (anti_symm String.le).
Qed.
Lemma lex_total x y (P Q : Prop) : P ∨ Q → lex x y P ∨ lex y x Q.
Proof.
  unfold lex. intros HPQ. destruct (decide (x = y)) as [->|Hne]; [tauto|].
  destruct (total String.le x y); [left|right]; left; auto.
Qed.

Lemma str_lt_false a b : str_lt b a = false ↔ String.le a b.
Proof.
  unfold str_lt, String.le, String.ltb, String.leb. rewrite (String.compare_antisym a b).
  by destruct (String.compare b a).
Qed.

Lemma node_not_after_lex a b :
  node_not_after a b ↔
    lex a.(an_MeshId) b.(an_MeshId) (lex a.(an_Name) b.(an_Name) (String.le a.(an_ID) b.(an_ID))).
Proof.
  unfold node_not_after, node_less, lex.
  repeat case_bool_decide; rewrite str_lt_false; naive_solver.
Qed.

#[export] Instance node_not_after_trans : Transitive node_not_after.
Proof.
  intros a b c. rewrite !node_not_after_lex. intros Hab Hbc.
  eapply lex_trans; [done..|]. intros ? ?. eapply lex_trans; [done..|]. intros. by etrans.
Qed.
#[export] Instance node_not_after_total : Total node_not_after.
Proof. intros a b. rewrite !node_not_after_lex. apply lex_total, lex_total, (total _). Qed.
End Order.

Section ListNodes.
Context {DB : Type} `{!Badger DB} `{!JsonText} `{!TimeText} `{!Aead} `{!Hashes} `{!MapOrder}.
Context `{!BadgerLaws DB}.
Implicit Types (s : Server DB) (env : Env).

(** The entry the list shows for a record. *)
Definition admin_node (m n : string) (rec : meshNodeRecord) : AdminNode :=
  {| an_ID := if bool_decide (rec.(NodeID) = "") then n else rec.(NodeID);
     an_Name := rec.(mn_Name); an_MeshId := m; an_AddedAt := rec.(AddedAt);
     an_InvitedAs := rec.(InvitedAs) |}.

Lemma for_each_list_node items acc ns :
  for_each list_node items acc = Ok ns →
  ∀ x, x ∈ ns ↔ x ∈ acc ∨ ∃ k v m n rec, (k, Ok v) ∈ items ∧ parseMeshNodeKVKey k = Some (m, n) ∧
    unmarshal dec_mn v mn_zero = (rec, true) ∧ x = admin_node m n rec.
Proof.
  revert acc. induction items as [|[k [v|e]] items IH]; intros acc; simpl; [|intros Hf|done].
  { intros [= <-] x. split; [by left|]. by intros [|(?&?&?&?&?&?%not_elem_of_nil&_)]. }
  destruct (list_node k v acc) as [acc'|] eqn:Hk; [|done]. intros x. rewrite (IH acc' Hf x).
  setoid_rewrite elem_of_cons. unfold list_node in Hk.
  destruct (parseMeshNodeKVKey k) as [[m n]|] eqn:Hp; [|naive_solver].
  destruct (unmarshal dec_mn v mn_zero) as [rec []] eqn:Hu; [|done]. simpl in Hk.
  fold (admin_node m n rec) in Hk. injection Hk as <-. rewrite elem_of_app, list_elem_of_singleton.
  split.
  - intros [[Hx| ->]|(k0 & v0 & m0 & n0 & r0 & Hin & Hrest)]; [by left|right..].
    + exists k, v, m, n, rec. by split_and!; [left|..].
    + exists k0, v0, m0, n0, r0. by split; [right|].
  - intros [Hx|(k0 & v0 & m0 & n0 & r0 & [[= -> ->]|Hin] & Hp' & Hu' & ->)]; [by left; left|..].
    + left. right. congruence.
    + right. by exists k0, v0, m0, n0, r0.
Qed.

(** The admin's node list is complete and sorted: when the handler
    answers 200 it shows, ordered by mesh, name and id, the entries of
    exactly the decodable node records of the store, and it changes
    nothing. *)
Theorem admin_list_nodes_sorted env ctx s s' j :
  run (adminListNodes env ctx) s = (s', Ok j) →
  s' = s ∧ ∃ ns, j = JObj [("Nodes", JArr (enc_admin_node <$> ns))] ∧
    StronglySorted node_not_after ns ∧
    ∀ x, x ∈ ns ↔ ∃ m n rec, plain m ∧ plain n ∧
      stored dec_mn mn_zero (meshNodeKVKey m n) s.(kv) = Some rec ∧ x = admin_node m n rec.
Proof.
  unfold adminListNodes, ForEach. rewrite run_bind, run_reads.
  destruct (for_each _ _ _) as [ns|e] eqn:Hf; [|done]. intros [= <- <-]. split; [done|].
  exists (merge_sort node_not_after ns). split; [done|]. split.
  { apply Sorted_StronglySorted; [apply _|]. apply Sorted_merge_sort. apply _. }
  intros x. rewrite merge_sort_Permutation, (for_each_list_node _ _ _ Hf). split.
  - intros [?%not_elem_of_nil|(k & v & m & n & rec & Hin & Hp & Hu & ->)]; [done|].
    apply parse_meshNodeKVKey_inv in Hp as (-> & Hm & Hn). exists m, n, rec. split_and!; try done.
    unfold stored. rewrite (items_ok _ _ _ _ Hin). simpl. by rewrite Hu.
  - intros (m & n & rec & Hm & Hn & Hst & ->). right. unfold stored in Hst.
    destruct (contents (kv s) !! meshNodeKVKey m n) as [v|] eqn:Hv; [|done]. simpl in Hst.
    destruct (unmarshal dec_mn v mn_zero) as [rec' []] eqn:Hu; [|done]. simplify_eq.
    exists (meshNodeKVKey m n), v, m, n, rec. split; [|by split_and!; [apply parse_meshNodeKVKey|..]].
    assert (meshNodeKVKey m n ∈ (txn_items "/mesh/" s.(kv)).*1) as Hin.
    { apply items_keys. split; [apply has_prefix_app|by eexists]. }
    apply list_elem_of_fmap in Hin as ([k r] & Hk & Hin). simpl in Hk. subst k.
    assert (∃ v', r = Ok v') as [v' ->].
    { clear -Hf Hin. revert Hf Hin. generalize (@nil AdminNode).
      induction (txn_items "/mesh/" (kv s)) as [|[k' [v'|]] items IH]; intros acc; simpl; [|..|done].
      - by intros _ ?%not_elem_of_nil.
      - destruct (list_node k' v' acc); [|done]. intros Hf [[= _ ->]|Hin]%elem_of_cons; eauto. }
    pose proof (items_ok _ _ _ _ Hin) as Hv'. by simplify_eq.
Qed.
End ListNodes.

(** ** Witnesses *)

Import ServerEx.

Module InviteEx.
Definition ctx (id : string) (j : json) : JsonRPC :=
  {| PathVar x := if decide (x = "id") then id else ""; rpc_body := Some j; rpc_user := None |}.
Definition create_req : CreateInviteRequest :=
  {| ci_Name := "guest"; ci_LifetimeSec := 3600; ci_OneTime := true; ci_MeshId := "default" |}.
Definition invite_id : string := invitePublicID (uuid_string nonce12).
Definition ctx_create : JsonRPC := ctx "" (enc_create create_req).
(** The server with the invitation. *)
Definition server_i : Server mem := (run (adminCreateInviteLink env0 ctx_create) server0).1.
Definition node_b : PeerNode := NewPeerNode "12D3KooWb" "bob".
Definition node_c : PeerNode := NewPeerNode "12D3KooWc" "".
Definition ctx_b : JsonRPC := ctx invite_id (enc_redeem node_b).
Definition ctx_c : JsonRPC := ctx invite_id (enc_redeem node_c).
Definition secret : string := hex_encode nonce12.
Definition login_b : NodeLoginRequest :=
  {| nl_NodeID := "12D3KooWb"; nl_MeshId := "default"; nl_MeshSecret := secret |}.
Definition the_invite : inviteSecret := created_invite env0 create_req (uuid_string nonce12).
(** The server after the redemption by [node_b]. *)
Definition server_b : Server mem := (run (adminRedeemInviteLink env0 ctx_b) server_i).1.
Definition env_late : Env :=
  {| now _ := 9000000000000%Z; rand _ := Some nonce12; seed _ := 0 |}.

Lemma valid : ¬ expired (env0.(now) 0) the_invite.
Proof. intros [_ Hle]. by vm_compute in Hle. Qed.
Lemma input_b : redeem_input env0 ctx_b the_invite node_b secret ("$" +:+ secret).
Proof. split; by vm_compute. Qed.
Lemma input_c : redeem_input env0 ctx_c the_invite node_c secret ("$" +:+ secret).
Proof. split; by vm_compute. Qed.
End InviteEx.
Import InviteEx.

Lemma redeem_then_login_witness :
  ∃ s' token,
    run (adminRedeemInviteLink env0 ctx_b) server_i
      = (s', Ok (redeem_reply the_invite secret "https://mesh.example/")) ∧
    is_Some (s'.(acl).(allow) !! "12D3KooWb") ∧
    stored dec_mn mn_zero (meshNodeKVKey "default" "12D3KooWb") s'.(kv)
      = Some (redeem_record env0 the_invite node_b ("$" +:+ secret)) ∧
    contents s'.(kv) !! inviteKVKey "default" invite_id = None ∧
    run (apiNodeLogin env0 (ctx "" (enc_login login_b))) s'
      = (s', Ok (JObj [("Token", JStr token); ("NodeID", JStr "12D3KooWb"); ("Expires", JInt 0)])) ∧
    ∀ now', authenticateSessionToken key32 now' token
      = Ok {| User := "12D3KooWb"; Group := "mesh" |}.
Proof.
  apply (redeem_then_login env0 ctx_b server_i the_invite node_b secret ("$" +:+ secret) env0
           (ctx "" (enc_login login_b)) nonce12); try exact valid; try exact input_b; by vm_compute.
Defined.

Lemma one_time_invite_used_once_witness :
  ∃ s', run (adminRedeemInviteLink env0 ctx_b) server_i
          = (s', Ok (redeem_reply the_invite secret "https://mesh.example/")) ∧
    run (adminRedeemInviteLink env0 ctx_c) s' = (s', Err (ApiError StatusNotFound "invite not found")).
Proof.
  apply (one_time_invite_used_once env0 ctx_b server_i the_invite node_b secret ("$" +:+ secret) env0
           ctx_c); try exact valid; try exact input_b; by vm_compute.
Defined.

Lemma one_time_invite_race_witness :
  ∃ order s' r r',
    sched order server_i [adminRedeemInviteLink env0 ctx_b; adminRedeemInviteLink env0 ctx_c]
      = (s', [Ret (Ok r); Ret (Ok r')]) ∧
    is_Some (s'.(acl).(allow) !! "12D3KooWb") ∧ is_Some (s'.(acl).(allow) !! "12D3KooWc").
Proof.
  apply (one_time_invite_race env0 ctx_b server_i the_invite node_b secret ("$" +:+ secret) env0
           ctx_c node_c secret ("$" +:+ secret));
    try exact valid; try exact input_b; try exact input_c; by vm_compute.
Defined.

Lemma create_then_redeem_witness :
  ∃ s' s'',
    run (adminCreateInviteLink env0 ctx_create) server0 =
      (s', Ok (JObj [("InviteId", JStr invite_id);
         ("InviteLink", JStr (trim_right_byte slash "https://mesh.example/" +:+ "/api/v1/redeem/" +:+ invite_id))])) ∧
    stored dec_invite invite_zero (inviteKVKey "default" invite_id) s'.(kv) = Some the_invite ∧
    run (adminRedeemInviteLink env0 ctx_b) s'
      = (s'', Ok (redeem_reply the_invite secret "https://mesh.example/")) ∧
    is_Some (s''.(acl).(allow) !! "12D3KooWb").
Proof.
  apply (create_then_redeem env0 ctx_create server0 create_req nonce12 env0 ctx_b node_b secret
           ("$" +:+ secret)); try exact valid; try exact input_b; by vm_compute.
Defined.

Lemma expired_invite_refused_witness :
  ∃ d, run (adminRedeemInviteLink env_late ctx_b) server_i
         = (with_kv d server_i, Err (ApiError StatusGone "invite expired")) ∧
    (∀ k, k ≠ inviteKVKey "default" invite_id → contents d !! k = contents server_i.(kv) !! k) ∧
    (healthy server_i.(kv) → contents d !! inviteKVKey "default" invite_id = None).
Proof.
  apply (expired_invite_refused env_late ctx_b server_i the_invite); [by vm_compute..|].
  split; by vm_compute.
Defined.

Lemma delete_revokes_node_witness :
  let s' := (run (adminDeleteNode env0 (ctx "12D3KooWb" JNull)) server_b).1 in
  s'.(nodes) !! "12D3KooWb" = None ∧ s'.(acl).(allow) !! "12D3KooWb" = None ∧
  ∀ env' ctx' req,
    GetObject dec_login nl_zero ctx' = Ok req → req.(nl_NodeID) = "12D3KooWb" →
    req.(nl_MeshSecret) ≠ "" → has_byte slash req.(nl_MeshId) = false →
    ∃ e, run (apiNodeLogin env' ctx') s' = (s', Err e) ∧
      (healthy s'.(kv) → e = ApiError StatusUnauthorized "invalid credentials").
Proof.
  apply (delete_revokes_node env0 (ctx "12D3KooWb" JNull) server_b _
           (JObj [("NodeID", JStr "12D3KooWb")])).
  - split; by vm_compute.
  - by vm_compute.
Defined.

Definition readmit_b : request :=
  {| rq_method := "POST"; rq_path := ["api"; "v1"; "authorize"]; rq_authorization := session_header;
     rq_body := Some (enc_register {| rn_Node := node_b; rn_Token := ""; rn_LogicalTime := 0; rn_LastUpdate := 0 |}) |}.
Lemma kick_keeps_sessions_witness :
  let s' := (run (adminKickPeer env0 (ctx "12D3KooWb" JNull)) server_b).1 in
  s'.(acl).(allow) !! "12D3KooWb" = None ∧
  ∃ s'', run (ServeHTTP env0 readmit_b) s' = (s'', respond (Ok (enc_node node_b))) ∧
    is_Some (s''.(acl).(allow) !! "12D3KooWb").
Proof.
  eapply (kick_keeps_sessions env0 (ctx "12D3KooWb" JNull) server_b _
    (JObj [("NodeID", JStr "12D3KooWb")]) (drop_str 7 session_header)
    {| User := "12D3KooWa"; Group := "mesh" |} env0 readmit_b
    {| rn_Node := node_b; rn_Token := ""; rn_LogicalTime := 0; rn_LastUpdate := 0 |}); by vm_compute.
Defined.

Lemma slash_id_undeletable_witness :
  let s := with_kv (Mem {[ meshNodeKVKey "default" "a/b" := "record" ]} false) server0 in
  contents (run (adminDeleteNode env0 (ctx "a/b" JNull)) s).1.(kv) !! meshNodeKVKey "default" "a/b"
    = Some "record".
Proof.
  intros s. destruct (run (adminDeleteNode env0 (ctx "a/b" JNull)) s) as [s' r] eqn:Hrun.
  etransitivity; [|exact (eq_refl : contents s.(kv) !! meshNodeKVKey "default" "a/b" = Some "record")].
  apply (slash_id_undeletable env0 (ctx "a/b" JNull) s s' r); [by vm_compute|exact Hrun| |by vm_compute].
  split; by vm_compute.
Defined.

Lemma admin_list_nodes_sorted_witness :
  ∃ ns, run (adminListNodes env0 (ctx "" JNull)) server_b
      = (server_b, Ok (JObj [("Nodes", JArr (enc_admin_node <$> ns))])) ∧
    StronglySorted node_not_after ns ∧ ns ≠ [].
Proof.
  destruct (run (adminListNodes env0 (ctx "" JNull)) server_b) as [s' r] eqn:Hrun.
  assert (∃ j, r = Ok j) as [j ->].
  { assert (is_ok (run (adminListNodes env0 (ctx "" JNull)) server_b).2 = true) as Hok by (by vm_compute).
    rewrite Hrun in Hok. destruct r; [by eexists|done]. }
  destruct (admin_list_nodes_sorted env0 (ctx "" JNull) server_b s' j Hrun) as (-> & ns & -> & Hs & _).
  exists ns. split; [done|]. split; [done|]. intros ->. by vm_compute in Hrun.
Defined.
