(* ===== verification/ModelDex.v ===== *)
(** * ModelDex: the model router (pkg/proxy/modeldex).

    A [ModelRoute] is copied by value everywhere, but its [peers] field is a
    Go map, a reference that the copies share: [heap] holds these maps and a
    route holds the address, None for a nil map.  The answers of the upstream
    model servers (ollama, openai) are arguments.  Each operation runs under
    the router's mutex and is one function on the router. *)
From Stdlib Require Import Ascii String.
From S2P Require Import Prelude GoStrings Json Api.

(** ** core.Provider and core.ModelConfig (pkg/core/config.go) *)

Record ModelConfig := {
  mc_Model : string; mc_Private : bool; mc_Capabilities : list string; mc_Tools : list string }.
Record Provider := {
  pv_ID : string; pv_Type : string; pv_BaseURL : string; pv_Token : string; pv_Private : bool;
  pv_Discovery : string; pv_Models : list ModelConfig }.

(** ** route.go *)

Record LocalRoute := { lr_BaseURL : string; lr_Token : string }.
Record ModelProvider := {
  mp_Private : bool; mp_Provider : string; mp_BaseURL : string; mp_Token : string }.

Record ModelRoute := {
  mr_Name : string; mr_Model : string; Capabilities : list string; ContextLength : Z;
  Owner : string; ModifiedAt : Z;
  providers : list ModelProvider; peers : option nat }.

Definition with_providers ps r := {| mr_Name := mr_Name r; mr_Model := mr_Model r;
  Capabilities := Capabilities r; ContextLength := ContextLength r; Owner := Owner r;
  ModifiedAt := ModifiedAt r; providers := ps; peers := peers r |}.
Definition with_peers l r := {| mr_Name := mr_Name r; mr_Model := mr_Model r;
  Capabilities := Capabilities r; ContextLength := ContextLength r; Owner := Owner r;
  ModifiedAt := ModifiedAt r; providers := providers r; peers := l |}.
Definition with_details caps len own at_ r := {| mr_Name := mr_Name r; mr_Model := mr_Model r;
  Capabilities := caps; ContextLength := len; Owner := own;
  ModifiedAt := at_; providers := providers r; peers := peers r |}.

(** The maps the routes point to, by address. *)
Abbreviation heap := (list (gmap string PeerNode)).

(** The contents of a route's map; a nil map is empty. *)
Definition peers_of (h : heap) (r : ModelRoute) : gmap string PeerNode :=
  match r.(peers) with None => ∅ | Some l => default ∅ (h !! l) end.

Definition IsLocal (r : ModelRoute) : bool := bool_decide (r.(providers) ≠ []).
Definition IsPrivate (r : ModelRoute) : bool := existsb mp_Private r.(providers).

Definition GetLocalRoute (r : ModelRoute) : option LocalRoute :=
  match r.(providers) with
  | [] => None
  | p :: _ => Some {| lr_BaseURL := p.(mp_BaseURL); lr_Token := p.(mp_Token) |}
  end.

Definition AddPeer (h : heap) (r : ModelRoute) (peer : PeerNode) : heap * ModelRoute :=
  let '(h, l) := match r.(peers) with None => (h ++ [∅], length h) | Some l => (h, l) end in
  (<[l := <[peer.(ID) := peer]> (default ∅ (h !! l))]> h, with_peers (Some l) r).

(** ModelRoute.RemovePeer: delete on a nil map does nothing. *)
Definition route_RemovePeer (h : heap) (r : ModelRoute) (peer : PeerNode) : heap :=
  match r.(peers) with None => h | Some l => alter (delete peer.(ID)) l h end.

Definition IsAvailable (h : heap) (r : ModelRoute) : bool :=
  bool_decide (peers_of h r ≠ ∅) || bool_decide (r.(providers) ≠ []).

(** MakeRoute allocates the map. *)
Definition MakeRoute (h : heap) (name model : string) (caps : list string) : heap * ModelRoute :=
  (h ++ [∅], {| mr_Name := name; mr_Model := model; Capabilities := caps; ContextLength := 0;
     Owner := ""; ModifiedAt := time_zero; providers := []; peers := Some (length h) |}).

Section Router.
Context `{!MapOrder}.

(** The first key of the iteration. *)
Definition GetMeshPeerRoute (seed : nat) (h : heap) (r : ModelRoute) : option PeerNode :=
  snd <$> head (range seed (peers_of h r)).
Definition GetPeers (seed : nat) (h : heap) (r : ModelRoute) : list PeerNode :=
  (range seed (peers_of h r)).*2.

(** ** router.go *)

Record ModelRouter := {
  rt_node : PeerNode; rt_providers : list Provider;
  MeshModels : gmap string ModelRoute; rt_heap : heap }.
Definition with_models m h e :=
  {| rt_node := rt_node e; rt_providers := rt_providers e; MeshModels := m; rt_heap := h |}.

Definition NewModelDiscovery (node : PeerNode) (ps : list Provider) : ModelRouter :=
  {| rt_node := node; rt_providers := ps; MeshModels := ∅; rt_heap := [] |}.

Definition ListExportedModels (seed : nat) (e : ModelRouter) : list ModelRoute :=
  filter (λ m, IsLocal m && negb (IsPrivate m) = true) (range seed e.(MeshModels)).*2.

Definition ListMeshModels (seed : nat) (e : ModelRouter) : list ModelRoute :=
  (range seed e.(MeshModels)).*2.

(** The only reader without the lock: this is its result when no other call
    writes the table meanwhile.  One that runs during AddPeerModels is a data
    race, on which the runtime may end the process. *)
Definition ListModels (seed : nat) (e : ModelRouter) : list string :=
  mr_Name <$> (range seed e.(MeshModels)).*2.

(** The loop of AddPeerModels over the models, in the order of the
    iteration.  The route to extend is looked up under the id of the node. *)
Fixpoint add_peer_models (node : PeerNode) (models : list (string * ModelRoute))
    (m : gmap string ModelRoute) (h : heap) : gmap string ModelRoute * heap :=
  match models with
  | [] => (m, h)
  | (name, model) :: models' =>
      let route := default model (m !! node.(ID)) in
      let '(h, route) := AddPeer h route node in
      add_peer_models node models' (<[name := route]> m) h
  end.
Definition AddPeerModels (seed : nat) (node : PeerNode) (models : gmap string ModelRoute)
    (e : ModelRouter) : ModelRouter :=
  let '(m, h) := add_peer_models node (range seed models) e.(MeshModels) e.(rt_heap) in
  with_models m h e.

(** ModelRouter.RemovePeer *)
Definition router_RemovePeer (seed : nat) (node : PeerNode) (e : ModelRouter) : ModelRouter :=
  with_models e.(MeshModels)
    (foldl (λ h r, route_RemovePeer h r node) e.(rt_heap) (range seed e.(MeshModels)).*2) e.

Definition GetModelRoute (model : string) (e : ModelRouter) : option ModelRoute :=
  e.(MeshModels) !! model.

(** *** Fetching the models of a provider *)

Definition provider_of (private : bool) (p : Provider) : ModelProvider :=
  {| mp_Private := private; mp_Provider := p.(pv_Type); mp_BaseURL := p.(pv_BaseURL);
     mp_Token := p.(pv_Token) |}.

Fixpoint whitelist_models (now : Z) (p : Provider) (ms : list ModelConfig)
    (h : heap) (t : gmap string ModelRoute) : heap * gmap string ModelRoute :=
  match ms with
  | [] => (h, t)
  | m :: ms' =>
      let '(h, route) := match t !! m.(mc_Model) with
        | Some route => (h, route)
        | None => MakeRoute h m.(mc_Model) m.(mc_Model) m.(mc_Capabilities)
        end in
      let route := with_details route.(Capabilities) route.(ContextLength) "" now route in
      let route := with_providers (route.(providers) ++ [provider_of m.(mc_Private) p]) route in
      whitelist_models now p ms' h (<[m.(mc_Model) := route]> t)
  end.
Definition modelsFromWhitelist (now : Z) (p : Provider) (h : heap) : heap * gmap string ModelRoute :=
  whitelist_models now p p.(pv_Models) h ∅.

(** The parts of ollama's answers that are used: the entries of /api/tags
    and those of /api/ps. *)
Record OllamaModel := { om_Name : string; om_ContextLength : Z; om_Capabilities : list string }.
Record RunningModel := { rm_Model : string; rm_ContextLength : Z }.

(** What a provider's server answers: url.Parse of the base URL, the two
    ollama lists and the openai list, None for an error. *)
Record OpenaiModel := {
  oa_ID : string; oa_Created : Z; oa_OwnedBy : string; oa_ContextLength : Z }.
Record Upstream := {
  up_url_ok : bool;
  up_tags : option (list OllamaModel);
  up_running : option (list RunningModel);
  up_openai : result error (list OpenaiModel) }.

Fixpoint running_models (now : Z) (p : Provider) (ms : list RunningModel)
    (h : heap) (t : gmap string ModelRoute) : heap * gmap string ModelRoute :=
  match ms with
  | [] => (h, t)
  | m :: ms' =>
      let '(h, route) := match t !! m.(rm_Model) with
        | Some route => (h, route)
        | None => MakeRoute h m.(rm_Model) m.(rm_Model) []
        end in
      let route := with_providers (route.(providers) ++ [provider_of p.(pv_Private) p]) route in
      let route := with_details route.(Capabilities) m.(rm_ContextLength) "ollama" now route in
      running_models now p ms' h (<[m.(rm_Model) := route]> t)
  end.

Definition failed {A} (msg : string) : result error A := Err (OtherError msg).

(** The models that the server does not list are dropped, the others get
    its context length and capabilities. *)
Definition with_properties (tags : list OllamaModel) (models : gmap string ModelRoute)
    : gmap string ModelRoute :=
  let properties := foldl (λ ps m, <[m.(om_Name) := m]> ps) (∅ : gmap string OllamaModel) tags in
  map_imap (λ k m, p ← properties !! k;
    let len := if bool_decide (m.(ContextLength) = 0)%Z then p.(om_ContextLength)
               else m.(ContextLength) in
    Some (with_details (m.(Capabilities) ++ p.(om_Capabilities)) len m.(Owner) m.(ModifiedAt) m))
    models.

Definition ollamaFetchModels (now : Z) (p : Provider) (up : Upstream) (h : heap)
    : heap * result error (gmap string ModelRoute) :=
  if negb up.(up_url_ok) then (h, failed "parse")
  else match up.(up_tags) with
  | None => (h, failed "failed to list running models")
  | Some tags =>
      if bool_decide (p.(pv_Discovery) = "whitelist") then
        let '(h, models) := modelsFromWhitelist now p h in (h, Ok (with_properties tags models))
      else match up.(up_running) with
      | None => (h, failed "failed to list running models")
      | Some running =>
          let '(h, models) := running_models now p running h ∅ in
          (h, Ok (with_properties tags models))
      end
  end.

Fixpoint openai_models (p : Provider) (whitelist : gmap string ModelRoute) (ms : list OpenaiModel)
    (h : heap) (t : gmap string ModelRoute) : heap * gmap string ModelRoute :=
  match ms with
  | [] => (h, t)
  | m :: ms' =>
      match whitelist !! m.(oa_ID) with
      | None => openai_models p whitelist ms' h t
      | Some w =>
          let '(h, route) := match t !! m.(oa_ID) with
            | Some route => (h, route)
            | None =>
                let '(h, route) := MakeRoute h m.(oa_ID) m.(oa_ID) [] in
                (h, with_details w.(Capabilities) m.(oa_ContextLength) "" time_zero route)
            end in
          let route := with_providers (route.(providers) ++ [provider_of p.(pv_Private) p]) route in
          let route := with_details route.(Capabilities) route.(ContextLength) m.(oa_OwnedBy)
                         (m.(oa_Created) * 1000000000) route in
          openai_models p whitelist ms' h (<[m.(oa_ID) := route]> t)
      end
  end.

Definition openaiFetchModels (now : Z) (p : Provider) (up : Upstream) (h : heap)
    : heap * result error (gmap string ModelRoute) :=
  let '(h, whitelist) :=
    if bool_decide (p.(pv_Discovery) = "whitelist") then modelsFromWhitelist now p h else (h, ∅) in
  match up.(up_openai) with
  | Err e => (h, Err e)
  | Ok data => let '(h, models) := openai_models p whitelist data h ∅ in (h, Ok models)
  end.

Definition testFetchModels (now : Z) (p : Provider) (h : heap)
    : heap * result error (gmap string ModelRoute) :=
  let '(h, models) := modelsFromWhitelist now p h in (h, Ok models).

(** One turn of the loop of Refresh; the turn numbered [i] iterates in the
    order [i]. *)
Definition refresh_provider (i : nat) (now : Z) (p : Provider) (up : Upstream) (e : ModelRouter)
    : ModelRouter :=
  let '(h, routes) :=
    if bool_decide (p.(pv_Type) = "ollama") then ollamaFetchModels now p up e.(rt_heap)
    else if bool_decide (p.(pv_Type) = "openai") then openaiFetchModels now p up e.(rt_heap)
    else if bool_decide (p.(pv_Type) = "test") then testFetchModels now p e.(rt_heap)
    else (e.(rt_heap), failed "Unsupported provider type") in
  let e := with_models e.(MeshModels) h e in
  match routes with
  | Err _ => e
  | Ok routes => AddPeerModels i e.(rt_node) routes e
  end.

Fixpoint refresh_loop (i : nat) (now : Z) (up : Provider → Upstream) (ps : list Provider)
    (e : ModelRouter) : ModelRouter :=
  match ps with
  | [] => e
  | p :: ps' => refresh_loop (S i) now up ps' (refresh_provider i now p (up p) e)
  end.
(** The lock is only taken in AddPeerModels, once per provider.  The one call
    is in NewProxy, before anyone else has the router, so nothing comes in
    between and the loop is one step. *)
Definition Refresh (now : Z) (up : Provider → Upstream) (e : ModelRouter) : ModelRouter :=
  refresh_loop 0 now up e.(rt_providers) e.
End Router.

(** ** Lemmas *)

Section RouterLemmas.
Context `{!MapOrder}.

Lemma peers_of_with_peers h l r : peers_of h (with_peers (Some l) r) = default ∅ (h !! l).
Proof. done. Qed.

Lemma AddPeer_spec h r node h' r' :
  AddPeer h r node = (h', r') →
  ∃ l, r' = with_peers (Some l) r ∧ length h ≤ length h' ∧
    (∀ l', l' < length h → l' ≠ l → h' !! l' = h !! l') ∧
    (match r.(peers) with None => l = length h | Some l0 => l = l0 end) ∧
    (l < length h' → h' !! l = Some (<[node.(ID) := node]> (peers_of h r))).
Proof.
  unfold AddPeer, peers_of. destruct (peers r) as [l|] eqn:Hl; intros [= <- <-].
  - exists l. rewrite length_insert. split_and!; [done..| |done|].
    + intros l' _ Hne. by rewrite list_lookup_insert_ne.
    + intros Hlt. by rewrite list_lookup_insert_eq.
  - exists (length h). rewrite length_insert, length_app. simpl. split_and!; [done|lia| |done|].
    + intros l' Hlt Hne. by rewrite list_lookup_insert_ne, lookup_app_l by done.
    + intros _. rewrite list_lookup_insert_eq by (rewrite length_app; simpl; lia).
      by rewrite lookup_app_r, Nat.sub_diag by done.
Qed.

Lemma AddPeer_keeps_fields h r node h' r' :
  AddPeer h r node = (h', r') → r'.(providers) = r.(providers) ∧ r'.(mr_Name) = r.(mr_Name).
Proof. intros (l & -> & _)%AddPeer_spec. done. Qed.

(** The routes of the announced names are replaced by the announced ones,
    unless a model has the name of a node. *)
Lemma add_peer_models_routes node models m h m' h' :
  m !! node.(ID) = None → node.(ID) ∉ models.*1 → NoDup models.*1 →
  add_peer_models node models m h = (m', h') →
  (∀ name, name ∉ models.*1 → m' !! name = m !! name) ∧
  (∀ name r, (name, r) ∈ models → ∃ l, m' !! name = Some (with_peers (Some l) r)).
Proof.
  revert m h. induction models as [|[name model] models IH]; intros m h Hm Hni Hnd; cbn [add_peer_models].
  { intros [= <- <-]. split; [done|]. by intros ? ? ?%not_elem_of_nil. }
  rewrite Hm. cbn [default from_option id]. destruct (AddPeer h model node) as [h1 route] eqn:Hadd.
  rewrite fmap_cons in *. simpl in Hni, Hnd. apply not_elem_of_cons in Hni as [Hne Hni].
  apply NoDup_cons in Hnd as [Hname Hnd]. intros Hrest.
  destruct (IH _ _ (eq_trans (lookup_insert_ne _ _ _ _ (not_eq_sym Hne)) Hm) Hni Hnd Hrest) as [Hother Hin].
  split.
  - intros n Hn. simpl in Hn. apply not_elem_of_cons in Hn as [Hn1 Hn2].
    by rewrite Hother, lookup_insert_ne by done.
  - intros n r [[= -> ->]|Hr]%elem_of_cons; [|by apply Hin].
    rewrite Hother, lookup_insert_eq by done. apply AddPeer_spec in Hadd as (l & -> & _). by exists l.
Qed.

(** The same for routes as they come over the wire, with a nil map: the
    maps of the routes that were there are not touched. *)
Lemma add_peer_models_wire node models m h m' h' :
  m !! node.(ID) = None → node.(ID) ∉ models.*1 → NoDup models.*1 →
  Forall (λ x, x.2.(peers) = None) models →
  add_peer_models node models m h = (m', h') →
  (∃ ext, h' = h ++ ext) ∧
  (∀ name r, (name, r) ∈ models → ∃ l,
     m' !! name = Some (with_peers (Some l) r) ∧ h' !! l = Some {[node.(ID) := node]}).
Proof.
  intros Hm Hni Hnd Hwire Hadd0. pose proof (add_peer_models_routes _ _ _ _ _ _ Hm Hni Hnd Hadd0) as [Hother _].
  revert m h Hm Hadd0 Hother. induction Hwire as [|[name model] models Hnil _ IH]; intros m h Hm; cbn [add_peer_models].
  { intros [= <- <-] _. split; [exists []; by rewrite app_nil_r|]. by intros ? ? ?%not_elem_of_nil. }
  rewrite Hm. cbn [default from_option id]. destruct (AddPeer h model node) as [h1 route] eqn:Hadd.
  rewrite fmap_cons in *. simpl in Hni, Hnd, Hnil. apply not_elem_of_cons in Hni as [Hne Hni].
  apply NoDup_cons in Hnd as [Hname Hnd]. intros Hrest _.
  assert (<[name := route]> m !! node.(ID) = None) as Hm1 by (by rewrite lookup_insert_ne).
  pose proof (add_peer_models_routes _ _ _ _ _ _ Hm1 Hni Hnd Hrest) as [Hother _].
  assert (h1 = h ++ [{[node.(ID) := node]}] ∧ route = with_peers (Some (length h)) model) as [-> ->].
  { unfold AddPeer in Hadd. rewrite Hnil in Hadd. injection Hadd as <- <-. split; [|done].
    by rewrite lookup_app_r, Nat.sub_diag, insert_app_r_alt, Nat.sub_diag by done. }
  destruct (IH Hni Hnd _ _ Hm1 Hrest Hother) as [[ext ->] Hin].
  split; [exists ({[node.(ID) := node]} :: ext); by rewrite <-app_assoc|].
  intros n r [[= -> ->]|Hr]%elem_of_cons; [|by apply Hin].
  rewrite Hother, lookup_insert_eq by done. exists (length h). split; [done|].
  by rewrite <-app_assoc, lookup_app_r, Nat.sub_diag by done.
Qed.

Lemma AddPeerModels_wire seed node models e :
  e.(MeshModels) !! node.(ID) = None → models !! node.(ID) = None →
  (∀ name r, models !! name = Some r → r.(peers) = None) →
  let e' := AddPeerModels seed node models e in
  (∀ name r, models !! name = Some r → ∃ r', e'.(MeshModels) !! name = Some r' ∧
     r'.(providers) = r.(providers) ∧ r'.(mr_Name) = r.(mr_Name) ∧ r'.(mr_Model) = r.(mr_Model) ∧
     peers_of e'.(rt_heap) r' = {[node.(ID) := node]}) ∧
  (∀ name, models !! name = None → e'.(MeshModels) !! name = e.(MeshModels) !! name) ∧
  (∃ ext, e'.(rt_heap) = e.(rt_heap) ++ ext).
Proof.
  intros Hm Hn Hwire e'. subst e'. unfold AddPeerModels.
  destruct (add_peer_models _ _ _ _) as [m' h'] eqn:Hadd. simpl.
  assert (∀ name, models !! name = None ↔ name ∉ (range seed models).*1) as Hkeys.
  { intros name. rewrite list_elem_of_fmap. split.
    - intros Hnone ([k r] & -> & Hr%elem_of_range). simpl in Hnone. congruence.
    - intros Hno. destruct (models !! name) as [r|] eqn:Hr; [|done]. exfalso. apply Hno.
      exists (name, r). split; [done|]. by apply elem_of_range. }
  pose proof (range_nodup_keys seed models) as Hnd.
  assert (Forall (λ x, x.2.(peers) = None) (range seed models)) as Hall.
  { apply Forall_forall. intros [k r] Hr%elem_of_range. by eapply Hwire. }
  destruct (add_peer_models_routes _ _ _ _ _ _ Hm (proj1 (Hkeys _) Hn) Hnd Hadd) as [Hother _].
  destruct (add_peer_models_wire _ _ _ _ _ _ Hm (proj1 (Hkeys _) Hn) Hnd Hall Hadd) as [Hext Hin].
  split_and!; [|by intros name Hname; apply Hother, Hkeys|done].
  intros name r Hr. apply (elem_of_range seed) in Hr. destruct (Hin _ _ Hr) as (l & Hl & Hhl).
  eexists. split; [exact Hl|]. split_and!; [done..|]. by rewrite peers_of_with_peers, Hhl.
Qed.

(** *** Removing a peer *)

Lemma fold_remove_lookup node rs h l :
  foldl (λ h r, route_RemovePeer h r node) h rs !! l
    = (if bool_decide (Some l ∈ peers <$> rs) then delete node.(ID) else id) <$> h !! l.
Proof.
  revert h. induction rs as [|r rs IH]; intros h; cbn [foldl].
  { rewrite bool_decide_false by (by apply not_elem_of_nil). by rewrite option_fmap_id. }
  rewrite IH. unfold route_RemovePeer. rewrite fmap_cons.
  destruct (peers r) as [l'|] eqn:Hr; [destruct (decide (l = l')) as [<-|Hne]|].
  - rewrite list_lookup_alter_eq. rewrite (bool_decide_true (Some l ∈ Some l :: _)) by left.
    destruct (h !! l); [|done]. simpl. case_bool_decide; [|done]. f_equal.
    by rewrite delete_delete_eq.
  - rewrite list_lookup_alter_ne by done. f_equal. erewrite bool_decide_ext; [done|].
    rewrite elem_of_cons. naive_solver.
  - f_equal. erewrite bool_decide_ext; [done|]. rewrite elem_of_cons. naive_solver.
Qed.

Lemma remove_peers_of seed node e name r :
  e.(MeshModels) !! name = Some r →
  peers_of (router_RemovePeer seed node e).(rt_heap) r = delete node.(ID) (peers_of e.(rt_heap) r).
Proof.
  intros Hr. unfold peers_of, router_RemovePeer. simpl. destruct (peers r) as [l|] eqn:Hl.
  - rewrite fold_remove_lookup, bool_decide_true.
    + destruct (rt_heap e !! l); simpl; [done|]. by rewrite delete_empty.
    + rewrite <-Hl. apply list_elem_of_fmap_2, list_elem_of_fmap. exists (name, r).
      split; [done|]. by apply elem_of_range.
  - by rewrite delete_empty.
Qed.
End RouterLemmas.

(** ** Histories of a router *)

(** The calls that change a router, with their arguments.  The routes a peer
    announces were decoded from JSON: they have no map. *)
Inductive event : Type :=
  | EAdd (seed : nat) (node : PeerNode) (models : gmap string ModelRoute)
  | ERemove (seed : nat) (node : PeerNode)
  | ERefresh (now : Z) (up : Provider → Upstream).

Definition from_wire (ev : event) : Prop :=
  match ev with
  | EAdd _ _ models => ∀ name r, models !! name = Some r → r.(peers) = None
  | _ => True
  end.

Section Histories.
Context `{!MapOrder}.

Definition apply_event (e : ModelRouter) (ev : event) : ModelRouter :=
  match ev with
  | EAdd seed node models => AddPeerModels seed node models e
  | ERemove seed node => router_RemovePeer seed node e
  | ERefresh now up => Refresh now up e
  end.

(** The peers announced and not removed since; a refresh announces the
    router's own node. *)
Definition live_step (self : PeerNode) (live : list PeerNode) (ev : event) : list PeerNode :=
  match ev with
  | EAdd _ node _ => node :: live
  | ERemove _ node => filter (λ n, n.(ID) ≠ node.(ID)) live
  | ERefresh _ _ => self :: live
  end.
Definition live (self : PeerNode) (evs : list event) : list PeerNode :=
  foldl (live_step self) [] evs.

(** A route whose map is allocated and holds live peers under their ids. *)
Definition live_map (L : list PeerNode) (m : gmap string PeerNode) : Prop :=
  ∀ id n, m !! id = Some n → n.(ID) = id ∧ n ∈ L.
Definition good (h : heap) (L : list PeerNode) (r : ModelRoute) : Prop :=
  ∃ l m, r.(peers) = Some l ∧ h !! l = Some m ∧ live_map L m.
Definition all_good (h : heap) (L : list PeerNode) (m : gmap string ModelRoute) : Prop :=
  ∀ name r, m !! name = Some r → good h L r.

Lemma good_app h ext L r : good h L r → good (h ++ ext) L r.
Proof.
  intros (l & m & Hl & Hm & HL). exists l, m. split_and!; [done| |done].
  by apply lookup_app_l_Some.
Qed.

Lemma good_mono h L n r : good h L r → good h (n :: L) r.
Proof.
  intros (l & m & Hl & Hm & HL). exists l, m. split_and!; [done..|].
  intros id n' Hn. destruct (HL _ _ Hn). split; [done|]. by right.
Qed.

Lemma good_ext h L r r' : r'.(peers) = r.(peers) → good h L r → good h L r'.
Proof. unfold good. by intros ->. Qed.

Lemma AddPeer_good h L r node h' r' :
  node ∈ L → r.(peers) = None ∨ good h L r → AddPeer h r node = (h', r') →
  good h' L r' ∧ ∀ r2, good h L r2 → good h' L r2.
Proof.
  intros Hin Hr Hadd.
  assert (∀ m, live_map L m → live_map L (<[node.(ID) := node]> m)) as Hins.
  { intros m HL id n [[<- <-]|[_ Hn]]%lookup_insert_Some; [done|by apply HL]. }
  destruct (AddPeer_spec _ _ _ _ _ Hadd) as (l & -> & Hlen & Hother & Hl & Hnew).
  assert (live_map L (peers_of h r) ∧ l < length h') as [Hmap Hlt].
  { unfold AddPeer in Hadd. unfold peers_of. destruct Hr as [Hnil|(l' & m & Hl' & Hm & HL)].
    - rewrite Hnil in *. injection Hadd as <-. subst l. split; [by intros ? ?|].
      rewrite length_insert, length_app. simpl. lia.
    - rewrite Hl', Hm in *. subst l'. split; [done|]. apply lookup_lt_Some in Hm. lia. }
  specialize (Hnew Hlt). split.
  - exists l, (<[node.(ID) := node]> (peers_of h r)). split_and!; [done..|by apply Hins].
  - intros r2 (l2 & m2 & Hl2 & Hm2 & HL2). destruct (decide (l2 = l)) as [->|Hne].
    + exists l, (<[node.(ID) := node]> (peers_of h r)). split_and!; [done..|by apply Hins].
    + exists l2, m2. split_and!; [done| |done]. rewrite Hother; [done| |done].
      by eapply lookup_lt_Some.
Qed.

Lemma add_peer_models_good node models m h L m' h' :
  node ∈ L → all_good h L m → Forall (λ x, x.2.(peers) = None ∨ good h L x.2) models →
  add_peer_models node models m h = (m', h') → all_good h' L m'.
Proof.
  intros Hin. revert m h. induction models as [|[name model] models IH]; intros m h Hm Hall;
    cbn [add_peer_models].
  { by intros [= <- <-]. }
  inversion_clear Hall as [|? ? Hmodel Hmodels]. simpl in Hmodel.
  destruct (AddPeer h _ node) as [h1 route] eqn:Hadd. intros Hrest.
  apply AddPeer_good with (L := L) in Hadd as [Hroute Hkeep]; [|done|].
  - eapply IH; [| |exact Hrest].
    + intros n r [[<- <-]|[_ Hr]]%lookup_insert_Some; [done|]. by eapply Hkeep, Hm.
    + eapply Forall_impl; [exact Hmodels|]. intros x [?|?]; [by left|]. right. by apply Hkeep.
  - destruct (m !! node.(ID)) as [r|] eqn:Hr; simpl; [right; by eapply Hm|done].
Qed.

Lemma AddPeerModels_good seed node models e L :
  node ∈ L → all_good e.(rt_heap) L e.(MeshModels) →
  (∀ name r, models !! name = Some r → r.(peers) = None ∨ good e.(rt_heap) L r) →
  all_good (AddPeerModels seed node models e).(rt_heap) L (AddPeerModels seed node models e).(MeshModels).
Proof.
  intros Hin Hm Hmodels. unfold AddPeerModels.
  destruct (add_peer_models _ _ _ _) as [m' h'] eqn:Hadd. simpl.
  eapply add_peer_models_good; [done|exact Hm| |exact Hadd].
  apply Forall_forall. intros [k r] Hr%elem_of_range. by eapply Hmodels.
Qed.

Lemma remove_good seed node e L :
  all_good e.(rt_heap) L e.(MeshModels) →
  all_good (router_RemovePeer seed node e).(rt_heap) (filter (λ n, n.(ID) ≠ node.(ID)) L)
    (router_RemovePeer seed node e).(MeshModels).
Proof.
  intros Hm name r Hr. simpl in Hr. destruct (Hm _ _ Hr) as (l & m & Hl & Hlm & HL).
  exists l, (delete node.(ID) m). simpl. split_and!; [done| |].
  - rewrite fold_remove_lookup, bool_decide_true; [by rewrite Hlm|].
    rewrite <-Hl. apply list_elem_of_fmap_2, list_elem_of_fmap. exists (name, r).
    split; [done|]. by apply elem_of_range.
  - intros id n [Hne Hn]%lookup_delete_Some. destruct (HL _ _ Hn) as [<- HinL].
    split; [done|]. by apply list_elem_of_filter.
Qed.

(** *** The routes a fetch makes: fresh, with empty maps *)

Lemma MakeRoute_good h name model caps h' r :
  MakeRoute h name model caps = (h', r) →
  good h' [] r ∧ ∀ L r2, good h L r2 → good h' L r2.
Proof.
  intros [= <- <-]. split; [|intros; by apply good_app].
  exists (length h), ∅. split_and!; [done| |by intros ? ?].
  by rewrite lookup_app_r, Nat.sub_diag.
Qed.

(** What the loops over a table of routes keep: the heap grows, the routes
    made so far and any other good route stay good. *)
Definition fetched (h h' : heap) (t : gmap string ModelRoute) : Prop :=
  all_good h' [] t ∧ ∀ L r, good h L r → good h' L r.

Lemma fetched_step h t name model caps h1 r :
  all_good h [] t →
  match t !! name with Some r => (h, r) | None => MakeRoute h name model caps end = (h1, r) →
  (∀ r', r'.(peers) = r.(peers) → all_good h1 [] (<[name := r']> t)) ∧
  ∀ L r2, good h L r2 → good h1 L r2.
Proof.
  intros Ht Hr.
  assert (good h1 [] r ∧ ∀ L r2, good h L r2 → good h1 L r2) as [Hg Hkeep].
  { destruct (t !! name) eqn:Hn; [|by eapply MakeRoute_good]. injection Hr as <- <-.
    split; [by eapply Ht|done]. }
  split; [|done]. intros r' Hr' n r2 [[<- <-]|[_ H2]]%lookup_insert_Some; [by eapply good_ext|].
  by eapply Hkeep, Ht.
Qed.

Lemma whitelist_models_fetched now p ms h t h' t' :
  whitelist_models now p ms h t = (h', t') → all_good h [] t → fetched h h' t'.
Proof.
  revert h t. induction ms as [|m ms IH]; intros h t; cbn [whitelist_models].
  { intros [= <- <-] Ht. by split. }
  destruct (match t !! mc_Model m with Some r => _ | None => _ end) as [h1 r] eqn:Hr.
  intros Hrest Ht. apply (fetched_step h t) in Hr as [Hg Hkeep]; [|done].
  destruct (IH _ _ Hrest) as [Hall Hkeep']; [by apply Hg|]. split; [done|]. auto.
Qed.

Lemma running_models_fetched now p ms h t h' t' :
  running_models now p ms h t = (h', t') → all_good h [] t → fetched h h' t'.
Proof.
  revert h t. induction ms as [|m ms IH]; intros h t; cbn [running_models].
  { intros [= <- <-] Ht. by split. }
  destruct (match t !! rm_Model m with Some r => _ | None => _ end) as [h1 r] eqn:Hr.
  intros Hrest Ht. apply (fetched_step h t) in Hr as [Hg Hkeep]; [|done].
  destruct (IH _ _ Hrest) as [Hall Hkeep']; [by apply Hg|]. split; [done|]. auto.
Qed.

Lemma openai_models_fetched p w ms h t h' t' :
  openai_models p w ms h t = (h', t') → all_good h [] t → fetched h h' t'.
Proof.
  revert h t. induction ms as [|m ms IH]; intros h t; cbn [openai_models].
  { intros [= <- <-] Ht. by split. }
  destruct (w !! oa_ID m) as [wr|]; [|apply IH].
  destruct (match t !! oa_ID m with Some r => _ | None => _ end) as [h1 r] eqn:Hr.
  intros Hrest Ht.
  assert (∃ r0, match t !! oa_ID m with
                | Some r => (h, r) | None => MakeRoute h (oa_ID m) (oa_ID m) [] end = (h1, r0)
                ∧ r.(peers) = r0.(peers)) as (r0 & Hr0 & Hp).
  { destruct (t !! oa_ID m); simpl in *; simplify_eq; by eexists. }
  apply (fetched_step h t) in Hr0 as [Hg Hkeep]; [|done].
  destruct (IH _ _ Hrest) as [Hall Hkeep']; [by apply Hg|]. split; [done|]. auto.
Qed.

Lemma with_properties_good tags h t : all_good h [] t → all_good h [] (with_properties tags t).
Proof.
  intros Ht name r. unfold with_properties. rewrite map_lookup_imap.
  destruct (t !! name) as [r0|] eqn:Hr0; simpl; [|done].
  destruct (foldl _ _ _ !! name); simpl; [|done]. intros [= <-].
  eapply good_ext; [|by eapply Ht]. done.
Qed.
End Histories.

Section LivePeers.
Context `{!MapOrder}.

Definition fetch_ok (h : heap) (res : heap * result error (gmap string ModelRoute)) : Prop :=
  (∀ L r, good h L r → good res.1 L r) ∧ (∀ t, res.2 = Ok t → all_good res.1 [] t).

Lemma all_good_empty h L : all_good h L ∅.
Proof. intros name r Hr. by rewrite lookup_empty in Hr. Qed.

Lemma fetch_err h msg : fetch_ok h (h, failed msg).
Proof. by split. Qed.

Lemma modelsFromWhitelist_fetched now p h h' t :
  modelsFromWhitelist now p h = (h', t) → fetched h h' t.
Proof. intros Hw. eapply whitelist_models_fetched; [exact Hw|apply all_good_empty]. Qed.

Lemma ollama_fetch_ok now p up h : fetch_ok h (ollamaFetchModels now p up h).
Proof.
  unfold ollamaFetchModels. destruct (negb _); [apply fetch_err|].
  destruct (up_tags up) as [tags|]; [|apply fetch_err]. case_bool_decide.
  - destruct (modelsFromWhitelist now p h) as [h' t] eqn:Hw.
    apply modelsFromWhitelist_fetched in Hw as [Ht Hkeep]. split; [done|].
    intros ? [= <-]. by apply with_properties_good.
  - destruct (up_running up) as [running|]; [|apply fetch_err].
    destruct (running_models now p running h ∅) as [h' t] eqn:Hw.
    apply running_models_fetched in Hw as [Ht Hkeep]; [|apply all_good_empty]. split; [done|].
    intros ? [= <-]. by apply with_properties_good.
Qed.

Lemma openai_fetch_ok now p up h : fetch_ok h (openaiFetchModels now p up h).
Proof.
  unfold openaiFetchModels.
  assert (∃ h1 w, (if bool_decide (pv_Discovery p = "whitelist")
      then modelsFromWhitelist now p h else (h, ∅)) = (h1, w) ∧
    ∀ L r, good h L r → good h1 L r) as (h1 & w & -> & Hkeep).
  { case_bool_decide; [|by eexists _, _].
    destruct (modelsFromWhitelist now p h) as [h1 w] eqn:Hw. exists h1, w. split; [done|].
    by apply modelsFromWhitelist_fetched in Hw as [_ Hkeep]. }
  destruct (up_openai up) as [data|e]; [|by split].
  destruct (openai_models p w data h1 ∅) as [h2 t] eqn:Hm.
  apply openai_models_fetched in Hm as [Ht Hkeep']; [|apply all_good_empty].
  split; simpl; [auto|]. by intros ? [= <-].
Qed.

Lemma test_fetch_ok now p h : fetch_ok h (testFetchModels now p h).
Proof.
  unfold testFetchModels. destruct (modelsFromWhitelist now p h) as [h' t] eqn:Hw.
  apply modelsFromWhitelist_fetched in Hw as [Ht Hkeep]. split; [done|]. by intros ? [= <-].
Qed.

Lemma good_weaken h L r : good h [] r → good h L r.
Proof.
  intros (l & m & Hl & Hm & HL). exists l, m. split_and!; [done..|].
  intros id n Hn. destruct (HL _ _ Hn) as [_ ?%not_elem_of_nil]. done.
Qed.

Lemma refresh_provider_good i now p up e L :
  e.(rt_node) ∈ L → all_good e.(rt_heap) L e.(MeshModels) →
  let e' := refresh_provider i now p up e in
  all_good e'.(rt_heap) L e'.(MeshModels) ∧ e'.(rt_node) = e.(rt_node).
Proof.
  intros Hself Hm. unfold refresh_provider.
  set (res := if bool_decide (pv_Type p = "ollama") then _ else _).
  assert (fetch_ok (rt_heap e) res) as [Hkeep Hok].
  { subst res. repeat case_bool_decide; [apply ollama_fetch_ok|apply openai_fetch_ok
      |apply test_fetch_ok|apply fetch_err]. }
  destruct res as [h routes]. simpl in *. destruct routes as [t|err].
  - split; [|unfold AddPeerModels; by destruct (add_peer_models _ _ _ _)].
    apply AddPeerModels_good; simpl; [done| |].
    + intros name r Hr. by eapply Hkeep, Hm.
    + intros name r Hr. right. apply good_weaken. by eapply Hok.
  - split; [|done]. intros name r Hr. by eapply Hkeep, Hm.
Qed.

Lemma refresh_loop_good i now up ps e L :
  e.(rt_node) ∈ L → all_good e.(rt_heap) L e.(MeshModels) →
  let e' := refresh_loop i now up ps e in
  all_good e'.(rt_heap) L e'.(MeshModels) ∧ e'.(rt_node) = e.(rt_node).
Proof.
  revert i e. induction ps as [|p ps IH]; intros i e Hself Hm; [done|]. cbn [refresh_loop].
  destruct (refresh_provider_good i now p (up p) e L Hself Hm) as [Hm' Hn].
  rewrite <-Hn. apply IH; [by rewrite Hn|done].
Qed.

Lemma all_good_mono h L n m : all_good h L m → all_good h (n :: L) m.
Proof. intros Hm name r Hr. by eapply good_mono, Hm. Qed.

Lemma apply_event_good e ev L :
  from_wire ev → all_good e.(rt_heap) L e.(MeshModels) →
  let e' := apply_event e ev in
  all_good e'.(rt_heap) (live_step e.(rt_node) L ev) e'.(MeshModels) ∧ e'.(rt_node) = e.(rt_node).
Proof.
  intros Hwire Hm. destruct ev as [seed node models|seed node|now up]; simpl.
  - split; [|unfold AddPeerModels; by destruct (add_peer_models _ _ _ _)].
    apply AddPeerModels_good; [by left|by apply all_good_mono|]. intros name r Hr. left. by eapply Hwire.
  - split; [by apply remove_good|done].
  - unfold Refresh. apply refresh_loop_good; [by left|by apply all_good_mono].
Qed.

Lemma history_good self ps evs :
  Forall from_wire evs →
  let e := foldl apply_event (NewModelDiscovery self ps) evs in
  all_good e.(rt_heap) (live self evs) e.(MeshModels) ∧ e.(rt_node) = self.
Proof.
  induction evs as [|ev evs IH] using rev_ind; intros Hev.
  { split; [apply all_good_empty|done]. }
  apply Forall_app in Hev as [Hevs Hev]. rewrite Forall_singleton in Hev.
  unfold live. rewrite !foldl_snoc. destruct (IH Hevs) as [Hm Hn].
  pose proof (apply_event_good _ ev _ Hev Hm) as [Hm' Hn']. rewrite Hn in Hm', Hn'. done.
Qed.

(** C14: Requests are only ever sent to live peers.  Whatever announcements,
    removals and refreshes a router went through, the peer it picks for a
    model is one that was announced and not removed since (or the node
    itself, once it refreshed), stored under its own id. *)
Theorem mesh_route_is_live self ps evs name r seed node :
  Forall from_wire evs →
  let e := foldl apply_event (NewModelDiscovery self ps) evs in
  GetModelRoute name e = Some r → GetMeshPeerRoute seed e.(rt_heap) r = Some node →
  node ∈ live self evs.
Proof.
  intros Hev e Hr. destruct (history_good self ps evs Hev) as [Hm _].
  destruct (Hm _ _ Hr) as (l & m & Hl & Hlm & HL). fold e in Hlm.
  unfold GetMeshPeerRoute, peers_of. rewrite Hl, Hlm. simpl. intros Hn.
  apply fmap_Some in Hn as ([id n] & Hhead & ->). apply head_Some_elem_of in Hhead.
  apply elem_of_range in Hhead. by destruct (HL _ _ Hhead).
Qed.
End LivePeers.

(** ** Properties of the router *)

Section RouterProperties.
Context `{!MapOrder}.

(** The entries of a provider's list that name a model. *)
Definition entries (p : Provider) (name : string) : list ModelConfig :=
  filter (λ m, m.(mc_Model) = name) p.(pv_Models).

Lemma whitelist_models_providers now p ms h t h' t' :
  whitelist_models now p ms h t = (h', t') → ∀ k,
  (providers <$> t' !! k) =
    match t !! k, filter (λ m, m.(mc_Model) = k) ms with
    | None, [] => None
    | o, ms' => Some (default [] (providers <$> o) ++ ((λ m, provider_of m.(mc_Private) p) <$> ms'))
    end.
Proof.
  revert h t. induction ms as [|m ms IH]; intros h t; cbn [whitelist_models].
  { intros [= <- <-] k. destruct (t !! k); simpl; [by rewrite app_nil_r|done]. }
  destruct (match t !! mc_Model m with Some r => _ | None => _ end) as [h1 r] eqn:Hr.
  intros Hrest k. rewrite (IH _ _ Hrest k), filter_cons. destruct (decide (mc_Model m = k)) as [<-|Hne].
  - rewrite lookup_insert_eq. destruct (t !! mc_Model m) as [r0|] eqn:Hk; simpl.
    + injection Hr as <- <-. by rewrite <-app_assoc.
    + by injection Hr as <- <-.
  - by rewrite lookup_insert_ne.
Qed.

Lemma whitelist_route now p h h' t k r :
  modelsFromWhitelist now p h = (h', t) → t !! k = Some r →
  r.(providers) = (λ m, provider_of m.(mc_Private) p) <$> entries p k ∧ entries p k ≠ [].
Proof.
  intros Hw Hr. pose proof (whitelist_models_providers _ _ _ _ _ _ _ Hw k) as Hp.
  rewrite Hr, lookup_empty in Hp. fold (entries p k) in Hp. by destruct (entries p k); simplify_eq/=.
Qed.

Lemma whitelist_has now p h h' t k :
  modelsFromWhitelist now p h = (h', t) → entries p k ≠ [] → is_Some (t !! k).
Proof.
  intros Hw Hne. pose proof (whitelist_models_providers _ _ _ _ _ _ _ Hw k) as Hp.
  rewrite lookup_empty in Hp. fold (entries p k) in Hp. destruct (entries p k); [done|].
  destruct (t !! k); [by eexists|done].
Qed.

Lemma existsb_fmap_provider p ms :
  existsb mp_Private ((λ m, provider_of m.(mc_Private) p) <$> ms) = existsb mc_Private ms.
Proof. induction ms as [|m ms IH]; [done|]. rewrite fmap_cons. simpl. by rewrite IH. Qed.

(** Every provider of the route has the same private flag. *)
Definition flagged (b : bool) (r : ModelRoute) : Prop :=
  r.(providers) ≠ [] ∧ Forall (λ p, p.(mp_Private) = b) r.(providers).

Lemma flagged_private b r : flagged b r → IsPrivate r = b ∧ IsLocal r = true.
Proof.
  unfold flagged, IsPrivate, IsLocal. intros [Hne Hall]. split; [|by apply bool_decide_eq_true].
  destruct (providers r) as [|p ps]; [done|]. inversion_clear Hall as [|? ? Hp Hps]. simpl.
  rewrite Hp. destruct b; [done|]. simpl. induction Hps as [|q qs Hq _ IH]; [done|]. simpl.
  by rewrite Hq, IH.
Qed.

Lemma flagged_snoc b (ps : list ModelProvider) p (r : ModelRoute) :
  r.(providers) = ps ++ [p] → Forall (λ p, p.(mp_Private) = b) ps → p.(mp_Private) = b → flagged b r.
Proof.
  unfold flagged. intros -> Hps Hp. split; [by destruct ps|]. apply Forall_app.
  split; [done|]. by apply Forall_singleton.
Qed.

Lemma running_models_flagged now p ms h t h' t' :
  running_models now p ms h t = (h', t') → map_Forall (λ _, flagged p.(pv_Private)) t →
  map_Forall (λ _, flagged p.(pv_Private)) t'.
Proof.
  revert h t. induction ms as [|m ms IH]; intros h t; cbn [running_models].
  { by intros [= <- <-]. }
  destruct (match t !! rm_Model m with Some r => _ | None => _ end) as [h1 r] eqn:Hr.
  intros Hrest Ht. apply (IH _ _ Hrest). apply map_Forall_insert_2; [|done].
  eapply flagged_snoc; [reflexivity| |done].
  destruct (t !! rm_Model m) as [r0|] eqn:Hk; simpl in Hr; injection Hr as <- <-; [|constructor].
  apply (Ht _ _ Hk).
Qed.

Lemma openai_models_flagged p w ms h t h' t' :
  openai_models p w ms h t = (h', t') → map_Forall (λ _, flagged p.(pv_Private)) t →
  map_Forall (λ _, flagged p.(pv_Private)) t'.
Proof.
  revert h t. induction ms as [|m ms IH]; intros h t; cbn [openai_models].
  { by intros [= <- <-]. }
  destruct (w !! oa_ID m) as [wr|]; [|apply IH].
  destruct (match t !! oa_ID m with Some r => _ | None => _ end) as [h1 r] eqn:Hr.
  intros Hrest Ht. apply (IH _ _ Hrest). apply map_Forall_insert_2; [|done].
  eapply flagged_snoc; [reflexivity| |done].
  destruct (t !! oa_ID m) as [r0|] eqn:Hk; simpl in Hr; injection Hr as <- <-; [|constructor].
  apply (Ht _ _ Hk).
Qed.

Lemma with_properties_lookup tags t k r :
  with_properties tags t !! k = Some r → ∃ r0, t !! k = Some r0 ∧ r.(providers) = r0.(providers).
Proof.
  unfold with_properties. rewrite map_lookup_imap. destruct (t !! k) as [r0|]; simpl; [|done].
  destruct (foldl _ _ _ !! k); simpl; [|done]. intros [= <-]. by exists r0.
Qed.

(** Where the private flag of a fetched model comes from.  A model that
    ollama reports running, and any model of an openai provider, is private
    exactly when the provider is (an openai entry's own flag is not read); a
    model of a white list of an ollama or test provider is private exactly
    when one of its entries is (the provider's flag is not read). *)
Theorem fetched_privacy now p up h h' t k r :
  t !! k = Some r →
  (ollamaFetchModels now p up h = (h', Ok t) → p.(pv_Discovery) ≠ "whitelist" →
     IsPrivate r = p.(pv_Private)) ∧
  (openaiFetchModels now p up h = (h', Ok t) → IsPrivate r = p.(pv_Private)) ∧
  (ollamaFetchModels now p up h = (h', Ok t) ∧ p.(pv_Discovery) = "whitelist" ∨
     testFetchModels now p h = (h', Ok t) →
     IsPrivate r = existsb mc_Private (entries p k)).
Proof.
  intros Hr. split_and!.
  - intros Hf Hd. unfold ollamaFetchModels in Hf. destruct (negb _); [done|].
    destruct (up_tags up) as [tags|]; [|done]. rewrite bool_decide_false in Hf by done.
    destruct (up_running up) as [running|]; [|done].
    destruct (running_models now p running h ∅) as [h1 t1] eqn:Hm. injection Hf as <- <-.
    apply with_properties_lookup in Hr as (r0 & Hr0 & Hp).
    apply running_models_flagged in Hm; [|apply map_Forall_empty].
    unfold IsPrivate. rewrite Hp. by apply (flagged_private _ _ (Hm _ _ Hr0)).
  - intros Hf. unfold openaiFetchModels in Hf.
    destruct (if bool_decide _ then _ else _) as [h1 w]. destruct (up_openai up) as [data|]; [|done].
    destruct (openai_models p w data h1 ∅) as [h2 t2] eqn:Hm. injection Hf as <- <-.
    apply openai_models_flagged in Hm; [|apply map_Forall_empty].
    by apply (flagged_private _ _ (Hm _ _ Hr)).
  - intros Hf. assert (∃ h1 t1 r1, modelsFromWhitelist now p h = (h1, t1) ∧ t1 !! k = Some r1 ∧
      r.(providers) = r1.(providers)) as (h1 & t1 & r1 & Hw & Hr1 & Hp).
    { destruct (modelsFromWhitelist now p h) as [h1 t1] eqn:Hw. destruct Hf as [[Hf Hd]|Hf].
      - unfold ollamaFetchModels in Hf. destruct (negb _); [done|].
        destruct (up_tags up) as [tags|]; [|done]. rewrite bool_decide_true, Hw in Hf by done.
        injection Hf as <- <-. apply with_properties_lookup in Hr as (r1 & Hr1 & Hp). naive_solver.
      - unfold testFetchModels in Hf. rewrite Hw in Hf. naive_solver. }
    apply (whitelist_route _ _ _ _ _ _ _ Hw) in Hr1 as [Hr1 _]. unfold IsPrivate.
    by rewrite Hp, Hr1, existsb_fmap_provider.
Qed.

(** What crosses the wire: the exported models are exactly the routes
    of the table with a local provider and no private one.  In particular a
    model known only from peers is not announced again. *)
Theorem exported_models_spec seed e r :
  r ∈ ListExportedModels seed e ↔
  (∃ name, e.(MeshModels) !! name = Some r) ∧ r.(providers) ≠ [] ∧
  ∀ p, p ∈ r.(providers) → p.(mp_Private) = false.
Proof.
  unfold ListExportedModels. rewrite list_elem_of_filter, andb_true_iff, negb_true_iff.
  unfold IsLocal. rewrite bool_decide_eq_true. unfold IsPrivate.
  assert (existsb mp_Private (providers r) = false ↔
    ∀ p, p ∈ providers r → mp_Private p = false) as ->.
  { induction (providers r) as [|p ps IH]; simpl.
    - split; [by intros _ ? ?%not_elem_of_nil|done].
    - rewrite orb_false_iff, IH. setoid_rewrite elem_of_cons. naive_solver. }
  rewrite list_elem_of_fmap. split.
  - intros [[Hne Hall] ([name r'] & -> & Hin%elem_of_range)]. naive_solver.
  - intros ((name & Hin) & Hne & Hall). split; [done|]. exists (name, r). split; [done|].
    by apply elem_of_range.
Qed.

(** A removed peer serves nothing: after RemovePeer every route has lost
    that peer and no other; the routes themselves stay, so a model that
    only this peer served is still listed but has nobody to serve it. *)
Theorem remove_peer_spec seed seed' node e :
  let e' := router_RemovePeer seed node e in
  ListMeshModels seed' e' = ListMeshModels seed' e ∧
  ∀ name r, GetModelRoute name e = Some r →
    GetModelRoute name e' = Some r ∧
    peers_of e'.(rt_heap) r = delete node.(ID) (peers_of e.(rt_heap) r) ∧
    (r.(providers) = [] → (∀ id, id ≠ node.(ID) → peers_of e.(rt_heap) r !! id = None) →
     IsAvailable e'.(rt_heap) r = false).
Proof.
  intros e'. split; [done|]. intros name r Hr. subst e'.
  pose proof (remove_peers_of seed node e name r Hr) as Hp. split_and!; [done..|].
  intros Hnil Hothers. unfold IsAvailable. rewrite Hp, Hnil, bool_decide_false; [done|].
  intros Hne. apply Hne. apply map_eq. intros id. rewrite lookup_empty.
  destruct (decide (id = node.(ID))) as [->|]; [apply lookup_delete_eq|].
  by rewrite lookup_delete_ne, Hothers by done.
Qed.

(** An announcement replaces what was known: when a peer announces a
    model, the route of that name keeps neither its local providers nor its
    other peers, and when this peer goes away the model is gone, although
    the other providers are still there (the table is looked up under the
    id of the peer where the name of the model is meant). *)
Theorem announcement_replaces_route seed seed' node models e name r :
  e.(MeshModels) !! node.(ID) = None → models !! node.(ID) = None →
  (∀ n x, models !! n = Some x → x.(peers) = None ∧ x.(providers) = []) →
  models !! name = Some r →
  let e' := AddPeerModels seed node models e in
  ∃ r', GetModelRoute name e' = Some r' ∧ GetLocalRoute r' = None ∧
    (∀ n, n ∈ GetPeers seed' e'.(rt_heap) r' → n = node) ∧
    IsAvailable (router_RemovePeer seed node e').(rt_heap) r' = false.
Proof.
  intros Hm Hn Hwire Hr e'.
  destruct (AddPeerModels_wire seed node models e Hm Hn) as (Hann & _); [by intros; eapply Hwire|].
  destruct (Hann _ _ Hr) as (r' & Hr' & Hpv & _ & _ & Hpeers).
  destruct (Hwire _ _ Hr) as [_ Hnil]. rewrite Hnil in Hpv.
  exists r'. split; [done|]. split; [unfold GetLocalRoute; by rewrite Hpv|]. split.
  - unfold GetPeers. fold e' in Hpeers. rewrite Hpeers.
    intros n ([id n'] & -> & Hin%elem_of_range)%list_elem_of_fmap.
    by apply lookup_singleton_Some in Hin as [_ <-].
  - unfold IsAvailable. rewrite (remove_peers_of seed node e' name r' Hr'). fold e' in Hpeers.
    rewrite Hpeers, delete_singleton_eq, Hpv. by rewrite !bool_decide_false by (by intros []).
Qed.

(** Of several configured providers of one model the last one wins:
    after a refresh the route holds the entries of the last provider that
    lists the model, and only these. *)
Theorem refresh_last_provider_wins now up ps p self name :
  p.(pv_Type) = "test" → entries p name ≠ [] → entries p self.(ID) = [] → name ≠ self.(ID) →
  let before := refresh_loop 0 now up ps (NewModelDiscovery self (ps ++ [p])) in
  before.(MeshModels) !! self.(ID) = None →
  ∃ r, GetModelRoute name (Refresh now up (NewModelDiscovery self (ps ++ [p]))) = Some r ∧
    r.(providers) = (λ m, provider_of m.(mc_Private) p) <$> entries p name.
Proof.
  intros Htype Hname Hself Hne before Hbefore. unfold Refresh. simpl rt_providers.
  assert (∀ i e, refresh_loop i now up (ps ++ [p]) e
    = refresh_provider (i + length ps) now p (up p) (refresh_loop i now up ps e)) as Hsplit.
  { clear. induction ps as [|q ps IH]; intros i e; cbn [app refresh_loop length].
    - by rewrite Nat.add_0_r.
    - by rewrite IH, Nat.add_succ_comm. }
  rewrite Hsplit. fold before. unfold refresh_provider. rewrite Htype. cbn [bool_decide].
  rewrite !bool_decide_false, bool_decide_true by done. unfold testFetchModels.
  destruct (modelsFromWhitelist now p (rt_heap before)) as [h1 t] eqn:Hw.
  destruct (whitelist_has _ _ _ _ _ _ Hw Hname) as [r Hr].
  assert (rt_node before = self) as Hnode.
  { subst before. destruct (refresh_loop_good 0 now up ps (NewModelDiscovery self (ps ++ [p])) [self])
      as [_ Hnode]; [by left|apply all_good_empty|done]. }
  assert (t !! self.(ID) = None) as Htself.
  { destruct (t !! self.(ID)) as [x|] eqn:Hx; [|done].
    by destruct (whitelist_route _ _ _ _ _ _ _ Hw Hx). }
  unfold AddPeerModels. simpl. rewrite Hnode.
  destruct (add_peer_models _ _ _ _) as [m' h'] eqn:Hadd.
  apply add_peer_models_routes in Hadd as [_ Hin]; [|done| |apply range_nodup_keys].
  - destruct (Hin name r) as [l Hl]; [by apply elem_of_range|]. simpl. eexists. split; [exact Hl|].
    simpl. by destruct (whitelist_route _ _ _ _ _ _ _ Hw Hr).
  - rewrite list_elem_of_fmap. intros ([k x] & Hk & Hx%elem_of_range). simpl in Hk. subst k. congruence.
Qed.
End RouterProperties.

(** ** Witnesses *)

Module DexEx.
Definition self : PeerNode := NewPeerNode "12D3KooWs" "self".
Definition bob : PeerNode := NewPeerNode "12D3KooWb" "bob".
Definition llama : ModelConfig := {| mc_Model := "llama"; mc_Private := false; mc_Capabilities := []; mc_Tools := [] |}.
Definition local1 : Provider :=
  {| pv_ID := "local"; pv_Type := "test"; pv_BaseURL := "http://one"; pv_Token := ""; pv_Private := true;
     pv_Discovery := "whitelist"; pv_Models := [llama] |}.
Definition local2 : Provider :=
  {| pv_ID := "local"; pv_Type := "test"; pv_BaseURL := "http://two"; pv_Token := ""; pv_Private := false;
     pv_Discovery := "whitelist"; pv_Models := [llama] |}.
Definition no_upstream (p : Provider) : Upstream :=
  {| up_url_ok := true; up_tags := None; up_running := None; up_openai := failed "down" |}.
(** A route as it is decoded from a peer's announcement. *)
Definition wire_llama : ModelRoute :=
  {| mr_Name := "llama"; mr_Model := "llama"; Capabilities := []; ContextLength := 0; Owner := "";
     ModifiedAt := 0; providers := []; peers := None |}.
Definition announced : gmap string ModelRoute := {[ "llama" := wire_llama ]}.
#[export] Existing Instance map_order.
Definition router1 : ModelRouter := Refresh 0 no_upstream (NewModelDiscovery self [local1]).
Definition router2 : ModelRouter := AddPeerModels 0 bob announced router1.

Lemma announced_wire n x : announced !! n = Some x → x.(peers) = None ∧ x.(providers) = [].
Proof. unfold announced. by intros [<- <-]%lookup_singleton_Some. Qed.
End DexEx.
Import DexEx.

Lemma mesh_route_is_live_witness :
  bob ∈ live self [ERefresh 0 no_upstream; EAdd 0 bob announced].
Proof.
  apply (mesh_route_is_live self [local1] [ERefresh 0 no_upstream; EAdd 0 bob announced] "llama"
           (with_peers (Some 1) wire_llama) 0 bob).
  - repeat constructor. intros name r Hr. by apply announced_wire in Hr as [? _].
  - by vm_compute.
  - by vm_compute.
Defined.

(** The white list of a private provider: its models are not private. *)
Lemma fetched_privacy_witness :
  ∃ h t r, testFetchModels 0 local1 [] = (h, Ok t) ∧ t !! "llama" = Some r ∧
    pv_Private local1 = true ∧ IsPrivate r = false.
Proof.
  destruct (testFetchModels 0 local1 []) as [h res] eqn:Hf.
  destruct res as [t|e]; [|by vm_compute in Hf].
  assert (is_Some (t !! "llama")) as [r Hr].
  { vm_compute in Hf. injection Hf as <- <-. by eexists. }
  exists h, t, r. split_and!; [done..|].
  destruct (fetched_privacy 0 local1 (no_upstream local1) [] h t "llama" r Hr) as (_ & _ & Hp).
  rewrite Hp; [by vm_compute|by right].
Defined.

Lemma remove_peer_spec_witness :
  ∃ r, GetModelRoute "llama" router2 = Some r ∧
    GetModelRoute "llama" (router_RemovePeer 0 bob router2) = Some r ∧
    IsAvailable (router_RemovePeer 0 bob router2).(rt_heap) r = false.
Proof.
  destruct (GetModelRoute "llama" router2) as [r|] eqn:Hr; [|by vm_compute in Hr].
  destruct (remove_peer_spec 0 0 bob router2) as [_ Hspec].
  destruct (Hspec "llama" r Hr) as (Hr' & _ & Hav). exists r. split_and!; [done..|].
  vm_compute in Hr. injection Hr as <-. apply Hav; [done|]. intros id Hid.
  change (peers_of (rt_heap router2) (with_peers (Some 1) wire_llama) !! id = None).
  replace (peers_of (rt_heap router2) (with_peers (Some 1) wire_llama))
    with ({[ "12D3KooWb" := bob ]} : gmap string PeerNode) by (by vm_compute).
  by apply lookup_singleton_ne.
Defined.

Lemma announcement_replaces_route_witness :
  (∃ r, GetModelRoute "llama" router1 = Some r ∧ IsLocal r = true) ∧
  ∃ r', GetModelRoute "llama" router2 = Some r' ∧ GetLocalRoute r' = None ∧
    (∀ n, n ∈ GetPeers 0 router2.(rt_heap) r' → n = bob) ∧
    IsAvailable (router_RemovePeer 0 bob router2).(rt_heap) r' = false.
Proof.
  split; [eexists; split; by vm_compute|].
  apply (announcement_replaces_route 0 0 bob announced router1 "llama" wire_llama);
    [by vm_compute|by vm_compute|exact announced_wire|by vm_compute].
Defined.

Lemma refresh_last_provider_wins_witness :
  ∃ r, GetModelRoute "llama" (Refresh 0 no_upstream (NewModelDiscovery self [local1; local2])) = Some r ∧
    r.(providers) = [provider_of false local2].
Proof.
  apply (refresh_last_provider_wins 0 no_upstream [local1] local2 self "llama"); by vm_compute.
Defined.
