(* ===== verification/RouterSpec.v ===== *)
(** * RouterSpec: what the model router promises, and that it keeps it.

    The abstract state is a table without addresses: for each model the
    contents of its route and the peers that serve it.  An announcement, a
    removal and a refresh are three operations on it, a refresh being the
    announcement of what each provider's catalogue holds.  The routes of
    ModelDex, whose peers are maps shared through a heap, implement it for
    every history in which no model is named like a node: the maps of the
    table are never shared ([separate]). *)
From Stdlib Require Import Ascii String.
From S2P Require Import Prelude GoStrings Json Api ModelDex.

(** ** The abstract table *)

Record ModelInfo := {
  mi_Name : string; mi_Model : string; mi_Capabilities : list string; mi_ContextLength : Z;
  mi_Owner : string; mi_ModifiedAt : Z; mi_providers : list ModelProvider }.
Definition info_of (r : ModelRoute) : ModelInfo :=
  {| mi_Name := mr_Name r; mi_Model := mr_Model r; mi_Capabilities := Capabilities r;
     mi_ContextLength := ContextLength r; mi_Owner := Owner r; mi_ModifiedAt := ModifiedAt r;
     mi_providers := providers r |}.

Abbreviation catalogue := (gmap string ModelInfo).
Abbreviation table := (gmap string (ModelInfo * gmap string PeerNode)).

Definition announce (node : PeerNode) (C : catalogue) (T : table) : table :=
  ((λ i, (i, {[node.(ID) := node]})) <$> C) ∪ T.
Definition withdraw (node : PeerNode) (T : table) : table :=
  prod_map id (delete node.(ID)) <$> T.

(** ** The catalogue of a provider
    The entries of one name are one model. *)

Section GroupBy.
Context {M : Type} (key : M → string).

Definition of_key (k : string) (ms : list M) : list M := filter (λ m, key m = k) ms.
Definition group_by (f : string → list M → ModelInfo) (ms : list M) : catalogue :=
  list_to_map ((λ k, (k, f k (of_key k ms))) <$> (key <$> ms)).

Lemma of_key_nil k ms : of_key k ms = [] ↔ k ∉ key <$> ms.
Proof.
  rewrite list_elem_of_fmap. split.
  - intros Hnil (m & -> & Hm). apply (not_elem_of_nil m). rewrite <-Hnil. by apply list_elem_of_filter.
  - intros Hno. apply elem_of_nil_inv. intros m [<- Hm]%list_elem_of_filter. naive_solver.
Qed.

Lemma group_by_lookup f ms k :
  group_by f ms !! k = match of_key k ms with [] => None | group => Some (f k group) end.
Proof.
  unfold group_by. destruct (of_key k ms) as [|m group] eqn:Hk.
  - apply of_key_nil in Hk. apply not_elem_of_list_to_map_1.
    rewrite <-list_fmap_compose, (list_fmap_ext _ id), list_fmap_id by done. done.
  - rewrite <-Hk. assert (k ∈ key <$> ms) as Hin.
    { apply dec_stable. intros Hno%of_key_nil. by rewrite Hno in Hk. }
    apply elem_of_list_to_map_1'.
    + intros i (k' & [= -> ->] & _)%list_elem_of_fmap. done.
    + apply list_elem_of_fmap. by exists k.
Qed.
End GroupBy.

Definition whitelist_info (now : Z) (p : Provider) (name : string) (group : list ModelConfig) : ModelInfo :=
  {| mi_Name := name; mi_Model := name;
     mi_Capabilities := default [] (mc_Capabilities <$> head group); mi_ContextLength := 0;
     mi_Owner := ""; mi_ModifiedAt := now;
     mi_providers := (λ m, provider_of m.(mc_Private) p) <$> group |}.
Definition whitelisted (now : Z) (p : Provider) : catalogue :=
  group_by mc_Model (whitelist_info now p) p.(pv_Models).

Definition running_info (now : Z) (p : Provider) (name : string) (group : list RunningModel) : ModelInfo :=
  {| mi_Name := name; mi_Model := name; mi_Capabilities := [];
     mi_ContextLength := default 0%Z (rm_ContextLength <$> last group);
     mi_Owner := "ollama"; mi_ModifiedAt := now;
     mi_providers := (λ _, provider_of p.(pv_Private) p) <$> group |}.

(** What ollama lists: the model is there, and its length and capabilities
    complete those known. *)
Definition complete (tags : list OllamaModel) (name : string) (i : ModelInfo) : option ModelInfo :=
  t ← last (of_key om_Name name tags);
  Some {| mi_Name := mi_Name i; mi_Model := mi_Model i;
     mi_Capabilities := mi_Capabilities i ++ om_Capabilities t;
     mi_ContextLength := if bool_decide (mi_ContextLength i = 0)%Z then om_ContextLength t
                         else mi_ContextLength i;
     mi_Owner := mi_Owner i; mi_ModifiedAt := mi_ModifiedAt i; mi_providers := mi_providers i |}.

Definition openai_info (p : Provider) (W : catalogue) (name : string) (group : list OpenaiModel) : ModelInfo :=
  {| mi_Name := name; mi_Model := name;
     mi_Capabilities := default [] (mi_Capabilities <$> W !! name);
     mi_ContextLength := default 0%Z (oa_ContextLength <$> head group);
     mi_Owner := default "" (oa_OwnedBy <$> last group);
     mi_ModifiedAt := default 0%Z ((λ m, oa_Created m * 1000000000)%Z <$> last group);
     mi_providers := (λ _, provider_of p.(pv_Private) p) <$> group |}.

Definition is_whitelist (p : Provider) : bool := bool_decide (p.(pv_Discovery) = "whitelist").

(** None: the provider cannot be asked, or its type is not known. *)
Definition catalogue_of (now : Z) (p : Provider) (up : Upstream) : option catalogue :=
  if bool_decide (p.(pv_Type) = "ollama") then
    match up.(up_url_ok), up.(up_tags) with
    | true, Some tags =>
        map_imap (complete tags) <$>
          (if is_whitelist p then Some (whitelisted now p)
           else group_by rm_Model (running_info now p) <$> up.(up_running))
    | _, _ => None
    end
  else if bool_decide (p.(pv_Type) = "openai") then
    let W := if is_whitelist p then whitelisted now p else ∅ in
    match up.(up_openai) with
    | Err _ => None
    | Ok data => Some (group_by oa_ID (openai_info p W) (filter (λ m, is_Some (W !! m.(oa_ID))) data))
    end
  else if bool_decide (p.(pv_Type) = "test") then Some (whitelisted now p)
  else None.

Definition refresh_table (now : Z) (up : Provider → Upstream) (self : PeerNode) (ps : list Provider)
    (T : table) : table :=
  foldl (λ T p, match catalogue_of now p (up p) with Some C => announce self C T | None => T end) T ps.

(** ** The calls, on the abstract table *)

Definition spec_event (self : PeerNode) (ps : list Provider) (T : table) (ev : event) : table :=
  match ev with
  | EAdd _ node models => announce node (info_of <$> models) T
  | ERemove _ node => withdraw node T
  | ERefresh now up => refresh_table now up self ps T
  end.

(** What a router shows of a model. *)
Definition shows (e : ModelRouter) (model : string) : option (ModelInfo * gmap string PeerNode) :=
  (λ r, (info_of r, peers_of e.(rt_heap) r)) <$> GetModelRoute model e.

(** No model is named like a node; the routes a peer announces were decoded
    from JSON. *)
Definition apart (is_id : string → Prop) (self : PeerNode) (ps : list Provider) (ev : event) : Prop :=
  from_wire ev ∧
  match ev with
  | EAdd _ node models => is_id node.(ID) ∧ ∀ k, is_Some (models !! k) → ¬ is_id k
  | ERemove _ _ => True
  | ERefresh now up =>
      ∀ p C k, p ∈ ps → catalogue_of now p (up p) = Some C → is_Some (C !! k) → ¬ is_id k
  end.

(** ** The loops of a fetch: a table of routes with fresh maps *)

(** The turns of the three loops that make a table: the route of the name,
    or a new one, is updated and stored. *)
Section Grouped.
Context {M : Type} (key : M → string) (mk : heap → M → heap * ModelRoute).
Context (ur : M → ModelRoute → ModelRoute).

Fixpoint grouped_routes (ms : list M) (h : heap) (t : gmap string ModelRoute)
    : heap * gmap string ModelRoute :=
  match ms with
  | [] => (h, t)
  | m :: ms' =>
      let '(h, route) := match t !! key m with Some route => (h, route) | None => mk h m end in
      grouped_routes ms' h (<[key m := ur m route]> t)
  end.

(** The same on what the routes hold. *)
Context (init : M → ModelInfo) (ui : M → ModelInfo → ModelInfo).
Fixpoint grouped_infos (ms : list M) (C : catalogue) : catalogue :=
  match ms with
  | [] => C
  | m :: ms' => grouped_infos ms' (<[key m := ui m (default (init m) (C !! key m))]> C)
  end.

Lemma grouped_infos_lookup ms C k :
  grouped_infos ms C !! k =
    match of_key key k ms with
    | [] => C !! k
    | m :: group => Some (foldl (λ i m, ui m i) (default (init m) (C !! k)) (m :: group))
    end.
Proof.
  revert C. induction ms as [|m ms IH]; intros C; [done|]. cbn [grouped_infos]. rewrite IH.
  unfold of_key. rewrite filter_cons. destruct (decide (key m = k)) as [<-|Hne].
  - rewrite lookup_insert_eq. by destruct (filter _ ms).
  - by rewrite lookup_insert_ne.
Qed.

(** A table whose maps were allocated empty since [h0], one for each name. *)
Definition fresh_table (h0 h : heap) (t : gmap string ModelRoute) (C : catalogue) : Prop :=
  (∃ n, h = h0 ++ replicate n ∅) ∧
  (∀ k r, t !! k = Some r → ∃ l, r.(peers) = Some l ∧ length h0 ≤ l < length h) ∧
  (∀ k k' r r', t !! k = Some r → t !! k' = Some r' → r.(peers) = r'.(peers) → k = k') ∧
  info_of <$> t = C.

Hypothesis mk_fresh : ∀ h m, ∃ r,
  mk h m = (h ++ [∅], r) ∧ r.(peers) = Some (length h) ∧ info_of r = init m.
Hypothesis ur_peers : ∀ m r, (ur m r).(peers) = r.(peers).
Hypothesis ur_info : ∀ m r, info_of (ur m r) = ui m (info_of r).

Lemma grouped_fresh ms h0 h t C h' t' :
  grouped_routes ms h t = (h', t') → fresh_table h0 h t C →
  fresh_table h0 h' t' (grouped_infos ms C).
Proof.
  revert h t C. induction ms as [|m ms IH]; intros h t C; [by intros [= <- <-]|].
  cbn [grouped_routes grouped_infos]. intros Hrun ([n Hn] & Halloc & Hinj & <-).
  destruct (t !! key m) as [r|] eqn:Hr.
  - apply (IH _ _ _ Hrun). destruct (Halloc _ _ Hr) as (l & Hl & Hlt). split_and!; [by exists n| | |].
    + intros k r' [[<- <-]|[_ Hr']]%lookup_insert_Some; [|by apply (Halloc k)].
      exists l. by rewrite ur_peers.
    + intros k k' x x' [[<- <-]|[Hk Hx]]%lookup_insert_Some [[<- <-]|[Hk' Hx']]%lookup_insert_Some;
        rewrite ?ur_peers; [done|intros; by eapply Hinj..|by eapply Hinj].
    + by rewrite fmap_insert, ur_info, lookup_fmap, Hr.
  - destruct (mk_fresh h m) as (r & Hmk & Hl & Hi). rewrite Hmk in Hrun. apply (IH _ _ _ Hrun).
    assert (length h0 ≤ length h) as Hle by (rewrite Hn, length_app; lia).
    split_and!.
    + exists (n + 1). by rewrite Hn, replicate_add, <-app_assoc.
    + intros k r' [[<- <-]|[_ Hr']]%lookup_insert_Some; rewrite length_app; simpl.
      * exists (length h). rewrite ur_peers. split; [done|lia].
      * destruct (Halloc _ _ Hr') as (l & ? & ?). exists l. split; [done|lia].
    + intros k k' x x' [[<- <-]|[Hk Hx]]%lookup_insert_Some [[<- <-]|[Hk' Hx']]%lookup_insert_Some;
        rewrite ?ur_peers, ?Hl; [done| | |by eapply Hinj].
      * intros Heq. destruct (Halloc _ _ Hx') as (l & Hxl & Hlt). rewrite Hxl in Heq. simplify_eq. lia.
      * intros Heq. destruct (Halloc _ _ Hx) as (l & Hxl & Hlt). rewrite Hxl in Heq. simplify_eq. lia.
    + by rewrite fmap_insert, ur_info, lookup_fmap, Hr, Hi.
Qed.
End Grouped.

(** *** The three loops of the code *)

Definition whitelist_turn (now : Z) (p : Provider) (m : ModelConfig) (i : ModelInfo) : ModelInfo :=
  {| mi_Name := mi_Name i; mi_Model := mi_Model i; mi_Capabilities := mi_Capabilities i;
     mi_ContextLength := mi_ContextLength i; mi_Owner := ""; mi_ModifiedAt := now;
     mi_providers := mi_providers i ++ [provider_of m.(mc_Private) p] |}.
Definition running_turn (now : Z) (p : Provider) (m : RunningModel) (i : ModelInfo) : ModelInfo :=
  {| mi_Name := mi_Name i; mi_Model := mi_Model i; mi_Capabilities := mi_Capabilities i;
     mi_ContextLength := m.(rm_ContextLength); mi_Owner := "ollama"; mi_ModifiedAt := now;
     mi_providers := mi_providers i ++ [provider_of p.(pv_Private) p] |}.
Definition openai_turn (p : Provider) (m : OpenaiModel) (i : ModelInfo) : ModelInfo :=
  {| mi_Name := mi_Name i; mi_Model := mi_Model i; mi_Capabilities := mi_Capabilities i;
     mi_ContextLength := mi_ContextLength i; mi_Owner := m.(oa_OwnedBy);
     mi_ModifiedAt := (m.(oa_Created) * 1000000000)%Z;
     mi_providers := mi_providers i ++ [provider_of p.(pv_Private) p] |}.
Definition new_info (name : string) (caps : list string) (len : Z) : ModelInfo :=
  {| mi_Name := name; mi_Model := name; mi_Capabilities := caps; mi_ContextLength := len;
     mi_Owner := ""; mi_ModifiedAt := time_zero; mi_providers := [] |}.

Lemma fresh_table_empty h0 h n : h = h0 ++ replicate n ∅ → fresh_table h0 h ∅ ∅.
Proof.
  intros ->. split_and!; [by exists n| | |by rewrite fmap_empty].
  - by intros k r Hr%lookup_empty_Some.
  - by intros k k' r r' Hr%lookup_empty_Some.
Qed.

(** The turns of one name make the model of its group. *)
Lemma whitelist_turns now p m group :
  foldl (λ i m, whitelist_turn now p m i) (new_info m.(mc_Model) m.(mc_Capabilities) 0) (m :: group)
    = whitelist_info now p m.(mc_Model) (m :: group).
Proof.
  induction group as [|x group IH] using rev_ind; [done|].
  rewrite app_comm_cons, foldl_app, IH. unfold whitelist_info. by rewrite fmap_app.
Qed.

Lemma running_turns now p m group :
  foldl (λ i m, running_turn now p m i) (new_info m.(rm_Model) [] 0) (m :: group)
    = running_info now p m.(rm_Model) (m :: group).
Proof.
  induction group as [|x group IH] using rev_ind; [done|].
  rewrite app_comm_cons, foldl_app, IH. unfold running_info. by rewrite fmap_app, last_snoc.
Qed.

Lemma openai_turns p W m group :
  foldl (λ i m, openai_turn p m i)
      (new_info m.(oa_ID) (default [] (mi_Capabilities <$> W !! m.(oa_ID))) m.(oa_ContextLength)) (m :: group)
    = openai_info p W m.(oa_ID) (m :: group).
Proof.
  induction group as [|x group IH] using rev_ind; [done|].
  rewrite app_comm_cons, foldl_app, IH. unfold openai_info. by rewrite fmap_app, last_snoc.
Qed.

Lemma grouped_is_group_by {M} (key : M → string) init ui f ms :
  (∀ m group, of_key key (key m) ms = m :: group →
     foldl (λ i m, ui m i) (init m) (m :: group) = f (key m) (m :: group)) →
  grouped_infos key init ui ms ∅ = group_by key f ms.
Proof.
  intros Hf. apply map_eq. intros k. rewrite grouped_infos_lookup, group_by_lookup, lookup_empty.
  destruct (of_key key k ms) as [|m group] eqn:Hk; [done|]. f_equal.
  assert (key m = k) as <-; [|by apply Hf].
  assert (m ∈ of_key key k ms) as Hm by (rewrite Hk; by left). by apply list_elem_of_filter in Hm as [? _].
Qed.

Lemma whitelist_fresh now p h h' t n h0 :
  h = h0 ++ replicate n ∅ → modelsFromWhitelist now p h = (h', t) →
  fresh_table h0 h' t (whitelisted now p).
Proof.
  intros Hh. unfold modelsFromWhitelist, whitelisted.
  set (mk (h : heap) m := MakeRoute h m.(mc_Model) m.(mc_Model) m.(mc_Capabilities)).
  set (ur m r := with_providers (r.(providers) ++ [provider_of m.(mc_Private) p])
                   (with_details r.(Capabilities) r.(ContextLength) "" now r)).
  assert (∀ ms h t, whitelist_models now p ms h t = grouped_routes mc_Model mk ur ms h t) as ->.
  { induction ms as [|m ms IH]; intros h1 t1; [done|]. cbn [whitelist_models grouped_routes].
    unfold mk at 1. destruct (match t1 !! mc_Model m with Some r => _ | None => _ end). by rewrite IH. }
  intros Hrun. rewrite <-(grouped_is_group_by mc_Model
    (λ m, new_info m.(mc_Model) m.(mc_Capabilities) 0) (whitelist_turn now p)).
  - eapply (grouped_fresh mc_Model mk ur); [|done..|exact Hrun|by eapply fresh_table_empty].
    intros h1 m. by eexists.
  - intros m group _. apply whitelist_turns.
Qed.

Lemma running_fresh now p ms h h' t :
  running_models now p ms h ∅ = (h', t) → fresh_table h h' t (group_by rm_Model (running_info now p) ms).
Proof.
  set (mk (h : heap) m := MakeRoute h m.(rm_Model) m.(rm_Model) []).
  set (ur m r := with_details r.(Capabilities) m.(rm_ContextLength) "ollama" now
                   (with_providers (r.(providers) ++ [provider_of p.(pv_Private) p]) r)).
  assert (∀ ms h t, running_models now p ms h t = grouped_routes rm_Model mk ur ms h t) as ->.
  { clear ms h h' t. induction ms as [|m ms IH]; intros h1 t1; [done|]. cbn [running_models grouped_routes].
    unfold mk at 1. destruct (match t1 !! rm_Model m with Some r => _ | None => _ end). by rewrite IH. }
  intros Hrun. rewrite <-(grouped_is_group_by rm_Model (λ m, new_info m.(rm_Model) [] 0) (running_turn now p)).
  - eapply (grouped_fresh rm_Model mk ur); [|done..|exact Hrun|].
    + intros h1 m. by eexists.
    + apply (fresh_table_empty _ _ 0). by rewrite app_nil_r.
  - intros m group _. apply running_turns.
Qed.

Lemma openai_fresh p (w : gmap string ModelRoute) ms h h0 n h' t :
  h = h0 ++ replicate n ∅ → openai_models p w ms h ∅ = (h', t) →
  fresh_table h0 h' t (group_by oa_ID (openai_info p (info_of <$> w))
    (filter (λ m, is_Some ((info_of <$> w) !! m.(oa_ID))) ms)).
Proof.
  intros Hh. set (W := info_of <$> w).
  set (mk (h : heap) m := let '(h, r) := MakeRoute h m.(oa_ID) m.(oa_ID) [] in
    (h, with_details (default [] (mi_Capabilities <$> W !! m.(oa_ID))) m.(oa_ContextLength) "" time_zero r)).
  set (ur m r := with_details r.(Capabilities) r.(ContextLength) m.(oa_OwnedBy) (m.(oa_Created) * 1000000000)
                   (with_providers (r.(providers) ++ [provider_of p.(pv_Private) p]) r)).
  assert (∀ ms h t, openai_models p w ms h t
    = grouped_routes oa_ID mk ur (filter (λ m, is_Some (W !! m.(oa_ID))) ms) h t) as ->.
  { clear -mk ur. induction ms as [|m ms IH]; intros h1 t1; [done|]. cbn [openai_models]. rewrite filter_cons.
    pose proof (lookup_fmap info_of w (oa_ID m)) as HW. fold W in HW.
    destruct (w !! oa_ID m) as [wr|] eqn:Hw.
    - rewrite decide_True by (rewrite HW; by eexists). cbn [grouped_routes].
      assert (mk h1 m = let '(h, route) := MakeRoute h1 (oa_ID m) (oa_ID m) [] in
        (h, with_details (Capabilities wr) (oa_ContextLength m) "" time_zero route)) as <-.
      { unfold mk. by rewrite HW. }
      destruct (match t1 !! oa_ID m with Some r => _ | None => _ end). by rewrite IH.
    - rewrite decide_False by (rewrite HW; by intros [? ?]). apply IH. }
  intros Hrun. rewrite <-(grouped_is_group_by oa_ID
    (λ m, new_info m.(oa_ID) (default [] (mi_Capabilities <$> W !! m.(oa_ID))) m.(oa_ContextLength))
    (openai_turn p)).
  - eapply (grouped_fresh oa_ID mk ur); [|done..|exact Hrun|by eapply fresh_table_empty].
    intros h1 m. by eexists.
  - intros m group _. apply openai_turns.
Qed.

(** *** A fetch *)

Lemma properties_lookup tags k :
  foldl (λ ps m, <[m.(om_Name) := m]> ps) (∅ : gmap string OllamaModel) tags !! k
    = last (of_key om_Name k tags).
Proof.
  induction tags as [|m tags IH] using rev_ind; [done|].
  unfold of_key. rewrite foldl_app, filter_app. cbn [foldl]. rewrite filter_cons, filter_nil.
  destruct (decide (om_Name m = k)) as [<-|Hne].
  - by rewrite lookup_insert_eq, last_snoc.
  - by rewrite lookup_insert_ne, app_nil_r.
Qed.

Lemma with_properties_fresh tags h0 h t C :
  fresh_table h0 h t C → fresh_table h0 h (with_properties tags t) (map_imap (complete tags) C).
Proof.
  intros (Hh & Halloc & Hinj & <-).
  assert (∀ k r, with_properties tags t !! k = Some r → ∃ r0, t !! k = Some r0 ∧ r.(peers) = r0.(peers)) as Hfrom.
  { intros k r. unfold with_properties. rewrite map_lookup_imap.
    destruct (t !! k) as [r0|]; cbn [mbind option_bind]; [|done].
    destruct (foldl _ _ _ !! k); cbn [mbind option_bind]; [|done]. intros [= <-]. by exists r0. }
  split_and!; [done| | |].
  - intros k r (r0 & Hr0 & ->)%Hfrom. by eapply Halloc.
  - intros k k' r r' (r0 & Hr0 & ->)%Hfrom (r0' & Hr0' & ->)%Hfrom. by eapply Hinj.
  - apply map_eq. intros k. unfold with_properties. rewrite lookup_fmap, !map_lookup_imap, lookup_fmap.
    destruct (t !! k) as [r0|]; cbn [mbind option_bind fmap option_fmap option_map]; [|done].
    rewrite properties_lookup. unfold complete. by destruct (last _).
Qed.

(** What a fetch leaves: the catalogue in a table with fresh maps, or an
    error and some unused maps. *)
Definition fetches (h : heap) (res : heap * result error (gmap string ModelRoute)) (o : option catalogue) : Prop :=
  match res.2 with
  | Ok t => ∃ C, o = Some C ∧ fresh_table h res.1 t C
  | Err _ => o = None ∧ ∃ n, res.1 = h ++ replicate n ∅
  end.

Lemma fetches_err h e n : fetches h (h ++ replicate n ∅, Err e) None.
Proof. split; [done|by exists n]. Qed.

Lemma fetches_err0 h e : fetches h (h, Err e) None.
Proof. split; [done|exists 0; by rewrite app_nil_r]. Qed.

Lemma modelsFromWhitelist_fresh now p h h' t :
  modelsFromWhitelist now p h = (h', t) → fresh_table h h' t (whitelisted now p).
Proof. apply (whitelist_fresh _ _ _ _ _ 0). by rewrite app_nil_r. Qed.

Lemma ollama_fetches now p up h :
  p.(pv_Type) = "ollama" → fetches h (ollamaFetchModels now p up h) (catalogue_of now p up).
Proof.
  intros Ht. unfold catalogue_of, ollamaFetchModels, is_whitelist.
  rewrite (bool_decide_true (pv_Type p = "ollama")) by done.
  destruct (up_url_ok up); [|apply fetches_err0]. cbn [negb].
  destruct (up_tags up) as [tags|]; [|apply fetches_err0]. case_bool_decide.
  - destruct (modelsFromWhitelist now p h) as [h' t] eqn:Hw. eexists. split; [done|].
    by apply with_properties_fresh, modelsFromWhitelist_fresh.
  - destruct (up_running up) as [running|]; [|apply fetches_err0].
    destruct (running_models now p running h ∅) as [h' t] eqn:Hr. eexists. split; [done|].
    by apply with_properties_fresh, running_fresh.
Qed.

Lemma openai_fetches now p up h :
  p.(pv_Type) = "openai" → fetches h (openaiFetchModels now p up h) (catalogue_of now p up).
Proof.
  intros Ht. unfold catalogue_of, openaiFetchModels, is_whitelist.
  rewrite Ht, (bool_decide_false ("openai" = "ollama")), (bool_decide_true ("openai" = "openai")) by done.
  assert (∃ n w, (if bool_decide (pv_Discovery p = "whitelist") then modelsFromWhitelist now p h else (h, ∅))
            = (h ++ replicate n ∅, w) ∧
          info_of <$> w = (if bool_decide (pv_Discovery p = "whitelist") then whitelisted now p else ∅))
    as (n & w & -> & <-).
  { case_bool_decide.
    - destruct (modelsFromWhitelist now p h) as [h' w] eqn:Hw.
      apply modelsFromWhitelist_fresh in Hw as ([n ->] & _ & _ & <-). by exists n, w.
    - exists 0, ∅. by rewrite app_nil_r, fmap_empty. }
  destruct (up_openai up) as [data|e]; [|apply fetches_err].
  destruct (openai_models p w data (h ++ replicate n ∅) ∅) as [h' t] eqn:Hrun.
  eexists. split; [done|]. by eapply openai_fresh.
Qed.

Lemma test_fetches now p up h :
  p.(pv_Type) = "test" → fetches h (testFetchModels now p h) (catalogue_of now p up).
Proof.
  intros Ht. unfold catalogue_of, testFetchModels. rewrite Ht. cbn [bool_decide].
  rewrite (bool_decide_false ("test" = "ollama")), (bool_decide_false ("test" = "openai")),
    (bool_decide_true ("test" = "test")) by done.
  destruct (modelsFromWhitelist now p h) as [h' t] eqn:Hw. eexists. split; [done|].
  by apply modelsFromWhitelist_fresh.
Qed.

(** ** The invariant: the maps of the table are allocated and not shared *)

Definition separate (h : heap) (m : gmap string ModelRoute) : Prop :=
  (∀ k r, m !! k = Some r → ∃ l, r.(peers) = Some l ∧ l < length h) ∧
  (∀ k k' r r', m !! k = Some r → m !! k' = Some r' → r.(peers) = r'.(peers) → k = k').

Definition contents_of (h : heap) (m : gmap string ModelRoute) : table :=
  (λ r, (info_of r, peers_of h r)) <$> m.

Lemma separate_app h n m : separate h m → separate (h ++ replicate n ∅) m.
Proof.
  intros [Halloc Hinj]. split; [|done]. intros k r Hr. destruct (Halloc _ _ Hr) as (l & Hl & Hlt).
  exists l. split; [done|]. rewrite length_app. lia.
Qed.

Lemma contents_of_app h ext m : separate h m → contents_of (h ++ ext) m = contents_of h m.
Proof.
  intros [Halloc _]. apply map_fmap_ext. intros k r Hr. destruct (Halloc _ _ Hr) as (l & Hl & Hlt).
  unfold peers_of. by rewrite Hl, lookup_app_l.
Qed.

(** A route that is about to be stored: its map is not allocated yet, or is
    empty and belongs to no route of the table. *)
Definition storable (h : heap) (m : gmap string ModelRoute) (r : ModelRoute) : Prop :=
  match r.(peers) with
  | None => True
  | Some l => h !! l = Some ∅ ∧ ∀ k r', m !! k = Some r' → r'.(peers) ≠ Some l
  end.

Lemma store_route h m name model node h1 route :
  separate h m → storable h m model → AddPeer h model node = (h1, route) →
  separate h1 (<[name := route]> m) ∧
  contents_of h1 (<[name := route]> m) = <[name := (info_of model, {[node.(ID) := node]})]> (contents_of h m) ∧
  ∀ r, storable h m r → r.(peers) = None ∨ r.(peers) ≠ model.(peers) → storable h1 (<[name := route]> m) r.
Proof.
  intros [Halloc Hinj] Hst Hadd. destruct (AddPeer_spec _ _ _ _ _ Hadd) as (l & -> & Hlen & Hother & Hl & Hnew).
  assert (peers_of h model = ∅ ∧ l < length h1 ∧ (∀ k r, m !! k = Some r → r.(peers) ≠ Some l)) as (Hempty & Hlt & Hno).
  { unfold storable in Hst. unfold AddPeer in Hadd. unfold peers_of. destruct (peers model) as [l0|].
    - destruct Hst as [He Hno]. subst l0. rewrite He. split; [done|]. apply lookup_lt_Some in He. split; [lia|done].
    - subst l. injection Hadd as <-. rewrite length_insert, length_app. simpl. split_and!; [done|lia|].
      intros k r Hr Heq. destruct (Halloc _ _ Hr) as (l & ? & ?). simplify_eq. lia. }
  specialize (Hnew Hlt). rewrite Hempty in Hnew.
  split_and!.
  - split.
    + intros k r [[<- <-]|[_ Hr]]%lookup_insert_Some; [by exists l|].
      destruct (Halloc _ _ Hr) as (l' & ? & ?). exists l'. split; [done|lia].
    + intros k k' x x' [[<- <-]|[Hk Hx]]%lookup_insert_Some [[<- <-]|[Hk' Hx']]%lookup_insert_Some;
        cbn [with_peers peers]; [done| | |by eapply Hinj].
      * intros Heq. by destruct (Hno _ _ Hx').
      * intros Heq. by destruct (Hno _ _ Hx).
  - unfold contents_of. rewrite fmap_insert, peers_of_with_peers, Hnew. cbn [default from_option id].
    f_equal. apply map_fmap_ext. intros k r Hr. destruct (Halloc _ _ Hr) as (l' & Hl' & Hlt').
    unfold peers_of. rewrite Hl', Hother; [done..|]. intros ->. by destruct (Hno _ _ Hr).
  - intros r Hr Hdist. unfold storable in *. destruct (peers r) as [l'|] eqn:Hpr; [|done].
    destruct Hr as [He Hno']. destruct Hdist as [?|Hdist]; [done|].
    assert (l' ≠ l) as Hne.
    { intros ->. destruct (peers model) as [l0|]; [by subst|]. subst l. apply lookup_lt_Some in He. lia. }
    split; [rewrite Hother; [done| |done]; by eapply lookup_lt_Some|].
    intros k r' [[<- <-]|[_ Hr']]%lookup_insert_Some; [cbn; congruence|by eapply Hno'].
Qed.

Lemma add_peer_models_refines node models m h m' h' :
  separate h m → m !! node.(ID) = None → node.(ID) ∉ models.*1 → NoDup models.*1 →
  (∀ k r, (k, r) ∈ models → storable h m r) →
  (∀ k k' r r', (k, r) ∈ models → (k', r') ∈ models → r.(peers) = r'.(peers) → r.(peers) = None ∨ k = k') →
  add_peer_models node models m h = (m', h') →
  separate h' m' ∧
  contents_of h' m' = foldl (λ T x, <[x.1 := (info_of x.2, {[node.(ID) := node]})]> T) (contents_of h m) models.
Proof.
  revert m h. induction models as [|[name model] models IH]; intros m h Hsep Hm Hni Hnd Hst Hdist.
  { intros [= <- <-]. done. }
  cbn [add_peer_models foldl fst snd]. rewrite Hm. cbn [default from_option id].
  destruct (AddPeer h model node) as [h1 route] eqn:Hadd. rewrite fmap_cons in *. simpl in Hni, Hnd.
  apply not_elem_of_cons in Hni as [Hne Hni]. apply NoDup_cons in Hnd as [Hname Hnd].
  destruct (store_route h m name model node h1 route Hsep) as (Hsep1 & Hcont & Hkeep);
    [by eapply Hst; left|done|]. rewrite <-Hcont.
  apply IH; [done|by rewrite lookup_insert_ne|done..| |].
  - intros k r Hr. apply Hkeep; [by eapply Hst; right|].
    destruct (decide (peers r = peers model)) as [Heq|]; [|by right]. left.
    destruct (Hdist k name r model) as [|Hk]; [by right|by left|done|done|]. subst k.
    exfalso. apply Hname, list_elem_of_fmap. by exists (name, r).
  - intros k k' r r' Hr Hr'. apply Hdist; by right.
Qed.

Lemma foldl_announce node (models : list (string * ModelRoute)) T :
  NoDup models.*1 →
  foldl (λ T x, <[x.1 := (info_of x.2, {[node.(ID) := node]})]> T) T models
    = announce node (info_of <$> list_to_map models) T.
Proof.
  unfold announce. revert T. induction models as [|[k r] models IH]; intros T Hnd.
  { cbn [foldl list_to_map foldr]. by rewrite !fmap_empty, (left_id_L ∅ (∪)). }
  apply NoDup_cons in Hnd as [Hk Hnd]. cbn [foldl fst snd]. rewrite IH by done.
  rewrite list_to_map_cons, !fmap_insert, <-insert_union_l, insert_union_r; [done|].
  rewrite !lookup_fmap, not_elem_of_list_to_map_1 by done. done.
Qed.

Section Refinement.
Context `{!MapOrder}.

(** The state of a router and the abstract table. *)
Definition implements (e : ModelRouter) (T : table) : Prop :=
  separate e.(rt_heap) e.(MeshModels) ∧ contents_of e.(rt_heap) e.(MeshModels) = T.

Lemma AddPeerModels_implements seed node models e T :
  implements e T → e.(MeshModels) !! node.(ID) = None → models !! node.(ID) = None →
  (∀ k r, models !! k = Some r → storable e.(rt_heap) e.(MeshModels) r) →
  (∀ k k' r r', models !! k = Some r → models !! k' = Some r' → r.(peers) = r'.(peers) →
     r.(peers) = None ∨ k = k') →
  implements (AddPeerModels seed node models e) (announce node (info_of <$> models) T).
Proof.
  intros [Hsep <-] Hm Hn Hst Hdist. unfold AddPeerModels.
  destruct (add_peer_models _ _ _ _) as [m' h'] eqn:Hadd.
  apply add_peer_models_refines in Hadd as [Hsep' Hcont]; [|done|done| |apply range_nodup_keys| |].
  - split; [done|]. cbn [rt_heap MeshModels with_models]. rewrite Hcont, foldl_announce by apply range_nodup_keys.
    do 2 f_equal. rewrite (list_to_map_proper _ (map_to_list models)); [apply list_to_map_to_list|apply range_nodup_keys|].
    apply range_perm.
  - rewrite list_elem_of_fmap. intros ([k r] & Hk & Hr%elem_of_range). simpl in Hk. subst k. congruence.
  - intros k r Hr%elem_of_range. by eapply Hst.
  - intros k k' r r' Hr%elem_of_range Hr'%elem_of_range. by eapply Hdist.
Qed.

Lemma remove_implements seed node e T :
  implements e T → implements (router_RemovePeer seed node e) (withdraw node T).
Proof.
  intros [[Halloc Hinj] <-]. split; [split|].
  - intros k r Hr. destruct (Halloc _ _ Hr) as (l & Hl & [m Hm]%lookup_lt_is_Some). exists l. split; [done|].
    apply lookup_lt_is_Some. cbn [router_RemovePeer rt_heap with_models]. rewrite fold_remove_lookup, Hm. by eexists.
  - exact Hinj.
  - unfold contents_of, withdraw. rewrite <-map_fmap_compose. apply map_fmap_ext. intros k r Hr.
    cbn [compose prod_map id fst snd]. by rewrite (remove_peers_of seed node e k r Hr).
Qed.

Lemma refresh_provider_implements i now p up e T :
  implements e T → e.(MeshModels) !! e.(rt_node).(ID) = None →
  (∀ C, catalogue_of now p up = Some C → C !! e.(rt_node).(ID) = None) →
  implements (refresh_provider i now p up e)
    (match catalogue_of now p up with Some C => announce e.(rt_node) C T | None => T end).
Proof.
  intros [Hsep HT] Hm Hself. unfold refresh_provider.
  set (res := if bool_decide (pv_Type p = "ollama") then _ else _).
  assert (fetches e.(rt_heap) res (catalogue_of now p up)) as Hf.
  { subst res. repeat case_bool_decide; [by apply ollama_fetches|by apply openai_fetches|by apply test_fetches|].
    unfold catalogue_of. rewrite !bool_decide_false by done. apply fetches_err0. }
  destruct res as [h' [t|err]]; unfold fetches in Hf; cbn [fst snd] in Hf.
  - destruct Hf as (C & HC & [n ->] & Halloc & Hinj & <-). rewrite HC.
    apply (AddPeerModels_implements i e.(rt_node) t (with_models e.(MeshModels) (e.(rt_heap) ++ replicate n ∅) e));
      cbn [with_models MeshModels rt_heap rt_node].
    + split; cbn [with_models MeshModels rt_heap]; [by apply separate_app|]. by rewrite <-HT, contents_of_app.
    + done.
    + specialize (Hself _ HC). rewrite lookup_fmap in Hself. by destruct (t !! _).
    + intros k r Hr. destruct (Halloc _ _ Hr) as (l & Hl & Hlt). unfold storable. rewrite Hl. split.
      * rewrite lookup_app_r by lia. apply lookup_replicate_2. rewrite length_app, length_replicate in Hlt. lia.
      * intros k' r' Hr' Heq. destruct (proj1 Hsep _ _ Hr') as (l' & ? & ?). simplify_eq. lia.
    + intros k k' r r' Hr Hr' Heq. right. by eapply Hinj.
  - destruct Hf as (HC & n & ->). rewrite HC. split; cbn [with_models MeshModels rt_heap].
    + by apply separate_app.
    + by rewrite <-HT, contents_of_app.
Qed.

(** *** Names *)

Definition names_apart (is_id : string → Prop) (T : table) : Prop :=
  ∀ k, is_Some (T !! k) → ¬ is_id k.

Lemma announce_lookup node C T k :
  announce node C T !! k =
    match C !! k with Some i => Some (i, {[node.(ID) := node]}) | None => T !! k end.
Proof. unfold announce. rewrite lookup_union, lookup_fmap. by destruct (C !! k), (T !! k). Qed.

Lemma announce_apart is_id node C T :
  (∀ k, is_Some (C !! k) → ¬ is_id k) → names_apart is_id T → names_apart is_id (announce node C T).
Proof. intros HC HT k. rewrite announce_lookup. destruct (C !! k) eqn:Hk; [by eauto|]. apply HT. Qed.

Lemma implements_free is_id e T id :
  implements e T → names_apart is_id T → is_id id → e.(MeshModels) !! id = None.
Proof.
  intros [_ <-] Hapart Hid. destruct (e.(MeshModels) !! id) as [r|] eqn:Hr; [|done]. exfalso.
  apply (Hapart id); [|done]. unfold contents_of. rewrite lookup_fmap, Hr. by eexists.
Qed.

Lemma AddPeerModels_node seed node models e :
  let e' := AddPeerModels seed node models e in
  e'.(rt_node) = e.(rt_node) ∧ e'.(rt_providers) = e.(rt_providers).
Proof. unfold AddPeerModels. by destruct (add_peer_models _ _ _ _). Qed.

Lemma refresh_provider_node i now p up e :
  let e' := refresh_provider i now p up e in
  e'.(rt_node) = e.(rt_node) ∧ e'.(rt_providers) = e.(rt_providers).
Proof.
  unfold refresh_provider. destruct (if bool_decide (pv_Type p = "ollama") then _ else _) as [h' [t|err]]; [|done].
  apply (AddPeerModels_node i e.(rt_node) t (with_models e.(MeshModels) h' e)).
Qed.

Lemma refresh_implements is_id now up ps : ∀ i e T,
  is_id e.(rt_node).(ID) → implements e T → names_apart is_id T →
  (∀ p C k, p ∈ ps → catalogue_of now p (up p) = Some C → is_Some (C !! k) → ¬ is_id k) →
  let T' := refresh_table now up e.(rt_node) ps T in
  implements (refresh_loop i now up ps e) T' ∧ names_apart is_id T'.
Proof.
  induction ps as [|p ps IH]; intros i e T Hid He HT Hps T'; [done|]. cbn [refresh_loop].
  subst T'. unfold refresh_table. cbn [foldl].
  destruct (refresh_provider_node i now p (up p) e) as [Hnode _].
  pose proof (refresh_provider_implements i now p (up p) e T He) as Hp.
  specialize (Hp (implements_free _ _ _ _ He HT Hid)).
  pose proof (IH (S i) (refresh_provider i now p (up p) e)
    (match catalogue_of now p (up p) with Some C => announce e.(rt_node) C T | None => T end)) as IH'.
  rewrite Hnode in IH'. apply IH'; [done|..].
  - apply Hp. intros C HC. destruct (C !! _) eqn:Hk; [|done]. exfalso.
    eapply (Hps p C); [by left|done|by rewrite Hk|done].
  - destruct (catalogue_of now p (up p)) as [C|] eqn:HC; [|done]. apply announce_apart; [|done].
    intros k. eapply Hps; [by left|exact HC].
  - intros q C k Hq. apply Hps. by right.
Qed.

(** One call keeps the relation. *)
Lemma apply_event_implements is_id self ps e T ev :
  is_id self.(ID) → e.(rt_node) = self → e.(rt_providers) = ps → apart is_id self ps ev →
  implements e T → names_apart is_id T →
  implements (apply_event e ev) (spec_event self ps T ev) ∧ names_apart is_id (spec_event self ps T ev).
Proof.
  intros Hself <- <- [Hwire Hev] He HT. destruct ev as [seed node models|seed node|now up]; cbn [apply_event spec_event].
  - destruct Hev as [Hid Hk]. split.
    + apply AddPeerModels_implements; [done|by eapply implements_free| | |].
      * destruct (models !! ID node) eqn:Hn; [|done]. exfalso. by eapply Hk.
      * intros k r Hr. unfold storable. by rewrite (Hwire _ _ Hr).
      * intros k k' r r' Hr _ _. left. by eapply Hwire.
    + apply announce_apart; [|done]. intros k. rewrite lookup_fmap. intros [i [r [Hr _]]%fmap_Some]. eauto.
  - split; [by apply remove_implements|]. intros k. unfold withdraw. rewrite lookup_fmap.
    intros [i [x [Hx _]]%fmap_Some]. eauto.
  - by apply refresh_implements.
Qed.

Lemma apply_event_node e ev :
  (apply_event e ev).(rt_node) = e.(rt_node) ∧ (apply_event e ev).(rt_providers) = e.(rt_providers).
Proof.
  destruct ev as [seed node models|seed node|now up]; cbn [apply_event]; [|done|].
  - apply AddPeerModels_node.
  - unfold Refresh. generalize e.(rt_providers) at 1 2. intros ps. generalize 0 as i. revert e.
    induction ps as [|p ps IH]; intros e i; [done|]. cbn [refresh_loop].
    destruct (IH (refresh_provider i now p (up p) e) (S i)) as [-> ->]. apply refresh_provider_node.
Qed.

(** The relation after any history. *)
Lemma history_implements is_id self ps evs :
  is_id self.(ID) → Forall (apart is_id self ps) evs →
  implements (foldl apply_event (NewModelDiscovery self ps) evs) (foldl (spec_event self ps) ∅ evs).
Proof.
  intros Hself Hevs.
  assert (∀ e T, rt_node e = self → rt_providers e = ps → implements e T → names_apart is_id T →
    implements (foldl apply_event e evs) (foldl (spec_event self ps) T evs)) as Hgen.
  { induction Hevs as [|ev evs Hev _ IH]; intros e T Hn Hp He HT; [done|]. cbn [foldl].
    destruct (apply_event_implements is_id self ps e T ev) as [He' HT']; [done..|].
    destruct (apply_event_node e ev) as [Hn' Hp']. by apply IH; rewrite ?Hn', ?Hp'. }
  apply Hgen; [done..| |].
  - unfold implements. cbn [NewModelDiscovery MeshModels rt_heap]. split; [split|].
    + by intros k r Hr%lookup_empty_Some.
    + by intros k k' r r' Hr%lookup_empty_Some.
    + unfold contents_of. by rewrite fmap_empty.
  - by intros k [x Hx%lookup_empty_Some].
Qed.

(** Where it does not: the code looks the route to extend up under the id of
    the node, so when some model is filed under that id, an announcement by
    the node files that one route, name and map of peers included, under
    every name announced. *)
Lemma announce_under_id seed node models e r l name :
  GetModelRoute node.(ID) e = Some r → r.(peers) = Some l → is_Some (models !! name) →
  GetModelRoute name (AddPeerModels seed node models e) = Some r.
Proof.
  unfold GetModelRoute, AddPeerModels. intros Hr Hl [x Hx].
  assert (name ∈ (range seed models).*1) as Hin.
  { apply list_elem_of_fmap. exists (name, x). split; [done|]. by apply elem_of_range. }
  assert (r = with_peers (Some l) r) as Hwith by (destruct r; simpl in *; by subst).
  revert Hr Hin. generalize (MeshModels e), (rt_heap e). induction (range seed models) as [|[k y] ms IH]; intros m h Hr Hin.
  { by apply not_elem_of_nil in Hin. }
  cbn [add_peer_models]. rewrite Hr. cbn [default from_option id]. unfold AddPeer. rewrite Hl, <-Hwith.
  destruct (decide (name ∈ ms.*1)) as [Hms|Hms].
  - apply IH; [|done]. by destruct (decide (k = node.(ID))) as [->|Hne]; rewrite ?lookup_insert_eq, ?lookup_insert_ne.
  - apply elem_of_cons in Hin as [Hk|?]; [|done]. cbn [fst] in Hk. subst k. clear IH.
    assert (∀ m h, m !! node.(ID) = Some r → m !! name = Some r →
      MeshModels (let '(m, h) := add_peer_models node ms m h in with_models m h e) !! name = Some r) as Hrest.
    { clear -Hl Hwith. induction ms as [|[k z] ms IH]; intros m h Hid Hn; [done|]. cbn [add_peer_models].
      rewrite Hid. cbn [default from_option id]. unfold AddPeer. rewrite Hl, <-Hwith.
      apply IH; by rewrite lookup_insert; case_decide. }
    apply Hrest; rewrite lookup_insert; by case_decide.
Qed.

(** C6: The model router implements a table, as long as no model that is
    announced or discovered is named like a node.  Whatever calls a router
    then went through, it shows of every model what the table without
    addresses shows after the same calls: an announcement replaces the entries
    of the models it names, a removal takes the peer out of every entry, and a
    refresh announces under the router's own node what each provider's
    catalogue holds, one provider after the other.  The routes of a peer come
    from JSON.  (A peer can break this by announcing a model under the id of a
    node: [announce_under_id].) *)
Theorem router_refines_table is_id self ps evs model :
  is_id self.(ID) → Forall (apart is_id self ps) evs →
  shows (foldl apply_event (NewModelDiscovery self ps) evs) model = foldl (spec_event self ps) ∅ evs !! model.
Proof.
  intros Hself Hevs. destruct (history_implements is_id self ps evs Hself Hevs) as [_ <-].
  unfold shows, GetModelRoute, contents_of. by rewrite lookup_fmap.
Qed.

(** *** Types *)

(** An entry is filed under its name, and its peers under their ids. *)
Definition typed (T : table) : Prop :=
  ∀ k i ps, T !! k = Some (i, ps) → mi_Name i = k ∧ ∀ id n, ps !! id = Some n → n.(ID) = id.

(** The announcements that GetModelsMesh decodes are filed by name. *)
Definition by_name_event (ev : event) : Prop :=
  match ev with EAdd _ _ models => ∀ k r, models !! k = Some r → r.(mr_Name) = k | _ => True end.

Lemma announce_typed node C T :
  (∀ k i, C !! k = Some i → mi_Name i = k) → typed T → typed (announce node C T).
Proof.
  intros HC HT k i ps. rewrite announce_lookup. destruct (C !! k) as [i'|] eqn:Hk; [|apply HT].
  intros [= <- <-]. split; [by apply HC|]. by intros id n [<- <-]%lookup_singleton_Some.
Qed.

Lemma withdraw_typed node T : typed T → typed (withdraw node T).
Proof.
  intros HT k i ps. unfold withdraw. rewrite lookup_fmap. intros ([i' ps'] & Hk & [= -> ->])%fmap_Some.
  destruct (HT _ _ _ Hk) as [Hn Hps]. split; [done|]. intros id n [_ Hn']%lookup_delete_Some. by apply Hps.
Qed.

Lemma group_by_named {M} (key : M → string) f ms k i :
  (∀ k group, mi_Name (f k group) = k) → group_by key f ms !! k = Some i → mi_Name i = k.
Proof. intros Hf. rewrite group_by_lookup. destruct (of_key key k ms); [done|]. intros [= <-]. apply Hf. Qed.

Lemma catalogue_named now p up C k i : catalogue_of now p up = Some C → C !! k = Some i → mi_Name i = k.
Proof.
  unfold catalogue_of. case_bool_decide; [|case_bool_decide; [|case_bool_decide; [|done]]].
  - destruct (up_url_ok up), (up_tags up) as [tags|]; [|done..].
    intros (C0 & HC0 & ->)%fmap_Some. rewrite map_lookup_imap.
    destruct (C0 !! k) as [i0|] eqn:Hk; cbn [mbind option_bind]; [|done].
    unfold complete. destruct (last _); cbn [mbind option_bind]; [|done]. intros [= <-]. cbn [mi_Name].
    destruct (is_whitelist p).
    + injection HC0 as <-. by eapply group_by_named; [|exact Hk].
    + apply fmap_Some in HC0 as (running & _ & ->). by eapply group_by_named; [|exact Hk].
  - destruct (up_openai up); [|done]. intros [= <-]. by apply group_by_named.
  - intros [= <-]. by apply group_by_named.
Qed.

Lemma spec_event_typed self ps T ev : by_name_event ev → typed T → typed (spec_event self ps T ev).
Proof.
  intros Hev HT. destruct ev as [seed node models|seed node|now up]; cbn [spec_event].
  - apply announce_typed; [|done]. intros k i. rewrite lookup_fmap. intros (r & Hr & ->)%fmap_Some. by apply Hev.
  - by apply withdraw_typed.
  - unfold refresh_table. revert T HT. induction ps as [|p ps IH]; intros T HT; [done|]. cbn [foldl]. apply IH.
    destruct (catalogue_of now p (up p)) as [C|] eqn:HC; [|done]. apply announce_typed; [|done].
    intros k i. by eapply catalogue_named.
Qed.

(** C13: The types of the router's data, as long as no model that is
    announced or discovered is named like a node.  After any such history a
    model is filed under its own name, its route points to an allocated map,
    the entries of the map are filed under the ids of the peers, and no other
    model points to the same map: taking a peer out of one route, or adding
    one, is never seen in another. *)
Theorem router_well_typed is_id self ps evs model r :
  is_id self.(ID) → Forall (apart is_id self ps) evs → Forall by_name_event evs →
  let e := foldl apply_event (NewModelDiscovery self ps) evs in
  GetModelRoute model e = Some r →
  r.(mr_Name) = model ∧
  ∃ l m, r.(peers) = Some l ∧ e.(rt_heap) !! l = Some m ∧
    (∀ id n, m !! id = Some n → n.(ID) = id) ∧
    (∀ model' r', GetModelRoute model' e = Some r' → r'.(peers) = Some l → model' = model).
Proof.
  intros Hself Hevs Hnames e Hr.
  destruct (history_implements is_id self ps evs Hself Hevs) as [[Halloc Hinj] HT]. fold e in Halloc, Hinj, HT.
  assert (typed (foldl (spec_event self ps) ∅ evs)) as Htyped.
  { assert (∀ T, typed T → typed (foldl (spec_event self ps) T evs)) as Hgen.
    { clear -Hnames. induction Hnames as [|ev evs Hev _ IH]; intros T HT; [done|]. by apply IH, spec_event_typed. }
    apply Hgen. by intros k i x Hx%lookup_empty_Some. }
  destruct (Halloc _ _ Hr) as (l & Hl & [m Hm]%lookup_lt_is_Some).
  destruct (Htyped model (info_of r) (peers_of e.(rt_heap) r)) as [Hname Hids].
  { rewrite <-HT. unfold contents_of. rewrite lookup_fmap. unfold GetModelRoute in Hr. by rewrite Hr. }
  split; [exact Hname|]. exists l, m. split_and!; [done..| |].
  - unfold peers_of in Hids. rewrite Hl, Hm in Hids. exact Hids.
  - intros model' r' Hr' Hl'. eapply Hinj; [exact Hr'|exact Hr|congruence].
Qed.
End Refinement.

(** ** Witnesses *)

Module SpecEx.
Import DexEx.
Definition peer_id (x : string) : Prop := has_prefix "12D3" x = true.
Definition history : list event := [ERefresh 0 no_upstream; EAdd 0 bob announced; ERemove 0 bob].

Lemma history_apart : Forall (apart peer_id self [local1]) history.
Proof.
  repeat constructor.
  - cbn. intros p C k Hp%list_elem_of_singleton HC HCk Hid. subst p.
    assert (k = "llama") as ->; [|by vm_compute in Hid].
    apply dec_stable. intros Hne. injection HC as <-. unfold whitelisted in HCk.
    rewrite group_by_lookup in HCk. cbn [pv_Models local1] in HCk. unfold of_key in HCk.
    rewrite filter_cons, decide_False in HCk by (intros Heq; by apply Hne). by destruct HCk.
  - intros name r Hr. by apply announced_wire in Hr as [? _].
  - unfold announced. intros k [r [<- _]%lookup_singleton_Some] Hid. by vm_compute in Hid.
Qed.

Lemma history_named : Forall by_name_event history.
Proof. repeat constructor. cbn. unfold announced. by intros k r [<- <-]%lookup_singleton_Some. Qed.
End SpecEx.
Import DexEx SpecEx.

Lemma router_refines_table_witness :
  shows (foldl apply_event (NewModelDiscovery self [local1]) history) "llama"
    = foldl (spec_event self [local1]) ∅ history !! "llama" ∧
  shows (foldl apply_event (NewModelDiscovery self [local1]) history) "llama" = Some (info_of wire_llama, ∅).
Proof.
  split; [|by vm_compute].
  exact (router_refines_table peer_id self [local1] history "llama" eq_refl history_apart).
Defined.

Lemma router_well_typed_witness :
  ∃ r l, GetModelRoute "llama" (foldl apply_event (NewModelDiscovery self [local1]) history) = Some r ∧
    r.(mr_Name) = "llama" ∧ r.(peers) = Some l.
Proof.
  destruct (GetModelRoute "llama" (foldl apply_event (NewModelDiscovery self [local1]) history)) as [r|] eqn:Hr;
    [|by vm_compute in Hr].
  destruct (router_well_typed peer_id self [local1] history "llama" r eq_refl history_apart history_named Hr)
    as (Hname & l & m & Hl & _).
  exists r, l. exact (conj eq_refl (conj Hname Hl)).
Defined.
