(* ===== verification/Discoveries.v ===== *)
(** * Discoveries: what the setting model_discovery of a provider does.

    `mesh init` offers "all", "pinned" and "whitelist" (cmd/mesh/app_init.go)
    and describes "all" as every model the provider knows; the model router
    (pkg/proxy/modeldex/router.go) only tells "whitelist" from the rest. *)
From Stdlib Require Import Ascii String.
From S2P Require Import Prelude GoStrings Json Api ModelDex.

Definition with_Discovery (x : string) (p : Provider) : Provider := {| pv_ID := pv_ID p; pv_Type := pv_Type p;
  pv_BaseURL := pv_BaseURL p; pv_Token := pv_Token p; pv_Private := pv_Private p; pv_Discovery := x;
  pv_Models := pv_Models p |}.

Section Discoveries.
Context `{!MapOrder}.

Lemma running_models_keys now p ms h t h' t' k :
  running_models now p ms h t = (h', t') → is_Some (t' !! k) →
  is_Some (t !! k) ∨ ∃ m, m ∈ ms ∧ m.(rm_Model) = k.
Proof.
  revert h t. induction ms as [|m ms IH]; intros h t; cbn [running_models]; [intros [= <- <-]; by left|].
  destruct (match t !! rm_Model m with Some r => _ | None => _ end) as [h1 r].
  intros Hrun Hk. destruct (IH _ _ Hrun Hk) as [Ht|(m' & Hm' & <-)]; [|right; exists m'; split; [by right|done]].
  destruct (decide (rm_Model m = k)) as [<-|Hne]; [right; exists m; split; [by left|done]|].
  left. by rewrite lookup_insert_ne in Ht.
Qed.

Lemma with_properties_keys tags models k :
  is_Some (with_properties tags models !! k) → is_Some (models !! k).
Proof.
  unfold with_properties. rewrite map_lookup_imap. by destruct (models !! k); [|intros [? ?]].
Qed.

Lemma running_models_discovery x now p ms h t :
  running_models now (with_Discovery x p) ms h t = running_models now p ms h t.
Proof.
  revert h t. induction ms as [|m ms IH]; intros h t; [done|]. cbn [running_models].
  destruct (match t !! rm_Model m with Some r => _ | None => _ end) as [h1 r]. by rewrite IH.
Qed.

Lemma openai_models_none p ms h t : openai_models p ∅ ms h t = (h, t).
Proof. induction ms as [|m ms IH]; [done|]. cbn [openai_models]. by rewrite lookup_empty. Qed.

(** "all" is no more than "pinned".  For every setting but "whitelist" the
    router takes from ollama exactly what it takes for "pinned", and each
    model it takes is one the provider is running; and from an OpenAI
    provider it takes nothing at all. *)
Theorem all_is_pinned now p up h (Hd : pv_Discovery p ≠ "whitelist") :
  ollamaFetchModels now p up h = ollamaFetchModels now (with_Discovery "pinned" p) up h ∧
  (∀ h' models k, ollamaFetchModels now p up h = (h', Ok models) → is_Some (models !! k) →
     ∃ running m, up.(up_running) = Some running ∧ m ∈ running ∧ m.(rm_Model) = k) ∧
  (∀ data, up.(up_openai) = Ok data → openaiFetchModels now p up h = (h, Ok ∅)).
Proof.
  unfold ollamaFetchModels, openaiFetchModels. rewrite (bool_decide_false _ Hd).
  rewrite (bool_decide_false (pv_Discovery (with_Discovery "pinned" p) = "whitelist")) by done. split_and!.
  - destruct (negb _); [done|]. destruct (up_tags up); [|done]. destruct (up_running up) as [running|]; [|done].
    by rewrite running_models_discovery.
  - intros h' models k. destruct (negb _); [done|]. destruct (up_tags up) as [tags|]; [|done].
    destruct (up_running up) as [running|]; [|done]. destruct (running_models _ _ _ _ _) as [h1 t] eqn:Hrun.
    intros [= <- <-] Hk%with_properties_keys. destruct (running_models_keys _ _ _ _ _ _ _ _ Hrun Hk) as [[? ?]|(m & ? & ?)].
    + done.
    + by exists running, m.
  - intros data ->. by rewrite openai_models_none.
Qed.
End Discoveries.
