(* ===== verification/JsonClient.v ===== *)
(** * JsonClient: the JSON-over-HTTP client (pkg/jsonclient).

    A [Doer] sends one HTTP request and waits for the response; it may change
    the world [W] it talks to.  [Client_Do] is Client.Do: it builds the
    request, checks the status and decodes the answer.  [makePath] is the path
    template of utilities.go. *)
From Stdlib Require Import Ascii String.
From S2P Require Import Prelude GoStrings Json Api.

(** ** Requests and responses on the wire *)

Record http_request := {
  hq_method : string; hq_url : string; hq_auth : string; hq_body : option string }.
(** [hs_status] is the status line's text ("409 Conflict"), the body may fail
    to arrive. *)
Record http_response := { hs_code : Z; hs_status : string; hs_body : result error string }.

Definition Doer (W : Type) : Type := http_request → prog W (result error http_response).

(** What http.NewRequest says of a method and a URL: None when it accepts
    them, the error's text otherwise; and the method of the request that the
    client makes when ServeMux redirects it to a clean path (by a 301 or a
    307, which differ in this). *)
Class NewRequestText := {
  new_request_err : string → string → option string;
  redirect_method : string → string }.

(** ** Client *)

Record Client := { Address : string; cl_token : string }.
Definition NewClient (address token : string) : Client := {| Address := address; cl_token := token |}.
Definition SetToken (token : string) (c : Client) : Client :=
  {| Address := c.(Address); cl_token := token |}.
Definition Close (c : Client) : Client := SetToken "" c.

(** The options of a client. *)
Definition SetOpt (key value : string) (opts : gmap string string) : gmap string string := <[key := value]> opts.
Definition GetOpt (key : string) (opts : gmap string string) : string := default "" (opts !! key).

Definition ErrClientRequest : Z := 800.

(** setAuth: the Authorization header of the request, "" for none. *)
Definition setAuth (c : Client) : string :=
  if bool_decide (c.(cl_token) ≠ "") then "Bearer " +:+ c.(cl_token) else "".

Section Client.
Context {W : Type} (rt : Doer W) `{!JsonText} `{!NewRequestText}.

Definition newRequest (c : Client) (method location : string) (body : option string)
    : result error http_request :=
  match new_request_err method location with
  | Some msg => Err (ApiError ErrClientRequest msg)
  | None => Ok {| hq_method := method; hq_url := location; hq_auth := setAuth c; hq_body := body |}
  end.

(** Client.Do: [out] is the variable the answer is decoded into with its
    decoder, None for a nil interface; the result is the variable's value
    after the call, and the error. *)
Definition Client_Do {A} (c : Client) (method location : string) (inp : option json)
    (out : option (decoder A)) (v : A) : prog W (A * option error) :=
  match newRequest c method (c.(Address) +:+ location) (json_print <$> inp) with
  | Err e => Ret (v, Some e)
  | Ok req =>
      let* resp := rt req in
      match resp with
      | Err e => Ret (v, Some e)
      | Ok resp =>
          match resp.(hs_body) with
          | Err e => Ret (v, Some e)
          | Ok data =>
              if bool_decide (resp.(hs_code) ≠ StatusOK)
              then Ret (v, Some (OtherError (resp.(hs_status) +:+ ": " +:+ data)))
              else match out with
                   | None => Ret (v, None)
                   | Some dec =>
                       let '(v, ok) := unmarshal dec data v in
                       Ret (v, if ok : bool then None else Some (OtherError "json: cannot unmarshal"))
                   end
          end
      end
  end.

Definition Client_Delete (c : Client) (location : string) : prog W (option error) :=
  let* r := Client_Do c "DELETE" location None (None : option (decoder ())) () in Ret r.2.
Definition Client_Get {A} (c : Client) (location : string) (dec : decoder A) (v : A) :=
  Client_Do c "GET" location None (Some dec) v.
Definition Client_Post {A} (c : Client) (location : string) (inp : json) (dec : decoder A) (v : A) :=
  Client_Do c "POST" location (Some inp) (Some dec) v.
Definition Client_Put {A} (c : Client) (location : string) (inp : json) (dec : decoder A) (v : A) :=
  Client_Do c "PUT" location (Some inp) (Some dec) v.
End Client.

(** ** Path templates (utilities.go) *)

Definition lbrace : ascii := "{"%char.
Definition rbrace : ascii := "}"%char.

(** The scan of makePath: the first closing brace that follows an opening
    one, and the last opening brace before it.  [before] is the text already
    scanned, in reverse, and [name] the text since the last opening brace. *)
Fixpoint find_param (before : string) (name : option string) (s : string)
    : option (string * string) :=
  match s with
  | "" => None
  | String c s' =>
      if decide (c = lbrace) then
        find_param (match name with
                    | None => before
                    | Some n => n +:+ String lbrace before
                    end) (Some "") s'
      else match name with
           | None => find_param (String c before) None s'
           | Some n => if decide (c = rbrace) then Some (reverse before, s')
                       else find_param before (Some (String c n)) s'
           end
  end.

(** makePath: the values come as the text fmt.Sprintf makes of them;
    [total] is their number, [i] how many are used. *)
Definition not_enough (i total : nat) : error :=
  OtherError ("not enough parameters: found " +:+ itoa (Z.of_nat (S i))
    +:+ " parameter(s) in path but only " +:+ itoa (Z.of_nat total) +:+ " value(s) provided").
Fixpoint make_path (i total : nat) (path : string) (v : list string) : result error string :=
  match find_param "" None path with
  | None => Ok path
  | Some (before, after) =>
      match v with
      | [] => Err (not_enough i total)
      | x :: v' => make_path (S i) total (before +:+ x +:+ after) v'
      end
  end.
Definition makePath (path : string) (v : list string) : result error string :=
  make_path 0 (length v) path v.

(** MakePath panics with the error. *)
Definition MakePath (path : string) (v : list string) : result string string :=
  match makePath path v with
  | Ok p => Ok p
  | Err e => Err ("Path:  Err:" +:+ error_string e)
  end.

(** ExtractMustaches: the names between an opening brace and the next closing
    one, leftmost first and without overlap, trimmed. *)
Fixpoint span_name (s : string) : option (string * string) :=
  match s with
  | "" => None
  | String c s' =>
      if decide (c = rbrace) then Some ("", s')
      else match span_name s' with Some (n, rest) => Some (String c n, rest) | None => None end
  end.
Fixpoint mustaches (fuel : nat) (s : string) : list string :=
  match fuel, s with
  | S fuel, String c s' =>
      if decide (c = lbrace) then
        match span_name s' with
        | Some (String _ _ as name, rest) => name :: mustaches fuel rest
        | _ => mustaches fuel s'
        end
      else mustaches fuel s'
  | _, _ => []
  end.
Definition ExtractMustaches (s : string) : gmap string () :=
  list_to_map ((λ k, (k, ())) <$> filter (λ k, k ≠ "") (trim_space <$> mustaches (String.length s) s)).

(** strings.ReplaceAll, for a non-empty text to replace. *)
Fixpoint replace_all (fuel : nat) (old new s : string) : string :=
  match fuel, s with
  | S fuel, String c s' =>
      if has_prefix old s then new +:+ replace_all fuel old new (drop_str (String.length old) s)
      else String c (replace_all fuel old new s')
  | _, _ => s
  end.
Definition ReplaceAll (old new s : string) : string := replace_all (String.length s) old new s.

(** makePathKV: the values come as the text of their formatting; the map of
    the caller loses the keys that are used.  The result comes with an error
    if some key of either side is left. *)
Definition use_key (acc : string * gmap string () * gmap string string) (key : string)
    : string * gmap string () * gmap string string :=
  let '(result, keys, kv) := acc in
  match kv !! key with
  | Some value => (ReplaceAll (String lbrace (key +:+ str1 rbrace)) value result, delete key keys, delete key kv)
  | None => acc
  end.
Definition makePathKV `{!MapOrder} (path : string) (kv : gmap string string)
    : string * option error * gmap string string :=
  let keys := ExtractMustaches path in
  let '(result, keys, kv) := foldl use_key (path, keys, kv) (range 0 keys).*1 in
  (result,
   if bool_decide (keys ≠ ∅) then Some (OtherError "kv did not provide all required parameters")
   else if bool_decide (kv ≠ ∅) then Some (OtherError "path did not consume all keys parameters")
   else None, kv).
Definition MakePathKV `{!MapOrder} (path : string) (kv : gmap string string) : result string string :=
  match makePathKV path kv with
  | (result, None, _) => Ok result
  | (_, Some e, _) => Err ("Path: " +:+ path +:+ " Err:" +:+ error_string e)
  end.

(** A template as it is meant: literal texts around named parameters. *)
Fixpoint template (t : list (string * string)) (tail : string) : string :=
  match t with
  | [] => tail
  | (lit, name) :: t' => lit +:+ String lbrace (name +:+ String rbrace (template t' tail))
  end.
Fixpoint fill (t : list (string * string)) (v : list string) (tail : string) : string :=
  match t, v with
  | (lit, _) :: t', x :: v' => lit +:+ x +:+ fill t' v' tail
  | _, _ => tail
  end.

Definition brace (c : ascii) : bool := bool_decide (c = lbrace) || bool_decide (c = rbrace).
Definition no_braces (s : string) : bool := all_bytes (λ c, negb (brace c)) s.

(** ** Lemmas *)

Lemma not_brace c : negb (brace c) = true → c ≠ lbrace ∧ c ≠ rbrace.
Proof. unfold brace. rewrite negb_orb, andb_true_iff, !negb_true_iff, !bool_decide_eq_false. done. Qed.

Lemma no_braces_cons c s : no_braces (String c s) = true → (c ≠ lbrace ∧ c ≠ rbrace) ∧ no_braces s = true.
Proof. unfold no_braces. simpl. intros [Hc%not_brace Hs]%andb_true_iff. done. Qed.

(** The name of a parameter is skipped. *)
Lemma find_param_name before n name rest :
  no_braces name = true →
  find_param before (Some n) (name +:+ String rbrace rest) = Some (reverse before, rest).
Proof.
  revert n. induction name as [|c name IH]; intros n; [done|].
  rewrite append_cons. intros [[Hl Hr] Hs]%no_braces_cons. cbn [find_param].
  rewrite !decide_False by done. by apply IH.
Qed.

(** The first parameter of a template, and the literal text before it. *)
Lemma find_param_template before lit name rest :
  no_braces lit = true → no_braces name = true →
  find_param before None (lit +:+ String lbrace (name +:+ String rbrace rest))
    = Some (reverse before +:+ lit, rest).
Proof.
  revert before. induction lit as [|c lit IH]; intros before Hlit Hname.
  - change (find_param before (Some "") (name +:+ String rbrace rest) = Some (reverse before +:+ "", rest)).
    rewrite find_param_name by done. by rewrite append_nil_r.
  - rewrite append_cons. apply no_braces_cons in Hlit as [[Hl Hr] Hlit]. cbn [find_param].
    rewrite !decide_False by done. rewrite IH, reverse_cons, append_assoc by done. done.
Qed.

Lemma find_param_none before s : no_braces s = true → find_param before None s = None.
Proof.
  revert before. induction s as [|c s IH]; intros before; [done|].
  intros [[Hl Hr] Hs]%no_braces_cons. cbn [find_param]. rewrite !decide_False by done. by apply IH.
Qed.

Lemma make_path_template i total p t tail v :
  no_braces p = true → Forall (λ x, no_braces x.1 = true ∧ no_braces x.2 = true) t →
  no_braces tail = true → Forall (λ x, no_braces x = true) v →
  make_path i total (p +:+ template t tail) v =
    if bool_decide (length t ≤ length v)%nat then Ok (p +:+ fill t v tail)
    else Err (not_enough (i + length v) total).
Proof.
  intros Hp Ht Htail. revert i p v Hp. induction Ht as [|[lit name] t [Hlit Hname] _ IH]; intros i p v Hp Hv.
  - rewrite bool_decide_true by (simpl; lia). simpl.
    assert (find_param "" None (p +:+ tail) = None) as Hf.
    { apply find_param_none. unfold no_braces in *. by rewrite all_bytes_app, Hp, Htail. }
    destruct v; cbn [make_path]; by rewrite Hf.
  - cbn [template]. rewrite <-append_assoc.
    assert (no_braces (p +:+ lit) = true) as Hpl.
    { unfold no_braces in *. simpl in *. by rewrite all_bytes_app, Hp, Hlit. }
    assert (∀ rest, find_param "" None ((p +:+ lit) +:+ String lbrace (name +:+ String rbrace rest))
      = Some (p +:+ lit, rest)) as Hf by (intros; by rewrite find_param_template).
    destruct Hv as [|x v Hx Hv]; cbn [make_path]; rewrite Hf.
    { rewrite bool_decide_false by (simpl; lia). by rewrite Nat.add_0_r. }
    rewrite <-append_assoc, IH; [| |done].
    + simpl. replace (S (i + length v)) with (i + S (length v))%nat by lia.
      repeat case_bool_decide; [|lia|lia|done]. by rewrite !append_assoc.
    + unfold no_braces in *. by rewrite all_bytes_app, Hpl, Hx.
Qed.

(** Path templates: for a template of literal texts and named parameters,
    makePath puts the values in order in the places of the parameters, when
    there are enough of them (more are ignored), and otherwise reports how
    many were there; neither texts, names nor values may hold braces. *)
Theorem makePath_fills_template t tail v :
  Forall (λ x, no_braces x.1 = true ∧ no_braces x.2 = true) t → no_braces tail = true →
  Forall (λ x, no_braces x = true) v →
  makePath (template t tail) v =
    if bool_decide (length t ≤ length v)%nat then Ok (fill t v tail)
    else Err (not_enough (length v) (length v)).
Proof. intros Ht Htail Hv. exact (make_path_template 0 (length v) "" t tail v eq_refl Ht Htail Hv). Qed.

Lemma makePath_fills_template_witness :
  makePath "/mesh/{id}/nodes/{node}" ["m"; "n"; "unused"] = Ok "/mesh/m/nodes/n".
Proof.
  apply (makePath_fills_template [("/mesh/", "id"); ("/nodes/", "node")] "" ["m"; "n"; "unused"]);
    repeat constructor.
Defined.

(** ** Named parameters *)

Lemma use_keys_spec l path keys kv :
  let '(_, keys', kv') := foldl use_key (path, keys, kv) l in
  (∀ k, keys' !! k = if decide (k ∈ l ∧ is_Some (kv !! k)) then None else keys !! k) ∧
  (∀ k, kv' !! k = if decide (k ∈ l) then None else kv !! k).
Proof.
  revert path keys kv. induction l as [|x l IH]; intros path keys kv; cbn [foldl].
  { split; intros k; rewrite decide_False; set_solver. }
  unfold use_key at 2. destruct (kv !! x) as [v|] eqn:Hx.
  - specialize (IH (ReplaceAll (String lbrace (x +:+ str1 rbrace)) v path) (delete x keys) (delete x kv)).
    destruct (foldl _ _ l) as [[r keys'] kv']. destruct IH as [IHk IHv].
    split; intros k; rewrite ?IHk, ?IHv; (destruct (decide (x = k)) as [<-|Hne];
      [rewrite !lookup_delete_eq|rewrite !lookup_delete_ne by done; apply decide_ext; set_solver]).
    + rewrite (decide_True (P := x ∈ x :: l ∧ _)); [by case_decide|]. split; [by left|by rewrite Hx].
    + rewrite (decide_True (P := x ∈ x :: l)) by (by left). by case_decide.
  - specialize (IH path keys kv). destruct (foldl _ _ l) as [[r keys'] kv']. destruct IH as [IHk IHv].
    split; intros k; rewrite ?IHk, ?IHv.
    + apply decide_ext. rewrite elem_of_cons. split; [naive_solver|]. intros [[->|?] Hs]; [|done].
      rewrite Hx in Hs. by destruct Hs.
    + destruct (decide (x = k)) as [<-|Hne]; [|apply decide_ext; set_solver].
      rewrite Hx, (decide_True (P := x ∈ x :: l)) by (by left). by case_decide.
Qed.

(** makePathKV succeeds exactly when the names of the template are the keys of
    the map, which is empty afterwards. *)
Lemma makePathKV_consumes `{!MapOrder} path kv :
  let '(_, err, kv') := makePathKV path kv in
  err = None ↔ dom kv = dom (ExtractMustaches path) ∧ kv' = ∅.
Proof.
  unfold makePathKV. pose proof (use_keys_spec (range 0 (ExtractMustaches path)).*1 path (ExtractMustaches path) kv)
    as Hspec. destruct (foldl _ _ _) as [[r keys'] kv']. destruct Hspec as [Hk Hv].
  assert (∀ k, k ∈ (range 0 (ExtractMustaches path)).*1 ↔ k ∈ dom (ExtractMustaches path)) as Hdom.
  { intros k. rewrite elem_of_dom, list_elem_of_fmap. split.
    - intros ([k' u] & -> & Hin%elem_of_range). by eexists.
    - intros [u Hu]. exists (k, u). split; [done|]. by apply elem_of_range. }
  split.
  - case_bool_decide as Hkeys; [done|]. case_bool_decide as Hkv; [done|]. intros _.
    split; [|done]. apply set_eq. intros k. specialize (Hk k). specialize (Hv k).
    rewrite Hkeys in Hk. rewrite Hkv in Hv.
    rewrite lookup_empty in Hk. rewrite lookup_empty in Hv. rewrite <-Hdom. rewrite elem_of_dom. split.
    + intros [v Hsome]. destruct (decide (k ∈ (range 0 (ExtractMustaches path)).*1)); [done|]. congruence.
    + intros Hin. destruct (decide (is_Some (kv !! k))) as [Hs|Hn]; [done|].
      rewrite decide_False in Hk by tauto. apply Hdom, elem_of_dom in Hin as [u Hu]. congruence.
  - intros [Hd ->]. rewrite bool_decide_false; [by rewrite bool_decide_false by (by intros [])|].
    intros Hne. apply Hne. apply map_eq. intros k. rewrite Hk, lookup_empty. case_decide as Hc; [done|].
    destruct (ExtractMustaches path !! k) as [u|] eqn:Hu; [|done]. exfalso. apply Hc.
    assert (k ∈ dom (ExtractMustaches path)) as Hin by (by apply elem_of_dom).
    split; [by apply Hdom|]. rewrite <-Hd in Hin. by apply elem_of_dom in Hin.
Qed.

(** A name with blanks around it is taken as used, but is not replaced. *)
Lemma spaced_name_kept :
  @makePathKV map_order "/nodes/{ id }" {[ "id" := "7" ]} = ("/nodes/{ id }", None, ∅).
Proof. by vm_compute. Qed.
