(* ===== verification/AdminReady.v ===== *)
(** * AdminReady: waiting for the membership server (pkg/admin/server.go Wait).

    Wait asks the server for its root every 100 ms until it answers below 500
    or the context is done.  The n-th attempt of the loop is [probe n]; which
    of the two ready channels of the select is taken after it is [tick n]:
    the error of the context, or None for the ticker. *)
From Stdlib Require Import Ascii String.
From S2P Require Import Prelude GoStrings Json Api JsonClient.

Section Wait.
Context `{!NewRequestText}.
Context (probe : nat → result error Z) (tick : nat → option error).

Definition wait_url (mainAddress : string) : string := "http://localhost" +:+ mainAddress.

(** The loop from the attempt [i] on; None when the fuel is too little. *)
Fixpoint wait_loop (fuel i : nat) (url : string) : option (option error) :=
  match fuel with
  | O => None
  | S fuel =>
      match new_request_err "GET" url with
      | Some msg => Some (Some (OtherError msg))
      | None =>
          if match probe i with Ok status => bool_decide (status < 500)%Z | Err _ => false end then Some None
          else match tick i with
               | Some err => Some (Some (OtherError ("server at " +:+ url +:+ " not ready: " +:+ error_string err)))
               | None => wait_loop fuel (S i) url
               end
      end
  end.
Definition Wait (fuel : nat) (mainAddress : string) : option (option error) :=
  let url := wait_url mainAddress in
  if bool_decide (url = "") then Some (Some (OtherError "public address not set")) else wait_loop fuel 0 url.

Definition ready (i : nat) : Prop := ∃ status, probe i = Ok status ∧ (status < 500)%Z.
#[export] Instance ready_dec i : Decision (ready i).
Proof.
  unfold ready. destruct (probe i) as [status|e]; [|right; naive_solver].
  destruct (decide (status < 500)%Z); [left; eauto|right; naive_solver].
Defined.

Lemma wait_loop_step fuel i url :
  new_request_err "GET" url = None →
  wait_loop (S fuel) i url =
    if decide (ready i) then Some None
    else match tick i with
         | Some err => Some (Some (OtherError ("server at " +:+ url +:+ " not ready: " +:+ error_string err)))
         | None => wait_loop fuel (S i) url
         end.
Proof.
  intros Hnew. cbn [wait_loop]. rewrite Hnew. destruct (decide (ready i)) as [(status & -> & Hs)|Hno].
  - by rewrite bool_decide_true.
  - destruct (probe i) as [status|e] eqn:Hp; [|done]. rewrite bool_decide_false; [done|].
    intros Hs. apply Hno. by exists status.
Qed.

(** The attempt [n] is the last one: the server is ready, or the context is
    done after it. *)
Definition ends_at (url : string) (n : nat) (r : option error) : Prop :=
  (ready n ∧ r = None) ∨
  (¬ ready n ∧ ∃ err, tick n = Some err ∧
     r = Some (OtherError ("server at " +:+ url +:+ " not ready: " +:+ error_string err))).

Lemma wait_loop_outcome fuel i url r :
  new_request_err "GET" url = None →
  wait_loop fuel i url = Some r ↔
  ∃ n, i ≤ n < i + fuel ∧ (∀ j, i ≤ j < n → ¬ ready j ∧ tick j = None) ∧ ends_at url n r.
Proof.
  intros Hnew. revert i. induction fuel as [|fuel IH]; intros i; [split; [done|intros (n & ? & _); lia]|].
  rewrite wait_loop_step by done. unfold ends_at. destruct (decide (ready i)) as [Hr|Hr].
  { split; [intros [= <-]; exists i; split_and!; [lia..|intros; lia|by left]|].
    intros (n & Hn & Hbefore & Hend). destruct (decide (n = i)) as [-> |]; [naive_solver|].
    destruct (Hbefore i) as [? _]; [lia|done]. }
  destruct (tick i) as [err|] eqn:Ht.
  { split; [intros [= <-]; exists i; split_and!; [lia..|intros; lia|right; eauto]|].
    intros (n & Hn & Hbefore & Hend). destruct (decide (n = i)) as [-> |]; [naive_solver|].
    destruct (Hbefore i) as [_ ?]; [lia|congruence]. }
  rewrite IH. split; intros (n & Hn & Hbefore & Hend); exists n; (split; [|split; [|exact Hend]]).
  - lia.
  - intros j Hj. destruct (decide (j = i)) as [-> |]; [done|]. apply Hbefore. lia.
  - destruct (decide (n = i)) as [-> |]; [exfalso; naive_solver|lia].
  - intros j Hj. apply Hbefore. lia.
Qed.

(** Wait returns nil exactly when an attempt is answered below 500 before
    the context is done, at the first such attempt, and the error of the
    context exactly when that comes first; it never finds its address unset,
    and it returns as soon as either happens. *)
Theorem wait_outcome (fuel : nat) (mainAddress : string) (r : option error)
    (Hnew : new_request_err "GET" (wait_url mainAddress) = None) :
  Wait fuel mainAddress = Some r ↔
  ∃ n, n < fuel ∧ (∀ j, j < n → ¬ ready j ∧ tick j = None) ∧ ends_at (wait_url mainAddress) n r.
Proof.
  unfold Wait. rewrite bool_decide_false by done. rewrite wait_loop_outcome by done.
  split; intros (n & Hn & Hbefore & Hend); exists n; (split; [lia|split; [|done]]); intros j Hj; apply Hbefore; lia.
Qed.
End Wait.
