(* ===== verification/ApiClient.v ===== *)
(** * ApiClient: the clients of the membership server (api/).

    Client, MeshClient, Registration and AdminClient are thin layers over the
    JSON client of JsonClient; redeem.go turns an invitation link into a
    request.  The doer they use is a parameter. *)
From Stdlib Require Import Ascii String.
From S2P Require Import Prelude GoStrings Json Durations Api JsonClient.

(** ** State *)

Record MeshClient := { meshId : string; transport : Client }.
Record Registration := { rg_transport : Client; rg_node : PeerNode; rg_token : string }.

(** client.go: a Client and an AdminClient are their transport. *)
Definition Api_NewClient (address token : string) : Client := NewClient address token.
Definition Client_Admin (c : Client) : Client := c.

Section Clients.
Context {W : Type} (rt : Doer W) `{!JsonText} `{!TimeText} `{!NewRequestText}.

(** ** client_mesh.go *)

Definition register_request (n : PeerNode) (token : string) : json :=
  enc_register {| rn_Node := n; rn_Token := token; rn_LogicalTime := 0; rn_LastUpdate := time_zero |}.

(** Registration.Refresh: the registration after the call, then the three
    results. *)
Definition Registration_Refresh (r : Registration)
    : prog W (Registration * (bool * Z * option error)) :=
  let* (resp, err) := Client_Post rt r.(rg_transport) ("/api/v1/nodes/" +:+ r.(rg_node).(ID))
    (register_request r.(rg_node) r.(rg_token)) dec_register rn_zero in
  match err with
  | Some e =>
      if contains "409" (error_string e) then Ret (r, (false, 0%Z, None))
      else Ret (r, (false, 0%Z, Some e))
  | None =>
      Ret ({| rg_transport := r.(rg_transport); rg_node := r.(rg_node); rg_token := resp.(rn_Token) |},
           (true, resp.(rn_LogicalTime), None))
  end.

Definition MeshClient_GetPeers (c : MeshClient) : prog W (result error (list PeerNode)) :=
  let* (resp, err) := Client_Get rt c.(transport) "/api/v1/nodes" dec_nodes [] in
  Ret (match err with Some e => Err e | None => Ok resp end).

Record GetRelayResponse := {
  gr_ID : string; gr_MultiAddress : list string; gr_LastUpdate : Z; gr_LogicalTime : Z }.
Definition gr_zero : GetRelayResponse :=
  {| gr_ID := ""; gr_MultiAddress := []; gr_LastUpdate := time_zero; gr_LogicalTime := 0 |}.
Definition dec_relay : decoder GetRelayResponse := dec_struct (λ k v r,
  let '(Build_GetRelayResponse i m u l) := r in
  if key_is "ID" k then in_field (λ x _, Build_GetRelayResponse x m u l) gr_ID dec_string v r
  else if key_is "MultiAddress" k then
    in_field (λ x _, Build_GetRelayResponse i x u l) gr_MultiAddress (dec_list dec_string "") v r
  else if key_is "LastUpdate" k then
    in_field (λ x _, Build_GetRelayResponse i m x l) gr_LastUpdate dec_time v r
  else if key_is "LogicalTime" k then
    in_field (λ x _, Build_GetRelayResponse i m u x) gr_LogicalTime (dec_uint 64) v r
  else (r, true)).

Definition MeshClient_GetRelay (c : MeshClient) : prog W (result error (list string * Z * Z)) :=
  let* (resp, err) := Client_Get rt c.(transport) "/api/v1/relay" dec_relay gr_zero in
  Ret (match err with
       | Some e => Err e
       | None => Ok (resp.(gr_MultiAddress), resp.(gr_LastUpdate), resp.(gr_LogicalTime))
       end).

(** GetAddress returns the addresses with the error. *)
Definition MeshClient_GetAddress (c : MeshClient) : prog W (result error (list string)) :=
  let* r := MeshClient_GetRelay c in
  Ret (match r with Ok (addrs, _, _) => Ok addrs | Err e => Err e end).

Record NodeLoginResponse := { lo_Token : string; lo_NodeID : string; lo_Expires : Z }.
Definition lo_zero : NodeLoginResponse := {| lo_Token := ""; lo_NodeID := ""; lo_Expires := 0 |}.
Definition dec_login_resp : decoder NodeLoginResponse := dec_struct (λ k v r,
  let '(Build_NodeLoginResponse t n e) := r in
  if key_is "Token" k then in_field (λ x _, Build_NodeLoginResponse x n e) lo_Token dec_string v r
  else if key_is "NodeID" k then
    in_field (λ x _, Build_NodeLoginResponse t x e) lo_NodeID dec_string v r
  else if key_is "Expires" k then
    in_field (λ x _, Build_NodeLoginResponse t n x) lo_Expires (dec_int 64) v r
  else (r, true)).

(** Login sets the token of the client's transport. *)
Definition MeshClient_Login (c : MeshClient) (nodeID meshSecret : string)
    : prog W (MeshClient * option error) :=
  let* (resp, err) := Client_Post rt c.(transport) "/api/v1/login"
    (enc_login {| nl_NodeID := nodeID; nl_MeshId := c.(meshId); nl_MeshSecret := meshSecret |})
    dec_login_resp lo_zero in
  Ret (match err with
       | Some e => (c, Some e)
       | None => ({| meshId := c.(meshId); transport := SetToken resp.(lo_Token) c.(transport) |}, None)
       end).

Definition MeshClient_Unregister (c : MeshClient) (id : string) : prog W (option error) :=
  Client_Delete rt c.(transport) ("/api/v1/nodes/" +:+ id).

Definition MeshClient_Register (c : MeshClient) (name id : string)
    : prog W (result error Registration) :=
  let* (resp, err) := Client_Post rt c.(transport) "/api/v1/nodes"
    (register_request {| ID := id; Name := name; LogicalTime := 0; LastUpdate := time_zero |} "")
    dec_register rn_zero in
  Ret (match err with
       | Some e => Err e
       | None => Ok {| rg_transport := c.(transport); rg_node := resp.(rn_Node);
                       rg_token := resp.(rn_Token) |}
       end).

(** ** client.go *)

Definition Client_Authorize (c : Client) (id : string) : prog W (option error) :=
  let* (_, err) := Client_Post rt c "/api/v1/authorize"
    (register_request {| ID := id; Name := ""; LogicalTime := 0; LastUpdate := time_zero |} "")
    dec_node node_zero in
  Ret err.

Definition Client_Mesh (c : Client) (id : string) : MeshClient := {| meshId := id; transport := c |}.

(** ** client_admin.go *)

Record CreateInviteResponse := { ir_InviteId : string; ir_InviteLink : string }.
Definition dec_create_resp : decoder CreateInviteResponse := dec_struct (λ k v r,
  let '(Build_CreateInviteResponse i l) := r in
  if key_is "InviteId" k then in_field (λ x _, Build_CreateInviteResponse x l) ir_InviteId dec_string v r
  else if key_is "InviteLink" k then
    in_field (λ x _, Build_CreateInviteResponse i x) ir_InviteLink dec_string v r
  else (r, true)).

Definition AdminClient_CreateInvite (c : Client) (req : CreateInviteRequest)
    : prog W (result error CreateInviteResponse) :=
  let mesh := if bool_decide (req.(ci_MeshId) = "") then "default" else req.(ci_MeshId) in
  let* (resp, err) := Client_Post rt c "/api/v1/admin/invite"
    (enc_create {| ci_Name := req.(ci_Name); ci_LifetimeSec := req.(ci_LifetimeSec);
                   ci_OneTime := req.(ci_OneTime); ci_MeshId := mesh |})
    dec_create_resp {| ir_InviteId := ""; ir_InviteLink := "" |} in
  Ret (match err with Some e => Err e | None => Ok resp end).

(** InviteLink: an invitation without a name, for any number of redemptions. *)
Definition AdminClient_InviteLink `{!UintOfFloat} (c : Client) (meshId : string) (lifetime : Z)
    : prog W (result error (string * string)) :=
  let* resp := AdminClient_CreateInvite c
    {| ci_Name := ""; ci_LifetimeSec := uint64_of_float (Seconds lifetime); ci_OneTime := false; ci_MeshId := meshId |} in
  Ret (match resp with Err e => Err e | Ok resp => Ok (resp.(ir_InviteId), resp.(ir_InviteLink)) end).

Definition AdminClient_DeleteInvite (c : Client) (inviteId : string) : prog W (option error) :=
  Client_Delete rt c ("/api/v1/admin/invite/" +:+ inviteId).

(** ListInvites and ListNodes: the caller gets the decoded list, [] for a
    missing one; [dec] is the decoder of an element. *)
Definition dec_field_list {A} (field : string) (dec : decoder A) (zero : A) : decoder (list A) :=
  dec_struct (λ k v l, if key_is field k then dec_list dec zero v l else (l, true)).

Record InviteInfo := {
  ii_InviteId : string; ii_InviteLink : string; ii_Name : string; ii_OneTime : bool;
  ii_Expires : Z; ii_MeshId : string }.
Definition ii_zero : InviteInfo := {| ii_InviteId := ""; ii_InviteLink := ""; ii_Name := "";
  ii_OneTime := false; ii_Expires := 0; ii_MeshId := "" |}.
Definition dec_invite_info : decoder InviteInfo := dec_struct (λ k v r,
  let '(Build_InviteInfo i l n o e m) := r in
  if key_is "InviteId" k then in_field (λ x _, Build_InviteInfo x l n o e m) ii_InviteId dec_string v r
  else if key_is "InviteLink" k then
    in_field (λ x _, Build_InviteInfo i x n o e m) ii_InviteLink dec_string v r
  else if key_is "Name" k then in_field (λ x _, Build_InviteInfo i l x o e m) ii_Name dec_string v r
  else if key_is "OneTime" k then in_field (λ x _, Build_InviteInfo i l n x e m) ii_OneTime dec_bool v r
  else if key_is "Expires" k then
    in_field (λ x _, Build_InviteInfo i l n o x m) ii_Expires (dec_int 64) v r
  else if key_is "MeshId" k then in_field (λ x _, Build_InviteInfo i l n o e x) ii_MeshId dec_string v r
  else (r, true)).

Definition AdminClient_ListInvites (c : Client) : prog W (result error (list InviteInfo)) :=
  let* (resp, err) := Client_Get rt c "/api/v1/admin/invite"
    (dec_field_list "Invites" dec_invite_info ii_zero) [] in
  Ret (match err with Some e => Err e | None => Ok resp end).

Record NodeInfo := {
  ni_ID : string; ni_Name : string; ni_MeshId : string; ni_AddedAt : Z; ni_InvitedAs : string }.
Definition ni_zero : NodeInfo :=
  {| ni_ID := ""; ni_Name := ""; ni_MeshId := ""; ni_AddedAt := time_zero; ni_InvitedAs := "" |}.
Definition dec_node_info : decoder NodeInfo := dec_struct (λ k v r,
  let '(Build_NodeInfo i n m a v') := r in
  if key_is "ID" k then in_field (λ x _, Build_NodeInfo x n m a v') ni_ID dec_string v r
  else if key_is "Name" k then in_field (λ x _, Build_NodeInfo i x m a v') ni_Name dec_string v r
  else if key_is "MeshId" k then in_field (λ x _, Build_NodeInfo i n x a v') ni_MeshId dec_string v r
  else if key_is "AddedAt" k then in_field (λ x _, Build_NodeInfo i n m x v') ni_AddedAt dec_time v r
  else if key_is "InvitedAs" k then
    in_field (λ x _, Build_NodeInfo i n m a x) ni_InvitedAs dec_string v r
  else (r, true)).

Definition AdminClient_ListNodes (c : Client) : prog W (result error (list NodeInfo)) :=
  let* (resp, err) := Client_Get rt c "/api/v1/admin/nodes"
    (dec_field_list "Nodes" dec_node_info ni_zero) [] in
  Ret (match err with Some e => Err e | None => Ok resp end).

Definition AdminClient_DeleteNode (c : Client) (nodeId : string) : prog W (option error) :=
  Client_Delete rt c ("/api/v1/admin/nodes/" +:+ nodeId).
Definition AdminClient_KickPeer (c : Client) (peerId : string) : prog W (option error) :=
  AdminClient_DeleteNode c peerId.
End Clients.

(** ** redeem.go *)

(** The parts of a url.URL that are used, and url.Parse. *)
Record url := { u_Scheme : string; u_Host : string; u_Path : string;
                u_EscapedPath : string; u_RawQuery : string }.
Class URLText := { url_parse : string → result string url }.

Definition invite_url_text (raw : string) : string :=
  let raw := trim_space raw in
  if has_prefix "https://" raw then raw
  else if has_prefix "http://" raw then raw
  else if has_prefix "https:/" raw then "https://" +:+ trim_prefix "https:/" raw
  else if has_prefix "http:/" raw then "http://" +:+ trim_prefix "http:/" raw
  else raw.

Definition parseInviteURL `{!URLText} (raw : string) : result error url :=
  match url_parse (invite_url_text raw) with
  | Err msg => Err (OtherError ("invite url: " +:+ msg))
  | Ok u =>
      if bool_decide (u.(u_Scheme) = "" ∨ u.(u_Host) = "" ∨ u.(u_Path) = "")
      then Err (OtherError "invalid invite url") else Ok u
  end.

Record RedeemInviteResponse := { rr_MeshId : string; rr_MeshSecret : string; rr_MeshServer : string }.
Definition dec_redeem_resp : decoder RedeemInviteResponse := dec_struct (λ k v r,
  let '(Build_RedeemInviteResponse m s u) := r in
  if key_is "MeshId" k then in_field (λ x _, Build_RedeemInviteResponse x s u) rr_MeshId dec_string v r
  else if key_is "MeshSecret" k then
    in_field (λ x _, Build_RedeemInviteResponse m x u) rr_MeshSecret dec_string v r
  else if key_is "MeshServer" k then
    in_field (λ x _, Build_RedeemInviteResponse m s x) rr_MeshServer dec_string v r
  else (r, true)).

Definition RedeemInvite {W} (rt : Doer W) `{!JsonText} `{!TimeText} `{!NewRequestText} `{!URLText}
    (inviteURL : string) (node : PeerNode) : prog W (result error RedeemInviteResponse) :=
  if bool_decide (node.(ID) = "") then Ret (Err (OtherError "node peer id is required"))
  else match parseInviteURL inviteURL with
  | Err e => Ret (Err e)
  | Ok u =>
      let base := u.(u_Scheme) +:+ "://" +:+ u.(u_Host) in
      let path := u.(u_EscapedPath) +:+
        (if bool_decide (u.(u_RawQuery) ≠ "") then "?" +:+ u.(u_RawQuery) else "") in
      let* (resp, err) := Client_Post rt (NewClient base "") path (enc_redeem node) dec_redeem_resp
        {| rr_MeshId := ""; rr_MeshSecret := ""; rr_MeshServer := "" |} in
      Ret (match err with Some e => Err e | None => Ok resp end)
  end.
