(* ===== verification/EndToEnd.v ===== *)
(** * EndToEnd: the clients of ApiClient against the server of AdminServer.

    [server_doer] carries a client's request to [ServeHTTP] and its response
    back as the bytes the client reads, so that a client call and the handler
    it reaches are one program.  The theorems compose the two sides. *)
From Stdlib Require Import Ascii String.
From S2P Require Import Prelude GoStrings Json Api JsonKV AllowList MagicLink Auth Mux UrlPath.
From S2P Require Import AdminServer AdminAccess AdminRegistry JsonClient ApiClient.

Section Wire.
Context {DB : Type} `{!Badger DB} `{!JsonText} `{!TimeText} `{!Aead} `{!Hashes} `{!MapOrder}
  `{!NewRequestText}.
Implicit Types (s : Server DB) (env : Env).

(** The request the server serves: the segments of the path below the base
    address, the header, and the first JSON value of the body.  For a path
    that is not clean ServeMux sends a redirect and nothing else, and the
    client follows it, without the body if the method changes. *)
Definition server_request (base : string) (req : http_request) : request :=
  let location := trim_prefix base req.(hq_url) in
  match clean_segments location with
  | Some segs =>
      {| rq_method := req.(hq_method); rq_path := segs; rq_authorization := req.(hq_auth);
         rq_body := b ← req.(hq_body); json_first b |}
  | None =>
      let method := redirect_method req.(hq_method) in
      {| rq_method := method; rq_path := redirected_segments location; rq_authorization := req.(hq_auth);
         rq_body := if bool_decide (method = req.(hq_method)) then b ← req.(hq_body); json_first b else None |}
  end.

(** The encoder of ReplyObject ends the document with a newline. *)
Definition wire_body (b : body) : string :=
  match b with BText t => t | BJson j => json_print j +:+ str1 newline end.
Definition wire_response (r : response) : http_response :=
  {| hs_code := r.(r_status); hs_status := itoa r.(r_status) +:+ " " +:+ StatusText r.(r_status);
     hs_body := Ok (wire_body r.(r_body)) |}.

Definition server_doer (base : string) (env : Env) : Doer (Server DB) := λ req,
  let* resp := ServeHTTP env (server_request base req) in Ret (Ok (wire_response resp)).

(** One call of the client, when http.NewRequest accepts it. *)
Lemma run_Client_Do {A} base env (c : Client) method location segs inp (dec : decoder A) v s s' resp :
  new_request_err method (c.(Address) +:+ location) = None → c.(Address) = base →
  clean_segments location = Some segs →
  run (ServeHTTP env {| rq_method := method; rq_path := segs;
    rq_authorization := setAuth c; rq_body := b ← json_print <$> inp; json_first b |}) s = (s', resp) →
  run (Client_Do (server_doer base env) c method location inp (Some dec) v) s =
    (s', if bool_decide (resp.(r_status) ≠ StatusOK)
         then (v, Some (OtherError ((itoa resp.(r_status) +:+ " " +:+ StatusText resp.(r_status))
                                     +:+ ": " +:+ wire_body resp.(r_body))))
         else let '(v, ok) := unmarshal dec (wire_body resp.(r_body)) v in
              (v, if ok : bool then None else Some (OtherError "json: cannot unmarshal"))).
Proof.
  intros Hnew Hbase Hsegs Hrun. unfold Client_Do, newRequest. rewrite Hnew. rewrite run_bind.
  unfold server_doer. rewrite run_bind. unfold server_request. cbn [hq_method hq_url hq_auth hq_body].
  subst base. rewrite trim_prefix_app, Hsegs, Hrun. cbn [run wire_response hs_body hs_code hs_status].
  case_bool_decide; [done|]. by destruct (unmarshal dec _ v).
Qed.

Lemma unmarshal_wire {A} (dec : decoder A) j v :
  json_utf8 j = true → unmarshal dec (wire_body (BJson j)) v = dec j v.
Proof.
  intros Hj. unfold unmarshal, wire_body. by rewrite json_parse_newline, json_parse_print.
Qed.

(** The token of a client is what the server reads from its header. *)
Definition clean_token (c : Client) : Prop := bearer_token (setAuth c) = Some c.(cl_token).

(** ** Routes, for an id that is one segment *)

Lemma route_refresh id :
  id ≠ "" → route (routes (DB := DB)) "POST" ["api"; "v1"; "nodes"; id]
    = Some (authenticated apiNodeRefresh, [("id", id)]).
Proof. intros Hid. destruct id as [|c id]; [done|]. find_route. Qed.

Lemma route_register :
  route (routes (DB := DB)) "POST" ["api"; "v1"; "nodes"] = Some (authenticated apiNodeRegister, []).
Proof. find_route. Qed.

(** ** Documents that survive the wire *)

Lemma hex_encode_utf8 b : utf8_ok (hex_encode b) = true.
Proof.
  induction b as [|c b IH]; [done|].
  assert (∀ n, n < 16 → in_range 0 127 (hex_digit n) = true) as Hd.
  { intros n Hn. do 16 (destruct n as [|n]; [done|]). lia. }
  cbn [hex_encode]. unfold utf8_ok. fold utf8_ok.
  pose proof (byte_lt c). rewrite !Hd, IH; [done|..]; div_lia.
Qed.

Lemma newNodeToken_utf8 env : utf8_ok (newNodeToken env) = true.
Proof. unfold newNodeToken. destruct (rand env 0); apply hex_encode_utf8. Qed.

Definition node_utf8 (n : PeerNode) : bool := utf8_ok n.(ID) && utf8_ok n.(Name).

Lemma enc_register_utf8 r :
  node_utf8 r.(rn_Node) = true → utf8_ok r.(rn_Token) = true → json_utf8 (enc_register r) = true.
Proof.
  unfold node_utf8. intros [Hi Hn]%andb_true_iff Ht. unfold enc_register, enc_node.
  cbn [json_utf8 forallb fst snd]. rewrite Hi, Hn, Ht, !time_print_utf8. done.
Qed.

(** What the server reads of a register request. *)
Lemma server_reads r PV user :
  json_utf8 (enc_register r) = true → node_ok r.(rn_Node) = true →
  u64_ok r.(rn_LogicalTime) = true → time_ok r.(rn_LastUpdate) = true →
  GetObject_400 dec_register rn_zero
    {| PathVar := PV; rpc_body := b ← json_print <$> Some (enc_register r); json_first b;
       rpc_user := user |} = Ok r.
Proof.
  intros Hutf8 Hn Hl Ht. unfold GetObject_400, GetObject. simpl. rewrite json_first_print by done.
  by rewrite dec_register_enc.
Qed.

(** The caller's credentials are accepted at this state and time. *)
Definition accepted env s (c : Client) : Prop :=
  ∃ user, DoAuth (server_auth s.(adminKey) s.(magicKey) (env.(now) 9)) (setAuth c)
            = (Some user, StatusOK).

(** A value that crosses the wire unchanged. *)
Definition reg_ok (n : PeerNode) (token : string) : Prop :=
  node_utf8 n = true ∧ utf8_ok token = true ∧ node_ok n = true ∧ time_ok time_zero = true.

Lemma refresh_path id : plain_segment id = true →
  clean_segments ("/api/v1/nodes/" +:+ id) = Some ["api"; "v1"; "nodes"; id].
Proof.
  intros Hid. change ("/api/v1/nodes/" +:+ id) with (path_of ["api"; "v1"; "nodes"; id]).
  apply clean_segments_plain; [done|]. by repeat constructor.
Qed.

(** Registration.Refresh, the call and the handler as one. *)
Lemma run_refresh_call base env (r : Registration) s :
  let n := r.(rg_node) in
  r.(rg_transport).(Address) = base →
  new_request_err "POST" (base +:+ "/api/v1/nodes/" +:+ n.(ID)) = None →
  plain_segment n.(ID) = true → reg_ok n r.(rg_token) →
  accepted env s r.(rg_transport) →
  u64_ok s.(logicalTime) = true → time_ok s.(lastUpdate) = true →
  match updateNode n.(ID) r.(rg_token) (env.(now) 0) s.(nodes) with
  | Some m =>
      run (Registration_Refresh (server_doer base env) r) s
        = (with_clock s.(lastUpdate) s.(logicalTime) m s, (r, (true, s.(logicalTime), None)))
  | None => run (Registration_Refresh (server_doer base env) r) s = (s, (r, (false, 0%Z, None)))
  end.
Proof.
  intros n Hbase Hnew Hplain (Hutf8 & Htok & Hnode & Hzero) (user & Hauth) Hlt Hlu.
  pose proof (plain_segment_ne _ Hplain) as Hid.
  set (req := {| rn_Node := n; rn_Token := r.(rg_token); rn_LogicalTime := 0; rn_LastUpdate := time_zero |}).
  set (resp := {| rn_Node := n; rn_Token := r.(rg_token); rn_LogicalTime := s.(logicalTime);
                  rn_LastUpdate := s.(lastUpdate) |}).
  assert (∀ s' out, run (apiNodeRefresh env (rpc_of {| rq_method := "POST";
      rq_path := ["api"; "v1"; "nodes"; n.(ID)]; rq_authorization := setAuth r.(rg_transport);
      rq_body := b ← json_print <$> Some (register_request n r.(rg_token)); json_first b |}
      [("id", n.(ID))] (Some user))) s = (s', out) →
    run (Registration_Refresh (server_doer base env) r) s =
      run (let* (resp, err) := Ret (if bool_decide ((respond out).(r_status) ≠ StatusOK)
             then (rn_zero, Some (OtherError ((itoa (respond out).(r_status) +:+ " " +:+
                    StatusText (respond out).(r_status)) +:+ ": " +:+ wire_body (respond out).(r_body))))
             else let '(v, ok) := unmarshal dec_register (wire_body (respond out).(r_body)) rn_zero in
                  (v, if ok : bool then None else Some (OtherError "json: cannot unmarshal"))) in
           match err with
           | Some e => if contains "409" (error_string e) then Ret (r, (false, 0%Z, None))
                       else Ret (r, (false, 0%Z, Some e))
           | None => Ret ({| rg_transport := r.(rg_transport); rg_node := r.(rg_node);
                             rg_token := resp.(rn_Token) |}, (true, resp.(rn_LogicalTime), None))
           end) s') as Hcall.
  { intros s' out Hrun. unfold Registration_Refresh. rewrite run_bind. unfold Client_Post.
    fold n. rewrite (run_Client_Do base env _ _ _ ["api"; "v1"; "nodes"; n.(ID)] _ _ _ s s' (respond out));
      [|by rewrite Hbase|done|by apply refresh_path|].
    - by destruct (if bool_decide _ then _ else _).
    - unfold ServeHTTP. cbn [rq_method rq_path].
      rewrite route_refresh by done.
      rewrite (authenticated_accepted _ _ _ _ _ user) by exact Hauth. by rewrite Hrun. }
  assert (GetObject_400 dec_register rn_zero (rpc_of {| rq_method := "POST";
      rq_path := ["api"; "v1"; "nodes"; n.(ID)]; rq_authorization := setAuth r.(rg_transport);
      rq_body := b ← json_print <$> Some (register_request n r.(rg_token)); json_first b |}
      [("id", n.(ID))] (Some user)) = Ok req) as Hreq.
  { apply server_reads; [by apply enc_register_utf8|done|done|done]. }
  destruct (updateNode _ _ _ _) as [m|] eqn:Hup.
  - erewrite Hcall.
    2: { unfold apiNodeRefresh. change (PathVar _ "id") with (ID n).
         rewrite (bool_decide_false _ Hid), Hreq. cbn [pbind].
         rewrite bool_decide_false by (by intros []). rewrite run_bind, run_atomically.
         cbn [rn_Token req]. rewrite Hup. reflexivity. }
    cbn [respond r_status r_body]. rewrite bool_decide_false by (intros Hne; by apply Hne).
    change (wire_body _) with (wire_body (BJson (enc_register resp))).
    rewrite unmarshal_wire by (by apply enc_register_utf8). rewrite dec_register_enc by done.
    simpl. by destruct r.
  - erewrite Hcall.
    2: { unfold apiNodeRefresh. change (PathVar _ "id") with (ID n).
         rewrite (bool_decide_false _ Hid), Hreq. cbn [pbind].
         rewrite bool_decide_false by (by intros []). rewrite run_bind, run_atomically.
         cbn [rn_Token req]. rewrite Hup. reflexivity. }
    reflexivity.
Qed.

(** MeshClient.Register, the call and the handler as one. *)
Lemma run_register_call base env (c : MeshClient) name id s :
  let lt := tick s.(logicalTime) in let lu := env.(now) 0 in
  let node := {| ID := id; Name := name; LogicalTime := lt; LastUpdate := lu |} in
  c.(transport).(Address) = base → new_request_err "POST" (base +:+ "/api/v1/nodes") = None →
  id ≠ "" → name ≠ "" → utf8_ok id = true → utf8_ok name = true → time_ok time_zero = true →
  time_ok lu = true → accepted env s c.(transport) → is_Some (s.(acl).(allow) !! id) →
  run (MeshClient_Register (server_doer base env) c name id) s =
    (with_clock lu lt (<[id := {| nr_Node := node; nr_Token := newNodeToken env;
                                  nr_LastPing := env.(now) 2 |}]> s.(nodes)) s,
     Ok {| rg_transport := c.(transport); rg_node := node; rg_token := newNodeToken env |}).
Proof.
  intros lt lu node Hbase Hnew Hid Hname Hidu Hnu Hzero Hlu (user & Hauth) Hallow.
  set (n0 := {| ID := id; Name := name; LogicalTime := 0; LastUpdate := time_zero |}).
  set (resp := {| rn_Node := node; rn_Token := newNodeToken env; rn_LogicalTime := lt; rn_LastUpdate := lu |}).
  assert (u64_ok lt = true) as Hlt.
  { apply bool_decide_eq_true. unfold lt, tick. apply Z.mod_pos_bound. lia. }
  assert (json_utf8 (enc_register resp) = true) as Hresp.
  { apply enc_register_utf8; [|apply newNodeToken_utf8]. unfold node_utf8. simpl. by rewrite Hidu, Hnu. }
  unfold MeshClient_Register. rewrite run_bind. unfold Client_Post.
  erewrite (run_Client_Do base env _ _ _ ["api"; "v1"; "nodes"]); [|by rewrite Hbase|done|done|].
  2: { unfold ServeHTTP. cbn [rq_method rq_path]. rewrite route_register.
       rewrite (authenticated_accepted _ _ _ _ _ user) by exact Hauth.
       unfold apiNodeRegister, register_request, rpc_of. cbn [rq_body].
       rewrite server_reads; [|apply enc_register_utf8; [unfold node_utf8; simpl; by rewrite Hidu, Hnu|done]|
         |done|done].
       2: { unfold node_ok. simpl. by rewrite Hzero. }
       cbn [pbind rn_Node]. rewrite (bool_decide_false _ Hname), (bool_decide_false _ Hid).
       rewrite run_bind, run_on_acl, run_Has, bool_decide_true by done. cbn [fst snd negb].
       rewrite run_bind, run_atomically. reflexivity. }
  cbn [respond r_status r_body]. rewrite bool_decide_false by (intros Hne; by apply Hne).
  change (wire_body _) with (wire_body (BJson (enc_register resp))).
  rewrite unmarshal_wire by done. rewrite dec_register_enc; [|by (unfold node_ok; simpl; rewrite Hlt)|done..].
  simpl. by destruct s as [? ? ? ? ? ? ? [] ?].
Qed.

(** C22: Client and server agree on who is registered.  For a node whose id a
    path can carry as one segment, Refresh over the wire
    returns true, with the server's clock, exactly when the registry holds
    the node under the client's token, and "not valid" without an error
    otherwise; in that case the server did not change. *)
Theorem refresh_call_agrees base env (r : Registration) s :
  let n := r.(rg_node) in
  r.(rg_transport).(Address) = base →
  new_request_err "POST" (base +:+ "/api/v1/nodes/" +:+ n.(ID)) = None →
  plain_segment n.(ID) = true → reg_ok n r.(rg_token) →
  accepted env s r.(rg_transport) →
  u64_ok s.(logicalTime) = true → time_ok s.(lastUpdate) = true → r.(rg_token) ≠ "" →
  ∃ s' valid lt, run (Registration_Refresh (server_doer base env) r) s = (s', (r, (valid, lt, None))) ∧
    (valid = true ↔ nr_Token <$> s.(nodes) !! n.(ID) = Some r.(rg_token)) ∧
    (valid = true → lt = s.(logicalTime)) ∧ (valid = false → s' = s) ∧ view s' = view s.
Proof.
  intros n Hbase Hnew Hid Hreg Hauth Hlt Hlu Htok.
  pose proof (run_refresh_call base env r s Hbase Hnew Hid Hreg Hauth Hlt Hlu) as Hrun.
  fold n in Hrun. destruct (updateNode _ _ _ _) as [m|] eqn:Hup.
  - exists (with_clock s.(lastUpdate) s.(logicalTime) m s), true, s.(logicalTime).
    split; [done|]. pose proof (updateNode_view _ _ _ _ _ Hup) as Hv. unfold updateNode in Hup.
    case_bool_decide; [done|]. destruct (nodes s !! ID n) as [ref|]; [|done].
    case_bool_decide as Heq; [done|]. split_and!; try done. simpl. by rewrite Heq.
  - exists s, false, 0%Z. split; [done|]. split_and!; try done. split; [done|]. intros Hn.
    unfold updateNode in Hup. case_bool_decide; [done|].
    destruct (nodes s !! ID n) as [ref|]; [|done]. simpl in Hn. simplify_eq.
    by rewrite bool_decide_false in Hup by auto.
Qed.

(** Registering works end to end: the call on an allowed node returns a
    registration for the node with the server's new clock value, pollers
    see exactly that node, and a refresh with the registration (before
    anything else happens) is valid and reports that clock. *)
Theorem register_then_refresh base env env' (c : MeshClient) name id s :
  let lt := tick s.(logicalTime) in
  let node := {| ID := id; Name := name; LogicalTime := lt; LastUpdate := env.(now) 0 |} in
  c.(transport).(Address) = base → new_request_err "POST" (base +:+ "/api/v1/nodes") = None →
  new_request_err "POST" (base +:+ "/api/v1/nodes/" +:+ id) = None →
  plain_segment id = true → name ≠ "" → utf8_ok id = true → utf8_ok name = true →
  time_ok time_zero = true → time_ok (env.(now) 0) = true → newNodeToken env ≠ "" →
  accepted env s c.(transport) → accepted env' s c.(transport) →
  is_Some (s.(acl).(allow) !! id) →
  ∃ s' s'' reg,
    run (MeshClient_Register (server_doer base env) c name id) s = (s', Ok reg) ∧
    reg.(rg_node) = node ∧ view s' = <[id := node]> (view s) ∧ s'.(logicalTime) = lt ∧
    run (Registration_Refresh (server_doer base env') reg) s' = (s'', (reg, (true, lt, None))).
Proof.
  intros lt node Hbase Hnew Hnew' Hplain Hname Hidu Hnu Hzero Hlu Htok Hauth Hauth' Hallow.
  pose proof (plain_segment_ne _ Hplain) as Hid.
  pose proof (run_register_call base env c name id s Hbase Hnew Hid Hname Hidu Hnu Hzero Hlu Hauth
    Hallow) as Hreg. fold lt node in Hreg.
  eexists _, _, _. split; [exact Hreg|]. split; [done|]. split; [|split; [done|]].
  { unfold view. simpl. by rewrite fmap_insert. }
  assert (u64_ok lt = true) as Hltok.
  { apply bool_decide_eq_true. unfold lt, tick. apply Z.mod_pos_bound. lia. }
  set (s' := with_clock _ _ _ s).
  pose proof (run_refresh_call base env' {| rg_transport := c.(transport); rg_node := node;
    rg_token := newNodeToken env |} s' Hbase Hnew' Hplain) as Hrun.
  cbn [rg_node rg_token rg_transport] in Hrun. unfold updateNode in Hrun.
  rewrite (bool_decide_false _ Htok) in Hrun. simpl nodes in Hrun.
  rewrite lookup_insert_eq in Hrun. cbn [nr_Token nr_Node] in Hrun.
  rewrite bool_decide_false in Hrun by auto. apply Hrun; [|done..].
  unfold reg_ok, node_utf8, node_ok. simpl. by rewrite Hidu, Hnu, Hltok, newNodeToken_utf8.
Qed.

(** Any error that mentions 409 passes for a lost registration: if the
    call fails with an error whose text contains "409" (a refused
    connection to port 4090, for instance), Refresh reports "not valid"
    and no error, as if the server had answered 409 Conflict. *)
Theorem refresh_409_by_text {W} (rt : Doer W) (r : Registration) (w w' : W) e :
  new_request_err "POST" (r.(rg_transport).(Address) +:+ "/api/v1/nodes/" +:+ r.(rg_node).(ID)) = None →
  (∀ req, run (rt req) w = (w', Err e)) → contains "409" (error_string e) = true →
  run (Registration_Refresh rt r) w = (w', (r, (false, 0%Z, None))).
Proof.
  intros Hnew Hrt Hc. unfold Registration_Refresh, Client_Post, Client_Do, newRequest.
  rewrite Hnew, run_bind, run_bind, Hrt. cbn [run]. by rewrite Hc.
Qed.
End Wire.

(** ** Witnesses *)

Import ServerEx.

Module WireEx.
#[export] Instance any_request : NewRequestText := {| new_request_err _ _ := None; redirect_method m := m |}.
Definition client0 : Client := NewClient "http://mesh" "secret".
Definition reg_a : Registration :=
  {| rg_transport := client0; rg_node := node_a; rg_token := "tok" |}.
(** A transport that cannot reach port 4090. *)
Definition refused : error := OtherError "dial tcp 10.0.0.7:4090: connect: connection refused".
Definition broken : Doer () := λ _, Ret (Err refused).
End WireEx.
Import WireEx.

Lemma refresh_call_agrees_witness :
  ∃ s' valid lt,
    run (Registration_Refresh (server_doer "http://mesh" env0) reg_a) server_a
      = (s', (reg_a, (valid, lt, None))) ∧
    (valid = true ↔ nr_Token <$> server_a.(nodes) !! "12D3KooWa" = Some "tok") ∧
    (valid = true → lt = 7%Z) ∧ (valid = false → s' = server_a) ∧ view s' = view server_a.
Proof.
  apply (refresh_call_agrees "http://mesh" env0 reg_a server_a); try by vm_compute.
  by eexists; vm_compute.
Defined.

Lemma register_then_refresh_witness :
  let node := {| ID := "12D3KooWa"; Name := "a"; LogicalTime := 8; LastUpdate := env0.(now) 0 |} in
  ∃ s' s'' reg,
    run (MeshClient_Register (server_doer "http://mesh" env0) (Client_Mesh client0 "default") "a"
           "12D3KooWa") server_a = (s', Ok reg) ∧
    reg.(rg_node) = node ∧ view s' = <["12D3KooWa" := node]> (view server_a) ∧
    s'.(logicalTime) = 8%Z ∧
    run (Registration_Refresh (server_doer "http://mesh" env0) reg) s' = (s'', (reg, (true, 8%Z, None))).
Proof.
  apply (register_then_refresh "http://mesh" env0 env0 (Client_Mesh client0 "default") "a" "12D3KooWa"
    server_a); try by vm_compute.
  - by eexists; vm_compute.
  - by eexists; vm_compute.
  - by eexists; vm_compute.
Defined.

Lemma refresh_409_by_text_witness :
  run (Registration_Refresh broken reg_a) () = ((), (reg_a, (false, 0%Z, None))).
Proof. apply (refresh_409_by_text broken reg_a () () refused); [done|done|by vm_compute]. Defined.
