(* ===== verification/Discovery.v ===== *)
(** * Discovery: how a node learns about its peers (pkg/mesh/discovery.go).

    The polling loop of listenForPeerUpdates is one function per turn,
    [poll_turn], on the variables of the loop; what it calls (the refresh and
    register calls of ApiClient, the list of peers and the update handler of
    the proxy) are programs on a world [W], given as arguments.  The sleeps
    between the turns are left out. *)
From Stdlib Require Import Ascii String.
From S2P Require Import Prelude GoStrings Json Api JsonClient ApiClient.

(** The variables of the loop. *)
Record loop := {
  lp_registration : Registration;
  lastLogicalTime : Z;
  lastPeers : gmap string PeerNode }.

(** How a turn ends: with the variables for the next turn, or with a panic. *)
Inductive turn : Type := Continue (l : loop) | Panic (msg : string).

Section Discovery.
Context `{!MapOrder}.

(** DiscoveryManager.diffNodes: the nodes to update and the nodes that are
    gone; the node itself is skipped. *)
Definition diffNodes (selfID : string) (old new : gmap string PeerNode)
    : gmap string PeerNode * gmap string PeerNode :=
  let addedOrChanged := foldl (λ acc '(id, newNode),
    if bool_decide (id = selfID) then acc
    else match old !! id with
         | Some oldNode => if bool_decide (oldNode.(LogicalTime) ≠ newNode.(LogicalTime))
                           then <[id := newNode]> acc else acc
         | None => <[id := newNode]> acc
         end) ∅ (range 0 new) in
  let removed := foldl (λ acc '(id, oldNode),
    if bool_decide (id = selfID) then acc
    else if bool_decide (is_Some (new !! id)) then acc else <[id := oldNode]> acc) ∅ (range 1 old) in
  (addedOrChanged, removed).

(** GetPeerMap on the list the server returned: the last node of an id
    stays. *)
Definition peer_map (peers : list PeerNode) : gmap string PeerNode :=
  foldl (λ m p, <[p.(ID) := p]> m) ∅ peers.

Context {W : Type}.
Context (refresh : Registration → prog W (Registration * (bool * Z * option error))).
Context (register : prog W (result error Registration)).
Context (get_peers : prog W (result error (list PeerNode))).
(** [d.onUpdate], None while it is nil. *)
Context (onUpdate : option (PeerNode → bool → prog W (option error))).
Context (selfID : string).

(** The loop over the removed peers: the current peers and goodUpdate. *)
Fixpoint remove_peers (upd : PeerNode → bool → prog W (option error)) (last : gmap string PeerNode)
    (removed : list PeerNode) (current : gmap string PeerNode) (good : bool)
    : prog W (result string (gmap string PeerNode * bool)) :=
  match removed with
  | [] => Ret (Ok (current, good))
  | node :: removed' =>
      let* err := upd (NewPeerNode node.(ID) node.(Name)) true in
      match err with
      | None => remove_peers upd last removed' current good
      | Some _ =>
          match last !! node.(ID) with
          | None => Ret (Err "node not found in lastPeers")
          | Some n => remove_peers upd last removed' (<[n.(ID) := n]> current) false
          end
      end
  end.

(** The loop over the new and changed peers. *)
Fixpoint update_peers (upd : PeerNode → bool → prog W (option error)) (updated : list PeerNode)
    (current : gmap string PeerNode) (good : bool)
    : prog W (result string (gmap string PeerNode * bool)) :=
  match updated with
  | [] => Ret (Ok (current, good))
  | node :: updated' =>
      let* err := upd (NewPeerNode node.(ID) node.(Name)) false in
      match err with
      | None => update_peers upd updated' current good
      | Some _ =>
          match current !! node.(ID) with
          | None => Ret (Err "node not found in currentPeers")
          | Some n =>
              let n := with_LastUpdate time_zero n in
              update_peers upd updated' (<[n.(ID) := n]> current) false
          end
      end
  end.

(** The body of [if lastLogicalTime != logicalTime], once the peers are
    known. *)
Definition apply_update (upd : PeerNode → bool → prog W (option error)) (l : loop)
    (reg : Registration) (lt : Z) (peers : list PeerNode) : prog W turn :=
  let currentPeers := peer_map peers in
  let '(updatedPeers, removedPeers) := diffNodes selfID l.(lastPeers) currentPeers in
  let* r := remove_peers upd l.(lastPeers) (range 2 removedPeers).*2 currentPeers true in
  match r with
  | Err msg => Ret (Panic msg)
  | Ok (currentPeers, good) =>
      let* r := update_peers upd (range 3 updatedPeers).*2 currentPeers good in
      match r with
      | Err msg => Ret (Panic msg)
      | Ok (currentPeers, good) =>
          Ret (Continue {| lp_registration := reg;
                           lastLogicalTime := if good : bool then lt else l.(lastLogicalTime);
                           lastPeers := currentPeers |})
      end
  end.

(** One turn of the loop. *)
Definition poll_turn (l : loop) : prog W turn :=
  let* (reg, (valid, lt, err)) := refresh l.(lp_registration) in
  let l := {| lp_registration := reg; lastLogicalTime := l.(lastLogicalTime);
              lastPeers := l.(lastPeers) |} in
  match err with
  | Some _ => Ret (Continue l)
  | None =>
      if negb valid then
        let* newReg := register in
        match newReg with
        | Err _ => Ret (Continue l)
        | Ok newReg => Ret (Continue {| lp_registration := newReg; lastLogicalTime := lt;
                                        lastPeers := l.(lastPeers) |})
        end
      else match onUpdate with
      | None => Ret (Continue l)
      | Some upd =>
          if bool_decide (l.(lastLogicalTime) ≠ lt) then
            let* peers := get_peers in
            match peers with
            | Err _ => Ret (Continue l)
            | Ok peers => apply_update upd l reg lt peers
            end
          else Ret (Continue l)
      end
  end.

(** The registration loop before it, for a number of attempts, and the
    variables it leaves. *)
Fixpoint register_loop (fuel : nat) : prog W (option loop) :=
  match fuel with
  | O => Ret None
  | S fuel =>
      let* r := register in
      match r with
      | Err _ => register_loop fuel
      | Ok reg => Ret (Some {| lp_registration := reg; lastLogicalTime := 0; lastPeers := ∅ |})
      end
  end.
End Discovery.

(** ** Lemmas *)

Section DiscoveryLemmas.
Context `{!MapOrder}.

(** A node is filed under its id. *)
Definition keyed (m : gmap string PeerNode) : Prop := ∀ id n, m !! id = Some n → n.(ID) = id.

Lemma keyed_insert n m : keyed m → keyed (<[n.(ID) := n]> m).
Proof. intros Hm id n' [[<- <-]|[_ Hn]]%lookup_insert_Some; [done|by apply Hm]. Qed.

Lemma peer_map_keyed peers : keyed (peer_map peers).
Proof.
  unfold peer_map. assert (keyed ∅) as Hk by (intros ? ? Hn; by rewrite lookup_empty in Hn).
  revert Hk. generalize (∅ : gmap string PeerNode).
  induction peers as [|p ps IH]; intros m Hm; [done|]. cbn [foldl]. by apply IH, keyed_insert.
Qed.

Lemma foldl_pointwise {A B} (f g : A → B → A) (l : list B) a :
  (∀ a b, f a b = g a b) → foldl f a l = foldl g a l.
Proof. intros Hfg. revert a. induction l as [|b l IH]; intros a; [done|]. simpl. by rewrite Hfg. Qed.

(** A fold that inserts under the keys it visits. *)
Lemma foldl_select {A} (keep : string → A → bool) (l : list (string * A)) (acc : gmap string A) k :
  NoDup l.*1 →
  foldl (λ acc '(id, x), if keep id x then <[id := x]> acc else acc) acc l !! k =
    match list_to_map (M := gmap string A) l !! k with
    | Some x => if keep k x then Some x else acc !! k
    | None => acc !! k
    end.
Proof.
  revert acc. induction l as [|[id x] l IH]; intros acc Hnd; [done|].
  rewrite fmap_cons in Hnd. apply NoDup_cons in Hnd as [Hni Hnd]. cbn [foldl].
  rewrite IH by done. simpl. destruct (decide (id = k)) as [->|Hne].
  - rewrite lookup_insert_eq. rewrite not_elem_of_list_to_map_1 by done.
    destruct (keep k x); [by rewrite lookup_insert_eq|done].
  - rewrite lookup_insert_ne by done. destruct (keep id x); [|done].
    by rewrite lookup_insert_ne.
Qed.

Lemma list_to_map_range {A} seed (m : gmap string A) : list_to_map (range seed m) = m.
Proof.
  rewrite <-(list_to_map_to_list m) at 2. apply list_to_map_proper; [apply range_nodup_keys|].
  apply range_perm.
Qed.

Lemma diffNodes_lookup selfID old new id :
  (diffNodes selfID old new).1 !! id =
    (if bool_decide (id = selfID) then None
     else match new !! id with
          | Some n => match old !! id with
                      | Some o => if bool_decide (o.(LogicalTime) ≠ n.(LogicalTime))
                                  then Some n else None
                      | None => Some n
                      end
          | None => None
          end) ∧
  (diffNodes selfID old new).2 !! id =
    (if bool_decide (id = selfID) then None
     else match new !! id with Some _ => None | None => old !! id end).
Proof.
  unfold diffNodes. cbn [fst snd]. split.
  - pose proof (foldl_select (λ id n, negb (bool_decide (id = selfID)) &&
      match old !! id with
      | Some o => bool_decide (o.(LogicalTime) ≠ n.(LogicalTime)) | None => true end)
      (range 0 new) ∅ id (range_nodup_keys 0 new)) as Hf.
    rewrite list_to_map_range, lookup_empty in Hf.
    transitivity (match new !! id with
      | Some x => if negb (bool_decide (id = selfID)) && match old !! id with
          | Some o => bool_decide (o.(LogicalTime) ≠ x.(LogicalTime)) | None => true end
          then Some x else None | None => None end).
    + rewrite <-Hf. f_equal. apply foldl_pointwise. intros acc [i n].
      destruct (bool_decide (i = selfID)); [done|]. simpl. by destruct (old !! i).
    + destruct (bool_decide (id = selfID)); simpl; [by destruct (new !! id)|].
      destruct (new !! id); [|done]. by destruct (old !! id).
  - pose proof (foldl_select (λ id n, negb (bool_decide (id = selfID)) &&
      negb (bool_decide (is_Some (new !! id)))) (range 1 old) ∅ id (range_nodup_keys 1 old)) as Hf.
    rewrite list_to_map_range, lookup_empty in Hf.
    transitivity (match old !! id with
      | Some x => if negb (bool_decide (id = selfID)) && negb (bool_decide (is_Some (new !! id)))
          then Some x else None | None => None end).
    + rewrite <-Hf. f_equal. apply foldl_pointwise. intros acc [i n].
      destruct (bool_decide (i = selfID)); [done|]. simpl. by destruct (bool_decide (is_Some (new !! i))).
    + destruct (bool_decide (id = selfID)); simpl; [by destruct (old !! id)|].
      destruct (new !! id) eqn:Hn.
      * rewrite bool_decide_true by (by eexists). simpl. by destruct (old !! id).
      * rewrite bool_decide_false by (by intros [? ?]). simpl. by destruct (old !! id).
Qed.
End DiscoveryLemmas.

(** ** Turns with an observed update handler *)

Section Turns.
Context `{!MapOrder}.

(** The calls of the update handler, in order, and the answers of the
    handler. *)
Definition calls : Type := list (PeerNode * bool).
Context (answer : PeerNode → bool → option error).
Definition observed (n : PeerNode) (removed : bool) : prog calls (option error) :=
  atomically (λ w, (w ++ [(n, removed)], answer n removed)).

Definition shown (n : PeerNode) : PeerNode := NewPeerNode n.(ID) n.(Name).
Definition fails (removed : bool) (n : PeerNode) : bool :=
  match answer (shown n) removed with Some _ => true | None => false end.

(** The effect of the loops on the current peers. *)
Definition put_back (ns : list PeerNode) (m : gmap string PeerNode) : gmap string PeerNode :=
  foldl (λ m n, if fails true n then <[n.(ID) := n]> m else m) m ns.
Definition zero_failed (ns : list PeerNode) (m : gmap string PeerNode) : gmap string PeerNode :=
  foldl (λ m n, if fails false n then <[n.(ID) := with_LastUpdate time_zero n]> m else m) m ns.

Lemma run_remove_peers last ns m good w :
  (∀ n, n ∈ ns → last !! n.(ID) = Some n) →
  run (remove_peers observed last ns m good) w =
    (w ++ ((λ n, (shown n, true)) <$> ns), Ok (put_back ns m, good && forallb (negb ∘ fails true) ns)).
Proof.
  revert m good w. induction ns as [|n ns IH]; intros m good w Hin.
  { simpl. by rewrite app_nil_r, andb_true_r. }
  cbn [remove_peers]. unfold observed at 1. rewrite run_bind, run_atomically. cbn [fst snd].
  rewrite fmap_cons. cbn [put_back foldl forallb compose].
  assert (∀ n, n ∈ ns → last !! n.(ID) = Some n) as Hin' by (intros; apply Hin; by right).
  change (NewPeerNode (ID n) (Name n)) with (shown n).
  assert (fails true n = match answer (shown n) true with Some _ => true | None => false end) as Hf by done.
  destruct (answer (shown n) true) as [e|]; rewrite Hf.
  - rewrite Hin by left. rewrite IH by done. simpl. by rewrite <-app_assoc, andb_false_r.
  - rewrite IH by done. simpl. by rewrite <-app_assoc.
Qed.

Lemma run_update_peers ns m good w :
  NoDup (ID <$> ns) → (∀ n, n ∈ ns → m !! n.(ID) = Some n) →
  run (update_peers observed ns m good) w =
    (w ++ ((λ n, (shown n, false)) <$> ns), Ok (zero_failed ns m, good && forallb (negb ∘ fails false) ns)).
Proof.
  revert m good w. induction ns as [|n ns IH]; intros m good w Hnd Hin.
  { simpl. by rewrite app_nil_r, andb_true_r. }
  rewrite fmap_cons in Hnd. apply NoDup_cons in Hnd as [Hni Hnd].
  cbn [update_peers]. unfold observed at 1. rewrite run_bind, run_atomically. cbn [fst snd].
  rewrite fmap_cons. cbn [zero_failed foldl forallb compose].
  assert (∀ n, n ∈ ns → m !! n.(ID) = Some n) as Hin' by (intros; apply Hin; by right).
  change (NewPeerNode (ID n) (Name n)) with (shown n).
  assert (fails false n = match answer (shown n) false with Some _ => true | None => false end) as Hf by done.
  destruct (answer (shown n) false) as [e|]; rewrite Hf.
  - rewrite Hin by left. rewrite IH; [simpl; by rewrite <-app_assoc, andb_false_r|done|].
    intros n' Hn'. simpl. rewrite lookup_insert_ne; [by apply Hin'|]. intros Heq. apply Hni.
    rewrite Heq. by apply list_elem_of_fmap_2.
  - rewrite IH by done. simpl. by rewrite <-app_assoc.
Qed.

Lemma put_back_lookup ns m id :
  NoDup (ID <$> ns) →
  put_back ns m !! id =
    match list_find (λ n, n.(ID) = id) ns with
    | Some (_, n) => if fails true n then Some n else m !! id
    | None => m !! id
    end.
Proof.
  revert m. induction ns as [|n ns IH]; intros m; [done|]. rewrite fmap_cons.
  intros [Hni Hnd]%NoDup_cons.
  change (put_back (n :: ns) m) with (put_back ns (if fails true n then <[ID n := n]> m else m)).
  rewrite IH by done. cbn [list_find].
  destruct (decide (ID n = id)) as [<-|Hne].
  - destruct (list_find (λ n', ID n' = ID n) ns) as [[i n']|] eqn:Hf; simpl.
    { apply list_find_Some in Hf as (Hi & Heq & _). exfalso. apply Hni. rewrite <-Heq.
      apply list_elem_of_fmap_2. by eapply list_elem_of_lookup_2. }
    destruct (fails true n); [by rewrite lookup_insert_eq|done].
  - assert ((if fails true n then <[ID n := n]> m else m) !! id = m !! id) as ->.
    { destruct (fails true n); [by rewrite lookup_insert_ne|done]. }
    by destruct (list_find (λ n', ID n' = id) ns) as [[i n']|].
Qed.

Lemma zero_failed_lookup ns m id :
  NoDup (ID <$> ns) →
  zero_failed ns m !! id =
    match list_find (λ n, n.(ID) = id) ns with
    | Some (_, n) => if fails false n then Some (with_LastUpdate time_zero n) else m !! id
    | None => m !! id
    end.
Proof.
  revert m. induction ns as [|n ns IH]; intros m; [done|]. rewrite fmap_cons.
  intros [Hni Hnd]%NoDup_cons.
  change (zero_failed (n :: ns) m) with
    (zero_failed ns (if fails false n then <[ID n := with_LastUpdate time_zero n]> m else m)).
  rewrite IH by done. cbn [list_find].
  destruct (decide (ID n = id)) as [<-|Hne].
  - destruct (list_find (λ n', ID n' = ID n) ns) as [[i n']|] eqn:Hf; simpl.
    { apply list_find_Some in Hf as (Hi & Heq & _). exfalso. apply Hni. rewrite <-Heq.
      apply list_elem_of_fmap_2. by eapply list_elem_of_lookup_2. }
    destruct (fails false n); simpl; [by rewrite lookup_insert_eq|done].
  - assert ((if fails false n then <[ID n := with_LastUpdate time_zero n]> m else m) !! id = m !! id) as ->.
    { destruct (fails false n); [by rewrite lookup_insert_ne|done]. }
    by destruct (list_find (λ n', ID n' = id) ns) as [[i n']|].
Qed.

(** The values of a keyed map, in any order: each id once. *)
Lemma range_values seed m :
  keyed m → NoDup (ID <$> (range seed m).*2) ∧
    (∀ n, n ∈ (range seed m).*2 ↔ m !! n.(ID) = Some n) ∧
    (∀ id, snd <$> list_find (λ n, n.(ID) = id) (range seed m).*2 = m !! id).
Proof.
  intros Hm.
  assert (ID <$> (range seed m).*2 = (range seed m).*1) as Hids.
  { rewrite <-list_fmap_compose. apply list_fmap_ext. intros i [id n] Hi. simpl.
    apply list_elem_of_lookup_2, elem_of_range in Hi. by apply Hm. }
  assert (∀ n, n ∈ (range seed m).*2 ↔ m !! n.(ID) = Some n) as Hin.
  { intros n. rewrite list_elem_of_fmap. split.
    - intros ([id n'] & -> & Hr%elem_of_range). simpl. by rewrite (Hm _ _ Hr).
    - intros Hn. exists (n.(ID), n). split; [done|]. by apply elem_of_range. }
  split; [rewrite Hids; apply range_nodup_keys|]. split; [done|]. intros id.
  destruct (list_find _ _) as [[i n]|] eqn:Hf; simpl.
  - apply list_find_Some in Hf as (Hi & <- & _). apply list_elem_of_lookup_2, Hin in Hi. done.
  - apply list_find_None in Hf. destruct (m !! id) as [n|] eqn:Hn; [|done].
    rewrite Forall_forall in Hf. destruct (Hf n); [|by apply Hm].
    apply Hin. by rewrite (Hm _ _ Hn).
Qed.

Lemma diffNodes_keyed selfID old new :
  keyed old → keyed new →
  keyed (diffNodes selfID old new).1 ∧ keyed (diffNodes selfID old new).2.
Proof.
  intros Ho Hn. split; intros id n; destruct (diffNodes_lookup selfID old new id) as [Ha Hr].
  - rewrite Ha. repeat case_match; try done; intros [= <-]; by apply Hn.
  - rewrite Hr. repeat case_match; try done. apply Ho.
Qed.
End Turns.

(** ** Properties *)

Section DiscoveryProperties.
Context `{!MapOrder}.
Context (answer : PeerNode → bool → option error) (selfID : string).
Local Abbreviation observed := (observed answer).
Local Abbreviation fails := (fails answer).

(** The nodes the two loops visit, in their order. *)
Definition removed_nodes (last : gmap string PeerNode) (peers : list PeerNode) : list PeerNode :=
  (range 2 (diffNodes selfID last (peer_map peers)).2).*2.
Definition updated_nodes (last : gmap string PeerNode) (peers : list PeerNode) : list PeerNode :=
  (range 3 (diffNodes selfID last (peer_map peers)).1).*2.

Lemma elem_of_removed last peers n :
  keyed last →
  n ∈ removed_nodes last peers ↔
  last !! n.(ID) = Some n ∧ peer_map peers !! n.(ID) = None ∧ n.(ID) ≠ selfID.
Proof.
  clear answer. intros Hl. destruct (diffNodes_keyed selfID last (peer_map peers) Hl (peer_map_keyed peers)) as [_ Hk].
  etransitivity; [exact (proj1 (proj2 (range_values 2 _ Hk)) n)|].
  destruct (diffNodes_lookup selfID last (peer_map peers) n.(ID)) as [_ ->].
  case_bool_decide; [naive_solver|]. destruct (peer_map peers !! ID n); naive_solver.
Qed.

Lemma elem_of_updated last peers n :
  keyed last →
  n ∈ updated_nodes last peers ↔
  peer_map peers !! n.(ID) = Some n ∧ n.(ID) ≠ selfID ∧
    LogicalTime <$> last !! n.(ID) ≠ Some n.(LogicalTime).
Proof.
  clear answer. intros Hl. destruct (diffNodes_keyed selfID last (peer_map peers) Hl (peer_map_keyed peers)) as [Hk _].
  etransitivity; [exact (proj1 (proj2 (range_values 3 _ Hk)) n)|].
  destruct (diffNodes_lookup selfID last (peer_map peers) n.(ID)) as [-> _].
  case_bool_decide; [naive_solver|]. destruct (peer_map peers !! ID n) as [c|]; [|naive_solver].
  destruct (last !! ID n) as [o|]; simpl; [|naive_solver].
  case_bool_decide as Hne; split; [intros [= <-]; split_and!; [done..|congruence]|by intros (? & _)|done|].
  intros ([= <-] & _ & Hx). exfalso. apply Hx. by rewrite Hne.
Qed.

Lemma removed_in_last last peers n :
  keyed last → n ∈ removed_nodes last peers →
  last !! n.(ID) = Some n ∧ peer_map peers !! n.(ID) = None.
Proof. intros Hl (? & ? & _)%elem_of_removed; done. Qed.

Lemma updated_in_current last peers n :
  keyed last → n ∈ updated_nodes last peers → peer_map peers !! n.(ID) = Some n.
Proof. intros Hl (? & _)%elem_of_updated; done. Qed.

Lemma put_back_current last peers n :
  keyed last → n ∈ updated_nodes last peers →
  put_back answer (removed_nodes last peers) (peer_map peers) !! n.(ID) = Some n.
Proof.
  intros Hl Hn. pose proof (updated_in_current _ _ _ Hl Hn) as Hc.
  destruct (diffNodes_keyed selfID last (peer_map peers) Hl (peer_map_keyed peers)) as [_ Hk].
  destruct (range_values 2 _ Hk) as (Hnd & _ & Hf). rewrite put_back_lookup by exact Hnd.
  specialize (Hf n.(ID)). fold (removed_nodes last peers) in Hf.
  destruct (list_find _ (removed_nodes last peers)) as [[i n']|] eqn:Hfind; [|done]. exfalso.
  apply list_find_Some in Hfind as (Hi & Heq & _). apply list_elem_of_lookup_2 in Hi.
  destruct (removed_in_last _ _ _ Hl Hi) as [_ Hnone]. rewrite Heq in Hnone. congruence.
Qed.

(** What the handled turn leaves in lastPeers. *)
Definition next_peers (last : gmap string PeerNode) (peers : list PeerNode) : gmap string PeerNode :=
  zero_failed answer (updated_nodes last peers)
    (put_back answer (removed_nodes last peers) (peer_map peers)).
Definition good_update (last : gmap string PeerNode) (peers : list PeerNode) : bool :=
  forallb (negb ∘ fails true) (removed_nodes last peers)
  && forallb (negb ∘ fails false) (updated_nodes last peers).

Lemma run_apply_update l reg lt peers w :
  keyed l.(lastPeers) →
  run (apply_update selfID observed l reg lt peers) w =
    ((w ++ ((λ n, (shown n, true)) <$> removed_nodes l.(lastPeers) peers))
       ++ ((λ n, (shown n, false)) <$> updated_nodes l.(lastPeers) peers),
     Continue {| lp_registration := reg;
                 lastLogicalTime := if good_update l.(lastPeers) peers then lt else l.(lastLogicalTime);
                 lastPeers := next_peers l.(lastPeers) peers |}).
Proof.
  intros Hl. unfold apply_update.
  destruct (diffNodes selfID l.(lastPeers) (peer_map peers)) as [upd rem] eqn:Hd.
  assert ((range 2 rem).*2 = removed_nodes l.(lastPeers) peers) as -> by (unfold removed_nodes; by rewrite Hd).
  assert ((range 3 upd).*2 = updated_nodes l.(lastPeers) peers) as -> by (unfold updated_nodes; by rewrite Hd).
  rewrite run_bind, run_remove_peers.
  2: { intros n Hn. by apply (removed_in_last _ peers). }
  rewrite run_bind, run_update_peers; [done| |].
  - destruct (diffNodes_keyed selfID l.(lastPeers) (peer_map peers) Hl (peer_map_keyed peers)) as [Hk _].
    apply (range_values 3 _ Hk).
  - intros n Hn. by apply put_back_current.
Qed.

Lemma next_peers_lookup last peers id :
  keyed last →
  next_peers last peers !! id =
    match (diffNodes selfID last (peer_map peers)).1 !! id with
    | Some n => if fails false n then Some (with_LastUpdate time_zero n) else Some n
    | None =>
        match (diffNodes selfID last (peer_map peers)).2 !! id with
        | Some n => if fails true n then Some n else None
        | None => peer_map peers !! id
        end
    end.
Proof.
  intros Hl. pose proof (diffNodes_keyed selfID last (peer_map peers) Hl (peer_map_keyed peers)) as [Ka Kr].
  destruct (range_values 3 _ Ka) as (Hnd3 & _ & Hf3).
  destruct (range_values 2 _ Kr) as (Hnd2 & _ & Hf2).
  unfold next_peers. rewrite zero_failed_lookup by exact Hnd3.
  rewrite put_back_lookup by exact Hnd2. rewrite <-Hf3, <-Hf2.
  fold (updated_nodes last peers) (removed_nodes last peers).
  destruct (list_find _ (updated_nodes last peers)) as [[i n]|] eqn:Hu; simpl.
  - apply list_find_Some in Hu as (Hi & <- & _). apply list_elem_of_lookup_2 in Hi.
    pose proof (updated_in_current _ _ _ Hl Hi) as Hc.
    destruct (fails false n); [done|].
    destruct (list_find _ (removed_nodes last peers)) as [[j n']|] eqn:Hr; [|done]. exfalso.
    apply list_find_Some in Hr as (Hj & Heq & _). apply list_elem_of_lookup_2 in Hj.
    destruct (removed_in_last _ _ _ Hl Hj) as [_ Hnone]. rewrite Heq in Hnone. congruence.
  - destruct (list_find _ (removed_nodes last peers)) as [[j n']|] eqn:Hr; [|done]. simpl.
    apply list_find_Some in Hr as (Hj & <- & _). apply list_elem_of_lookup_2 in Hj.
    destruct (removed_in_last _ _ _ Hl Hj) as [_ Hnone]. by destruct (fails true n').
Qed.

Lemma next_peers_keyed last peers : keyed last → keyed (next_peers last peers).
Proof.
  intros Hl id n. rewrite next_peers_lookup by done.
  pose proof (diffNodes_keyed selfID last (peer_map peers) Hl (peer_map_keyed peers)) as [Ka Kr].
  destruct ((diffNodes selfID last (peer_map peers)).1 !! id) as [c|] eqn:Hc.
  - destruct (fails false c); intros [= <-]; exact (Ka _ _ Hc).
  - destruct ((diffNodes selfID last (peer_map peers)).2 !! id) as [o|] eqn:Ho.
    + destruct (fails true o); [|done]. intros [= <-]. by apply Kr.
    + apply peer_map_keyed.
Qed.

(** C16: What one poll does when the server's clock moved: it calls the
    update handler once for each peer that is gone, then once for each peer
    that is new or whose logical time differs (never for the node itself),
    and nothing else; it ends normally (the "node not found" panics cannot
    happen); and it takes over the server's clock exactly when every call
    succeeded, so that a failed turn is run again. *)
Theorem poll_applies_diff refresh register get_peers (l : loop) reg lt peers w :
  keyed l.(lastPeers) → lt ≠ l.(lastLogicalTime) →
  refresh l.(lp_registration) = Ret (reg, (true, lt, None)) → get_peers = Ret (Ok peers) →
  let last := l.(lastPeers) in let current := peer_map peers in
  ∃ l' gone changed,
    run (poll_turn refresh register get_peers (Some observed) selfID l) w =
      ((w ++ ((λ n, (shown n, true)) <$> gone)) ++ ((λ n, (shown n, false)) <$> changed), Continue l') ∧
    (∀ n, n ∈ gone ↔ last !! n.(ID) = Some n ∧ current !! n.(ID) = None ∧ n.(ID) ≠ selfID) ∧
    (∀ n, n ∈ changed ↔ current !! n.(ID) = Some n ∧ n.(ID) ≠ selfID ∧
       LogicalTime <$> last !! n.(ID) ≠ Some n.(LogicalTime)) ∧
    NoDup (ID <$> gone) ∧ NoDup (ID <$> changed) ∧ keyed l'.(lastPeers) ∧
    l'.(lastLogicalTime) =
      (if forallb (negb ∘ fails true) gone && forallb (negb ∘ fails false) changed
       then lt else l.(lastLogicalTime)).
Proof.
  intros Hl Hlt Href Hget last current.
  pose proof (diffNodes_keyed selfID last current Hl (peer_map_keyed peers)) as [Ka Kr].
  destruct (range_values 3 _ Ka) as (Hnd3 & _). destruct (range_values 2 _ Kr) as (Hnd2 & _).
  eexists _, (removed_nodes last peers), (updated_nodes last peers). split_and!.
  - unfold poll_turn. rewrite Href. cbn [pbind]. rewrite bool_decide_true by done.
    rewrite Hget. cbn [pbind negb].
    apply (run_apply_update {| lp_registration := reg; lastLogicalTime := lastLogicalTime l;
      lastPeers := lastPeers l |}); done.
  - intros n. by apply elem_of_removed.
  - intros n. by apply elem_of_updated.
  - done.
  - done.
  - by apply next_peers_keyed.
  - done.
Qed.

(** A failed update is not tried again: if all removals succeeded, a
    second poll that finds the same list (still under a clock that was not
    taken over) calls nobody and takes the clock over.  The failed peer is
    marked by clearing its LastUpdate, which the comparison does not read,
    so its models stay unknown until it registers again. *)
Theorem failed_update_not_retried refresh register get_peers (l l1 : loop) reg lt peers w w1 :
  keyed l.(lastPeers) → lt ≠ l.(lastLogicalTime) →
  (∀ r, refresh r = Ret (reg, (true, lt, None))) → get_peers = Ret (Ok peers) →
  (∀ n, answer n true = None) →
  run (poll_turn refresh register get_peers (Some observed) selfID l) w = (w1, Continue l1) →
  l1.(lastLogicalTime) ≠ lt →
  ∃ l2, run (poll_turn refresh register get_peers (Some observed) selfID l1) w1 = (w1, Continue l2) ∧
    l2.(lastLogicalTime) = lt.
Proof.
  intros Hl Hlt Href Hget Hans Hrun Hstill.
  assert (∀ (l : loop), keyed l.(lastPeers) → lt ≠ l.(lastLogicalTime) → ∀ w,
    run (poll_turn refresh register get_peers (Some observed) selfID l) w =
    run (apply_update selfID observed {| lp_registration := reg; lastLogicalTime := lastLogicalTime l;
      lastPeers := lastPeers l |} reg lt peers) w) as Hturn.
  { intros l0 Hl0 Hlt0 w0. unfold poll_turn. rewrite Href. cbn [pbind negb].
    rewrite bool_decide_true by done. by rewrite Hget. }
  rewrite Hturn, run_apply_update in Hrun by done. simplify_eq/=.
  set (last1 := next_peers (lastPeers l) peers).
  assert (∀ id, id ≠ selfID → LogicalTime <$> last1 !! id = LogicalTime <$> peer_map peers !! id) as Hsame.
  { intros id Hid. unfold last1. rewrite next_peers_lookup by done.
    destruct (diffNodes_lookup selfID (lastPeers l) (peer_map peers) id) as [Ha Hr].
    rewrite Ha, Hr, bool_decide_false by done. clear Ha Hr.
    destruct (peer_map peers !! id) as [c|] eqn:Hc.
    - destruct (lastPeers l !! id) as [o|]; [|by destruct (fails false c)].
      case_bool_decide; [by destruct (fails false c)|done].
    - destruct (lastPeers l !! id) as [o|]; [|done]. unfold Discovery.fails. by rewrite Hans. }
  assert (keyed last1) as Hl1.
  { by apply next_peers_keyed. }
  assert (∀ id, (diffNodes selfID last1 (peer_map peers)).1 !! id = None ∧
                (diffNodes selfID last1 (peer_map peers)).2 !! id = None) as Hempty.
  { intros id. destruct (diffNodes_lookup selfID last1 (peer_map peers) id) as [-> ->].
    case_bool_decide as Hid; [done|]. specialize (Hsame id Hid).
    destruct (peer_map peers !! id) as [c|], (last1 !! id) as [o|]; simplify_eq/=; [|done].
    split; [|done]. by rewrite bool_decide_false by auto. }
  assert (removed_nodes last1 peers = [] ∧ updated_nodes last1 peers = []) as [Hrem Hupd].
  { assert (∀ seed (m : gmap string PeerNode), (∀ id, m !! id = None) → (range seed m).*2 = []) as Hnil.
    { intros seed m Hm. apply map_empty in Hm as ->. apply Permutation_nil.
      by rewrite range_perm, map_to_list_empty. }
    split; apply Hnil; intros id; apply Hempty. }
  rewrite Hturn by done. rewrite run_apply_update by done. simpl lastPeers. fold last1.
  eexists. rewrite Hrem, Hupd. unfold good_update. rewrite Hrem, Hupd.
  split; [by rewrite !app_nil_r|done].
Qed.
End DiscoveryProperties.

(** ** Witnesses *)

Module PollEx.
#[export] Existing Instance map_order.
Definition bob : PeerNode := {| ID := "12D3KooWb"; Name := "bob"; LogicalTime := 5; LastUpdate := 9 |}.
Definition self : PeerNode := {| ID := "12D3KooWs"; Name := "self"; LogicalTime := 6; LastUpdate := 9 |}.
Definition reg : Registration :=
  {| rg_transport := NewClient "http://mesh" "t"; rg_node := self; rg_token := "tok" |}.
Definition start : loop := {| lp_registration := reg; lastLogicalTime := 0; lastPeers := ∅ |}.
(** The list has both nodes, and bob cannot be reached. *)
Definition unreachable (n : PeerNode) (removed : bool) : option error :=
  if removed then None else Some (OtherError "dial backoff").
Definition refreshed (r : Registration) : prog calls (Registration * (bool * Z * option error)) :=
  Ret (reg, (true, 6%Z, None)).
Definition turn1 : calls * turn :=
  run (poll_turn refreshed (Ret (Err (OtherError ""))) (Ret (Ok [bob; self]))
         (Some (observed unreachable)) "12D3KooWs" start) [].

Lemma start_keyed : keyed start.(lastPeers).
Proof. intros id n Hn. simpl in Hn. by rewrite lookup_empty in Hn. Qed.
End PollEx.
Import PollEx.

Lemma poll_applies_diff_witness :
  ∃ l' gone changed,
    turn1 = ((([] ++ ((λ n, (shown n, true)) <$> gone)) ++ ((λ n, (shown n, false)) <$> changed)), Continue l') ∧
    bob ∈ changed ∧
    l'.(lastLogicalTime) = 0%Z.
Proof.
  destruct (poll_applies_diff unreachable "12D3KooWs" refreshed (Ret (Err (OtherError "")))
    (Ret (Ok [bob; self])) start reg 6 [bob; self] [] start_keyed) as (l' & gone & changed & Hrun & _ & Hch & _ & _ & _ & Hl);
    [done..|].
  exists l', gone, changed. split; [exact Hrun|].
  assert (bob ∈ changed) as Hin.
  { apply (proj2 (Hch bob)). split; [by vm_compute|]. split; [done|]. by vm_compute. }
  split; [done|].
  rewrite Hl. destruct changed as [|c changed]; [exfalso; inversion Hin|].
  cbn [forallb]. unfold compose, fails at 2. simpl. by rewrite andb_false_r.
Defined.

Lemma failed_update_not_retried_witness :
  ∃ l1 l2, turn1 = ([(shown bob, false)], Continue l1) ∧ l1.(lastLogicalTime) = 0%Z ∧
    run (poll_turn refreshed (Ret (Err (OtherError ""))) (Ret (Ok [bob; self]))
           (Some (observed unreachable)) "12D3KooWs" l1) [(shown bob, false)]
      = ([(shown bob, false)], Continue l2) ∧ l2.(lastLogicalTime) = 6%Z.
Proof.
  destruct turn1 as [w1 t] eqn:Ht. destruct t as [l1|]; [|by vm_compute in Ht].
  assert (w1 = [(shown bob, false)] ∧ l1.(lastLogicalTime) = 0%Z) as [-> Hl1].
  { vm_compute in Ht. by injection Ht as <- <-. }
  destruct (failed_update_not_retried unreachable "12D3KooWs" refreshed (Ret (Err (OtherError "")))
    (Ret (Ok [bob; self])) start l1 reg 6 [bob; self] [] [(shown bob, false)] start_keyed) as (l2 & Hrun & Hl2);
    [done..|exact Ht|by rewrite Hl1|].
  exists l1, l2. by split_and!.
Defined.
