(* ===== verification/Proxy.v ===== *)
(** * Proxy: the local proxy of a node (pkg/proxy).

    [ServeHTTP] answers the clients of the node, [MeshServeHTTP] the peers of
    the mesh; both end in an [outcome]: an answer, or where the request is
    sent.  The state is the proxy, with the model router of ModelDex, and the
    outside world [W] that the membership server and the peers are part of.
    Reverse proxying and the stream to a peer are outcomes, not executed
    here; web sockets and the files of the user interface are the outcomes
    [Websocket] and [Files]. *)
From Stdlib Require Import Ascii String.
From stdpp Require Import sorting.
From S2P Require Import Prelude GoStrings Json Api Mux ModelDex JsonClient ApiClient.

(** ** Requests *)

Record px_request := {
  pq_method : string; pq_path : string; pq_header : gmap string (list string);
  pq_body : result error string }.

(** http.Header: Get and Set, on canonical keys. *)
Definition header_get (k : string) (h : gmap string (list string)) : string :=
  match h !! k with Some (v :: _) => v | _ => "" end.
Definition header_set (k v : string) (h : gmap string (list string)) : gmap string (list string) :=
  <[k := [v]]> h.

(** mesh.IsSource *)
Definition IsSource (r : px_request) : bool := bool_decide (header_get "X-Mesh" r.(pq_header) = "true").

(** What becomes of a request. *)
Inductive outcome : Type :=
  | Answer (r : response)
  | ToUpstream (u : url) (r : px_request)
  | ToPeer (dest : PeerNode) (r : px_request)
  | Redirect (location : string)
  | Websocket
  | Files.

(** ** core.MeshInfo, and the status of a node *)

Record PeerConnectionDetails := {
  pc_PeerID : string; pc_PeerName : string; pc_Kind : string; pc_RemoteAddress : string;
  pc_LocalAddress : string; pc_Direction : string; pc_Security : string; pc_Multiplexer : string;
  pc_StreamCount : Z; pc_Streams : list string }.
Definition with_PeerName x c := {| pc_PeerID := pc_PeerID c; pc_PeerName := x; pc_Kind := pc_Kind c;
  pc_RemoteAddress := pc_RemoteAddress c; pc_LocalAddress := pc_LocalAddress c;
  pc_Direction := pc_Direction c; pc_Security := pc_Security c; pc_Multiplexer := pc_Multiplexer c;
  pc_StreamCount := pc_StreamCount c; pc_Streams := pc_Streams c |}.
Record MeshInfo := { AdvertisedAddresses : list string; Connections : list PeerConnectionDetails }.

Record NodeStatus := {
  ns_Name : string; ns_PeerID : string; ns_Type : string; ns_Reachable : bool;
  ns_Models : list string; ns_Mesh : option MeshInfo }.
Definition ns_zero : NodeStatus := {| ns_Name := ""; ns_PeerID := ""; ns_Type := "";
  ns_Reachable := false; ns_Models := []; ns_Mesh := None |}.

Definition enc_connection (c : PeerConnectionDetails) : json :=
  JObj [("PeerID", JStr c.(pc_PeerID)); ("PeerName", JStr c.(pc_PeerName)); ("Kind", JStr c.(pc_Kind));
        ("RemoteAddress", JStr c.(pc_RemoteAddress)); ("LocalAddress", JStr c.(pc_LocalAddress));
        ("Direction", JStr c.(pc_Direction)); ("Security", JStr c.(pc_Security));
        ("Multiplexer", JStr c.(pc_Multiplexer)); ("StreamCount", JInt c.(pc_StreamCount));
        ("Streams", strings c.(pc_Streams))].
Definition enc_info (i : MeshInfo) : json :=
  JObj [("AdvertisedAddresses", strings i.(AdvertisedAddresses));
        ("Connections", JArr (enc_connection <$> i.(Connections)))].
Definition enc_status (s : NodeStatus) : json :=
  JObj [("Name", JStr s.(ns_Name)); ("PeerID", JStr s.(ns_PeerID)); ("Type", JStr s.(ns_Type));
        ("Reachable", JBool s.(ns_Reachable)); ("Models", strings s.(ns_Models));
        ("Mesh", match s.(ns_Mesh) with None => JNull | Some i => enc_info i end)].

Definition dec_connection : decoder PeerConnectionDetails := dec_struct (λ k v r,
  let '(Build_PeerConnectionDetails a b c d e f g h i j) := r in
  if key_is "PeerID" k then
    in_field (λ x _, Build_PeerConnectionDetails x b c d e f g h i j) pc_PeerID dec_string v r
  else if key_is "PeerName" k then
    in_field (λ x _, Build_PeerConnectionDetails a x c d e f g h i j) pc_PeerName dec_string v r
  else if key_is "Kind" k then
    in_field (λ x _, Build_PeerConnectionDetails a b x d e f g h i j) pc_Kind dec_string v r
  else if key_is "RemoteAddress" k then
    in_field (λ x _, Build_PeerConnectionDetails a b c x e f g h i j) pc_RemoteAddress dec_string v r
  else if key_is "LocalAddress" k then
    in_field (λ x _, Build_PeerConnectionDetails a b c d x f g h i j) pc_LocalAddress dec_string v r
  else if key_is "Direction" k then
    in_field (λ x _, Build_PeerConnectionDetails a b c d e x g h i j) pc_Direction dec_string v r
  else if key_is "Security" k then
    in_field (λ x _, Build_PeerConnectionDetails a b c d e f x h i j) pc_Security dec_string v r
  else if key_is "Multiplexer" k then
    in_field (λ x _, Build_PeerConnectionDetails a b c d e f g x i j) pc_Multiplexer dec_string v r
  else if key_is "StreamCount" k then
    in_field (λ x _, Build_PeerConnectionDetails a b c d e f g h x j) pc_StreamCount (dec_int 64) v r
  else if key_is "Streams" k then
    in_field (λ x _, Build_PeerConnectionDetails a b c d e f g h i x) pc_Streams (dec_list dec_string "") v r
  else (r, true)).
Definition conn_zero : PeerConnectionDetails := {| pc_PeerID := ""; pc_PeerName := ""; pc_Kind := "";
  pc_RemoteAddress := ""; pc_LocalAddress := ""; pc_Direction := ""; pc_Security := "";
  pc_Multiplexer := ""; pc_StreamCount := 0; pc_Streams := [] |}.
Definition dec_info : decoder MeshInfo := dec_struct (λ k v r,
  let '(Build_MeshInfo a c) := r in
  if key_is "AdvertisedAddresses" k then
    in_field (λ x _, Build_MeshInfo x c) AdvertisedAddresses (dec_list dec_string "") v r
  else if key_is "Connections" k then
    in_field (λ x _, Build_MeshInfo a x) Connections (dec_list dec_connection conn_zero) v r
  else (r, true)).
(** A pointer: null makes it nil, anything else is decoded into what it
    points to, allocated if it is nil. *)
Definition dec_pointer {A} (dec : decoder A) (zero : A) : decoder (option A) := λ j old,
  match j with
  | JNull => (None, true)
  | _ => let '(x, ok) := dec j (default zero old) in (Some x, ok)
  end.
Definition dec_status : decoder NodeStatus := dec_struct (λ k v r,
  let '(Build_NodeStatus n p t a m i) := r in
  if key_is "Name" k then in_field (λ x _, Build_NodeStatus x p t a m i) ns_Name dec_string v r
  else if key_is "PeerID" k then in_field (λ x _, Build_NodeStatus n x t a m i) ns_PeerID dec_string v r
  else if key_is "Type" k then in_field (λ x _, Build_NodeStatus n p x a m i) ns_Type dec_string v r
  else if key_is "Reachable" k then in_field (λ x _, Build_NodeStatus n p t x m i) ns_Reachable dec_bool v r
  else if key_is "Models" k then
    in_field (λ x _, Build_NodeStatus n p t a x i) ns_Models (dec_list dec_string "") v r
  else if key_is "Mesh" k then
    in_field (λ x _, Build_NodeStatus n p t a m x) ns_Mesh
      (dec_pointer dec_info {| AdvertisedAddresses := []; Connections := [] |}) v r
  else (r, true)).

(** ** State *)

(** [px_admin] is the client of the membership server, nil without one;
    [px_broadcasts] counts the calls of the notifier; [px_config] is what
    reading config.yaml gives. *)
Record Proxy := {
  px_router : ModelRouter; px_admin : option Client; px_broadcasts : nat;
  px_config : result error string }.
Definition with_router r p := {| px_router := r; px_admin := px_admin p;
  px_broadcasts := px_broadcasts p; px_config := px_config p |}.
Definition broadcast p := {| px_router := px_router p; px_admin := px_admin p;
  px_broadcasts := S (px_broadcasts p); px_config := px_config p |}.
Definition WithAdminController (c : Client) (p : Proxy) : Proxy := {| px_router := px_router p;
  px_admin := Some c; px_broadcasts := px_broadcasts p; px_config := px_config p |}.

Definition StatusTemporaryRedirect : Z := 307.

(** maxBody *)
Definition maxBody : Z := Z.shiftl 8 20.

(** io.LimitReader and io.ReadAll. *)
Fixpoint limit (n : Z) (s : string) : string :=
  match s with
  | "" => ""
  | String c s' => if bool_decide (n ≤ 0)%Z then "" else String c (limit (n - 1) s')
  end.

Definition proxyHandleURLS : list string :=
  ["/v1/chat/completions"; "/v1/responses"; "/v1/embeddings"; "/v1/messages"].
Definition MeshModelPrefix : string := "".

(** go-retry: retry.Do with WithMaxRetries(n), for a function that marks every
    error as retryable.  [attempts] is what the library documents: the call is
    made again after an error, at most [n] times, and the last error is the
    result. *)
Fixpoint attempts {W A} (n : nat) (p : prog W (result error A)) : prog W (result error A) :=
  let* r := p in
  match r, n with
  | Err _, S n => attempts n p
  | _, _ => Ret r
  end.
Class GoRetry (W : Type) := {
  retry_do {A} : nat → prog W (result error A) → prog W (result error A);
  retry_attempts {A} n (p : prog W (result error A)) w : run (retry_do n p) w = run (attempts n p) w
}.

Section Proxy.
Context `{!MapOrder} `{!JsonText} `{!TimeText} `{!NewRequestText} `{!URLText}.
(** strings.ToLower of text that is not ASCII. *)
Context (unicode_lower : string → string).

Context {W : Type}.
(** The mesh service: the peers of the membership server, the HTTP client
    of a peer, and what libp2p knows of a peer. *)
Context (GetPeerMap : prog W (result error (gmap string PeerNode))).
Context (ClientForPeer : PeerNode → Doer W).
Context (GetPeerMeshInfo : PeerNode → MeshInfo).
(** The doer of the membership server's client. *)
Context (admin_rt : Doer W).
Context `{!GoRetry W}.

Definition px_state : Type := Proxy * W.
Definition on_world {A} (p : prog W A) : prog px_state A := zoom snd (λ w s, (s.1, w)) p.
Definition look {A} (f : Proxy → A) : prog px_state A := atomically (λ s, (s, f s.1)).
Definition change (f : Proxy → Proxy) : prog px_state () := atomically (λ s, ((f s.1, s.2), ())).

(** ** Choosing the server of a model (proxy.go) *)

Definition dec_peek : decoder string := dec_struct (λ k v m,
  if key_is "Model" k then dec_string v m else (m, true)).
Definition peekModel (body : string) : string :=
  let '(m, ok) := unmarshal dec_peek body "" in
  if ok then trim_prefix MeshModelPrefix (to_lower unicode_lower m) else "".

Definition not_found (msg : string) : outcome := Answer (http_error msg StatusNotFound).

(** The Director: the request as it goes to a local provider. *)
Definition direct (local : LocalRoute) (r : px_request) (body : string) : px_request :=
  let h := header_set "X-Forwarded-Host" (header_get "Host" r.(pq_header)) r.(pq_header) in
  {| pq_method := r.(pq_method); pq_path := r.(pq_path); pq_body := Ok body;
     pq_header := if bool_decide (local.(lr_Token) ≠ "")
                  then header_set "Authorization" ("Bearer " +:+ local.(lr_Token)) h else h |}.

(** [seed] is the order in which the peers of the route are iterated. *)
Definition proxyModelRequest (seed : nat) (r : px_request) (noRelay : bool) : prog px_state outcome :=
  match r.(pq_body) with
  | Err _ => Ret (Answer (http_error "failed to read body" StatusBadRequest))
  | Ok sent =>
      let body := limit (maxBody + 1) sent in
      let model := peekModel body in
      let* route := look (λ p, GetModelRoute model p.(px_router)) in
      match route with
      | None => Ret (not_found "model not found")
      | Some route =>
          match GetLocalRoute route with
          | Some local =>
              match url_parse local.(lr_BaseURL) with
              | Err _ => Ret (not_found "model not found")
              | Ok u => Ret (ToUpstream u (direct local r body))
              end
          | None =>
              if noRelay then Ret (not_found "model not found")
              else
                let* dest := look (λ p, GetMeshPeerRoute seed p.(px_router).(rt_heap) route) in
                match dest with
                | None => Ret (not_found "no model available")
                | Some dest =>
                    Ret (ToPeer dest {| pq_method := r.(pq_method); pq_path := r.(pq_path);
                                        pq_header := r.(pq_header); pq_body := Ok body |})
                end
          end
      end
  end.

(** ** The announcement of models (client.go) *)

(** The JSON form of a route: providers and peers stay at home. *)
Definition enc_route (r : ModelRoute) : json :=
  JObj [("Name", JStr r.(mr_Name)); ("Model", JStr r.(mr_Model));
        ("Capabilities", strings r.(Capabilities)); ("ContextLength", JInt r.(ContextLength));
        ("Owner", JStr r.(Owner)); ("ModifiedAt", JStr (time_print r.(ModifiedAt)))].
Definition route_zero : ModelRoute :=
  {| mr_Name := ""; mr_Model := ""; Capabilities := []; ContextLength := 0; Owner := "";
     ModifiedAt := time_zero; providers := []; peers := None |}.
Definition dec_route : decoder ModelRoute := dec_struct (λ k v r,
  let '(Build_ModelRoute n m c l o t ps pe) := r in
  if key_is "Name" k then in_field (λ x _, Build_ModelRoute x m c l o t ps pe) mr_Name dec_string v r
  else if key_is "Model" k then
    in_field (λ x _, Build_ModelRoute n x c l o t ps pe) mr_Model dec_string v r
  else if key_is "Capabilities" k then
    in_field (λ x _, Build_ModelRoute n m x l o t ps pe) Capabilities (dec_list dec_string "") v r
  else if key_is "ContextLength" k then
    in_field (λ x _, Build_ModelRoute n m c x o t ps pe) ContextLength (dec_int 64) v r
  else if key_is "Owner" k then
    in_field (λ x _, Build_ModelRoute n m c l x t ps pe) Owner dec_string v r
  else if key_is "ModifiedAt" k then
    in_field (λ x _, Build_ModelRoute n m c l o x ps pe) ModifiedAt dec_time v r
  else (r, true)).

Definition enc_models (rs : list ModelRoute) : json := JObj [("models", JArr (enc_route <$> rs))].
Definition dec_models : decoder (list ModelRoute) := dec_struct (λ k v rs,
  if key_is "models" k then dec_list dec_route route_zero v rs else (rs, true)).

Definition models_by_name (rs : list ModelRoute) : gmap string ModelRoute :=
  foldl (λ m r, <[r.(mr_Name) := r]> m) ∅ rs.

(** MeshClient.GetModelsMesh of the client of a peer. *)
Definition GetModelsMesh (peer : PeerNode) : prog W (result error (gmap string ModelRoute)) :=
  let* (rs, err) := Client_Get (ClientForPeer peer)
    (NewClient ("http://" +:+ peer.(Name) +:+ ".mesh") "") "/.mesh/models" dec_models [] in
  Ret (match err with Some e => Err e | None => Ok (models_by_name rs) end).

Definition OnPeerUpdate (seed : nat) (peer : PeerNode) (remove : bool) : prog px_state (option error) :=
  if remove then
    let* _ := change (λ p, with_router (router_RemovePeer seed peer p.(px_router)) p) in
    let* _ := change broadcast in
    Ret None
  else
    let* _ := change broadcast in
    let* models := on_world (retry_do 3 (GetModelsMesh peer)) in
    match models with
    | Err e => Ret (Some e)
    | Ok models =>
        let* _ := change (λ p, with_router (AddPeerModels seed peer models p.(px_router)) p) in
        let* _ := change broadcast in
        Ret None
    end.

(** ** The handlers of the mesh (handlers_mesh.go, handlers_openai.go) *)

Definition px_handler : Type := (nat → nat) → px_request → list (string * string) → prog px_state outcome.
Definition answer_json (j : json) : prog px_state outcome := Ret (Answer (Response StatusOK (BJson j))).

(** The node of the proxy is the one its router was made for. *)
Definition self_node (p : Proxy) : PeerNode := p.(px_router).(rt_node).

Definition meshStatus : px_handler := λ seed r vars,
  let* p := look id in
  answer_json (JObj [("Status", enc_status {|
    ns_Name := (self_node p).(Name); ns_PeerID := (self_node p).(ID); ns_Type := "";
    ns_Reachable := true; ns_Models := ListModels (seed 0) p.(px_router);
    ns_Mesh := Some (GetPeerMeshInfo (self_node p)) |})]).

(** MeshClient.GetMeshStatus of the client of a peer: the status, as far as
    it was decoded, and the error. *)
Definition dec_status_response : decoder NodeStatus := dec_struct (λ k v st,
  if key_is "Status" k then dec_status v st else (st, true)).
Definition GetMeshStatus (peer : PeerNode) : prog W (NodeStatus * option error) :=
  Client_Get (ClientForPeer peer) (NewClient ("http://" +:+ peer.(Name) +:+ ".mesh") "")
    "/.mesh/status" dec_status_response ns_zero.

(** The connections of a status get the names of the peers. *)
Definition name_connections (peers : gmap string PeerNode) (st : NodeStatus) : NodeStatus :=
  {| ns_Name := ns_Name st; ns_PeerID := ns_PeerID st; ns_Type := ns_Type st;
     ns_Reachable := ns_Reachable st; ns_Models := ns_Models st;
     ns_Mesh := (λ i, {| AdvertisedAddresses := AdvertisedAddresses i;
       Connections := (λ c, match peers !! c.(pc_PeerID) with
                            | Some node => with_PeerName node.(Name) c
                            | None => c
                            end) <$> Connections i |}) <$> ns_Mesh st |}.

Definition peer_status (seed : nat) (peer : PeerNode) : prog px_state NodeStatus :=
  let* p := look id in
  if bool_decide (peer.(ID) = (self_node p).(ID)) then
    Ret {| ns_Name := peer.(Name); ns_PeerID := (self_node p).(ID); ns_Type := "self";
           ns_Reachable := true; ns_Models := ListModels seed p.(px_router);
           ns_Mesh := Some (GetPeerMeshInfo peer) |}
  else
    let* (st, err) := on_world (GetMeshStatus peer) in
    let st := match err with
      | None => st
      | Some _ => {| ns_Name := peer.(Name); ns_PeerID := peer.(ID); ns_Type := ns_Type st;
                     ns_Reachable := false; ns_Models := ns_Models st; ns_Mesh := ns_Mesh st |}
      end in
    Ret {| ns_Name := ns_Name st; ns_PeerID := ns_PeerID st; ns_Type := "peer";
           ns_Reachable := ns_Reachable st; ns_Models := ns_Models st; ns_Mesh := ns_Mesh st |}.

Fixpoint member_statuses (seed : nat) (peers : gmap string PeerNode) (l : list PeerNode)
    : prog px_state (list NodeStatus) :=
  match l with
  | [] => Ret []
  | peer :: l' =>
      let* st := peer_status seed peer in
      let* sts := member_statuses seed peers l' in
      Ret (name_connections peers st :: sts)
  end.

Definition meshMembers : px_handler := λ seed r vars,
  let* peers := on_world GetPeerMap in
  match peers with
  | Err e => Ret (Answer (http_error (error_string e) StatusInternalServerError))
  | Ok peers =>
      let* nodes := member_statuses (seed 1) peers (range (seed 0) peers).*2 in
      answer_json (JObj [("Nodes", match nodes with [] => JNull | _ => JArr (enc_status <$> nodes) end)])
  end.

Definition meshModels : px_handler := λ seed r vars,
  let* models := look (λ p, ListExportedModels (seed 0) p.(px_router)) in
  answer_json (enc_models models).

Definition openaiListModelsHandler : px_handler := λ seed r vars,
  if IsSource r then
    Ret (Answer (http_error "we should not see this rpc over the mesh network" StatusInternalServerError))
  else
    let* models := look (λ p, ListMeshModels (seed 0) p.(px_router)) in
    let data := (λ m, JObj [("id", JStr m.(mr_Name)); ("object", JStr "model"); ("created", JInt 0);
      ("owned_by", JStr "ollama"); ("context_length", JInt 0);
      ("long_context_threshold", JInt 0)]) <$> models in
    answer_json (JObj [("object", JStr "list");
                       ("data", match data with [] => JNull | _ => JArr data end)]).

(** ** The handlers of the user interface (handlers_ui.go) *)

Definition enc_ui_model (h : heap) (seed : nat) (r : ModelRoute) : json :=
  JObj ([("name", JStr r.(mr_Name)); ("model", JStr r.(mr_Model)); ("private", JBool (IsPrivate r));
         ("owner", JStr r.(Owner)); ("modified_at", JStr (time_print r.(ModifiedAt)));
         ("context_length", JInt r.(ContextLength))]
        ++ (if bool_decide (r.(Capabilities) = []) then [] else [("capabilities", strings r.(Capabilities))])
        ++ [("providers", JArr (enc_node <$> GetPeers seed h r))]).

Definition by_name (a b : ModelRoute) : Prop := String.le a.(mr_Name) b.(mr_Name).
#[export] Instance by_name_dec : RelDecision by_name.
Proof. intros a b. unfold by_name. apply _. Defined.

Definition uiModelsHandler : px_handler := λ seed r vars,
  let* (models, h) := look (λ p, (ListMeshModels (seed 0) p.(px_router), p.(px_router).(rt_heap))) in
  answer_json (JObj [("models", JArr (enc_ui_model h (seed 1) <$> merge_sort by_name models))]).

(** Texts for the user interface: capabilities without blanks and repetitions
    (compared without regard to case), the short form of a peer id. *)
Definition capability_step (acc : list string * gset string) (c : string) : list string * gset string :=
  let '(out, seen) := acc in
  let s := trim_space c in
  if bool_decide (s = "") then acc
  else
    let key := to_lower unicode_lower s in
    if bool_decide (key ∈ seen) then acc else (out ++ [s], {[ key ]} ∪ seen).
Definition capabilityStrings (caps : list string) : list string := (foldl capability_step ([], ∅) caps).1.
Definition shortPeer (id : string) : string :=
  if bool_decide (String.length id ≤ 12)%nat then id else take_str 8 id +:+ "…".

Definition uiConfigHandler : px_handler := λ seed r vars,
  let* data := look px_config in
  match data with
  | Err e => Ret (Answer (http_error (error_string e) StatusNotFound))
  | Ok text => answer_json (JObj [("path", JStr "config.yaml"); ("content", JStr text)])
  end.

Definition uiRootHandler : px_handler := λ seed r vars, Ret (Redirect "/ui/").
Definition uiHandler : px_handler := λ seed r vars, Ret (Redirect "/ui/").

(** ** The administration of the mesh (handlers.go, handlers_admin.go) *)

Definition rpc_handler : Type :=
  Client → px_request → list (string * string) → prog px_state (result error json).

(** RPC.GetObject *)
Definition px_GetObject {A} (dec : decoder A) (zero : A) (r : px_request) : result error A :=
  let bad := Err (NewError StatusBadRequest "bad request") in
  match r.(pq_body) with
  | Err _ => bad
  | Ok text => let '(x, ok) := decode_first dec text zero in if ok then Ok x else bad
  end.

Definition px_respond (r : result error json) : outcome :=
  match r with
  | Ok j => Answer (Response StatusOK (BJson j))
  | Err (ApiError code msg) => Answer (http_error msg code)
  | Err e => Answer (http_error (error_string e) StatusInternalServerError)
  end.

(** handle and withAdmin together. *)
Definition withAdmin (fn : rpc_handler) : px_handler := λ seed r vars,
  let* admin := look px_admin in
  let* res := match admin with
    | None => Ret (Err (NewError StatusServiceUnavailable "admin not enabled"))
    | Some c => fn c r vars
    end in
  Ret (px_respond res).

Definition adminEnabledHandler : rpc_handler := λ c r vars, Ret (Ok (JObj [("enabled", JBool true)])).

Definition adminCreateInvitedHandler : rpc_handler := λ c r vars,
  match px_GetObject dec_create ci_zero r with
  | Err e => Ret (Err e)
  | Ok req =>
      let mesh := if bool_decide (req.(ci_MeshId) = "") then "default" else req.(ci_MeshId) in
      let! resp := on_world (AdminClient_CreateInvite admin_rt c {|
        ci_Name := req.(ci_Name); ci_LifetimeSec := req.(ci_LifetimeSec);
        ci_OneTime := req.(ci_OneTime); ci_MeshId := mesh |}) in
      Ret (Ok (JObj [("InviteId", JStr resp.(ir_InviteId)); ("InviteLink", JStr resp.(ir_InviteLink))]))
  end.

Definition adminListInvitesHandler : rpc_handler := λ c r vars,
  let! invites := on_world (AdminClient_ListInvites admin_rt c) in
  Ret (Ok (JObj [("Invites", JArr ((λ i, JObj [("InviteId", JStr i.(ii_InviteId));
    ("InviteLink", JStr i.(ii_InviteLink)); ("Name", JStr i.(ii_Name)); ("OneTime", JBool i.(ii_OneTime));
    ("Expires", JInt i.(ii_Expires)); ("MeshId", JStr i.(ii_MeshId))]) <$> invites))])).

Definition adminListNodesHandler : rpc_handler := λ c r vars,
  let! nodes := on_world (AdminClient_ListNodes admin_rt c) in
  Ret (Ok (JObj [("Nodes", JArr ((λ n, JObj [("ID", JStr n.(ni_ID)); ("Name", JStr n.(ni_Name));
    ("MeshId", JStr n.(ni_MeshId)); ("AddedAt", JStr (time_print n.(ni_AddedAt)));
    ("InvitedAs", JStr n.(ni_InvitedAs))]) <$> nodes))])).

Definition adminRevokeInviteHandler : rpc_handler := λ c r vars,
  let id := path_value vars "id" in
  if bool_decide (id = "") then Ret (Err (NewError StatusBadRequest "invite id is required"))
  else
    let* err := on_world (AdminClient_DeleteInvite admin_rt c id) in
    Ret (match err with Some e => Err e | None => Ok (JObj [("Invite", JStr id)]) end).

Definition adminKickNodeHandler : rpc_handler := λ c r vars,
  let id := path_value vars "id" in
  if bool_decide (id = "") then Ret (Err (NewError StatusBadRequest "node id is required"))
  else
    let* err := on_world (AdminClient_KickPeer admin_rt c id) in
    Ret (match err with Some e => Err e | None => Ok (JObj [("NodeID", JStr id)]) end).

(** ** The HTTP surface (proxy.go) *)

Definition custom_404 : px_handler := λ seed r vars,
  Ret (Answer (Response StatusNotFound
    (BText "Custom 404: The page you are looking for does not exist."))).

(** The mux NewProxy fills. *)
Definition px_routes : list (pattern px_handler) := [
  Pattern "GET" [Lit "v1"; Lit "models"] false openaiListModelsHandler;
  Pattern "GET" [Lit ".mesh"; Lit "status"] false meshStatus;
  Pattern "GET" [Lit ".mesh"; Lit "members"] false meshMembers;
  Pattern "GET" [Lit ".mesh"; Lit "models"] false meshModels;
  Pattern "GET" [Lit "api"; Lit "mesh"; Lit "models"] false uiModelsHandler;
  Pattern "GET" [Lit "api"; Lit "mesh"; Lit "members"] false meshMembers;
  Pattern "GET" [Lit "api"; Lit "mesh"; Lit "config"] false uiConfigHandler;
  Pattern "GET" [Lit "api"; Lit "admin"; Lit "enabled"] false (withAdmin adminEnabledHandler);
  Pattern "POST" [Lit "api"; Lit "admin"; Lit "invite"] false (withAdmin adminCreateInvitedHandler);
  Pattern "GET" [Lit "api"; Lit "admin"; Lit "invite"] false (withAdmin adminListInvitesHandler);
  Pattern "DELETE" [Lit "api"; Lit "admin"; Lit "invite"; Var "id"] false
    (withAdmin adminRevokeInviteHandler);
  Pattern "GET" [Lit "api"; Lit "admin"; Lit "node"] false (withAdmin adminListNodesHandler);
  Pattern "DELETE" [Lit "api"; Lit "admin"; Lit "node"; Var "id"] false
    (withAdmin adminKickNodeHandler);
  Pattern "GET" [Lit ""] false uiRootHandler;
  Pattern "GET" [Lit "ui"] false uiHandler;
  Pattern "" [Lit "api"; Lit "v.1"; Lit "refresh"; Lit "websocket"] false (λ seed r vars, Ret Websocket);
  Pattern "GET" [Lit "ui"] true (λ seed r vars, Ret Files);
  Pattern "" [] true custom_404 ].

Definition mux_ServeHTTP (seed : nat → nat) (r : px_request) : prog px_state outcome :=
  match route px_routes r.(pq_method) (tail (split_on slash r.(pq_path))) with
  | Some (h, vars) => h seed r vars
  | None => Ret (not_found "404 page not found")
  end.

(** Proxy.ServeHTTP, for the clients of the node. *)
Definition px_ServeHTTP (seed : nat → nat) (r : px_request) : prog px_state outcome :=
  if bool_decide (r.(pq_path) ∈ ["/api/chat"; "/v1/chat/completions"; "/v1/responses"])
  then proxyModelRequest (seed 0) r false else mux_ServeHTTP seed r.

(** Proxy.MeshServeHTTP, for the peers of the mesh. *)
Definition MeshServeHTTP (seed : nat → nat) (r : px_request) : prog px_state outcome :=
  if bool_decide (r.(pq_path) ∈ proxyHandleURLS)
  then proxyModelRequest (seed 0) r true else mux_ServeHTTP seed r.

(** NewProxy: the router is refreshed before anything is served. *)
Definition NewProxy (node : PeerNode) (ps : list Provider) (now : Z) (up : Provider → Upstream)
    (config : result error string) : Proxy :=
  {| px_router := Refresh now up (NewModelDiscovery node ps); px_admin := None;
     px_broadcasts := 0; px_config := config |}.
End Proxy.

(** ** Lemmas *)

Lemma limit_prefix n t : ∃ rest, t = limit n t +:+ rest.
Proof.
  revert n. induction t as [|c t IH]; intros n; cbn [limit]; [by exists ""|].
  case_bool_decide; [by exists (String c t)|]. destruct (IH (n - 1)%Z) as [rest Hrest].
  exists rest. by rewrite append_cons, <-Hrest.
Qed.

(** Peeling one byte off the limit. *)
Lemma limit_length n t : (Z.of_nat (String.length (limit n t)) = Z.max 0 (Z.min n (Z.of_nat (String.length t))))%Z.
Proof.
  revert n. induction t as [|c t IH]; intros n; cbn [limit]; [simpl; lia|].
  case_bool_decide; [simpl; lia|]. cbn [String.length]. rewrite !Nat2Z.inj_succ, IH. lia.
Qed.

Lemma limit_all n t : (Z.of_nat (String.length t) ≤ n)%Z → limit n t = t.
Proof.
  revert n. induction t as [|c t IH]; intros n Hn; cbn [limit]; [done|].
  cbn [String.length] in Hn. rewrite bool_decide_false by lia. by rewrite IH by lia.
Qed.

Lemma limit_idemp n t : (0 ≤ n)%Z → limit n (limit n t) = limit n t.
Proof. intros Hn. apply limit_all. rewrite limit_length. lia. Qed.

Section ProxyLemmas.
Context `{!MapOrder} `{!JsonText} `{!TimeText} `{!NewRequestText} `{!URLText}.
Context (unicode_lower : string → string) {W : Type}.
Context (GetPeerMap : prog W (result error (gmap string PeerNode))).
Context (ClientForPeer : PeerNode → Doer W) (GetPeerMeshInfo : PeerNode → MeshInfo).
Context (admin_rt : Doer W) `{!GoRetry W}.
Implicit Types (s : @px_state W) (r : px_request).

(** Every run of a program returns a value with the property. *)
Definition returns {S A} (Q : A → Prop) (p : prog S A) : Prop := ∀ x : S, Q (run p x).2.

Lemma returns_ret {S A} (Q : A → Prop) a : Q a → returns Q (Ret a : prog S A).
Proof. by intros Ha x. Qed.
Lemma returns_bind {S A B} (Q : B → Prop) (p : prog S A) (k : A → prog S B) :
  (∀ a, returns Q (k a)) → returns Q (pbind p k).
Proof. intros Hk x. rewrite run_bind. destruct (run p x) as [x' a]. apply Hk. Qed.

Lemma run_look {A} (f : Proxy → A) s : run (look f) s = (s, f s.1).
Proof. done. Qed.

Lemma run_on_world {A} (p : prog W A) s :
  run (on_world p) s = ((s.1, (run p s.2).1), (run p s.2).2).
Proof. unfold on_world. by rewrite run_zoom by (try done; intros []; done). Qed.

Definition not_to_peer (o : outcome) : Prop := match o with ToPeer _ _ => False | _ => True end.

Lemma px_respond_local res : not_to_peer (px_respond res).
Proof. by destruct res as [|[]]. Qed.

Lemma mux_stays seed r :
  returns not_to_peer
    (mux_ServeHTTP GetPeerMap ClientForPeer GetPeerMeshInfo admin_rt seed r).
Proof.
  unfold mux_ServeHTTP. destruct (route _ _ _) as [[h vars]|] eqn:Hr; [|by apply returns_ret].
  apply route_sound in Hr as (p & Hp & <- & _). unfold px_routes in Hp.
  repeat (apply elem_of_cons in Hp as [->|Hp]); [..|by apply not_elem_of_nil in Hp]; simpl p_handler;
    unfold openaiListModelsHandler, meshStatus, meshMembers, meshModels, uiModelsHandler,
      uiConfigHandler, uiRootHandler, uiHandler, custom_404, answer_json;
    repeat match goal with
    | |- returns _ (withAdmin _ _ _ _) =>
        unfold withAdmin; do 2 (apply returns_bind; intros ?); apply returns_ret, px_respond_local
    | |- returns _ (pbind _ _) => apply returns_bind; intros ?
    | |- returns _ (match ?x with _ => _ end) => destruct x
    | |- returns _ _ => by apply returns_ret
    end.
Qed.

(** The choice of the server, on a body that could be read. *)
Lemma run_proxyModelRequest seed r noRelay sent s :
  r.(pq_body) = Ok sent →
  let body := limit (maxBody + 1) sent in
  run (proxyModelRequest unicode_lower seed r noRelay) s =
    (s, match GetModelRoute (peekModel unicode_lower body) s.1.(px_router) with
        | None => not_found "model not found"
        | Some route =>
            match GetLocalRoute route with
            | Some local => match url_parse local.(lr_BaseURL) with
                            | Err _ => not_found "model not found"
                            | Ok u => ToUpstream u (direct local r body)
                            end
            | None =>
                if noRelay then not_found "model not found"
                else match GetMeshPeerRoute seed s.1.(px_router).(rt_heap) route with
                     | None => not_found "no model available"
                     | Some dest => ToPeer dest {| pq_method := r.(pq_method); pq_path := r.(pq_path);
                                                   pq_header := r.(pq_header); pq_body := Ok body |}
                     end
            end
        end).
Proof.
  intros Hb body. unfold proxyModelRequest. rewrite Hb. fold body. rewrite run_bind, run_look.
  destruct (GetModelRoute _ _) as [route|]; [|done].
  destruct (GetLocalRoute route) as [local|]; [by destruct (url_parse _)|].
  destruct noRelay; [done|]. rewrite run_bind, run_look. by destruct (GetMeshPeerRoute _ _ _).
Qed.

(** Looking a request up in the mux, for a path the table decides. *)
Ltac find_px_route :=
  unfold px_routes;
  repeat match goal with
  | |- context [Pattern _ _ _ ?h] => assert_fails (is_var h); generalize h; intros ?
  end;
  vm_compute; reflexivity.

Abbreviation px_table := (px_routes GetPeerMap ClientForPeer GetPeerMeshInfo admin_rt).

Lemma route_config : route px_table "GET" ["api"; "mesh"; "config"] = Some (uiConfigHandler, []).
Proof. find_px_route. Qed.
Lemma route_mesh_models : route px_table "GET" [".mesh"; "models"] = Some (meshModels, []).
Proof. find_px_route. Qed.
Lemma route_mesh_status : route px_table "GET" [".mesh"; "status"] = Some (meshStatus GetPeerMeshInfo, []).
Proof. find_px_route. Qed.
Lemma route_mesh_members : route px_table "GET" [".mesh"; "members"]
  = Some (meshMembers GetPeerMap ClientForPeer GetPeerMeshInfo, []).
Proof. find_px_route. Qed.
Lemma route_kick id : id ≠ "" →
  route px_table "DELETE" ["api"; "admin"; "node"; id]
    = Some (withAdmin (adminKickNodeHandler admin_rt), [("id", id)]).
Proof. intros Hid. destruct id as [|c id]; [done|]. find_px_route. Qed.
(** The model paths begin with /v1. *)
Lemma not_model_path path : has_prefix "/v1/" path = false → path ∉ proxyHandleURLS.
Proof. unfold proxyHandleURLS. rewrite !elem_of_cons, elem_of_nil. naive_solver. Qed.
Lemma kick_path id : has_byte slash id = false →
  tail (split_on slash ("/api/admin/node/" +:+ id)) = ["api"; "admin"; "node"; id].
Proof.
  intros Hid.
  change ("/api/admin/node/" +:+ id) with
    ("" +:+ String slash ("api" +:+ String slash ("admin" +:+ String slash ("node" +:+ String slash id)))).
  by rewrite !split_on_app, split_on_single by done.
Qed.
Lemma route_api_chat : route px_table "POST" ["api"; "chat"] = Some (custom_404, []).
Proof. find_px_route. Qed.
End ProxyLemmas.

(** ** Properties *)

Section ProxyProperties.
Context `{!MapOrder} `{!JsonText} `{!TimeText} `{!NewRequestText} `{!URLText}.
Context (unicode_lower : string → string) {W : Type}.
Context (GetPeerMap : prog W (result error (gmap string PeerNode))).
Context (ClientForPeer : PeerNode → Doer W) (GetPeerMeshInfo : PeerNode → MeshInfo).
Context (admin_rt : Doer W) `{!GoRetry W}.
Implicit Types (s : @px_state W) (r : px_request).

Abbreviation mesh_serve :=
  (MeshServeHTTP unicode_lower GetPeerMap ClientForPeer GetPeerMeshInfo admin_rt).
Abbreviation local_serve :=
  (px_ServeHTTP unicode_lower GetPeerMap ClientForPeer GetPeerMeshInfo admin_rt).
Abbreviation peer_update := (OnPeerUpdate ClientForPeer).

(** C3: No request makes a second hop: whatever a peer asks for, and in
    every state, MeshServeHTTP never sends the request on to a peer, so
    requests cannot loop in the mesh. *)
Theorem mesh_request_never_relayed seed r s dest r' :
  (run (mesh_serve seed r) s).2 ≠ ToPeer dest r'.
Proof.
  assert (returns not_to_peer (mesh_serve seed r)) as Hret.
  { unfold MeshServeHTTP. case_bool_decide; [|apply mux_stays].
    intros x. destruct (pq_body r) as [sent|e] eqn:Hb.
    - rewrite (run_proxyModelRequest _ _ _ _ _ _ Hb). cbn [snd].
      destruct (GetModelRoute _ _) as [route|]; [|done].
      destruct (GetLocalRoute route) as [local|]; [by destruct (url_parse _)|done].
    - unfold proxyModelRequest. by rewrite Hb. }
  specialize (Hret s). intros Heq. by rewrite Heq in Hret.
Qed.

(** A request without a body. *)
Definition bare (method path : string) (h : gmap string (list string)) : px_request :=
  {| pq_method := method; pq_path := path; pq_header := h; pq_body := Ok "" |}.

(** C36: The peers of the mesh get the surface meant for the user of the node:
    outside the model paths both entry points are the same program.  Any
    peer reads the configuration file, secrets included, and removes
    members of the mesh with the node's own administration client. *)
Theorem mesh_peer_has_local_surface seed h c text id s :
  s.1.(px_config) = Ok text → s.1.(px_admin) = Some c → id ≠ "" → has_byte slash id = false →
  (∀ r, r.(pq_path) ∉ proxyHandleURLS → r.(pq_path) ≠ "/api/chat" →
     mesh_serve seed r = local_serve seed r) ∧
  run (mesh_serve seed (bare "GET" "/api/mesh/config" h)) s =
    (s, Answer (Response StatusOK
          (BJson (JObj [("path", JStr "config.yaml"); ("content", JStr text)])))) ∧
  run (mesh_serve seed (bare "DELETE" ("/api/admin/node/" +:+ id) h)) s =
    let '(w, err) := run (AdminClient_KickPeer admin_rt c id) s.2 in
    ((s.1, w), px_respond (match err with
                           | Some e => Err e
                           | None => Ok (JObj [("NodeID", JStr id)])
                           end)).
Proof.
  intros Hconf Hadmin Hid Hslash. split_and!.
  - intros r Hmesh Hchat. unfold MeshServeHTTP, px_ServeHTTP.
    rewrite !bool_decide_false; [done| |done]. unfold proxyHandleURLS in Hmesh. set_solver.
  - unfold MeshServeHTTP. cbn [bare pq_path].
    rewrite bool_decide_false by (by apply not_model_path).
    unfold mux_ServeHTTP. cbn [bare pq_path pq_method].
    change (tail (split_on slash "/api/mesh/config")) with ["api"; "mesh"; "config"].
    rewrite route_config. unfold uiConfigHandler.
    by rewrite run_bind, run_look, Hconf.
  - unfold MeshServeHTTP. rewrite bool_decide_false.
    2: { cbn [bare pq_path]. unfold proxyHandleURLS. rewrite !elem_of_cons, elem_of_nil.
         naive_solver. }
    unfold mux_ServeHTTP. cbn [bare pq_method pq_path].
    rewrite kick_path by done.
    rewrite route_kick by done. unfold withAdmin. rewrite !run_bind, run_look, Hadmin.
    unfold adminKickNodeHandler. change (path_value [("id", id)] "id") with id.
    rewrite bool_decide_false by done. rewrite !run_bind, run_on_world.
    by destruct (run (AdminClient_KickPeer _ _ _) _) as [w [e|]].
Qed.

(** The world before the call numbered [n] of a sequence of calls. *)
Fixpoint after {A} (p : prog W A) (n : nat) (w : W) : W :=
  match n with O => w | S n => after p n (run p w).1 end.

(** C31: A peer's announcement is taken over at most once and all or nothing:
    the models are asked for until the first answer, at most four times; an
    answer is merged into the table and the user interface is told twice;
    four failures leave the table as it was and the last error is returned.  *)
Theorem peer_update_all_or_nothing seed peer s :
  let call n := run (GetModelsMesh ClientForPeer peer) (after (GetModelsMesh ClientForPeer peer) n s.2) in
  let '(s', err) := run (peer_update seed peer false) s in
  (∃ n models, (n ≤ 3)%nat ∧ (∀ k, (k < n)%nat → is_ok (call k).2 = false) ∧
     (call n).2 = Ok models ∧ err = None ∧ s'.2 = (call n).1 ∧
     s'.1 = broadcast (with_router (AddPeerModels seed peer models s.1.(px_router)) (broadcast s.1))) ∨
  (∃ e, (∀ k, (k ≤ 3)%nat → is_ok (call k).2 = false) ∧ (call 3%nat).2 = Err e ∧ err = Some e ∧
     s'.2 = (call 3%nat).1 ∧ s'.1 = broadcast s.1).
Proof.
  intros call. destruct s as [p w].
  assert (∀ n w0, let c k := run (GetModelsMesh ClientForPeer peer)
                               (after (GetModelsMesh ClientForPeer peer) k w0) in
    ∃ k, (k ≤ n)%nat ∧ run (attempts n (GetModelsMesh ClientForPeer peer)) w0 = c k ∧
      (∀ j, (j < k)%nat → is_ok (c j).2 = false) ∧ (is_ok (c k).2 = true ∨ k = n)) as Hatt.
  { induction n as [|n IH]; intros w0 c.
    - exists 0%nat. split_and!; [lia| |lia|by right]. unfold c. cbn [attempts after].
      rewrite run_bind. by destruct (run _ _) as [w1 []].
    - cbn [attempts]. rewrite run_bind.
      destruct (run (GetModelsMesh ClientForPeer peer) w0) as [w1 [models|e]] eqn:Hrun.
      + exists 0%nat. unfold c. cbn [after]. rewrite Hrun.
        split_and!; [lia|done|lia|by left].
      + destruct (IH w1) as (k & Hk & Hr & Hf & Hlast). exists (S k). unfold c. cbn [after].
        rewrite Hrun. cbn [fst]. split_and!; [lia|done| |destruct Hlast as [?| ->]; auto].
        intros [|j] Hj; cbn [after]; rewrite Hrun; [done|]. cbn [fst]. apply Hf. lia. }
  destruct (Hatt 3%nat w) as (k & Hk & Hrun & Hfail & Hlast). cbn [snd] in call.
  unfold OnPeerUpdate. rewrite run_bind. unfold change at 1. rewrite run_atomically. cbn [fst snd].
  rewrite run_bind, run_on_world. cbn [fst snd]. rewrite retry_attempts, Hrun. fold (call k).
  destruct (call k).2 as [models|e] eqn:Hres.
  - rewrite !run_bind. unfold change. rewrite !run_atomically. cbn [fst snd run].
    left. exists k, models. done.
  - cbn [run]. right. fold (call k) in Hlast. rewrite Hres in Hlast. cbn [is_ok] in Hlast.
    destruct Hlast as [?| ->]; [done|].
    exists e. split_and!; [|done..]. intros j Hj. destruct (decide (j = 3%nat)) as [->|].
    + by rewrite Hres.
    + apply Hfail. lia.
Qed.

(** A model whose name has upper case letters is listed and cannot be
    used: the name of the request is lower-cased before the lookup, the
    names of the table are not, so the request for a listed name is answered
    404 unless another model has the lower-case name. *)
Theorem listed_name_not_served seed seed' method path h name route s :
  let e := s.1.(px_router) in
  let body := json_print (JObj [("model", JStr name)]) in
  MeshModels e !! name = Some route → MeshModels e !! to_lower unicode_lower name = None →
  utf8_ok name = true → (Z.of_nat (String.length body) ≤ maxBody)%Z →
  path ∈ ["/v1/chat/completions"; "/v1/responses"] →
  route ∈ ListMeshModels seed' e ∧
  run (local_serve seed {| pq_method := method; pq_path := path; pq_header := h; pq_body := Ok body |}) s
    = (s, not_found "model not found").
Proof.
  intros e body Hname Hlower Hutf8 Hlen Hpath. split.
  { unfold ListMeshModels. apply list_elem_of_fmap. exists (name, route). split; [done|].
    by apply elem_of_range. }
  unfold px_ServeHTTP. cbn [pq_path]. rewrite bool_decide_true by set_solver.
  rewrite (run_proxyModelRequest _ _ _ _ body) by done.
  assert (limit (maxBody + 1) body = body) as ->.
  { apply limit_all. clearbody body. lia. }
  unfold peekModel, body.
  rewrite unmarshal_print by (simpl; by rewrite Hutf8).
  unfold dec_peek. decode_obj. change (trim_prefix MeshModelPrefix ?x) with x.
  unfold GetModelRoute. fold e. by rewrite Hlower.
Qed.
End ProxyProperties.

(** ** Witnesses *)

Module ProxyEx.
Export Codec DexEx.
#[export] Instance any_request : NewRequestText := {| new_request_err _ _ := None; redirect_method m := m |}.
#[export] Instance any_url : URLText :=
  {| url_parse s := Ok {| u_Scheme := "http"; u_Host := s; u_Path := "/"; u_EscapedPath := "/";
                          u_RawQuery := "" |} |}.
#[export, refine] Instance retry_attempts_of W : GoRetry W := {| retry_do A := attempts |}.
Proof. done. Defined.

Definition no_peers : prog () (result error (gmap string PeerNode)) := Ret (Ok ∅).
Definition no_info (n : PeerNode) : MeshInfo := {| AdvertisedAddresses := []; Connections := [] |}.
Definition dial_failure : Doer () := λ _, Ret (Err (OtherError "dial failure")).
(** An administration server that does what it is asked. *)
Definition admin_ok : Doer () := λ _, Ret (Ok {| hs_code := 200; hs_status := "200 OK"; hs_body := Ok "" |}).
Definition px_of (r : ModelRouter) : Proxy :=
  {| px_router := r; px_admin := Some (NewClient "http://mesh" "secret"); px_broadcasts := 0;
     px_config := Ok "secret: hunter2" |}.
Definition upper : ModelConfig := {| mc_Model := "Llama"; mc_Private := false; mc_Capabilities := [];
  mc_Tools := [] |}.
Definition upper_provider : Provider :=
  {| pv_ID := "local"; pv_Type := "test"; pv_BaseURL := "http://one"; pv_Token := ""; pv_Private := false;
     pv_Discovery := "whitelist"; pv_Models := [upper] |}.
Definition router_upper : ModelRouter := Refresh 0 no_upstream (NewModelDiscovery self [upper_provider]).
Definition ask (path name : string) : px_request :=
  {| pq_method := "POST"; pq_path := path; pq_header := ∅;
     pq_body := Ok (json_print (JObj [("model", JStr name)])) |}.
End ProxyEx.
Import ProxyEx.

Lemma mesh_peer_has_local_surface_witness :
  run (MeshServeHTTP id no_peers (λ _, dial_failure) no_info admin_ok (λ _, 0)
         (bare "DELETE" "/api/admin/node/12D3KooWb" ∅)) (px_of router1, ()) =
    ((px_of router1, ()), Answer (Response StatusOK (BJson (JObj [("NodeID", JStr "12D3KooWb")])))).
Proof.
  destruct (mesh_peer_has_local_surface id no_peers (λ _, dial_failure) no_info admin_ok (λ _, 0) ∅
    (NewClient "http://mesh" "secret") "secret: hunter2" "12D3KooWb" (px_of router1, ()))
    as (_ & _ & Hkick); [done..|]. exact Hkick.
Defined.

(** A peer that cannot be dialled: four attempts, and nothing has changed. *)
Lemma peer_update_all_or_nothing_witness :
  (run (OnPeerUpdate (λ _, dial_failure) 0 bob false) (px_of router1, ())).1 =
    (broadcast (px_of router1), ()).
Proof.
  pose proof (peer_update_all_or_nothing (λ _, dial_failure) no_info 0 bob (px_of router1, ())) as Hup.
  cbv zeta in Hup. destruct (run (OnPeerUpdate _ 0 bob false) _) as [[p []] err] eqn:Hrun.
  destruct Hup as [(n & models & _ & _ & Hok & _)|(e & _ & _ & _ & _ & Hp)].
  - by destruct n as [|[|[|[|n]]]]; vm_compute in Hok.
  - simpl in Hp. by rewrite Hp.
Defined.

Lemma listed_name_not_served_witness :
  run (px_ServeHTTP id no_peers (λ _, dial_failure) no_info admin_ok (λ _, 0)
         (ask "/v1/responses" "Llama")) (px_of router_upper, ()) =
    ((px_of router_upper, ()), not_found "model not found").
Proof.
  destruct (MeshModels router_upper !! "Llama") as [route|] eqn:Hr; [|by vm_compute in Hr].
  destruct (listed_name_not_served id no_peers (λ _, dial_failure) no_info admin_ok (λ _, 0) 0 "POST"
    "/v1/responses" ∅ "Llama" route (px_of router_upper, ())) as [_ Hrun]; [..|exact Hrun].
  - exact Hr.
  - by vm_compute.
  - done.
  - by vm_compute.
  - clear; set_solver.
Defined.
