(* ===== verification/WebFiles.v ===== *)
(** * WebFiles: where the files of the user interface are (pkg/proxy/handlers_ui.go).

    findWebDir looks for a directory web/ with an index.html, beside the
    executable and then in the working directory and the directories above
    it; the walk goes up until filepath.Dir changes nothing.  The functions of
    path/filepath on a Unix system are defined here; the executable, the
    working directory and os.Stat are arguments. *)
From Stdlib Require Import Ascii String.
From S2P Require Import Prelude GoStrings Json Api UrlPath.

(** ** path/filepath *)

(** Dir: the path up to its last slash, cleaned. *)
Fixpoint upto_slash (path : string) : string :=
  match path with
  | "" => ""
  | String c rest =>
      match upto_slash rest with
      | "" => if decide (c = slash) then "/" else ""
      | d => String c d
      end
  end.
Definition Dir (path : string) : string := Clean (upto_slash path).

(** Join of two elements. *)
Definition Join (a b : string) : string :=
  if bool_decide (a ≠ "") then Clean (a +:+ "/" +:+ b)
  else if bool_decide (b ≠ "") then Clean b else "".

(** ** handlers_ui.go *)

(** The loop over the parents; None when the fuel is too little. *)
Fixpoint parents (fuel : nat) (dir : string) : option (list string) :=
  match fuel with
  | O => None
  | S fuel =>
      let candidate := Join dir "web" in
      let parent := Dir dir in
      if bool_decide (parent = dir) then Some [candidate]
      else cons candidate <$> parents fuel parent
  end.

Section FindWebDir.
(** os.Executable, os.Getwd, and os.Stat: None for an error, whether it is a
    directory otherwise. *)
Context (executable getwd : option string) (stat : string → option bool).

Definition has_index (d : string) : bool := bool_decide (stat (Join d "index.html") = Some false).

(** The outer option is the fuel, the inner one the boolean. *)
Definition findWebDir (fuel : nat) : option (option string) :=
  let beside := match executable with Some exe => [Join (Dir exe) "web"] | None => [] end in
  above ← match getwd with Some cwd => parents fuel cwd | None => Some [] end;
  Some (snd <$> list_find (λ d, has_index d = true) (beside ++ above)).

Definition webDir (fuel : nat) : option string := default "web" <$> findWebDir fuel.

(** uiFileSystem: a directory, or the files in the program. *)
Inductive file_system : Type := DirFS (dir : string) | Embedded.
Definition uiFileSystem (fuel : nat) : option file_system :=
  (λ d, match d with Some dir => DirFS dir | None => Embedded end) <$> findWebDir fuel.
End FindWebDir.

(** ** The walk ends *)

(** The length of a path with these elements, and one. *)
Definition total (elems : list string) : nat := sum_list_with (λ e, S (String.length e)) elems.

Lemma length_join elems : elems ≠ [] → S (String.length (join "/" elems)) = total elems.
Proof.
  induction elems as [|e elems IH]; [done|]. intros _. destruct elems as [|e' elems].
  - simpl. lia.
  - rewrite join_cons, !length_append by done. cbn [total sum_list_with] in *. rewrite <-IH by done. simpl. lia.
Qed.

Lemma total_split path : total (split_on slash path) = S (String.length path).
Proof. rewrite <-length_join by apply split_on_not_nil. f_equal. f_equal. apply (join_split_on slash). Qed.

Lemma total_app l k : total (l ++ k) = total l + total k.
Proof. unfold total. by rewrite sum_list_with_app. Qed.

Lemma total_rev l : total (rev l) = total l.
Proof. induction l as [|e l IH]; [done|]. simpl. rewrite total_app, IH. simpl. lia. Qed.

Lemma clean_elems_total rooted out elems : total (clean_elems rooted out elems) ≤ total out + total elems.
Proof.
  revert out. induction elems as [|e elems IH]; intros out; cbn [clean_elems].
  { rewrite total_rev. lia. }
  assert (total (e :: elems) = S (String.length e) + total elems) as -> by done.
  case_bool_decide; [specialize (IH out); lia|]. case_bool_decide as He.
  - subst e. destruct out as [|o out'].
    + destruct rooted; [specialize (IH [])|specialize (IH [".."])]; simpl in *; lia.
    + case_bool_decide; [specialize (IH (".." :: o :: out'))|specialize (IH out')]; simpl in *; lia.
  - specialize (IH (e :: out)). simpl in *. lia.
Qed.

Lemma clean_elems_skip rooted out elems e :
  e = "" → clean_elems rooted out (elems ++ [e]) = clean_elems rooted out elems.
Proof.
  intros ->. revert out. induction elems as [|x elems IH]; intros out; [done|]. cbn [app clean_elems].
  repeat case_bool_decide; auto. destruct out; [auto|]. case_bool_decide; auto.
Qed.

Lemma split_on_step sep c s : split_on sep (String c s) =
  if decide (c = sep) then "" :: split_on sep s
  else match split_on sep s with [] => [str1 c] | w :: ws => String c w :: ws end.
Proof. done. Qed.

Lemma has_prefix_step c p d s : has_prefix (String c p) (String d s) = bool_decide (c = d) && has_prefix p s.
Proof. done. Qed.

Lemma split_trailing r : split_on slash (r +:+ "/") = split_on slash r ++ [""].
Proof.
  induction r as [|c r IH]; [done|]. rewrite append_cons, !split_on_step, IH.
  case_decide; [done|].
  pose proof (split_on_not_nil slash r). by destruct (split_on slash r).
Qed.

(** A path that ends in a slash gets shorter, or is a root. *)
Lemma Clean_trailing r :
  Clean (r +:+ "/") = "/" ∨ Clean (r +:+ "/") = "." ∨
  String.length (Clean (r +:+ "/")) < String.length (r +:+ "/").
Proof.
  unfold Clean. rewrite split_trailing, clean_elems_skip by done. set (rooted := has_prefix "/" (r +:+ "/")).
  pose proof (clean_elems_total rooted [] (split_on slash r)) as Htot.
  destruct (clean_elems rooted [] (split_on slash r)) as [|e elems] eqn:Hc.
  { destruct rooted; auto. }
  right. right. pose proof (length_join (e :: elems)) as Hlen. specialize (Hlen ltac:(done)).
  rewrite total_split in Htot. rewrite !length_append. cbn [total sum_list_with String.length] in *.
  destruct rooted eqn:Hr; [|cbn [String.length]; lia]. change (String.length "/") with 1.
  assert (total (clean_elems true [] (split_on slash r)) ≤ String.length r) as Hle; [|rewrite Hc in Hle; cbn [total sum_list_with] in Hle; lia].
  subst rooted. destruct r as [|c r]; [done|]. rewrite append_cons, has_prefix_step in Hr.
  apply andb_true_iff in Hr as [<-%bool_decide_eq_true _].
  rewrite split_on_step, decide_True by done. cbn [clean_elems]. rewrite bool_decide_true by by left.
  pose proof (clean_elems_total true [] (split_on slash r)) as H. rewrite total_split in H. simpl in *. lia.
Qed.

Lemma upto_slash_shape path :
  (upto_slash path = "" ∨ ∃ r, upto_slash path = r +:+ "/") ∧ String.length (upto_slash path) ≤ String.length path.
Proof.
  induction path as [|c path [IH Hlen]]; [by split; [left|]|]. cbn [upto_slash].
  destruct (upto_slash path) as [|c' d] eqn:Hd.
  - destruct (decide (c = slash)); [|by split; [left|simpl; lia]].
    split; [right; by exists ""|simpl; lia].
  - destruct IH as [|[r Hr]]; [done|]. split; [|simpl in *; lia].
    right. exists (String c r). rewrite append_cons. by rewrite Hr.
Qed.

Definition is_top (path : string) : Prop := path = "/" ∨ path = ".".

Lemma Dir_top path : is_top path → Dir path = path.
Proof. by intros [-> | ->]. Qed.

(** Every step up is shorter, or at the top. *)
Lemma Dir_shorter path : is_top (Dir path) ∨ String.length (Dir path) < String.length path.
Proof.
  unfold is_top, Dir. destruct (upto_slash_shape path) as [[-> |[r Hr]] Hlen]; [by left; right|].
  rewrite Hr in *. destruct (Clean_trailing r) as [?|[?|?]]; [by left; left|by left; right|]. right. lia.
Qed.

Lemma parents_end fuel dir : String.length dir + 1 < fuel → is_Some (parents fuel dir).
Proof.
  revert dir. induction fuel as [|fuel IH]; intros dir Hfuel; [lia|]. cbn [parents].
  case_bool_decide as Htop; [by eexists|].
  assert (is_Some (parents fuel (Dir dir))) as [l ->]; [|by eexists].
  destruct (Dir_shorter dir) as [Ht|Hlt]; [|apply IH; lia].
  destruct fuel as [|fuel]; [lia|]. cbn [parents]. rewrite bool_decide_true by by apply Dir_top. by eexists.
Qed.

(** ** The directories of an absolute path *)

Lemma Clean_base_slash elems : Forall kept elems → Clean (base_of elems +:+ "/") = path_of elems.
Proof.
  intros Hk. unfold Clean. rewrite split_trailing, split_base by done.
  pose proof (base_rooted elems "") as Hr. change ("/" +:+ "") with "/" in Hr. rewrite Hr.
  rewrite clean_elems_skip by done. cbn [clean_elems]. rewrite bool_decide_true, clean_kept by (by left || done).
  by destruct elems.
Qed.

Lemma upto_slash_app s e : has_byte slash e = false → upto_slash (s +:+ "/" +:+ e) = s +:+ "/".
Proof.
  intros He. assert (upto_slash e = "") as Hnone.
  { apply split_on_single in He. revert He. induction e as [|c e IH]; [done|].
    rewrite split_on_step. case_decide as Hc; [by destruct (split_on slash e)|].
    cbn [upto_slash]. destruct (split_on slash e) as [|w ws] eqn:Hs; [by apply split_on_not_nil in Hs|].
    intros [= -> ->]. rewrite IH by done. by rewrite decide_False. }
  induction s as [|c s IH].
  - change ("" +:+ "/" +:+ e) with (String slash e). cbn [upto_slash]. by rewrite Hnone.
  - change (upto_slash (String c s +:+ "/" +:+ e)) with
      (match upto_slash (s +:+ "/" +:+ e) with "" => if decide (c = slash) then "/" else "" | d => String c d end).
    rewrite IH. by destruct s.
Qed.

Lemma Dir_path elems e : Forall kept (elems ++ [e]) → Dir (path_of (elems ++ [e])) = path_of elems.
Proof.
  intros [Hk (_ & _ & _ & He)%Forall_singleton]%Forall_app. unfold Dir.
  by rewrite path_snoc, upto_slash_app, Clean_base_slash.
Qed.

Lemma Join_path elems e : Forall kept (elems ++ [e]) → Join (path_of elems) e = path_of (elems ++ [e]).
Proof.
  intros Hk. unfold Join. rewrite bool_decide_true by by unfold path_of.
  destruct elems as [|e' elems]; [|by rewrite base_path, <-path_snoc, Clean_path].
  change (path_of [] +:+ "/" +:+ e) with (String slash (String slash e)).
  apply Forall_app in Hk as [_ (Hne & Hd & Hdd & He)%Forall_singleton]. unfold Clean.
  rewrite split_on_step, decide_True by done. rewrite split_on_step, decide_True by done.
  rewrite split_on_single by done. rewrite (has_prefix_step _ ""). cbn [clean_elems].
  rewrite (bool_decide_true ("" = "" ∨ _)) by by left.
  by rewrite (bool_decide_false (e = "" ∨ _)), (bool_decide_false (e = "..")) by naive_solver.
Qed.

Lemma path_not_parent elems e : Forall kept (elems ++ [e]) → path_of elems ≠ path_of (elems ++ [e]).
Proof.
  intros [_ (Hne & _)%Forall_singleton]%Forall_app Heq. apply (f_equal String.length) in Heq. rewrite path_snoc in Heq. unfold path_of, base_of in Heq.
  destruct elems as [|e' elems]; [destruct e; simpl in Heq; [done|lia]|].
  rewrite (join_cons _ "") in Heq by done.
  rewrite !length_append in Heq. simpl in Heq. lia.
Qed.

(** The web directories above a path, the nearest first. *)
Definition web_above (elems : list string) (k : nat) : string := path_of (take k elems ++ ["web"]).

Lemma web_kept elems : Forall kept elems → Forall kept (elems ++ ["web"]).
Proof. intros Hk. apply Forall_app. split; [done|]. by apply Forall_singleton; vm_compute. Qed.

Lemma elem_of_reverse_seq k n : k ∈ rev (seq 0 n) → k < n.
Proof. rewrite list_elem_of_In, <-in_rev, <-list_elem_of_In, elem_of_seq. lia. Qed.

Lemma parents_path elems fuel :
  Forall kept elems → length elems < fuel →
  parents fuel (path_of elems) = Some (web_above elems <$> rev (seq 0 (S (length elems)))).
Proof.
  revert fuel. induction elems as [|e elems IH] using rev_ind; intros fuel Hk Hfuel.
  { destruct fuel as [|fuel]; [simpl in Hfuel; lia|]. reflexivity. }
  rewrite length_app in *. destruct fuel as [|fuel]; [simpl in *; lia|]. cbn [parents].
  rewrite Dir_path by done. rewrite bool_decide_false by by apply path_not_parent.
  pose proof Hk as [Hk' _]%Forall_app. rewrite IH by (done || simpl in *; lia).
  rewrite Join_path by by apply web_kept. rewrite Nat.add_1_r, (seq_S (S (length elems))), rev_app_distr.
  cbn [fmap option_fmap option_map rev app list_fmap]. f_equal. f_equal.
  - unfold web_above. rewrite take_ge; [done|]. rewrite length_app. simpl. lia.
  - apply list_fmap_ext. intros i k Hi%list_elem_of_lookup_2%elem_of_reverse_seq. unfold web_above.
    rewrite take_app_le; [done|lia].
Qed.

(** The first of them that holds, from the greatest number down. *)
Lemma find_above (P : string → Prop) `{!∀ d, Decision (P d)} (f : nat → string) n d :
  snd <$> list_find P (f <$> rev (seq 0 n)) = Some d →
  ∃ k, k < n ∧ d = f k ∧ P d ∧ ∀ k', k < k' < n → ¬ P (f k').
Proof.
  induction n as [|n IH]; [done|]. rewrite seq_S, rev_app_distr. cbn [rev app fmap list_fmap list_find].
  case_decide as HP.
  - intros [= <-]. exists n. repeat split; [lia|done|]. intros k' ?. lia.
  - intros Hf. destruct IH as (k & Hk & -> & HPk & Hmax).
    { destruct (list_find P (f <$> rev (seq 0 n))) as [[i x]|]; [|done]. by simpl in *. }
    exists k. split; [lia|]. split; [done|]. split; [done|]. intros k' Hk'.
    destruct (decide (k' = n)) as [-> |]; [done|]. apply Hmax. lia.
Qed.

Lemma web_above_length elems : Forall kept elems → length elems < S (String.length (path_of elems)).
Proof.
  intros Hk. unfold path_of. rewrite length_append. destruct elems as [|e elems]; [simpl; lia|].
  pose proof (length_join (e :: elems)) as Hl. specialize (Hl ltac:(done)).
  assert (length (e :: elems) ≤ total (e :: elems)); [|simpl in *; lia]. clear Hl Hk.
  generalize (e :: elems) as l. induction l as [|x l IH]; simpl in *; lia.
Qed.

(** the walk up from the working directory ends, so findWebDir returns; a
    directory it returns has an index.html; and when no web directory beside
    the executable has one, it returns the web directory of the nearest of the
    working directory and its ancestors up to the root, or none when none of
    them has an index.html. *)
Theorem web_dir_found (executable getwd : option string) (stat : string → option bool) (fuel : nat)
    (Hfuel : ∀ cwd, getwd = Some cwd → String.length cwd + 1 < fuel) :
  ∃ r, findWebDir executable getwd stat fuel = Some r ∧
    (∀ d, r = Some d → has_index stat d = true) ∧
    (∀ elems, getwd = Some (path_of elems) → Forall kept elems →
      (∀ exe, executable = Some exe → has_index stat (Join (Dir exe) "web") = false) →
      match r with
      | Some d => ∃ k, k ≤ length elems ∧ d = web_above elems k ∧
          ∀ k', k < k' ≤ length elems → has_index stat (web_above elems k') = false
      | None => ∀ k, k ≤ length elems → has_index stat (web_above elems k) = false
      end).
Proof.
  unfold findWebDir. set (beside := match executable with Some exe => _ | None => _ end).
  assert (∃ above, match getwd with Some cwd => parents fuel cwd | None => Some [] end = Some above) as [above Habove].
  { destruct getwd as [cwd|]; [|by eexists]. by apply parents_end, Hfuel. }
  rewrite Habove. eexists. split; [done|]. split.
  { intros d Hd. destruct (list_find _ _) as [[i d']|] eqn:Hf; [|done]. simpl in Hd. simplify_eq.
    by apply list_find_Some in Hf as (_ & ? & _). }
  intros elems -> Hk Hexe.
  rewrite parents_path in Habove by (done || specialize (Hfuel _ eq_refl); pose proof (web_above_length elems Hk); lia).
  apply (inj Some) in Habove as <-.
  assert (list_find (λ d, has_index stat d = true) beside = None) as Hb.
  { apply list_find_None. unfold beside. destruct executable as [exe|]; [|by constructor].
    apply Forall_singleton. by rewrite Hexe. }
  rewrite list_find_app_r, <-option_fmap_compose by done. change (snd ∘ prod_map _ id) with (@snd nat string).
  destruct (snd <$> list_find _ _) as [d|] eqn:Hf.
  - apply find_above in Hf as (k & Hkn & -> & _ & Hmax). exists k. split; [lia|]. split; [done|].
    intros k' Hk'. apply not_true_iff_false, Hmax. lia.
  - apply fmap_None, list_find_None in Hf. rewrite Forall_fmap, Forall_forall in Hf.
    intros k Hkn. apply not_true_iff_false, (Hf k). rewrite list_elem_of_In, <-in_rev, <-list_elem_of_In, elem_of_seq. lia.
Qed.

(** A checkout: the working directory is below the one with web/index.html. *)
Definition checkout (p : string) : option bool :=
  if bool_decide (p = "/home/n/speakeasy/web/index.html") then Some false else None.

Lemma web_dir_found_witness :
  ∃ r, findWebDir (Some "/tmp/go-build/mesh") (Some "/home/n/speakeasy/cmd/mesh") checkout 40 = Some r ∧
       r = Some "/home/n/speakeasy/web".
Proof.
  destruct (web_dir_found (Some "/tmp/go-build/mesh") (Some "/home/n/speakeasy/cmd/mesh") checkout 40) as (r & Hr & _).
  - intros cwd [= <-]. simpl. lia.
  - exists r. split; [exact Hr|]. vm_compute in Hr. by injection Hr as <-.
Defined.
