(* ===== verification/PeerWire.v ===== *)
(** * PeerWire: two proxies of the mesh, talking to each other.

    [peer_doer] carries the request of a node's HTTP client over a stream to
    the MeshServeHTTP of a peer and the response back, so that what a node
    does about a peer and what the peer answers are one program.  The world
    of the asking node is the state of the peer. *)
From Stdlib Require Import Ascii String.
From S2P Require Import Prelude GoStrings Json Api Mux ModelDex JsonClient ApiClient EndToEnd.
From S2P Require Import Proxy.

Section PeerWire.
Context `{!MapOrder} `{!JsonText} `{!TimeText} `{!NewRequestText} `{!URLText}.
Context (unicode_lower : string → string) {W : Type}.
(** What the peer itself talks to. *)
Context (GetPeerMap : prog W (result error (gmap string PeerNode))).
Context (ClientForPeer : PeerNode → Doer W) (GetPeerMeshInfo : PeerNode → MeshInfo).
Context (admin_rt : Doer W).
Implicit Types (t : @px_state W).

Abbreviation peer_serve :=
  (MeshServeHTTP unicode_lower GetPeerMap ClientForPeer GetPeerMeshInfo admin_rt).

(** Service.streamHandler: the request as it reaches the peer's handler. *)
Definition mesh_received (r : px_request) : px_request :=
  {| pq_method := r.(pq_method); pq_path := r.(pq_path); pq_body := r.(pq_body);
     pq_header := header_set "X-Mesh" "true" r.(pq_header) |}.

(** The request of an HTTP client below the base address [base]. *)
Definition peer_request (base : string) (req : http_request) : px_request :=
  mesh_received {| pq_method := req.(hq_method); pq_path := trim_prefix base req.(hq_url);
    pq_body := Ok (default "" req.(hq_body));
    pq_header := if bool_decide (req.(hq_auth) = "") then ∅
                 else {[ "Authorization" := [req.(hq_auth)] ]} |}.

(** [other] is what comes back of the outcomes that are not an answer. *)
Definition peer_doer (seed : nat → nat) (base : string) (other : outcome → result error http_response)
    : Doer (@px_state W) := λ req,
  let* o := peer_serve seed (peer_request base req) in
  Ret (match o with Answer resp => Ok (wire_response resp) | o => other o end).

(** ** What survives the announcement *)

(** A route without its providers and peers. *)
Definition announced_form (r : ModelRoute) : ModelRoute := with_peers None (with_providers [] r).

(** Names in UTF-8, a context length that fits an int, a time RFC 3339 has. *)
Definition route_ok (r : ModelRoute) : bool :=
  utf8_ok r.(mr_Name) && utf8_ok r.(mr_Model) && forallb utf8_ok r.(Capabilities)
  && utf8_ok r.(Owner) && bool_decide (- 2 ^ 63 ≤ r.(ContextLength) < 2 ^ 63)%Z
  && time_ok r.(ModifiedAt).

Lemma enc_route_utf8 r : route_ok r = true → json_utf8 (enc_route r) = true.
Proof.
  unfold route_ok. rewrite !andb_true_iff. intros (((((Hn & Hm) & Hc) & Ho) & _) & _).
  unfold enc_route. cbn [json_utf8 forallb fst snd].
  fold (json_utf8 (strings (Capabilities r))). by rewrite Hn, Hm, Ho, strings_utf8, time_print_utf8.
Qed.

Lemma dec_route_enc r : route_ok r = true → dec_route (enc_route r) route_zero = (announced_form r, true).
Proof.
  unfold route_ok. rewrite !andb_true_iff, bool_decide_eq_true. intros (((((Hn & Hm) & Hc) & Ho) & Hl) & Ht).
  unfold dec_route, enc_route. decode_obj. rewrite dec_strings. decode_obj. by destruct r.
Qed.

Lemma dec_models_enc l :
  Forall (λ r, route_ok r = true) l → dec_models (enc_models l) [] = (announced_form <$> l, true).
Proof.
  intros Hl. unfold dec_models, enc_models, dec_struct, dec_fields. decode_keys. cbv iota.
  assert (dec_elems dec_route route_zero (enc_route <$> l) = (announced_form <$> l, true)) as Hel.
  { induction Hl as [|r l Hr _ IH]; [done|]. rewrite !fmap_cons. cbn [dec_elems].
    by rewrite dec_route_enc, IH by done. }
  unfold dec_list. by rewrite Hel.
Qed.

Lemma enc_models_utf8 l : Forall (λ r, route_ok r = true) l → json_utf8 (enc_models l) = true.
Proof.
  intros Hl. unfold enc_models. cbn [json_utf8 forallb fst snd].
  assert (forallb json_utf8 (enc_route <$> l) = true) as ->; [|done].
  induction Hl as [|r l Hr _ IH]; [done|]. rewrite fmap_cons. cbn [forallb].
  by rewrite enc_route_utf8, IH.
Qed.

Lemma all_routes_ok l : forallb route_ok l = true → Forall (λ r, route_ok r = true) l.
Proof. rewrite forallb_forall, Forall_forall. intros Hl r Hr. by apply Hl, list_elem_of_In. Qed.

Lemma models_by_name_spec l :
  (∀ name r, models_by_name l !! name = Some r → r ∈ l ∧ r.(mr_Name) = name) ∧
  (∀ r, r ∈ l → is_Some (models_by_name l !! r.(mr_Name))).
Proof.
  unfold models_by_name. induction l as [|x l [IHl IHr]] using rev_ind.
  { cbn [foldl]. split; [intros name r; by rewrite lookup_empty|by intros r ?%not_elem_of_nil]. }
  rewrite foldl_app. cbn [foldl]. split.
  - intros name r [[<- <-]|[_ [? ?]%IHl]]%lookup_insert_Some; set_solver.
  - intros r [Hr| ->%list_elem_of_singleton]%elem_of_app.
    + destruct (decide (x.(mr_Name) = r.(mr_Name))) as [->|Hne].
      * rewrite lookup_insert_eq. by eexists.
      * rewrite lookup_insert_ne by done. by apply IHr.
    + rewrite lookup_insert_eq. by eexists.
Qed.

(** The call of GetModelsMesh and the handler of the peer as one. *)
Lemma run_GetModelsMesh seed' other peer (rt : PeerNode → Doer (@px_state W)) t :
  let base := "http://" +:+ peer.(Name) +:+ ".mesh" in
  let exported := ListExportedModels (seed' 0) t.1.(px_router) in
  rt peer = peer_doer seed' base other → new_request_err "GET" (base +:+ "/.mesh/models") = None →
  Forall (λ r, route_ok r = true) exported →
  run (GetModelsMesh rt peer) t = (t, Ok (models_by_name (announced_form <$> exported))).
Proof.
  intros base exported Hrt Hnew Hok. unfold GetModelsMesh, Client_Get, Client_Do, newRequest.
  rewrite Hrt. cbn [NewClient Address]. fold base. rewrite Hnew.
  rewrite !run_bind. unfold peer_doer. rewrite run_bind. unfold peer_request. cbn [hq_url hq_method].
  rewrite trim_prefix_app. unfold MeshServeHTTP. cbn [mesh_received pq_path].
  rewrite bool_decide_false by (by apply not_model_path).
  unfold mux_ServeHTTP. cbn [mesh_received pq_path pq_method].
  change (tail (split_on slash "/.mesh/models")) with [".mesh"; "models"].
  rewrite route_mesh_models. unfold meshModels. rewrite run_bind, run_look. fold exported.
  unfold answer_json. cbn [run wire_response hs_body hs_code r_status r_body].
  rewrite bool_decide_false by (intros Hne; by apply Hne).
  rewrite unmarshal_wire by (by apply enc_models_utf8). rewrite dec_models_enc by done. done.
Qed.

(** An update that got the models of the peer merges them. *)
Lemma run_OnPeerUpdate {W'} `{!GoRetry W'} seed (rt : PeerNode → Doer W') peer models p (w : W') :
  run (GetModelsMesh rt peer) w = (w, Ok models) →
  run (OnPeerUpdate rt seed peer false) (p, w) =
    ((broadcast (with_router (AddPeerModels seed peer models p.(px_router)) (broadcast p)), w), None).
Proof.
  intros Hget. unfold OnPeerUpdate. rewrite run_bind. unfold change at 1. rewrite run_atomically. cbn [fst snd].
  rewrite run_bind, run_on_world. cbn [fst snd]. rewrite retry_attempts. cbn [attempts].
  rewrite run_bind, Hget. cbn [run fst snd].
  rewrite !run_bind. unfold change. by rewrite !run_atomically.
Qed.

(** ** Properties *)

(** What a node learns about a peer.  When the announcement of a peer is
    asked for over the mesh, the asking node gets, by name, exactly the
    routes that the peer serves itself and does not keep private, without
    addresses, tokens or peers, and merges them as served by that peer, at the
    first attempt and without changing it. *)
Theorem peer_update_learns_exports `{!GoRetry (@px_state W)} seed seed' other (peer : PeerNode)
    (rt : PeerNode → Doer (@px_state W)) (p : Proxy) t :
  let base := "http://" +:+ peer.(Name) +:+ ".mesh" in
  let exported := ListExportedModels (seed' 0) t.1.(px_router) in
  rt peer = peer_doer seed' base other → new_request_err "GET" (base +:+ "/.mesh/models") = None →
  forallb route_ok exported = true →
  let learned := models_by_name (announced_form <$> exported) in
  run (OnPeerUpdate rt seed peer false) (p, t) =
    ((broadcast (with_router (AddPeerModels seed peer learned p.(px_router)) (broadcast p)), t), None) ∧
  (∀ name r, learned !! name = Some r → r.(providers) = [] ∧ r.(peers) = None ∧
     ∃ r0, r0 ∈ exported ∧ r = announced_form r0 ∧ r0.(mr_Name) = name) ∧
  (∀ r0, r0 ∈ exported → is_Some (learned !! r0.(mr_Name))).
Proof.
  intros base exported Hrt Hnew Hok%all_routes_ok learned.
  destruct (models_by_name_spec (announced_form <$> exported)) as [Hsound Hcomplete]. split_and!.
  - apply run_OnPeerUpdate. by apply (run_GetModelsMesh seed' other).
  - intros name r [(r0 & -> & Hr0)%list_elem_of_fmap Hname]%Hsound. naive_solver.
  - intros r0 Hr0. apply (Hcomplete (announced_form r0)). apply list_elem_of_fmap. by exists r0.
Qed.

(** C8: A forwarded request arrives, and is decided, the way it was decided
    here.  If ServeHTTP sends a request on a model to a peer, then the node
    has a route without a local provider for the model, and the receiving
    node, whatever its state, reads the same body and the same model: it
    serves the request from its first local provider of that model, and
    answers 404 when it has none. *)
Theorem relay_reaches_provider {V} GetPeerMap' ClientForPeer' GetPeerMeshInfo' admin_rt'
    seed seed' r (s s' : @px_state V) dest r' t sent :
  r.(pq_path) ∈ ["/v1/chat/completions"; "/v1/responses"] → r.(pq_body) = Ok sent →
  run (px_ServeHTTP unicode_lower GetPeerMap' ClientForPeer' GetPeerMeshInfo' admin_rt' seed r) s
    = (s', ToPeer dest r') →
  let body := limit (maxBody + 1) sent in
  let model := peekModel unicode_lower body in
  s' = s ∧ r'.(pq_body) = Ok body ∧
  (∃ route, GetModelRoute model s.1.(px_router) = Some route ∧ GetLocalRoute route = None ∧
     dest ∈ GetPeers (seed 0) s.1.(px_router).(rt_heap) route) ∧
  run (peer_serve seed' (mesh_received r')) t =
    (t, match GetModelRoute model t.1.(px_router) ≫= GetLocalRoute with
        | Some local => match url_parse local.(lr_BaseURL) with
                        | Err _ => not_found "model not found"
                        | Ok u => ToUpstream u (direct local (mesh_received r') body)
                        end
        | None => not_found "model not found"
        end).
Proof.
  intros Hpath Hsent Hrun body model. unfold px_ServeHTTP in Hrun.
  rewrite bool_decide_true, (run_proxyModelRequest _ _ _ _ _ _ Hsent) in Hrun by set_solver.
  fold body model in Hrun. injection Hrun as <- Hout.
  destruct (GetModelRoute model (px_router s.1)) as [route|] eqn:Hroute; [|done].
  destruct (GetLocalRoute route) as [local|] eqn:Hlocal; [by destruct (url_parse _)|].
  destruct (GetMeshPeerRoute _ _ route) as [d|] eqn:Hdest; [|done]. injection Hout as <- <-.
  split_and!; [done..| |].
  - exists route. split_and!; [done..|]. unfold GetPeers. unfold GetMeshPeerRoute in Hdest.
    apply fmap_Some in Hdest as (x & Hx & ->). apply list_elem_of_fmap. exists x. split; [done|].
    by apply head_Some_elem_of.
  - unfold MeshServeHTTP. cbn [mesh_received pq_path].
    rewrite bool_decide_true by (unfold proxyHandleURLS; set_solver).
    rewrite (run_proxyModelRequest _ _ _ _ body) by done. unfold body at 1 2 3.
    rewrite limit_idemp by (by vm_compute). fold body model.
    destruct (GetModelRoute model (px_router t.1)) as [route'|]; [|done]. simpl.
    by destruct (GetLocalRoute route').
Qed.

(** Only half of the model paths work through the mesh: a request for a
    model on /api/chat is sent to a peer like the others, and the peer, which
    does not know this path, answers 404 whatever models it serves. *)
Theorem api_chat_lost_in_mesh {V} GetPeerMap' ClientForPeer' GetPeerMeshInfo' admin_rt'
    seed seed' r (s s' : @px_state V) dest r' t :
  r.(pq_path) = "/api/chat" → r.(pq_method) = "POST" →
  run (px_ServeHTTP unicode_lower GetPeerMap' ClientForPeer' GetPeerMeshInfo' admin_rt' seed r) s
    = (s', ToPeer dest r') →
  run (peer_serve seed' (mesh_received r')) t =
    (t, Answer (Response StatusNotFound
          (BText "Custom 404: The page you are looking for does not exist."))).
Proof.
  intros Hpath Hmethod Hrun. unfold px_ServeHTTP in Hrun.
  rewrite bool_decide_true in Hrun by (rewrite Hpath; set_solver).
  destruct (pq_body r) as [sent|e] eqn:Hsent; [|unfold proxyModelRequest in Hrun; by rewrite Hsent in Hrun].
  rewrite (run_proxyModelRequest _ _ _ _ _ _ Hsent) in Hrun. injection Hrun as <- Hout.
  destruct (GetModelRoute _ _) as [route|]; [|done].
  destruct (GetLocalRoute route) as [local|]; [by destruct (url_parse _)|].
  destruct (GetMeshPeerRoute _ _ route) as [d|]; [|done]. injection Hout as <- <-.
  unfold MeshServeHTTP. cbn [mesh_received pq_path]. rewrite Hpath.
  rewrite bool_decide_false by (by apply not_model_path).
  unfold mux_ServeHTTP. cbn [mesh_received pq_path pq_method]. rewrite ?Hpath, Hmethod.
  change (tail (split_on slash "/api/chat")) with ["api"; "chat"]. by rewrite route_api_chat.
Qed.
End PeerWire.

(** ** Witnesses *)

Import ProxyEx.

Module PeerEx.
(** Alice has no provider of her own and learned of a model from Bob, whose
    provider is not private. *)
Definition alice_router : ModelRouter := AddPeerModels 0 bob announced (NewModelDiscovery self []).
Definition bob_router : ModelRouter := Refresh 0 no_upstream (NewModelDiscovery bob [local2]).
Definition alice : @px_state () := (px_of alice_router, ()).
Definition bobs : @px_state () := (px_of bob_router, ()).
Definition nothing (o : outcome) : result error http_response := Err (OtherError "not answered").
Definition to_bob (n : PeerNode) : Doer (@px_state ()) :=
  peer_doer id no_peers (λ _, dial_failure) no_info admin_ok (λ _, 0) "http://bob.mesh" nothing.
Definition relayed (path : string) : outcome := (run (px_ServeHTTP id no_peers (λ _, dial_failure) no_info
  admin_ok (λ _, 0) (ask path "llama")) alice).2.
End PeerEx.
Import PeerEx.

Lemma peer_update_learns_exports_witness :
  ∃ p, run (OnPeerUpdate to_bob 0 bob false) (px_of (NewModelDiscovery self []), bobs)
    = ((p, bobs), None) ∧ mr_Name <$> MeshModels (px_router p) !! "llama" = Some "llama".
Proof.
  eexists. split.
  - apply (peer_update_learns_exports id no_peers (λ _, dial_failure) no_info admin_ok 0 (λ _, 0) nothing
      bob to_bob (px_of (NewModelDiscovery self [])) bobs).
    + done.
    + done.
    + by vm_compute.
  - by vm_compute.
Defined.

Lemma relay_reaches_provider_witness :
  ∃ r', relayed "/v1/responses" = ToPeer bob r' ∧
    ∃ u r'', (run (MeshServeHTTP id no_peers (λ _, dial_failure) no_info admin_ok (λ _, 0)
                     (mesh_received r')) bobs).2 = ToUpstream u r'' ∧ pq_body r'' = pq_body r'.
Proof.
  destruct (relayed "/v1/responses") as [|?|d r'|?| |] eqn:Hout; try by vm_compute in Hout.
  assert (d = bob) as -> by (vm_compute in Hout; by injection Hout).
  exists r'. split; [done|].
  destruct (relay_reaches_provider id no_peers (λ _, dial_failure) no_info admin_ok no_peers
    (λ _, dial_failure) no_info admin_ok (λ _, 0) (λ _, 0) (ask "/v1/responses" "llama") alice alice bob r' bobs
    (json_print (JObj [("model", JStr "llama")]))) as (_ & Hbody & _ & Hserve).
  - clear; set_solver.
  - done.
  - rewrite (surjective_pairing (run _ alice)). unfold relayed in Hout. by rewrite Hout.
  - rewrite Hserve, Hbody. cbn [snd].
    match goal with |- context [match ?m with Some _ => _ | None => _ end] =>
      assert (m = Some {| lr_BaseURL := "http://two"; lr_Token := "" |}) as -> by (by vm_compute)
    end.
    cbn [url_parse any_url lr_BaseURL]. eexists _, _. split; [reflexivity|]. reflexivity.
Defined.

Lemma api_chat_lost_in_mesh_witness :
  ∃ r', relayed "/api/chat" = ToPeer bob r' ∧
    (run (MeshServeHTTP id no_peers (λ _, dial_failure) no_info admin_ok (λ _, 0)
            (mesh_received r')) bobs).2 =
      Answer (Response StatusNotFound
        (BText "Custom 404: The page you are looking for does not exist.")).
Proof.
  destruct (relayed "/api/chat") as [|?|d r'|?| |] eqn:Hout; try by vm_compute in Hout.
  assert (d = bob) as -> by (vm_compute in Hout; by injection Hout).
  exists r'. split; [done|].
  erewrite (api_chat_lost_in_mesh id no_peers (λ _, dial_failure) no_info admin_ok no_peers
    (λ _, dial_failure) no_info admin_ok (λ _, 0) (λ _, 0) (ask "/api/chat" "llama") alice alice bob r' bobs);
    [done..|].
  rewrite (surjective_pairing (run _ alice)). unfold relayed in Hout. by rewrite Hout.
Defined.
