(* ===== verification/MeshMembers.v ===== *)
(** * MeshMembers: the members of the mesh as a node shows them.

    meshMembers (pkg/proxy/handlers_mesh.go) asks every node the membership
    server names for its status (pkg/proxy/client.go GetMeshStatus) and lists
    the answers; GetMeshMembers asks a peer for that list.  The theorem runs
    both hops: the node that asks, the peer that answers, and the peers that
    it asks in turn. *)
From Stdlib Require Import Ascii String.
From S2P Require Import Prelude GoStrings Json Api Mux ModelDex JsonClient ApiClient EndToEnd.
From S2P Require Import Proxy PeerWire.

(** ** MeshMembersResponse and MeshClient.GetMeshMembers *)

Definition dec_members : decoder (list NodeStatus) := dec_struct (λ k v nodes,
  if key_is "Nodes" k then dec_list dec_status ns_zero v nodes else (nodes, true)).

(** NewMeshClient: the base address of the client of a peer. *)
Definition NewMeshClient (address : string) : Client := NewClient ("http://" +:+ address +:+ ".mesh") "".
Definition GetMeshMembers {W} (rt : Doer W) `{!JsonText} `{!NewRequestText} (address : string)
    : prog W (list NodeStatus * option error) :=
  Client_Get rt (NewMeshClient address) "/.mesh/members" dec_members [].

(** ** A status crosses the wire *)

Definition connection_ok (c : PeerConnectionDetails) : bool :=
  utf8_ok c.(pc_PeerID) && utf8_ok c.(pc_PeerName) && utf8_ok c.(pc_Kind) && utf8_ok c.(pc_RemoteAddress)
  && utf8_ok c.(pc_LocalAddress) && utf8_ok c.(pc_Direction) && utf8_ok c.(pc_Security)
  && utf8_ok c.(pc_Multiplexer) && bool_decide (- 2 ^ 63 ≤ c.(pc_StreamCount) < 2 ^ 63)%Z
  && forallb utf8_ok c.(pc_Streams).
Definition info_ok (i : MeshInfo) : bool :=
  forallb utf8_ok i.(AdvertisedAddresses) && forallb connection_ok i.(Connections).
Definition status_ok (st : NodeStatus) : bool :=
  utf8_ok st.(ns_Name) && utf8_ok st.(ns_PeerID) && utf8_ok st.(ns_Type) && forallb utf8_ok st.(ns_Models)
  && match st.(ns_Mesh) with Some i => info_ok i | None => true end.

Lemma dec_connection_enc c : connection_ok c = true → dec_connection (enc_connection c) conn_zero = (c, true).
Proof.
  unfold connection_ok. rewrite !andb_true_iff, bool_decide_eq_true. intros [[_ Hn] _].
  unfold dec_connection, enc_connection. decode_obj. rewrite dec_strings. by destruct c.
Qed.

Lemma dec_connections_enc l :
  forallb connection_ok l = true → dec_elems dec_connection conn_zero (enc_connection <$> l) = (l, true).
Proof.
  intros Hl. apply (dec_list_map enc_connection dec_connection conn_zero l []).
  rewrite forallb_forall in Hl. apply Forall_forall. intros c Hc. apply dec_connection_enc, Hl.
  by apply list_elem_of_In.
Qed.

Lemma dec_info_enc i old : info_ok i = true → dec_info (enc_info i) old = (i, true).
Proof.
  unfold info_ok. rewrite andb_true_iff. intros [_ Hc]. destruct i, old.
  unfold dec_info, enc_info. decode_obj. rewrite dec_strings. simpl. by rewrite dec_connections_enc.
Qed.

Lemma dec_status_enc st : status_ok st = true → dec_status (enc_status st) ns_zero = (st, true).
Proof.
  unfold status_ok. rewrite andb_true_iff. intros [_ Hi]. destruct st as [n p t r m i]. cbn [ns_Mesh] in Hi.
  unfold dec_status, enc_status. decode_obj. rewrite dec_strings. simpl. destruct i as [i|]; [|done].
  unfold dec_pointer. cbn [enc_info]. rewrite dec_info_enc by done. done.
Qed.

Lemma connection_utf8 c : connection_ok c = true → json_utf8 (enc_connection c) = true.
Proof.
  unfold connection_ok. rewrite !andb_true_iff.
  intros (((((((((H1 & H2) & H3) & H4) & H5) & H6) & H7) & H8) & _) & Hs).
  unfold enc_connection. cbn [json_utf8 forallb fst snd]. fold (json_utf8 (strings (pc_Streams c))).
  by rewrite H1, H2, H3, H4, H5, H6, H7, H8, strings_utf8.
Qed.

Lemma json_list_utf8 {A} (ok : A → bool) (enc : A → json) l :
  (∀ x, ok x = true → json_utf8 (enc x) = true) → forallb ok l = true → forallb json_utf8 (enc <$> l) = true.
Proof.
  intros Henc. induction l as [|x l IH]; [done|]. rewrite fmap_cons. cbn [forallb].
  intros [Hx Hl]%andb_true_iff. by rewrite Henc, IH.
Qed.

Lemma status_utf8 st : status_ok st = true → json_utf8 (enc_status st) = true.
Proof.
  unfold status_ok. rewrite !andb_true_iff. intros ((((H1 & H2) & H3) & H4) & Hi).
  unfold enc_status. cbn [json_utf8 forallb fst snd]. fold (json_utf8 (strings (ns_Models st))).
  rewrite H1, H2, H3, strings_utf8 by done. destruct (ns_Mesh st) as [i|]; [|done].
  unfold info_ok in Hi. apply andb_true_iff in Hi as [Ha Hc]. unfold enc_info. cbn [json_utf8 forallb fst snd].
  fold (json_utf8 (strings (AdvertisedAddresses i))). rewrite strings_utf8 by done.
  by rewrite (json_list_utf8 connection_ok enc_connection) by (done || apply connection_utf8).
Qed.

Lemma dec_members_enc l :
  forallb status_ok l = true → dec_members (JObj [("Nodes", match l with [] => JNull | _ => JArr (enc_status <$> l) end)]) []
    = (l, true).
Proof.
  intros Hl. unfold dec_members, dec_struct, dec_fields. decode_keys. cbv iota.
  destruct l as [|st l]; [done|]. rewrite (dec_list_map enc_status dec_status ns_zero); [done|].
  rewrite forallb_forall in Hl. apply Forall_forall. intros x Hx. apply dec_status_enc, Hl. by apply list_elem_of_In.
Qed.

Section Members.
Context `{!MapOrder} `{!JsonText} `{!TimeText} `{!NewRequestText} `{!URLText}.
Context (unicode_lower : string → string).
(** The peers: the states of those that answer, and what they talk to. *)
Context {V : Type} (GetPeerMap' : prog V (result error (gmap string PeerNode))).
Context (ClientForPeer' : PeerNode → Doer V) (info' : PeerNode → MeshInfo) (admin_rt' : Doer V).
Context (seed' : nat → nat) (other : outcome → result error http_response).
Context (online : PeerNode → option (@px_state V)) (down : PeerNode → error).
(** The node that lists its members. *)
Context {W : Type} (GetPeerMap : prog W (result error (gmap string PeerNode))).
Context (ClientForPeer : PeerNode → Doer W) (info : PeerNode → MeshInfo) (admin_rt : Doer W).

Definition peer_base (n : PeerNode) : string := "http://" +:+ n.(Name) +:+ ".mesh".
(** What the client of a peer gets: the answer of the peer when it is online. *)
Definition answers (n : PeerNode) (req : http_request) : result error http_response :=
  match online n with
  | Some t => (run (peer_doer unicode_lower GetPeerMap' ClientForPeer' info' admin_rt' seed' (peer_base n)
                      other req) t).2
  | None => Err (down n)
  end.

(** The status of a node that answers for itself. *)
Definition own_status {X} (info : PeerNode → MeshInfo) (seed : nat) (t : @px_state X) : NodeStatus := {|
  ns_Name := (self_node t.1).(Name); ns_PeerID := (self_node t.1).(ID); ns_Type := "";
  ns_Reachable := true; ns_Models := ListModels seed t.1.(px_router); ns_Mesh := Some (info (self_node t.1)) |}.

(** GetMeshStatus of a peer that answers, and of one that does not. *)
Lemma run_status_serve GPM CFP inf adm seed base (t : @px_state V) :
  run (MeshServeHTTP unicode_lower GPM CFP inf adm seed
         (peer_request base {| hq_method := "GET"; hq_url := base +:+ "/.mesh/status"; hq_auth := "";
                               hq_body := None |})) t =
    (t, Answer (Response StatusOK (BJson (JObj [("Status", enc_status (own_status inf (seed 0) t))])))).
Proof.
  unfold peer_request. cbn [hq_url hq_method]. rewrite trim_prefix_app. unfold MeshServeHTTP.
  cbn [mesh_received pq_path]. rewrite bool_decide_false by (by apply not_model_path).
  unfold mux_ServeHTTP. cbn [mesh_received pq_path pq_method].
  change (tail (split_on slash "/.mesh/status")) with [".mesh"; "status"].
  by rewrite route_mesh_status.
Qed.

(** The client of a peer does not change the node's own world. *)
Context (Hclient : ∀ n req w, run (ClientForPeer n req) w = (w, answers n req)).

Definition peer_ok (n : PeerNode) : Prop :=
  new_request_err "GET" (peer_base n +:+ "/.mesh/status") = None ∧
  ∀ t, online n = Some t → status_ok (own_status info' (seed' 0) t) = true.

Lemma run_GetMeshStatus n w :
  peer_ok n →
  run (GetMeshStatus ClientForPeer n) w = (w, match online n with
    | Some t => (own_status info' (seed' 0) t, None)
    | None => (ns_zero, Some (down n))
    end).
Proof.
  intros [Hnew Hok]. unfold GetMeshStatus, Client_Get, Client_Do, newRequest. cbn [NewClient Address].
  fold (peer_base n). rewrite Hnew, run_bind, Hclient. unfold answers, setAuth. cbn [cl_token fmap option_fmap option_map].
  rewrite bool_decide_false by (intros Hne; by apply Hne).
  destruct (online n) as [t|] eqn:Hon; [|done]. specialize (Hok t eq_refl).
  unfold peer_doer. rewrite run_bind, run_status_serve.
  cbn [run fst snd wire_response hs_body hs_code r_status r_body].
  rewrite bool_decide_false by (intros Hne; by apply Hne). rewrite unmarshal_wire.
  - unfold dec_status_response, dec_struct, dec_fields. decode_keys. cbv iota. by rewrite dec_status_enc.
  - cbn [json_utf8 forallb fst snd]. by rewrite status_utf8.
Qed.

(** How a member appears in the list of the node in state [p]. *)
Definition as_peer (st : NodeStatus) : NodeStatus := {| ns_Name := ns_Name st; ns_PeerID := ns_PeerID st;
  ns_Type := "peer"; ns_Reachable := ns_Reachable st; ns_Models := ns_Models st; ns_Mesh := ns_Mesh st |}.
Definition seen (seed : nat) (p : Proxy) (n : PeerNode) : NodeStatus :=
  if bool_decide (n.(ID) = (self_node p).(ID)) then
    {| ns_Name := n.(Name); ns_PeerID := n.(ID); ns_Type := "self"; ns_Reachable := true;
       ns_Models := ListModels seed p.(px_router); ns_Mesh := Some (info n) |}
  else match online n with
       | Some t => as_peer (own_status info' (seed' 0) t)
       | None => {| ns_Name := n.(Name); ns_PeerID := n.(ID); ns_Type := "peer"; ns_Reachable := false;
                    ns_Models := []; ns_Mesh := None |}
       end.

Lemma run_peer_status seed n p w :
  n.(ID) = (self_node p).(ID) ∨ peer_ok n →
  run (peer_status ClientForPeer info seed n) (p, w) = ((p, w), seen seed p n).
Proof.
  intros Hn. unfold peer_status, seen. rewrite run_bind. unfold look. rewrite run_atomically. cbn [fst snd].
  change (id p) with p. case_bool_decide as Hid; [by rewrite Hid|]. destruct Hn as [?|Hn]; [done|].
  rewrite run_bind, run_on_world, run_GetMeshStatus by done. cbn [fst snd]. by destruct (online n).
Qed.

Lemma run_member_statuses seed peers l p w :
  Forall (λ n, n.(ID) = (self_node p).(ID) ∨ peer_ok n) l →
  run (member_statuses ClientForPeer info seed peers l) (p, w)
    = ((p, w), (λ n, name_connections peers (seen seed p n)) <$> l).
Proof.
  induction 1 as [|n l Hn _ IH]; [done|]. cbn [member_statuses]. rewrite fmap_cons.
  by rewrite run_bind, run_peer_status, run_bind, IH.
Qed.

(** The list of the members is good to encode. *)
Definition members_ok (seed : nat → nat) (p : Proxy) (peers : gmap string PeerNode) : Prop :=
  ∀ n, n ∈ (range (seed 0) peers).*2 → (n.(ID) = (self_node p).(ID) ∨ peer_ok n) ∧
    status_ok (name_connections peers (seen (seed 1) p n)) = true.

(** C12: What a node learns of the members of the mesh from a peer.  When
    GetMeshMembers asks a peer, the peer asks every node that the membership
    server names, and the answer lists each of them exactly once, in some
    order: the peer itself as "self" with its own models; a node that answers
    as reachable, with the name, id and models it has itself and its
    connections named after the members; and a node that does not answer with
    its name and id at the server, unreachable and without models.  Neither
    the peer nor the nodes it asks are changed. *)
Theorem members_over_mesh (seed : nat → nat) (address : string) (p : Proxy) (peers : gmap string PeerNode) (w : W)
    (Hmap : run GetPeerMap w = (w, Ok peers)) (Hok : members_ok seed p peers)
    (Hnew : new_request_err "GET" (("http://" +:+ address +:+ ".mesh") +:+ "/.mesh/members") = None) :
  ∃ nodes,
    run (GetMeshMembers (peer_doer unicode_lower GetPeerMap ClientForPeer info admin_rt seed
           ("http://" +:+ address +:+ ".mesh") other) address) (p, w) = ((p, w), (nodes, None)) ∧
    nodes ≡ₚ (λ kn, name_connections peers (seen (seed 1) p kn.2)) <$> map_to_list peers.
Proof.
  set (nodes := (λ n, name_connections peers (seen (seed 1) p n)) <$> (range (seed 0) peers).*2).
  exists nodes. split; [|unfold nodes; by rewrite <-list_fmap_compose, range_perm].
  assert (forallb status_ok nodes = true) as Hnodes.
  { apply forallb_forall. intros st (n & -> & Hn)%list_elem_of_In%list_elem_of_fmap. by apply Hok. }
  unfold GetMeshMembers, NewMeshClient, Client_Get, Client_Do, newRequest. cbn [NewClient Address].
  set (base := "http://" +:+ address +:+ ".mesh") in *. rewrite Hnew. rewrite run_bind. unfold peer_doer.
  rewrite run_bind. unfold peer_request. cbn [hq_url hq_method]. rewrite trim_prefix_app. unfold MeshServeHTTP.
  cbn [mesh_received pq_path]. rewrite bool_decide_false by (by apply not_model_path).
  unfold mux_ServeHTTP. cbn [mesh_received pq_path pq_method].
  change (tail (split_on slash "/.mesh/members")) with [".mesh"; "members"]. rewrite route_mesh_members.
  unfold meshMembers. rewrite run_bind, run_on_world. cbn [fst snd]. rewrite Hmap. cbn [fst snd].
  rewrite run_bind, run_member_statuses by (apply Forall_forall; intros n Hn; by apply Hok). fold nodes.
  unfold answer_json. cbn [run wire_response hs_body hs_code r_status r_body].
  rewrite bool_decide_false by (intros Hne; by apply Hne). rewrite unmarshal_wire; [by rewrite dec_members_enc|].
  destruct nodes as [|st l]; [done|]. cbn [json_utf8 forallb fst snd]. rewrite andb_true_r.
  apply (json_list_utf8 status_ok enc_status (st :: l)); [apply status_utf8|done].
Qed.
End Members.

(** ** Witness *)

Import ProxyEx PeerEx.

Module MembersEx.
(** Alice lists herself, Bob, who answers, and Carol, who does not. *)
Definition carol : PeerNode := NewPeerNode "12D3KooWc" "carol".
Definition names : gmap string PeerNode := {[ ID self := self; ID bob := bob; ID carol := carol ]}.
Definition up (n : PeerNode) : option (@px_state ()) := if decide (ID n = ID bob) then Some bobs else None.
Definition no_route (n : PeerNode) : error := OtherError "no direct connection".
Definition get_names : prog () (result error (gmap string PeerNode)) := Ret (Ok names).
Definition peer_answers : PeerNode → http_request → result error http_response :=
  answers id no_peers (λ _, dial_failure) no_info admin_ok (λ _, 0) nothing up no_route.
Definition clients (n : PeerNode) : Doer () := λ req, atomically (λ w, (w, peer_answers n req)).
Definition to_alice : Doer (@px_state ()) :=
  peer_doer id get_names clients no_info admin_ok (λ _, 0) "http://alice.mesh" nothing.
End MembersEx.
Import MembersEx.

Lemma members_over_mesh_witness :
  ∃ nodes, (run (GetMeshMembers to_alice "alice") alice).2 = (nodes, None) ∧
    ((λ n, (ns_Name n, ns_Type n, ns_Reachable n, ns_Models n)) <$> nodes) ≡ₚ
      [(Name self, "self", true, ["llama"]); (Name bob, "peer", true, ["llama"]); ("carol", "peer", false, [])].
Proof.
  assert (∀ n req w, run (clients n req) w = (w, peer_answers n req)) as Hclient.
  { intros n req w. unfold clients. by rewrite run_atomically. }
  destruct (members_over_mesh id no_peers (λ _, dial_failure) no_info admin_ok (λ _, 0) nothing up no_route
    get_names clients no_info admin_ok Hclient (λ _, 0) "alice" alice.1 names ()) as (nodes & Hrun & Hperm).
  - done.
  - intros n Hn. assert ((range 0 names).*2 = [self; carol; bob]) as Hr by (by vm_compute). rewrite Hr in Hn.
    rewrite !elem_of_cons, elem_of_nil in Hn. destruct Hn as [-> |[-> |[-> |[]]]]; (split; [|by vm_compute]).
    + by left.
    + right. by split.
    + right. split; [done|]. intros t Ht. injection Ht as <-. by vm_compute.
  - done.
  - exists nodes. split; [exact (f_equal snd Hrun)|]. rewrite Hperm.
    apply (bool_decide_unpack _). by vm_compute.
Defined.
