(* ===== verification/Config.v ===== *)
(** * Config: the configuration of a node (pkg/core/config.go, cmd/mesh).

    The records of config.yaml, its defaults, and what the commands derive
    from it.  The YAML library is the interface [YamlText]; the file, the
    name of the host and the answers of the address discovery are arguments. *)
From Stdlib Require Import Ascii String.
From S2P Require Import Prelude GoStrings Json Api ModelDex JsonClient ApiClient Proxy.

(** ** The records *)

Record AdminConfig := {
  ac_Address : string; ac_Secret : string; AdminPort : Z; RelayPort : Z; ac_PublicAddress : string }.
Record MeshConfig := {
  me_Name : string; me_Address : string; me_Secret : string; me_MeshId : string;
  me_PublicAddress : string; Port : Z; ForcePrivate : bool; MDNSEnabled : bool }.
Record Config := {
  Listen : string; cf_Admin : AdminConfig; cf_Mesh : MeshConfig; Providers : list Provider }.

#[export] Instance model_config_eq : EqDecision ModelConfig.
Proof. solve_decision. Defined.
#[export] Instance provider_eq : EqDecision Provider.
Proof. solve_decision. Defined.
#[export] Instance admin_config_eq : EqDecision AdminConfig.
Proof. solve_decision. Defined.
#[export] Instance mesh_config_eq : EqDecision MeshConfig.
Proof. solve_decision. Defined.
#[export] Instance config_eq : EqDecision Config.
Proof. solve_decision. Defined.

Definition DefaultRelayPort : Z := 4001.
Definition DefaultAdminPort : Z := 4002.
Definition DefaultProxyListen : string := ":4080".

(** Config{} *)
Definition config_zero : Config := {|
  Listen := "";
  cf_Admin := {| ac_Address := ""; ac_Secret := ""; AdminPort := 0; RelayPort := 0; ac_PublicAddress := "" |};
  cf_Mesh := {| me_Name := ""; me_Address := ""; me_Secret := ""; me_MeshId := ""; me_PublicAddress := "";
                Port := 0; ForcePrivate := false; MDNSEnabled := false |};
  Providers := [] |}.

Definition with_mesh (f : MeshConfig → MeshConfig) (c : Config) : Config :=
  {| Listen := Listen c; cf_Admin := cf_Admin c; cf_Mesh := f (cf_Mesh c); Providers := Providers c |}.

(** ** Loading (pkg/core/config.go) *)

(** [hostname] is the name os.Hostname returns, "" with an error. *)
Definition applyConfigDefaults (hostname : string) (c : Config) : Config :=
  let a := cf_Admin c in let m := cf_Mesh c in
  {| Listen := if bool_decide (Listen c = "") then DefaultProxyListen else Listen c;
     cf_Admin := {| ac_Address := ac_Address a; ac_Secret := ac_Secret a;
       AdminPort := if bool_decide (AdminPort a ≤ 0)%Z then DefaultAdminPort else AdminPort a;
       RelayPort := if bool_decide (RelayPort a ≤ 0)%Z then DefaultRelayPort else RelayPort a;
       ac_PublicAddress := ac_PublicAddress a |};
     cf_Mesh := {| me_Name := if bool_decide (me_Name m = "") then hostname else me_Name m;
       me_Address := me_Address m; me_Secret := me_Secret m; me_MeshId := me_MeshId m;
       me_PublicAddress := me_PublicAddress m;
       Port := if bool_decide (Port m ≤ 0)%Z then 0 else Port m;
       ForcePrivate := ForcePrivate m; MDNSEnabled := MDNSEnabled m |};
     Providers := Providers c |}.

(** The YAML library: Unmarshal into a variable and Marshal.  What was
    marshalled is read back into an empty variable. *)
Class YamlText := {
  yaml_decode : string → Config → result error Config;
  yaml_encode : Config → result error string;
  yaml_decode_encode c text : yaml_encode c = Ok text → yaml_decode text config_zero = Ok c
}.

Section Load.
Context `{!YamlText}.

(** [file] is what reading config.yaml gives. *)
Definition LoadConfig (hostname : string) (file : result error string) : result error Config :=
  match file with
  | Err e => Err e
  | Ok data =>
      match yaml_decode data config_zero with
      | Err e => Err e
      | Ok config => Ok (applyConfigDefaults hostname config)
      end
  end.

(** log.Fatalf ends the process with the message. *)
Definition MustLoadConfig (hostname : string) (file : result error string) : result string Config :=
  match LoadConfig hostname file with
  | Err e => Err ("Could not load config.yaml  (Err:" +:+ error_string e +:+ ")" +:+ str1 newline)
  | Ok config =>
      if bool_decide (me_Address (cf_Mesh config) = "")
      then Err "Mesh.Address must be set in config.yaml" else Ok config
  end.
End Load.

(** ** The administration client of the proxy (cmd/mesh/app_proxy.go) *)

Definition adminControllerAddr (c : Config) : option (string * string) :=
  let secret := trim_space (ac_Secret (cf_Admin c)) in
  if bool_decide (secret = "") then None
  else
    let addr := trim_space (ac_Address (cf_Admin c)) in
    let addr := if bool_decide (addr = "") then trim_space (me_Address (cf_Mesh c)) else addr in
    if bool_decide (addr = "") then None else Some (addr, secret).

Definition attachAdminController (c : Config) (p : Proxy) : Proxy :=
  match adminControllerAddr c with
  | None => p
  | Some (addr, secret) => WithAdminController (NewClient addr secret) p
  end.

(** ** Joining a mesh (cmd/mesh/app_join.go) *)

Definition defaultJoinConfig (hostname : string) : Config := {|
  Listen := DefaultProxyListen;
  cf_Admin := {| ac_Address := ""; ac_Secret := ""; AdminPort := DefaultAdminPort;
                 RelayPort := DefaultRelayPort; ac_PublicAddress := "auto" |};
  cf_Mesh := {| me_Name := hostname; me_Address := ""; me_Secret := ""; me_MeshId := "";
                me_PublicAddress := "auto"; Port := 0; ForcePrivate := false; MDNSEnabled := true |};
  Providers := [ {| pv_ID := "localhost"; pv_Type := "ollama"; pv_BaseURL := "http://127.0.0.1:11434";
                    pv_Token := ""; pv_Private := false; pv_Discovery := "pinned"; pv_Models := [] |} ] |}.

Definition configFromInvite (hostname : string) (resp : RedeemInviteResponse) (existing : option Config)
    : Config :=
  with_mesh (λ m, {| me_Name := me_Name m; me_Address := trim_space resp.(rr_MeshServer);
      me_Secret := resp.(rr_MeshSecret); me_MeshId := resp.(rr_MeshId);
      me_PublicAddress := me_PublicAddress m; Port := Port m; ForcePrivate := ForcePrivate m;
      MDNSEnabled := MDNSEnabled m |})
    (default (defaultJoinConfig hostname) existing).

(** The warning of existingJoinConfig; [cwd] is "." when it is not known. *)
Definition existingJoinWarning (cwd abs : string) (cfg : option Config) : string :=
  "Found " +:+ abs +:+ str1 newline +:+ "Working directory: " +:+ cwd +:+ str1 newline +:+
  match cfg with
  | Some c =>
      if bool_decide (me_MeshId (cf_Mesh c) ≠ "" ∨ me_Address (cf_Mesh c) ≠ "")
      then "Current mesh: " +:+ me_MeshId (cf_Mesh c) +:+ " @ " +:+ me_Address (cf_Mesh c) +:+ str1 newline
      else ""
  | None => ""
  end +:+
  "If this is the wrong directory, abort now — redeeming the invite cannot be undone and will replace mesh address, mesh id, and secret in this config.".

(** The node's name in the redemption. *)
Definition join_name (hostname : string) (existing : option Config) : string :=
  match existing with
  | Some c => if bool_decide (trim_space (me_Name (cf_Mesh c)) ≠ "") then me_Name (cf_Mesh c) else hostname
  | None => hostname
  end.

(** joinWithInvite: [load_key] loads or creates the node key, [peer_id] is
    the id of a key, [write] writes config.yaml. *)
Section Join.
Context {W K : Type} (rt : Doer W) (load_key : prog W (result error K)) (peer_id : K → result error string).
Context (write : string → prog W (option error)).
Context `{!YamlText} `{!JsonText} `{!TimeText} `{!NewRequestText} `{!URLText}.

Definition joinWithInvite (hostname : string) (link : string) (existing : option Config)
    : prog W (option error) :=
  let failed msg e := Ret (Some (OtherError (msg +:+ error_string e))) in
  let* key := load_key in
  match key with
  | Err e => failed "node key: " e
  | Ok key =>
      match peer_id key with
      | Err e => failed "peer id: " e
      | Ok id =>
          let* resp := RedeemInvite rt link {| ID := id; Name := join_name hostname existing;
            LogicalTime := 0; LastUpdate := time_zero |} in
          match resp with
          | Err e => failed "redeem invite: " e
          | Ok resp =>
              match yaml_encode (configFromInvite hostname resp existing) with
              | Err e => failed "encode config: " e
              | Ok data =>
                  let* err := write data in
                  match err with
                  | Some e => failed "write config.yaml: " e
                  | None => Ret None
                  end
              end
          end
      end
  end.
End Join.

(** ** Ports (cmd/mesh/app_init.go) *)

(** strconv.Atoi on a 64-bit machine: an optional sign and decimal digits. *)
Definition digit_of (c : ascii) : option Z :=
  let n := Z.of_nat (nat_of_ascii c) in
  if bool_decide (48 ≤ n ≤ 57)%Z then Some (n - 48)%Z else None.
Fixpoint atoi_digits (acc : Z) (s : string) : option Z :=
  match s with
  | "" => Some acc
  | String c s' => match digit_of c with Some d => atoi_digits (10 * acc + d) s' | None => None end
  end.
Definition atoi (s : string) : option Z :=
  let '(sign, ds) := match s with
    | String "-" s' => ((-1)%Z, s')
    | String "+" s' => (1%Z, s')
    | _ => (1%Z, s)
    end in
  if bool_decide (ds = "") then None
  else match atoi_digits 0 ds with
       | Some n => let n := (sign * n)%Z in
                   if bool_decide (- 2 ^ 63 ≤ n < 2 ^ 63)%Z then Some n else None
       | None => None
       end.

Definition validatePort (s : string) : option error :=
  match atoi (trim_space s) with
  | Some n => if bool_decide (n < 0 ∨ 65535 < n)%Z then Some (OtherError "enter a port between 0 and 65535") else None
  | None => Some (OtherError "enter a port between 0 and 65535")
  end.

(** ** Addresses (pkg/autoip, cmd/mesh/main.go) *)

Record AddressDiscovery := { Public : string; Outbound : string }.
Definition IsPublic (d : AddressDiscovery) : bool := bool_decide (Outbound d = Public d).
Definition IsNAT (d : AddressDiscovery) : bool := bool_decide (Outbound d ≠ Public d).

(** OutboundIP: [dial] makes a connection and says what its local address is. *)
Definition outboundAddress : string := "8.8.8.8:80".
Inductive local_addr : Type := UDPAddr (ip : string) | OtherAddr (type : string).
Definition OutboundIP {W} (dial : string → string → prog W (result error local_addr)) : prog W (result error string) :=
  let* conn := dial "udp" outboundAddress in
  Ret (match conn with
       | Err e => Err e
       | Ok (UDPAddr ip) => Ok ip
       | Ok (OtherAddr t) => Err (OtherError ("unexpected local addr type: " +:+ t))
       end).

(** GetPublicAddress: the address the public service answers (only this field
    of its answer is read), and the one of an outbound connection. *)
Definition cloudflareRadarURL : string := "https://ipv4-check-perf.radar.cloudflare.com".
Definition dec_radar : decoder string :=
  dec_struct (λ k v ip, if key_is "ip_address" k then in_field (λ x _, x) id dec_string v ip else (ip, true)).
Definition GetPublicAddress {W} (rt : Doer W) `{!JsonText} `{!NewRequestText}
    (OutboundIP : prog W (result error string)) : prog W (result error AddressDiscovery) :=
  let* (ip, err) := Client_Get rt (NewClient cloudflareRadarURL "") "/api/info" dec_radar "" in
  match err with
  | Some e => Ret (Err e)
  | None =>
      let* outbound := OutboundIP in
      Ret (match outbound with
           | Err e => Err e
           | Ok out => Ok {| Public := ip; Outbound := out |}
           end)
  end.

Definition discoverPublicAddress (found : result error AddressDiscovery) (c : Config) : string :=
  let publicAddress := me_PublicAddress (cf_Mesh c) in
  if bool_decide (publicAddress ∈ [""; "auto"]) then
    match found with
    | Err _ => ""
    | Ok dc => if IsPublic dc then Public dc else if IsNAT dc then Public dc else publicAddress
    end
  else publicAddress.

(** The visibility NewService chooses: the public address of the
    configuration after the call, and whether the node is private. *)
Definition node_visibility (found : result error AddressDiscovery) (m : MeshConfig) : string * bool :=
  let '(addr, isPrivate) :=
    if bool_decide (me_PublicAddress m = "auto") then
      match found with
      | Ok dc => if IsPublic dc then (Public dc, false) else (me_PublicAddress m, true)
      | Err _ => (me_PublicAddress m, true)
      end
    else (me_PublicAddress m, false) in
  (addr, if ForcePrivate m then true else isPrivate).

(** ** Lemmas *)

(** *** Numbers *)

Definition digit_byte (c : ascii) : bool := bool_decide (48 ≤ nat_of_ascii c ≤ 57).

Lemma digit_of_digit d : (0 ≤ d < 10)%Z → digit_of (digit d) = Some d ∧ digit_byte (digit d) = true.
Proof.
  intros Hd. assert (d ∈ seqZ 0 10) as Hin by (apply elem_of_seqZ; lia). clear Hd. revert d Hin.
  apply Forall_forall. by apply (bool_decide_unpack _); vm_compute.
Qed.

Lemma atoi_digits_fuel fuel n acc :
  (0 ≤ n < 10 ^ Z.of_nat (S fuel))%Z → all_bytes digit_byte acc = true →
  let ds := digits_fuel (S fuel) n acc in
  atoi_digits 0 ds = atoi_digits n acc ∧ all_bytes digit_byte ds = true ∧ ds ≠ "".
Proof.
  revert n acc. induction fuel as [|fuel IH]; intros n acc Hn Hacc.
  - assert (0 ≤ n < 10)%Z as Hd by (cbn in Hn; lia). cbn [digits_fuel]. rewrite bool_decide_true, Z.mod_small by lia.
    cbn [atoi_digits all_bytes]. destruct (digit_of_digit n Hd) as [-> ->]. by rewrite Hacc.
  - assert (0 ≤ n mod 10 < 10)%Z as Hd by (apply Z.mod_pos_bound; lia). destruct (digit_of_digit _ Hd) as [Hdig Hb].
    remember (S fuel) as k. cbn [digits_fuel]. case_bool_decide as H10.
    + cbn [atoi_digits all_bytes]. rewrite Hdig, Hb, Hacc, Z.mod_small by lia. done.
    + subst k. assert (0 ≤ n / 10 < 10 ^ Z.of_nat (S fuel))%Z as Hdiv.
      { rewrite Nat2Z.inj_succ, Z.pow_succ_r in Hn by lia. split; [apply Z.div_pos; lia|apply Z.div_lt_upper_bound; lia]. }
      destruct (IH (n / 10)%Z (String (digit (n mod 10)) acc) Hdiv) as [-> Hhead]; [cbn [all_bytes]; by rewrite Hb|].
      split; [|done]. cbn [atoi_digits]. rewrite Hdig. f_equal. pose proof (Z.div_mod n 10). lia.
Qed.

Lemma atoi_itoa n : (0 ≤ n < 2 ^ 63)%Z → atoi (itoa n) = Some n ∧ all_bytes digit_byte (itoa n) = true ∧ itoa n ≠ "".
Proof.
  intros Hn. unfold itoa. rewrite bool_decide_false, Z.abs_eq by lia.
  assert (0 ≤ n < 10 ^ Z.of_nat (S (Z.to_nat (Z.log2 n))))%Z as Hf.
  { split; [lia|]. rewrite Nat2Z.inj_succ, Z2Nat.id by apply Z.log2_nonneg.
    destruct (decide (n = 0)%Z) as [->|]; [done|]. destruct (Z.log2_spec n) as [_ H2]; [lia|].
    eapply Z.lt_le_trans; [done|]. apply Z.pow_le_mono_l; lia. }
  destruct (atoi_digits_fuel _ n "" Hf eq_refl) as (Hat & Hb & Hne). split; [|done].
  destruct (digits_fuel _ n "") as [|c r]; [done|]. assert (c ≠ "-"%char ∧ c ≠ "+"%char) as [Hm Hp].
  { cbn [all_bytes] in Hb. split; intros ->; by vm_compute in Hb. }
  assert (∀ x : Z * string, x = (1%Z, String c r) → (let '(sign, ds) := x in
    if bool_decide (ds = "") then None else match atoi_digits 0 ds with
       | Some n => let n := (sign * n)%Z in if bool_decide (- 2 ^ 63 ≤ n < 2 ^ 63)%Z then Some n else None
       | None => None end) = Some n) as Hparse.
  { intros x ->. rewrite bool_decide_false, Hat by done. cbn [atoi_digits]. by rewrite Z.mul_1_l, bool_decide_true by lia. }
  unfold atoi. apply Hparse. destruct c as [[] [] [] [] [] [] [] []]; try done; by destruct Hm || by destruct Hp.
Qed.


Lemma applyConfigDefaults_idemp h h' c :
  h ≠ "" → applyConfigDefaults h' (applyConfigDefaults h c) = applyConfigDefaults h c.
Proof.
  intros Hh. unfold applyConfigDefaults. destruct c as [l [] [] ps]. simpl.
  f_equal; [| |f_equal]; repeat (case_bool_decide; simplify_eq/=; try done);
    unfold DefaultAdminPort, DefaultRelayPort in *; try lia; done.
Qed.
