(* ===== verification/Streams.v ===== *)
(** * Streams: peers, addresses and streams below the mesh service (pkg/mesh).

    The gatekeeper, the addresses of peers and relays (helpers.go), the node
    key, and the writer that turns a stream into the response of an HTTP
    server (stream_response_writer.go).  libp2p's texts are the interface
    [Libp2pText]. *)
From Stdlib Require Import Ascii String.
From stdpp Require Import sorting.
From S2P Require Import Prelude GoStrings Json Api AllowList Proxy.

(** ** The gatekeeper (gatekeeper.go) *)

(** What the gatekeeper asks of the list it guards with. *)
Class GateProvider (P : Type) := { gate_has : string → P → bool }.

Section GateKeeper.
Context {P : Type} `{!GateProvider P}.

(** [p], [src] and [dest] are the texts of peer ids; the addresses and
    connections that the hooks also get are not looked at. *)
Definition AllowReserve (l : P) (p : string) : bool := gate_has p l.
Definition AllowConnect (l : P) (src dest : string) : bool := gate_has src l && gate_has dest l.
Definition InterceptPeerDial (l : P) (p : string) : bool := gate_has p l.
Definition InterceptAddrDial (l : P) (p : string) : bool := true.
Definition InterceptAccept (l : P) : bool := true.
Definition InterceptSecured (l : P) (p : string) : bool := gate_has p l.
Definition InterceptUpgraded (l : P) : bool := true.
End GateKeeper.

(** The allow list of the server is what the relay guards with. *)
#[export] Instance allow_list_gate : GateProvider AllowList :=
  {| gate_has id l := (run (Has id) l).2 |}.

(** ** Ending the process *)

(** log.Fatalf and panic end the process. *)
Inductive exits (A : Type) : Type :=
  | Returned (a : A)
  | Exited (msg : string).
Arguments Returned {A} a.
Arguments Exited {A} msg.

(** ** Addresses (helpers.go, relay.go) *)

(** peer.AddrInfo; a multiaddress is its text. *)
Record AddrInfo := { ai_ID : string; Addrs : list string }.

(** peer.AddrInfoFromString, peer.Decode, ma.NewMultiaddr, whether an address
    has a /p2p-circuit component, and the text fmt's %q makes. *)
Class Libp2pText := {
  quoted : string → string;
  addr_info_parse : string → result string AddrInfo;
  peer_decode : string → result string string;
  new_multiaddr : string → result string string;
  is_circuit : string → bool
}.

Definition OllamaProtocol : string := "/ollama/0.0.1".

Section Addresses.
Context `{!Libp2pText}.

(** The first address of the relay is indexed without a check. *)
Definition CircuitAddr (relay : AddrInfo) (dest : string) : exits (result string string) :=
  match relay.(Addrs) with
  | [] => Exited "index out of range"
  | a :: _ => Returned (new_multiaddr (a +:+ "/p2p/" +:+ relay.(ai_ID) +:+ "/p2p-circuit/p2p/" +:+ dest))
  end.

Definition ParseAddrInfo (s : string) : result error AddrInfo :=
  match addr_info_parse s with
  | Ok ai => Ok ai
  | Err err =>
      match peer_decode s with
      | Err idErr => Err (OtherError ("parse " +:+ quoted s +:+ ": " +:+ err +:+ " (also not a peer id: " +:+ idErr +:+ ")"))
      | Ok id => Ok {| ai_ID := id; Addrs := [] |}
      end
  end.

(** AddDestViaRelay: the id of the peer, and the addresses that are recorded
    for it in the peer store. *)
Definition AddDestViaRelay (relay : AddrInfo) (dest : string) : exits (string * list string) :=
  match ParseAddrInfo dest with
  | Err e => Exited (error_string e)
  | Ok info =>
      if existsb is_circuit info.(Addrs) then Returned (info.(ai_ID), info.(Addrs))
      else match CircuitAddr relay info.(ai_ID) with
           | Exited msg => Exited msg
           | Returned (Err msg) => Exited msg
           | Returned (Ok circ) => Returned (info.(ai_ID), [circ])
           end
  end.

(** PeerAddrInfoFromMulti: the addresses grouped by peer; the result is in the
    order of the iteration [seed] over the peers. *)
Fixpoint group_addrs (l : list string) (byID : gmap string AddrInfo) : exits (gmap string AddrInfo) :=
  match l with
  | [] => Returned byID
  | s :: l' =>
      match addr_info_parse s with
      | Err msg => Exited msg
      | Ok ai =>
          group_addrs l' (<[ai.(ai_ID) := match byID !! ai.(ai_ID) with
            | Some old => {| ai_ID := old.(ai_ID); Addrs := old.(Addrs) ++ ai.(Addrs) |}
            | None => ai
            end]> byID)
      end
  end.
Definition PeerAddrInfoFromMulti `{!MapOrder} (seed : nat) (l : list string) : exits (list AddrInfo) :=
  match group_addrs l ∅ with
  | Exited msg => Exited msg
  | Returned byID => Returned (range seed byID).*2
  end.
End Addresses.

(** Relay.GetAddresses: the host's addresses with its id. *)
Definition Relay_GetAddresses (addrs : list string) (id : string) : list string :=
  (λ a, a +:+ "/p2p/" +:+ id) <$> addrs.

(** ConnKind, of a connection: is its remote address a circuit, and is it
    limited. *)
Definition ConnKind (circuit limited : bool) : string :=
  if circuit then (if limited then "relay/limited" else "relay/unlimited")
  else if limited then "limited" else "direct".

(** WaitForAddress: the last address that ends in p2p-circuit, "" if there is
    none. *)
Definition circuit_address (addrs : list string) : string :=
  foldl (λ acc a, if has_suffix "p2p-circuit" a then a else acc) "" addrs.
(** [addrs n] is what the host's n-th call of Addrs returns; None when [fuel]
    calls were not enough. *)
Fixpoint WaitForAddress (fuel : nat) (addrs : nat → list string) (once : bool) : option string :=
  match fuel with
  | O => None
  | S fuel =>
      let hasCircuit := circuit_address (addrs 0) in
      if bool_decide (hasCircuit ≠ "") then Some hasCircuit
      else if once then Some ""
      else WaitForAddress fuel (λ n, addrs (S n)) once
  end.

(** ** The node key (helpers.go) *)

(** os.ReadFile of the key. *)
Inductive key_file : Type := KeyBytes (b : string) | KeyMissing | KeyError (e : error).

Section Keys.
Context {K : Type}.
Context (UnmarshalPrivateKey : string → result error K) (MarshalPrivateKey : K → result error string).

(** [generate] is what GenerateEd25519Key returns and [write] what
    os.WriteFile does; the state is the file. *)
Definition LoadOrCreateKey (path : string) (generate : result error K) (write : option error)
    : prog key_file (result error K) :=
  if bool_decide (path = "") then Ret generate
  else
    let* f := atomically (λ f, (f, f)) in
    match f with
    | KeyBytes b => Ret (UnmarshalPrivateKey b)
    | KeyError e => Ret (Err e)
    | KeyMissing =>
        match generate with
        | Err e => Ret (Err e)
        | Ok key =>
            match MarshalPrivateKey key with
            | Err e => Ret (Err e)
            | Ok b =>
                match write with
                | Some e => Ret (Err e)
                | None => let* _ := atomically (λ _, (KeyBytes b, ())) in Ret (Ok key)
                end
            end
        end
    end.
End Keys.

(** ** The response of a stream (stream_response_writer.go) *)

Abbreviation header := (gmap string (list string)).
Definition crlf : string := String "013" (String newline "").

Record streamResponseWriter := {
  out : string; hdr : option header; status : Z; wroteHdr : bool }.
Definition new_writer : streamResponseWriter :=
  {| out := ""; hdr := None; status := 0; wroteHdr := false |}.

(** http.Header.Write: the keys in order, a line for each value; a key that is
    not a token is left out, line ends in a value become blanks and blanks
    around it are dropped. *)
Definition token_byte (c : ascii) : bool :=
  let n := nat_of_ascii c in
  bool_decide (48 ≤ n ≤ 57)%nat || bool_decide (65 ≤ n ≤ 90)%nat || bool_decide (97 ≤ n ≤ 122)%nat
  || existsb (λ d, bool_decide (d = c))
       ["!"; "#"; "$"; "%"; "&"; "'"; "*"; "+"; "-"; "."; "^"; "_"; "`"; "|"; "~"]%char.
Definition header_value (v : string) : string :=
  let blank c := bool_decide (c ∈ [" "; "009"; newline; "013"]%char) in
  let fix left s := match s with "" => "" | String c s' => if blank c then left s' else s end in
  reverse (left (reverse (left (map_bytes (λ c, if bool_decide (c ∈ [newline; "013"]%char)
                                                then " "%char else c) v)))).
Definition by_key (a b : string * list string) : Prop := String.le a.1 b.1.
#[export] Instance by_key_dec : RelDecision by_key.
Proof. intros a b. unfold by_key. apply _. Defined.
Definition header_lines (h : header) : string :=
  join "" ((λ kv, if bool_decide (kv.1 = "") || negb (all_bytes token_byte kv.1) then ""
                  else join "" ((λ v, kv.1 +:+ ": " +:+ header_value v +:+ crlf) <$> kv.2))
           <$> merge_sort by_key (map_to_list h)).

(** Header: the map is allocated on the first call; a handler changes it
    through the reference it gets. *)
Definition Header (f : header → header) (w : streamResponseWriter) : streamResponseWriter :=
  {| out := out w; hdr := Some (f (default ∅ (hdr w))); status := status w; wroteHdr := wroteHdr w |}.

Definition WriteHeader (code : Z) (w : streamResponseWriter) : streamResponseWriter :=
  if wroteHdr w then w
  else {| out := out w +:+ ("HTTP/1.1 " +:+ itoa code +:+ " " +:+ StatusText code +:+ crlf)
                 +:+ header_lines (default ∅ (hdr w)) +:+ crlf;
          hdr := hdr w; status := code; wroteHdr := true |}.

Definition Write (p : string) (w : streamResponseWriter) : streamResponseWriter :=
  let w := if wroteHdr w then w else WriteHeader StatusOK w in
  {| out := out w +:+ p; hdr := hdr w; status := status w; wroteHdr := wroteHdr w |}.

(** What a handler does with its writer. *)
Inductive writer_op : Type :=
  | OpHeader (f : header → header)
  | OpWriteHeader (code : Z)
  | OpWrite (p : string).
Definition do_op (w : streamResponseWriter) (o : writer_op) : streamResponseWriter :=
  match o with
  | OpHeader f => Header f w
  | OpWriteHeader code => WriteHeader code w
  | OpWrite p => Write p w
  end.

(** ** Properties of the writer *)

Definition is_header (o : writer_op) : bool := match o with OpHeader _ => true | _ => false end.
(** The status an operation sends, if it is the first that writes. *)
Definition code_of (o : writer_op) : Z := match o with OpWriteHeader code => code | _ => StatusOK end.
Definition written (ops : list writer_op) : string :=
  join "" ((λ o, match o with OpWrite p => p | _ => "" end) <$> ops).
Definition set_headers (ops : list writer_op) : header :=
  foldl (λ h o, match o with OpHeader f => f h | _ => h end) ∅ ops.

Lemma join_empty_cons x l : join "" (x :: l) = x +:+ join "" l.
Proof. destruct l; simpl; by rewrite ?append_nil_r. Qed.

(** Once the header is out, only data is added. *)
Lemma writer_rest ops w :
  wroteHdr w = true → out (foldl do_op w ops) = out w +:+ written ops ∧ wroteHdr (foldl do_op w ops) = true.
Proof.
  revert w. induction ops as [|o ops IH]; intros w Hw; [by rewrite append_nil_r|].
  unfold written. rewrite fmap_cons, join_empty_cons. cbn [foldl].
  assert (wroteHdr (do_op w o) = true ∧
    out (do_op w o) = out w +:+ match o with OpWrite p => p | _ => "" end) as [Hw' Hout].
  { destruct o; cbn [do_op Header WriteHeader Write wroteHdr out]; unfold WriteHeader, Write; rewrite ?Hw;
      cbn [out wroteHdr]; by rewrite ?append_nil_r. }
  destruct (IH _ Hw') as [-> ->]. rewrite Hout. split; [|done]. by rewrite append_assoc.
Qed.

(** Before that, only the header map changes. *)
Lemma writer_headers ops w :
  forallb is_header ops = true → wroteHdr w = false →
  let w' := foldl do_op w ops in
  out w' = out w ∧ wroteHdr w' = false ∧
  default ∅ (hdr w') = foldl (λ h o, match o with OpHeader f => f h | _ => h end) (default ∅ (hdr w)) ops.
Proof.
  revert w. induction ops as [|[f|c|p] ops IH]; intros w Hops Hw; try done.
  cbn [foldl do_op]. by destruct (IH (Header f w) Hops Hw) as (-> & -> & ->).
Qed.

(** The bytes of a response: whatever a handler does with its writer, the
    stream carries nothing until the first operation that writes, then one
    status line with that operation's status, the header as it is then, an
    empty line, and after that exactly the data in the order of the writes.
    Later statuses and header changes are ignored. *)
Theorem stream_response_shape hs o rest :
  forallb is_header hs = true →
  out (foldl do_op new_writer hs) = "" ∧
  (is_header o = false →
   out (foldl do_op new_writer (hs ++ o :: rest)) =
     ("HTTP/1.1 " +:+ itoa (code_of o) +:+ " " +:+ StatusText (code_of o) +:+ crlf)
     +:+ header_lines (set_headers hs) +:+ crlf +:+ written (o :: rest)).
Proof.
  intros Hhs. destruct (writer_headers hs new_writer Hhs eq_refl) as (Hout & Hw & Hhdr).
  split; [done|]. intros Ho. rewrite foldl_app. cbn [foldl].
  set (w := foldl do_op new_writer hs) in *.
  assert (wroteHdr (do_op w o) = true ∧ out (do_op w o) =
    ("HTTP/1.1 " +:+ itoa (code_of o) +:+ " " +:+ StatusText (code_of o) +:+ crlf)
      +:+ header_lines (set_headers hs) +:+ crlf +:+ match o with OpWrite p => p | _ => "" end) as [Hw' Hout'].
  { destruct o; [done|..]; cbn [do_op code_of]; unfold Write, WriteHeader; rewrite Hw; cbn [out wroteHdr];
      rewrite Hout, Hhdr; split; try done; unfold set_headers; cbn [hdr new_writer default];
      by rewrite ?append_nil_r, ?append_assoc. }
  destruct (writer_rest rest _ Hw') as [-> _]. rewrite Hout'. unfold written.
  rewrite fmap_cons, join_empty_cons. by rewrite !append_assoc.
Qed.

(** ** Properties of the addresses *)

Lemma circuit_address_last addrs acc :
  foldl (λ acc a, if has_suffix "p2p-circuit" a then a else acc) acc addrs =
  default acc (last (filter (λ a, has_suffix "p2p-circuit" a = true) addrs)).
Proof.
  revert acc. induction addrs as [|a addrs IH]; intros acc; [done|]. cbn [foldl]. rewrite IH.
  rewrite filter_cons. case_decide as Ha; [rewrite Ha|by destruct (has_suffix _ a)].
  rewrite last_cons. by destruct (last _).
Qed.

Lemma filter_none {A} (f : A → bool) l : Forall (λ a, f a = false) l → filter (λ a, f a = true) l = [].
Proof. induction 1 as [|a l Ha _ IH]; [done|]. rewrite filter_cons, decide_False; [done|by rewrite Ha]. Qed.

(** Waiting for the relay ends: with the first poll at which the host has
    a circuit address, and returns the last such address; before that it
    goes on, and with [once] it looks a single time. *)
Theorem wait_for_address_returns n addrs fuel :
  (∀ k, (k < n)%nat → Forall (λ a, has_suffix "p2p-circuit" a = false) (addrs k)) →
  (∃ a, a ∈ addrs n ∧ has_suffix "p2p-circuit" a = true) → (n < fuel)%nat →
  ∃ a, WaitForAddress fuel addrs false = Some a ∧ a ∈ addrs n ∧ has_suffix "p2p-circuit" a = true ∧
    last (filter (λ a, has_suffix "p2p-circuit" a = true) (addrs n)) = Some a.
Proof.
  revert addrs fuel. induction n as [|n IH]; intros addrs [|fuel] Hbefore (a0 & Ha0 & Hs0) Hfuel; try lia.
  - cbn [WaitForAddress]. unfold circuit_address. rewrite circuit_address_last.
    destruct (last (filter _ (addrs 0))) as [a|] eqn:Hlast.
    + assert (a ∈ filter (λ a, has_suffix "p2p-circuit" a = true) (addrs 0)) as [Hs Ha]%list_elem_of_filter.
      { by apply last_Some_elem_of. }
      exists a. cbn [from_option id]. unfold id. rewrite bool_decide_true; [done|]. by intros ->.
    + apply last_None in Hlast. exfalso. eapply (not_elem_of_nil a0). rewrite <-Hlast.
      by apply list_elem_of_filter.
  - cbn [WaitForAddress]. unfold circuit_address. rewrite circuit_address_last.
    assert (filter (λ a, has_suffix "p2p-circuit" a = true) (addrs 0) = []) as ->.
    { apply filter_none, Hbefore. lia. }
    simpl last. cbn [from_option]. rewrite bool_decide_false by naive_solver.
    apply (IH (λ n, addrs (S n))); [|by exists a0|lia]. intros k Hk. apply Hbefore. lia.
Qed.

(** ** Properties of the grouping *)

Section Grouping.
Context `{!Libp2pText} `{!MapOrder}.

(** What the map holds after some entries: for each id the addresses of its
    entries, in order. *)
Lemma group_addrs_lookup l ais byID :
  addr_info_parse <$> l = Ok <$> ais → (∀ id a, byID !! id = Some a → a.(ai_ID) = id) →
  ∃ m, group_addrs l byID = Returned m ∧ ∀ id,
    m !! id = match byID !! id, filter (λ a, a.(ai_ID) = id) ais with
              | None, [] => None
              | old, l => Some {| ai_ID := id; Addrs := default [] (Addrs <$> old) ++ concat (Addrs <$> l) |}
              end.
Proof.
  revert ais byID. induction l as [|s l IH]; intros [|ai ais] byID Hp Hid; try done.
  { exists byID. split; [done|]. intros id. rewrite filter_nil. destruct (byID !! id) as [a|] eqn:Ha; [|done].
    apply Hid in Ha as <-. simpl. rewrite app_nil_r. by destruct a. }
  rewrite !fmap_cons in Hp. injection Hp as Hs Hp. cbn [group_addrs]. rewrite Hs.
  set (x := match byID !! ai_ID ai with Some old => _ | None => ai end).
  assert (ai_ID x = ai_ID ai) as Hx.
  { subst x. destruct (byID !! ai_ID ai) as [old|] eqn:Hold; [|done]. by apply Hid in Hold. }
  destruct (IH ais (<[ai_ID ai := x]> byID) Hp) as (m & Hm & Hlook).
  { intros id a [[<- <-]|[_ ?]]%lookup_insert_Some; [done|]. by apply Hid. }
  exists m. split; [done|]. intros id. rewrite Hlook, filter_cons.
  destruct (decide (ai_ID ai = id)) as [<-|Hne].
  - rewrite lookup_insert_eq. subst x. destruct (byID !! ai_ID ai) as [old|]; simpl; [by rewrite app_assoc|].
    by destruct (filter _ ais).
  - by rewrite lookup_insert_ne.
Qed.

(** The relay addresses are grouped by peer: when every address parses,
    each peer appears once, with the addresses of all its entries in the
    order of the list, and no other peer appears. *)
Theorem relay_addresses_grouped seed l ais :
  addr_info_parse <$> l = Ok <$> ais →
  ∃ r, PeerAddrInfoFromMulti seed l = Returned r ∧ NoDup (ai_ID <$> r) ∧
    (∀ id, id ∈ ai_ID <$> r ↔ id ∈ ai_ID <$> ais) ∧
    (∀ a, a ∈ r → a.(Addrs) = concat (Addrs <$> filter (λ b, b.(ai_ID) = a.(ai_ID)) ais)).
Proof.
  intros Hp. destruct (group_addrs_lookup l ais ∅ Hp) as (m & Hm & Hlook).
  { intros id a Ha. by rewrite lookup_empty in Ha. }
  assert (∀ id a, m !! id = Some a → a.(ai_ID) = id ∧
    a.(Addrs) = concat (Addrs <$> filter (λ b, b.(ai_ID) = id) ais) ∧ id ∈ ai_ID <$> ais) as Hsound.
  { intros id a Ha. rewrite Hlook, lookup_empty in Ha.
    destruct (filter _ ais) as [|b bs] eqn:Hf; [done|]. injection Ha as <-. split_and!; [done..|].
    assert (b ∈ filter (λ a, ai_ID a = id) ais) as [<- Hb]%list_elem_of_filter by (rewrite Hf; by left).
    by apply list_elem_of_fmap_2. }
  assert (∀ a, a ∈ (range seed m).*2 → m !! a.(ai_ID) = Some a) as Hin.
  { intros a ([id a'] & -> & Ha%elem_of_range)%list_elem_of_fmap. simpl.
    by destruct (Hsound _ _ Ha) as [-> _]. }
  exists (range seed m).*2. unfold PeerAddrInfoFromMulti. rewrite Hm. split; [done|]. split; [|split].
  - replace (ai_ID <$> (range seed m).*2) with (range seed m).*1; [apply range_nodup_keys|].
    rewrite <-list_fmap_compose. apply list_fmap_ext. intros i [id a] Hi%list_elem_of_lookup_2.
    apply elem_of_range in Hi. simpl. by destruct (Hsound _ _ Hi).
  - intros id. split.
    + intros (a & -> & Ha%Hin)%list_elem_of_fmap. by apply Hsound in Ha as (_ & _ & ?).
    + intros (b & -> & Hb)%list_elem_of_fmap.
      destruct (m !! ai_ID b) as [a|] eqn:Ha.
      * apply list_elem_of_fmap. exists a. destruct (Hsound _ _ Ha) as [Hid _]. split; [done|].
        apply list_elem_of_fmap. exists (ai_ID b, a). split; [done|]. by apply elem_of_range.
      * rewrite Hlook, lookup_empty in Ha. destruct (filter _ ais) eqn:Hf; [|done].
        exfalso. by eapply (filter_nil_not_elem_of (λ a, ai_ID a = ai_ID b) ais b).
  - intros a Ha%Hin. by destruct (Hsound _ _ Ha) as (_ & -> & _).
Qed.
End Grouping.

(** ** Properties of the node key *)

(** A node keeps its identity: the key that was created on the first
    start is the key that is loaded on every later one, when the library
    reads back the bytes it made of a key. *)
Theorem node_key_persists {K} (Unmarshal : string → result error K) (Marshal : K → result error string)
    path generate generate' f f' k b :
  path ≠ "" → Marshal k = Ok b → Unmarshal b = Ok k → f = KeyMissing → generate = Ok k →
  run (LoadOrCreateKey Unmarshal Marshal path generate None) f = (f', Ok k) →
  ∀ write, run (LoadOrCreateKey Unmarshal Marshal path generate' write) f' = (f', Ok k).
Proof.
  intros Hpath Hm Hu -> -> Hrun write. unfold LoadOrCreateKey in *.
  rewrite bool_decide_false in * by done. rewrite run_bind, run_atomically in *. rewrite Hm in Hrun.
  rewrite run_bind, run_atomically in Hrun. simpl in Hrun. injection Hrun as <-. simpl. by rewrite Hu.
Qed.

(** ** Witnesses *)

Module StreamEx.
Definition ops_before : list writer_op := [OpHeader (λ h, <["Content-Type" := ["text/plain"]]> h)].
Definition circuit : string := "/ip4/10.0.0.1/p2p/12D3KooWr/p2p-circuit".
(** An address that appears at the third poll. *)
Definition polls (n : nat) : list string := if bool_decide (n < 2)%nat then ["/ip4/127.0.0.1"] else [circuit].
(** Addresses of the form address@id. *)
#[export] Instance at_addresses : Libp2pText := {|
  quoted s := s;
  addr_info_parse s := match split_on "@" s with
    | [a; id] => Ok {| ai_ID := id; Addrs := [a] |}
    | _ => Err "invalid p2p multiaddr"
    end;
  peer_decode s := Ok s; new_multiaddr s := Ok s; is_circuit := contains "/p2p-circuit" |}.
#[export] Existing Instance map_order.
End StreamEx.
Import StreamEx.

Lemma stream_response_shape_witness :
  out (foldl do_op new_writer (ops_before ++ OpWriteHeader 404 :: [OpWrite "no"; OpWriteHeader 200; OpWrite "pe"])) =
    "HTTP/1.1 404 Not Found" +:+ crlf +:+ "Content-Type: text/plain" +:+ crlf +:+ crlf +:+ "nope".
Proof.
  destruct (stream_response_shape ops_before (OpWriteHeader 404) [OpWrite "no"; OpWriteHeader 200; OpWrite "pe"])
    as [_ ->]; [by vm_compute..|]. by vm_compute.
Defined.

Lemma wait_for_address_returns_witness : ∃ a, WaitForAddress 3 polls false = Some a ∧ a ∈ polls 2.
Proof.
  destruct (wait_for_address_returns 2 polls 3) as (a & Hw & Ha & _).
  - intros [|[|k]] Hk; [by repeat constructor..|lia].
  - exists circuit. split; [by left|by vm_compute].
  - lia.
  - by exists a.
Defined.

Lemma relay_addresses_grouped_witness :
  ∃ r, PeerAddrInfoFromMulti 0 ["a@r"; "b@s"; "c@r"] = Returned r ∧
    ∀ x, x ∈ r → x.(ai_ID) = "r" → x.(Addrs) = ["a"; "c"].
Proof.
  destruct (relay_addresses_grouped 0 ["a@r"; "b@s"; "c@r"]
    [{| ai_ID := "r"; Addrs := ["a"] |}; {| ai_ID := "s"; Addrs := ["b"] |}; {| ai_ID := "r"; Addrs := ["c"] |}])
    as (r & Hr & _ & _ & Haddrs); [by vm_compute|].
  exists r. split; [done|]. intros x Hx Hid. rewrite (Haddrs x Hx), Hid. by vm_compute.
Defined.

Lemma node_key_persists_witness :
  ∃ f', run (LoadOrCreateKey (λ b, Ok b) (λ k, Ok k) "node.key" (Ok "k2") None) f' = (f', Ok "k1").
Proof.
  exists (KeyBytes "k1").
  by apply (node_key_persists (λ b, Ok b) (λ k, Ok k) "node.key" (Ok "k1") (Ok "k2") KeyMissing _ "k1" "k1").
Defined.
