(* ===== verification/YamlDoc.v ===== *)
(** * YamlDoc: config.yaml as a document of block mappings.

    LoadConfig (pkg/core/config.go) reads config.yaml with the YAML library
    into the records of the configuration by their tags.  The tags are
    [decode_config]; the library is the interface [YamlBlocks]: what it reads
    from a document that is written line by line.  [YamlReader] is a reader
    that has the law. *)
From Stdlib Require Import Ascii String.
From S2P Require Import Prelude GoStrings Json Api ModelDex Proxy Config Streams.

(** ** Documents of block mappings *)

Inductive scalar : Type := Null_ | Quoted (s : string) | Word (s : string) | Int_ (n : Z).

(** A line: blank, a comment, a key of the document, an entry of its mapping,
    the first entry of an element of its sequence, or a further one. *)
Inductive yline : Type :=
  | LBlank | LComment (indent : nat) (text : string) | LTop (key : string)
  | LField (key : string) (v : scalar) | LItem (key : string) (v : scalar) | LMore (key : string) (v : scalar).

Definition dquote_byte : ascii := "034".
(** A double-quoted scalar; Go's %q writes the same for printable ASCII. *)
Fixpoint escape (s : string) : string :=
  match s with
  | "" => ""
  | String c s' => if bool_decide (c ∈ [dquote_byte; "\"%char]) then String "\" (String c (escape s'))
                   else String c (escape s')
  end.
Definition dquote (s : string) : string := String dquote_byte (escape s +:+ str1 dquote_byte).

Fixpoint spaces (n : nat) : string := match n with O => "" | S n => String " " (spaces n) end.
Definition scalar_text (v : scalar) : string :=
  match v with Null_ => "" | Quoted s => " " +:+ dquote s | Word s => " " +:+ s | Int_ n => " " +:+ itoa n end.
Definition entry_text (key : string) (v : scalar) : string := key +:+ ":" +:+ scalar_text v.
Definition line_text (l : yline) : string :=
  match l with
  | LBlank => ""
  | LComment n text => spaces n +:+ "#" +:+ text
  | LTop key => key +:+ ":"
  | LField key v => "  " +:+ entry_text key v
  | LItem key v => "  - " +:+ entry_text key v
  | LMore key v => "    " +:+ entry_text key v
  end.

(** A word is a plain scalar that stands for itself, and a number a decimal
    one. *)
Definition printable : string → bool := all_bytes (λ c, bool_decide (32 ≤ nat_of_ascii c ≤ 126)).
Definition small (c : ascii) : bool := bool_decide (97 ≤ nat_of_ascii c ≤ 122).
Definition word_byte (c : ascii) : bool :=
  small c || bool_decide (48 ≤ nat_of_ascii c ≤ 57) || bool_decide (65 ≤ nat_of_ascii c ≤ 90)
  || bool_decide (c ∈ ["_"; "-"; "."]%char).
(** Words with a meaning of their own, in any of the versions of YAML. *)
Definition reserved : list string := ["null"; "y"; "n"; "yes"; "no"; "on"; "off"].
Definition word_ok (s : string) : bool :=
  match s with
  | "" => false
  | String c s' => small c && all_bytes word_byte s' && bool_decide (s ∉ reserved)
  end.
Definition scalar_ok (v : scalar) : bool :=
  match v with
  | Null_ => true | Quoted s => printable s | Word s => word_ok s | Int_ n => bool_decide (0 ≤ n < 2 ^ 63)%Z
  end.
Definition key_ok (key : string) : bool := word_ok key && bool_decide (key ∉ ["true"; "false"]).
Definition line_ok (l : yline) : bool :=
  match l with
  | LBlank => true
  | LComment _ text => printable text
  | LTop key => key_ok key
  | LField key v | LItem key v | LMore key v => key_ok key && scalar_ok v
  end.

(** What the lines mean: every key of the document with its mapping or its
    sequence of mappings; read from the last line. *)
Abbreviation mapping := (list (string * scalar)).
Inductive section : Type := Fields (fs : mapping) | Items (l : list mapping).
Abbreviation document := (list (string * section)).
Definition group_line (l : yline) (acc : option (mapping * section * document)) :=
  match acc with
  | None => None
  | Some (more, sec, doc) =>
      match l with
      | LBlank | LComment _ _ => Some (more, sec, doc)
      | LMore key v => Some ((key, v) :: more, sec, doc)
      | LItem key v => match sec with
                       | Fields [] => Some ([], Items [(key, v) :: more], doc)
                       | Items l => Some ([], Items (((key, v) :: more) :: l), doc)
                       | Fields _ => None
                       end
      | LField key v => match more, sec with [], Fields fs => Some ([], Fields ((key, v) :: fs), doc) | _, _ => None end
      | LTop key => match more with [] => Some ([], Fields [], (key, sec) :: doc) | _ => None end
      end
  end.
Definition group (ls : list yline) : option document :=
  match foldr group_line (Some ([], Fields [], [])) ls with Some ([], Fields [], doc) => Some doc | _ => None end.

(** No mapping has a key twice. *)
Definition section_ok (s : section) : bool :=
  match s with
  | Fields fs => bool_decide (NoDup fs.*1)
  | Items l => forallb (λ fs : mapping, bool_decide (NoDup fs.*1)) l
  end.
Definition document_ok (doc : document) : bool :=
  bool_decide (NoDup doc.*1) && forallb (λ ks, section_ok ks.2) doc.

(** ** The records and their tags (pkg/core/config.go) *)

Definition look (key : string) (fs : mapping) : scalar :=
  default Null_ (snd <$> head (filter (λ kv, kv.1 = key) fs)).
(** What a scalar makes of a variable; None is outside of what is used here. *)
Definition as_string (v : scalar) (old : string) : option string :=
  match v with
  | Null_ => Some old | Quoted s => Some s
  | Word s => if bool_decide (s ∈ ["true"; "false"]) then None else Some s
  | Int_ _ => None
  end.
Definition as_int (v : scalar) (old : Z) : option Z :=
  match v with Null_ => Some old | Int_ n => Some n | _ => None end.
Definition as_bool (v : scalar) (old : bool) : option bool :=
  match v with
  | Null_ => Some old
  | Word s => if bool_decide (s = "true") then Some true else if bool_decide (s = "false") then Some false else None
  | _ => None
  end.

Definition decode_admin (fs : mapping) (a : AdminConfig) : option AdminConfig :=
  address ← as_string (look "address" fs) (ac_Address a);
  secret ← as_string (look "secret" fs) (ac_Secret a);
  admin_port ← as_int (look "admin_port" fs) (AdminPort a);
  relay_port ← as_int (look "relay_port" fs) (RelayPort a);
  public ← as_string (look "public_address" fs) (ac_PublicAddress a);
  Some {| ac_Address := address; ac_Secret := secret; AdminPort := admin_port; RelayPort := relay_port;
          ac_PublicAddress := public |}.

Definition decode_mesh (fs : mapping) (m : MeshConfig) : option MeshConfig :=
  name ← as_string (look "name" fs) (me_Name m);
  address ← as_string (look "address" fs) (me_Address m);
  secret ← as_string (look "secret" fs) (me_Secret m);
  mesh_id ← as_string (look "mesh_id" fs) (me_MeshId m);
  public ← as_string (look "public_address" fs) (me_PublicAddress m);
  port ← as_int (look "port" fs) (Port m);
  force ← as_bool (look "force_private" fs) (ForcePrivate m);
  mdns ← as_bool (look "mdns_enabled" fs) (MDNSEnabled m);
  Some {| me_Name := name; me_Address := address; me_Secret := secret; me_MeshId := mesh_id;
          me_PublicAddress := public; Port := port; ForcePrivate := force; MDNSEnabled := mdns |}.

(** A list of models is only read where it is empty. *)
Definition decode_provider (fs : mapping) : option Provider :=
  id ← as_string (look "id" fs) "";
  type ← as_string (look "type" fs) "";
  base_url ← as_string (look "base_url" fs) "";
  token ← as_string (look "token" fs) "";
  private ← as_bool (look "private" fs) false;
  discovery ← as_string (look "model_discovery" fs) "";
  match look "models" fs with
  | Null_ => Some {| pv_ID := id; pv_Type := type; pv_BaseURL := base_url; pv_Token := token;
                     pv_Private := private; pv_Discovery := discovery; pv_Models := [] |}
  | _ => None
  end.

Definition section_of (key : string) (doc : document) : option section :=
  snd <$> head (filter (λ ks, ks.1 = key) doc).
Definition fields_of (key : string) (doc : document) : option mapping :=
  match section_of key doc with None => Some [] | Some (Fields fs) => Some fs | Some (Items _) => None end.

(** Keys that no tag names are ignored. *)
Definition decode_config (doc : document) (c : Config) : option Config :=
  proxy ← fields_of "proxy" doc;
  listen ← as_string (look "listen" proxy) (Listen c);
  admin ← fields_of "admin" doc;
  a ← decode_admin admin (cf_Admin c);
  mesh ← fields_of "mesh" doc;
  m ← decode_mesh mesh (cf_Mesh c);
  match section_of "providers" doc with
  | None | Some (Fields []) => Some {| Listen := listen; cf_Admin := a; cf_Mesh := m; Providers := Providers c |}
  | Some (Items l) =>
      ps ← mapM decode_provider l;
      Some {| Listen := listen; cf_Admin := a; cf_Mesh := m; Providers := ps |}
  | Some (Fields _) => None
  end.

(** What the library reads from such a document. *)
Class YamlBlocks `{!YamlText} : Prop :=
  yaml_reads ls doc c :
    forallb line_ok ls = true → group ls = Some doc → document_ok doc = true →
    decode_config doc config_zero = Some c → yaml_decode (lines (line_text <$> ls)) config_zero = Ok c.

(** ** A reader *)

(** A reader of such documents, line by line. *)
Module YamlReader.
Fixpoint indent (s : string) : nat * string :=
  match s with String " " s' => let '(n, r) := indent s' in (S n, r) | _ => (O, s) end.
(** The text of a double-quoted scalar, up to its closing quote. *)
Fixpoint unescape (s : string) : string :=
  match s with
  | "" => ""
  | String "\" (String c s') => String c (unescape s')
  | String c s' => if bool_decide (c = dquote_byte) then "" else String c (unescape s')
  end.
Definition read_scalar (s : string) : scalar :=
  match s with
  | "" => Null_
  | String c s' =>
      if bool_decide (c = dquote_byte) then Quoted (unescape s')
      else match atoi s with Some n => Int_ n | None => Word s end
  end.
Definition read_entry (s : string) : string * scalar :=
  let '(key, v) := cut_at ":" s in (key, read_scalar v).
Definition read_line (s : string) : yline :=
  let '(n, r) := indent s in
  match r with
  | "" => LBlank
  | String "#" text => LComment n text
  | String "-" (String " " r) => let '(key, v) := read_entry r in LItem key v
  | _ => let '(key, v) := read_entry r in
         match n with O => LTop key | 2 => LField key v | _ => LMore key v end
  end.
Definition read_yaml (text : string) : option Config :=
  let ls := read_line <$> split_on newline text in
  doc ← group ls;
  if document_ok doc then decode_config doc config_zero else None.

Lemma indent_spaces n c s : c ≠ " "%char → indent (spaces n +:+ String c s) = (n, String c s).
Proof.
  intros Hc. induction n as [|n IH].
  - change (spaces 0 +:+ ?x) with x. destruct c as [[] [] [] [] [] [] [] []]; done.
  - cbn [spaces]. rewrite append_cons. cbn [indent]. by rewrite IH.
Qed.

Lemma unescape_escape s t : unescape (escape s +:+ String dquote_byte t) = s.
Proof.
  induction s as [|c s IH]; [done|]. cbn [escape]. case_bool_decide as Hc.
  - rewrite !append_cons. cbn [unescape]. by rewrite IH.
  - rewrite append_cons. apply not_elem_of_cons in Hc as [Hq Hc]. apply not_elem_of_cons in Hc as [Hb _].
    destruct c as [[] [] [] [] [] [] [] []]; cbn [unescape]; rewrite ?IH; done.
Qed.

Lemma read_number n : (0 ≤ n < 2 ^ 63)%Z → read_scalar (itoa n) = Int_ n.
Proof.
  intros Hn. destruct (atoi_itoa n Hn) as (Hat & Hdigits & Hne). unfold read_scalar.
  destruct (itoa n) as [|c r]; [done|]. cbn [all_bytes] in Hdigits. rewrite Hat. case_bool_decide as Hc; [|done].
  subst c. by vm_compute in Hdigits.
Qed.

(** Words, keys and entries. *)
Lemma small_head c : small c = true →
  (c ∉ [dquote_byte; " "; "#"; "-"; "+"]%char) ∧ digit_of c = None.
Proof. destruct c as [[] [] [] [] [] [] [] []]; intros Hc;
    first [by vm_compute in Hc|split; [apply (bool_decide_unpack _)|]; by vm_compute].
Qed.

Lemma word_head s : word_ok s = true → ∃ c s', s = String c s' ∧ small c = true.
Proof. destruct s as [|c s']; [done|]. cbn [word_ok]. rewrite !andb_true_iff. intros [[Hc _] _]. by exists c, s'. Qed.

Lemma read_word s : word_ok s = true → read_scalar s = Word s.
Proof.
  intros Hs. destruct (word_head s Hs) as (c & s' & -> & Hc). apply small_head in Hc as [Hnot Hdig].
  cbn [read_scalar]. rewrite bool_decide_false by set_solver.
  assert (atoi (String c s') = None) as ->; [|done].
  unfold atoi. destruct c as [[] [] [] [] [] [] [] []]; try done; exfalso; apply Hnot; set_solver.
Qed.

Lemma word_without s c : word_byte c = false → small c = false → word_ok s = true → without c s = true.
Proof.
  intros Hc Hc' Hs. destruct s as [|d s]; [done|]. cbn [word_ok] in Hs. rewrite !andb_true_iff in Hs.
  destruct Hs as [[Hd Hs] _]. unfold without. cbn [all_bytes]. rewrite andb_true_iff, bool_decide_eq_true.
  split; [by intros ->; congruence|]. revert Hs. apply all_bytes_impl. intros x Hx.
  apply bool_decide_eq_true. intros ->. congruence.
Qed.

Lemma read_entry_text key v : key_ok key = true → scalar_ok v = true → read_entry (entry_text key v) = (key, v).
Proof.
  unfold key_ok. rewrite andb_true_iff. intros [Hkey _] Hv. unfold read_entry, entry_text.
  assert (without ":" key = true) as Hcolon by (by apply word_without).
  assert (∀ t, cut_at ":" (key +:+ ":" +:+ (" " +:+ t)) = (key, t)) as Hcut.
  { intros t. change (":" +:+ (" " +:+ t)) with (String ":" (String " " t)). by apply cut_at_app. }
  destruct v as [|s|s|n]; cbn [scalar_text scalar_ok] in *.
  - change (":" +:+ "") with (str1 ":"). by rewrite cut_at_end.
  - rewrite Hcut. unfold dquote. cbn [read_scalar]. rewrite bool_decide_true by done. change (str1 dquote_byte) with (String dquote_byte "").
    by rewrite unescape_escape.
  - rewrite Hcut. by rewrite read_word.
  - rewrite Hcut. apply bool_decide_eq_true in Hv. by rewrite read_number.
Qed.

(** What read_line does with an entry after its blanks. *)
Lemma read_line_entry n key v : key_ok key = true → scalar_ok v = true →
  read_line (spaces n +:+ entry_text key v) =
    match n with O => LTop key | 2 => LField key v | _ => LMore key v end.
Proof.
  intros Hkey Hv. pose proof (read_entry_text key v Hkey Hv) as Hread.
  assert (∃ c r, entry_text key v = String c r ∧ small c = true) as (c & r & He & Hc).
  { unfold key_ok in Hkey. rewrite andb_true_iff in Hkey. destruct Hkey as [Hkey _].
    destruct (word_head key Hkey) as (c & s & -> & Hc). unfold entry_text. rewrite append_cons. by eexists _, _. }
  rewrite He in Hread |- *. apply small_head in Hc as [Hnot _]. unfold read_line.
  rewrite indent_spaces by set_solver.
  destruct c as [[] [] [] [] [] [] [] []]; rewrite ?Hread; try done; exfalso; apply Hnot; set_solver.
Qed.

Lemma read_line_text l : line_ok l = true → read_line (line_text l) = l.
Proof.
  destruct l as [|n text|key|key v|key v|key v]; cbn [line_ok]; rewrite ?andb_true_iff; [done|..].
  - intros _. unfold read_line. cbn [line_text]. change ("#" +:+ text) with (String "#" text).
    by rewrite indent_spaces.
  - intros Hkey. change (line_text (LTop key)) with (spaces 0 +:+ entry_text key Null_). by rewrite read_line_entry.
  - intros [Hkey Hv]. change (line_text (LField key v)) with (spaces 2 +:+ entry_text key v). by rewrite read_line_entry.
  - intros [Hkey Hv]. change (line_text (LItem key v)) with
      (spaces 2 +:+ String "-" (String " " (entry_text key v))).
    unfold read_line. rewrite indent_spaces by done. by rewrite read_entry_text.
  - intros [Hkey Hv]. change (line_text (LMore key v)) with (spaces 4 +:+ entry_text key v). by rewrite read_line_entry.
Qed.

(** Lines hold no line breaks. *)
Lemma escape_printable s : printable s = true → printable (escape s) = true.
Proof.
  unfold printable. induction s as [|c s IH]; [done|]. cbn [all_bytes escape]. rewrite andb_true_iff. intros [Hc Hs].
  specialize (IH Hs). destruct (bool_decide (c ∈ _)); cbn [all_bytes]; by rewrite ?Hc, IH.
Qed.
Lemma printable_line s : printable s = true → without newline s = true.
Proof. apply all_bytes_impl. intros c Hc. apply bool_decide_eq_true. by intros ->. Qed.
Lemma digits_line fuel n acc : (0 ≤ n)%Z → without newline acc = true → without newline (digits_fuel fuel n acc) = true.
Proof.
  revert n acc. induction fuel as [|fuel IH]; intros n acc Hn Hacc; [done|]. cbn [digits_fuel].
  assert (without newline (String (digit (n mod 10)) acc) = true) as Hnext.
  { unfold without in *. cbn [all_bytes]. rewrite andb_true_iff, bool_decide_eq_true. split; [|done].
    intros Heq. pose proof (digit_of_digit (n mod 10)) as Hd. rewrite Heq in Hd.
    assert (0 ≤ n mod 10 < 10)%Z as Hr by (apply Z.mod_pos_bound; lia). by destruct (Hd Hr) as [? _]. }
  case_bool_decide; [done|]. apply IH; [apply Z.div_pos; lia|done].
Qed.
Lemma entry_line key v : key_ok key = true → scalar_ok v = true → without newline (entry_text key v) = true.
Proof.
  unfold key_ok. rewrite andb_true_iff. intros [Hkey _] Hv. unfold without, entry_text.
  rewrite !all_bytes_app, !andb_true_iff. split; [by apply word_without|]. split; [done|].
  destruct v as [|s|s|n]; cbn [scalar_text scalar_ok] in *; [done|..]; rewrite all_bytes_app, andb_true_iff; (split; [done|]).
  - apply escape_printable, printable_line in Hv. unfold dquote. cbn [all_bytes].
    rewrite all_bytes_app, !andb_true_iff. done.
  - by apply word_without.
  - apply bool_decide_eq_true in Hv. unfold itoa. rewrite bool_decide_false by lia. apply digits_line; [lia|done].
Qed.
Lemma spaces_line n : without newline (spaces n) = true.
Proof. induction n; [done|]. unfold without in *. cbn [spaces all_bytes]. by rewrite IHn. Qed.
Lemma line_text_line l : line_ok l = true → without newline (line_text l) = true.
Proof.
  unfold without. destruct l as [|n text|key|key v|key v|key v]; cbn [line_ok line_text]; rewrite ?andb_true_iff, ?all_bytes_app, ?andb_true_iff.
  - done.
  - intros Ht. split; [apply spaces_line|]. split; [done|]. by apply printable_line.
  - intros Hkey. unfold key_ok in Hkey. rewrite andb_true_iff in Hkey. destruct Hkey. by split; [apply word_without|].
  - intros [Hkey Hv]. by split; [|apply entry_line].
  - intros [Hkey Hv]. by split; [|apply entry_line].
  - intros [Hkey Hv]. by split; [|apply entry_line].
Qed.

Lemma split_lines ls : forallb line_ok ls = true →
  split_on newline (lines (line_text <$> ls)) = (line_text <$> ls) ++ [""].
Proof.
  unfold lines. induction ls as [|l ls IH]; [done|]. cbn [forallb]. rewrite andb_true_iff. intros [Hl Hls].
  rewrite !fmap_cons, join_empty_cons. rewrite append_assoc.
  change (str1 newline +:+ ?x) with (String newline x).
  rewrite split_on_app by (by apply has_byte_without, line_text_line). by rewrite IH.
Qed.

Lemma read_lines_text ls : forallb line_ok ls = true → (read_line ∘ line_text) <$> ls = ls.
Proof.
  induction ls as [|l ls IH]; [done|]. cbn [forallb]. rewrite andb_true_iff. intros [Hl Hls].
  rewrite fmap_cons, IH by done. cbn [compose]. by rewrite read_line_text.
Qed.

Lemma read_yaml_lines ls doc c :
  forallb line_ok ls = true → group ls = Some doc → document_ok doc = true →
  decode_config doc config_zero = Some c → read_yaml (lines (line_text <$> ls)) = Some c.
Proof.
  intros Hls Hgroup Hdoc Hdec. unfold read_yaml. rewrite split_lines, fmap_app, <-list_fmap_compose by done.
  rewrite read_lines_text by done.
  assert (group (ls ++ (read_line <$> [""])) = group ls) as -> by (unfold group; by rewrite foldr_app).
  rewrite Hgroup. cbn [mbind option_bind]. by rewrite Hdoc.
Qed.
End YamlReader.

(** The codec of the witnesses. *)
Module YamlCodec.
Import YamlReader.
Definition config_lines (c : Config) : list yline :=
  let a := cf_Admin c in let m := cf_Mesh c in
  [LTop "proxy"; LField "listen" (Quoted (Listen c));
   LTop "admin"; LField "address" (Quoted (ac_Address a)); LField "secret" (Quoted (ac_Secret a));
   LField "admin_port" (Int_ (AdminPort a)); LField "relay_port" (Int_ (RelayPort a));
   LField "public_address" (Quoted (ac_PublicAddress a));
   LTop "mesh"; LField "name" (Quoted (me_Name m)); LField "address" (Quoted (me_Address m));
   LField "secret" (Quoted (me_Secret m)); LField "mesh_id" (Quoted (me_MeshId m));
   LField "public_address" (Quoted (me_PublicAddress m)); LField "port" (Int_ (Port m));
   LField "force_private" (Word (bool_text (ForcePrivate m))); LField "mdns_enabled" (Word (bool_text (MDNSEnabled m)));
   LTop "providers"] ++
  (Providers c ≫= λ p,
    [LItem "id" (Quoted (pv_ID p)); LMore "type" (Quoted (pv_Type p)); LMore "base_url" (Quoted (pv_BaseURL p));
     LMore "token" (Quoted (pv_Token p)); LMore "private" (Word (bool_text (pv_Private p)));
     LMore "model_discovery" (Quoted (pv_Discovery p)); LMore "models" Null_]).
Definition config_text (c : Config) : string := lines (line_text <$> config_lines c).
(** The codec refuses what it cannot read back. *)
#[export, refine] Instance line_yaml : YamlText := {|
  yaml_decode t _ := match read_yaml t with Some c => Ok c | None => Err (OtherError "yaml") end;
  yaml_encode c := if bool_decide (read_yaml (config_text c) = Some c) then Ok (config_text c)
                   else Err (OtherError "yaml") |}.
Proof. intros c text. case_bool_decide as Hread; [|done]. intros [= <-]. by rewrite Hread. Defined.
#[export] Instance line_blocks : YamlBlocks.
Proof. intros ls doc c Hls Hgroup Hdoc Hdec. cbn. by rewrite (read_yaml_lines ls doc c). Qed.
End YamlCodec.
