(* ===== verification/AdminMembers.v ===== *)
(** * AdminMembers: every registered node is admitted.

    The registry lists the nodes that others will contact, the allow list is
    what the gate of the relay asks.  Served one after the other, requests
    keep the registry inside the allow list; the two are changed in separate
    critical sections, and a registration that races with a removal leaves a
    registered node that is not admitted. *)
From Stdlib Require Import Ascii String.
From S2P Require Import Prelude GoStrings Json Api JsonKV AllowList MagicLink Auth Mux.
From S2P Require Import AdminServer AdminRegistry AdminInvites Streams.

Section Members.
Context {DB : Type} `{!Badger DB} `{!JsonText} `{!TimeText} `{!Aead} `{!Hashes} `{!MapOrder}.
Implicit Types (s : Server DB) (env : Env) (rq : request).

Definition admitted s : Prop :=
  ∀ id, is_Some (s.(nodes) !! id) → is_Some (s.(acl).(allow) !! id).

(** What all handlers but register, unregister and delete do: no node joins
    the registry and none leaves the allow list. *)
Definition grows s s' : Prop :=
  (∀ id, is_Some (s'.(nodes) !! id) → is_Some (s.(nodes) !! id)) ∧
  (∀ id, is_Some (s.(acl).(allow) !! id) → is_Some (s'.(acl).(allow) !! id)).

#[export] Instance grows_preorder : PreOrder grows.
Proof. split; unfold grows; [naive_solver|]. intros s1 s2 s3 [] []. naive_solver. Qed.

Lemma grows_admitted s s' : grows s s' → admitted s → admitted s'.
Proof. unfold grows, admitted. naive_solver. Qed.

Lemma grows_same s s' : s'.(nodes) = s.(nodes) → s'.(acl).(allow) = s.(acl).(allow) → grows s s'.
Proof. unfold grows. by intros -> ->. Qed.

(** ** Every region *)

Lemma reads_grows {A} (f : Server DB → A) : respects (λ _, True) grows (reads f).
Proof. by apply respects_atomically; intros; split; simpl. Qed.

Lemma kv_Get_grows {A} (dec : decoder A) zero key :
  respects (λ _, True) grows (kv_Get dec zero key : prog (Server DB) _).
Proof. apply reads_grows. Qed.

Lemma kv_update_grows f : respects (λ _, True) grows (kv_update f : prog (Server DB) _).
Proof.
  apply respects_atomically. intros s _. split; [done|]. destruct (f (kv s)) as [d e]. by apply grows_same.
Qed.

Lemma kv_Put_grows key v : respects (λ _, True) grows (kv_Put key v : prog (Server DB) _).
Proof. apply kv_update_grows. Qed.
Lemma kv_Delete_grows key : respects (λ _, True) grows (kv_Delete key : prog (Server DB) _).
Proof. apply kv_update_grows. Qed.

Lemma delete_quietly_grows ks : respects (λ _, True) grows (delete_quietly ks : prog (Server DB) _).
Proof.
  induction ks as [|k ks IH]; cbn [delete_quietly]; [constructor|].
  apply respects_bind; [apply kv_Delete_grows|auto].
Qed.

Lemma Add_grows seed id : respects (λ _, True) grows (on_acl (Add seed id) : prog (Server DB) _).
Proof.
  unfold on_acl. eapply (respects_zoom acl with_acl _ _ _ (λ _, True)
    (λ l l', ∀ id, is_Some (l.(allow) !! id) → is_Some (l'.(allow) !! id))); [|done|].
  - apply Add_respects; intros l; [|by intros ids; rewrite persist_allow].
    intros id' Hid'. cbn [allow with_allow]. destruct (decide (id = id')) as [->|Hne].
    + rewrite lookup_insert_eq. by eexists.
    + by rewrite lookup_insert_ne.
  - intros s l _ _ Hl. split; [done|]. by split.
Qed.

Lemma refresh_grows id token t s m :
  updateNode id token t s.(nodes) = Some m → grows s (with_clock s.(lastUpdate) s.(logicalTime) m s).
Proof.
  intros Hup%updateNode_view. split; [|done]. intros id'. cbn [nodes with_clock].
  by rewrite <-!(fmap_is_Some nr_Node), <-!lookup_fmap, Hup.
Qed.
End Members.

#[export] Hint Resolve reads_grows kv_Get_grows kv_update_grows kv_Put_grows kv_Delete_grows
  delete_quietly_grows Add_grows : go.

Section Handlers.
Context {DB : Type} `{!Badger DB} `{!JsonText} `{!TimeText} `{!Aead} `{!Hashes} `{!MapOrder}.
Implicit Types (s : Server DB) (env : Env) (rq : request).

(** ** Every handler *)

Definition keeps (fn : handler) : Prop :=
  ∀ env ctx s, admitted s → admitted (run (fn env ctx) s).1.

Lemma growing_keeps (fn : handler (DB := DB)) :
  (∀ env ctx, respects (λ _, True) grows (fn env ctx)) → keeps fn.
Proof. intros Hfn env ctx s. apply grows_admitted. by apply (respects_run _ _ _ s (Hfn env ctx)). Qed.

Lemma apiNodeAuthorize_keeps : keeps apiNodeAuthorize.
Proof. apply growing_keeps. intros env ctx. unfold apiNodeAuthorize. evolve. Qed.
Lemma apiNodeRefresh_keeps : keeps apiNodeRefresh.
Proof.
  apply growing_keeps. intros env ctx. unfold apiNodeRefresh. evolve. apply respects_atomically. intros s _. split; [done|].
  destruct (updateNode _ _ _ _) as [m|] eqn:Hup; [|done]. by eapply refresh_grows.
Qed.
Lemma adminRedeemInviteLink_keeps : keeps adminRedeemInviteLink.
Proof. apply growing_keeps. intros env ctx. unfold adminRedeemInviteLink. evolve. Qed.
Lemma adminCreateInviteLink_keeps : keeps adminCreateInviteLink.
Proof. apply growing_keeps. intros env ctx. unfold adminCreateInviteLink. evolve. Qed.
Lemma adminListInviteLinks_keeps : keeps adminListInviteLinks.
Proof. apply growing_keeps. intros env ctx. unfold adminListInviteLinks. evolve. Qed.
Lemma adminDeleteInviteLink_keeps : keeps adminDeleteInviteLink.
Proof. apply growing_keeps. intros env ctx. unfold adminDeleteInviteLink. evolve. Qed.
Lemma adminListNodes_keeps : keeps adminListNodes.
Proof. apply growing_keeps. intros env ctx. unfold adminListNodes. evolve. Qed.
Lemma apiNodeLogin_keeps : keeps apiNodeLogin.
Proof. apply growing_keeps. intros env ctx. unfold apiNodeLogin. evolve. Qed.
Lemma apiNodeList_keeps : keeps apiNodeList.
Proof. apply growing_keeps. intros env ctx. unfold apiNodeList. evolve. Qed.
Lemma apiRelayGet_keeps : keeps apiRelayGet.
Proof. apply growing_keeps. intros env ctx. unfold apiRelayGet. evolve. Qed.

Lemma apiNodeRegister_keeps : keeps apiNodeRegister.
Proof.
  intros env ctx s Hs. unfold apiNodeRegister.
  destruct (GetObject_400 _ _ _) as [req|e]; cbn [pbind]; [|done].
  case_bool_decide; [done|]. case_bool_decide; [done|]. rewrite run_bind, run_on_acl, run_Has. cbn [fst snd].
  case_bool_decide as Hallow; cbn [negb]; [|by destruct s].
  rewrite run_bind, run_atomically. cbn [fst snd run ReplyObject]. intros id.
  cbn [nodes acl with_clock with_acl with_LogicalTime with_LastUpdate ID].
  intros [ref [[<- _]|[_ Hr]]%lookup_insert_Some]; [done|]. apply Hs. by eexists.
Qed.

(** Removing an id from both, the registry first. *)
Lemma drop_then_remove t seed id s :
  admitted s → admitted (with_acl (run (Remove seed id) s.(acl)).1 (drop_node t id s)).
Proof.
  intros Hs id'. destruct (drop_node_spec t id s) as (Hn & _).
  unfold with_acl. cbn [nodes acl]. rewrite Hn, run_Remove_allow. intros [ref [Hne Hr]%lookup_delete_Some].
  rewrite lookup_delete_ne by done. apply Hs. by eexists.
Qed.

Lemma apiNodeUnregister_keeps : keeps apiNodeUnregister.
Proof.
  intros env ctx s Hs. unfold apiNodeUnregister. case_bool_decide; [done|].
  rewrite run_bind, run_atomically. cbn [fst snd]. rewrite run_bind, run_on_acl. cbn [fst snd].
  destruct (drop_node_spec (env.(now) 0) (ctx.(PathVar) "id") s) as (_ & _ & Hacl & _).
  pose proof (drop_then_remove (env.(now) 0) (env.(seed) 0) (ctx.(PathVar) "id") s Hs) as Hd.
  rewrite <-Hacl in Hd. by destruct (nodes s !! _).
Qed.

Lemma delete_keys_keeps ks s : admitted s → admitted (run (delete_keys ks) s).1.
Proof.
  revert s. induction ks as [|k ks IH]; intros s Hs; [done|]. cbn [delete_keys]. rewrite run_bind.
  unfold kv_Delete, kv_update. rewrite run_atomically. destruct (Delete k s.(kv)) as [d [e|]]; cbn [fst snd];
    [exact Hs|]. by apply IH.
Qed.

Lemma adminDeleteNode_keeps : keeps adminDeleteNode.
Proof.
  intros env ctx s Hs. unfold adminDeleteNode. case_bool_decide; [done|].
  unfold meshKeysForNode. rewrite run_bind, run_reads. destruct (ForEach _ _ _ _) as [ks|e]; [|done].
  rewrite run_bind, run_atomically. cbn [fst snd]. rewrite run_bind, run_on_acl. cbn [fst snd].
  destruct (drop_node_spec (env.(now) 0) (ctx.(PathVar) "id") s) as (_ & _ & Hacl & _).
  pose proof (drop_then_remove (env.(now) 0) (env.(seed) 0) (ctx.(PathVar) "id") s Hs) as Hd.
  rewrite <-Hacl in Hd. destruct (_ && _); [done|]. rewrite run_bind.
  pose proof (delete_keys_keeps ks _ Hd) as Hk. by destruct (run (delete_keys ks) _) as [s2 [[]|]].
Qed.

(** ** The HTTP surface *)

Lemma asAdmin_keeps fn : keeps fn → keeps (asAdmin fn).
Proof.
  intros Hfn env ctx s Hs. unfold asAdmin. destruct (rpc_user ctx); [|done]. case_bool_decide; [done|]. by apply Hfn.
Qed.

Lemma handle_keeps fn env rq vars s :
  keeps fn → admitted s → admitted (run (handle fn env rq vars) s).1.
Proof.
  intros Hfn Hs. unfold handle. rewrite run_bind. pose proof (Hfn env (rpc_of rq vars None) s Hs) as Hk.
  by destruct (run (fn _ _) s).
Qed.

Lemma authenticated_keeps fn env rq vars s :
  keeps fn → admitted s → admitted (run (authenticated fn env rq vars) s).1.
Proof.
  intros Hfn Hs. unfold authenticated. rewrite run_bind, run_reads. cbv zeta beta.
  destruct (DoAuth _ _) as [user code]. case_bool_decide; [done|]. rewrite run_bind.
  pose proof (Hfn env (rpc_of rq vars user) s Hs) as Hk. by destruct (run (fn _ _) s).
Qed.

Lemma ServeHTTP_keeps env rq s : admitted s → admitted (run (ServeHTTP env rq) s).1.
Proof.
  intros Hs. unfold ServeHTTP. destruct (route _ _ _) as [[h vars]|] eqn:Hr; [|done].
  apply route_sound in Hr as (p & Hp & <- & _). unfold routes in Hp.
  repeat (apply elem_of_cons in Hp as [->|Hp]); [..|by apply not_elem_of_nil in Hp];
    simpl p_handler; [..|exact Hs];
    first [apply handle_keeps | apply authenticated_keeps]; try exact Hs; try apply asAdmin_keeps;
    first [apply apiNodeAuthorize_keeps | apply apiNodeRegister_keeps
      | apply apiNodeRefresh_keeps | apply apiNodeUnregister_keeps
      | apply adminDeleteNode_keeps | apply adminRedeemInviteLink_keeps
      | apply adminCreateInviteLink_keeps | apply adminListInviteLinks_keeps
      | apply adminDeleteInviteLink_keeps | apply adminListNodes_keeps
      | apply apiNodeLogin_keeps | apply apiNodeList_keeps | apply apiRelayGet_keeps].
Qed.
End Handlers.

(** ** Properties *)

Section Properties.
Context {DB : Type} `{!Badger DB} `{!JsonText} `{!TimeText} `{!Aead} `{!Hashes} `{!MapOrder}.
Implicit Types (s : Server DB) (env : Env) (rq : request).

Definition serve_all (reqs : list (Env * request)) s : Server DB :=
  foldl (λ s er, (run (ServeHTTP er.1 er.2) s).1) s reqs.

(** C7: A node that is registered is admitted.  Whatever requests the server
    answers one after the other, every node it lists is on the allow list,
    so the gatekeeper lets it reserve a slot and connect with every other node
    that is listed.  (The relay is made without these two checks; the gate of
    its host asks the same list.) *)
Theorem registered_are_admitted (reqs : list (Env * request)) s :
  admitted s →
  let s' := serve_all reqs s in
  ∀ src dest, is_Some (view s' !! src) → is_Some (view s' !! dest) →
    AllowReserve s'.(acl) src = true ∧ AllowConnect s'.(acl) src dest = true.
Proof.
  intros Hs s'. assert (admitted s') as Hs'.
  { unfold s', serve_all. clear s'. revert s Hs. induction reqs as [|[env rq] reqs IH]; intros s Hs; [done|].
    by apply IH, ServeHTTP_keeps. }
  assert (∀ id, is_Some (view s' !! id) → gate_has id s'.(acl) = true) as Hgate.
  { intros id. unfold view. rewrite lookup_fmap, fmap_is_Some. intros Hid%Hs'.
    by apply bool_decide_eq_true. }
  intros src dest Hsrc Hdest. unfold AllowReserve, AllowConnect. by rewrite !Hgate.
Qed.

(** But not when requests run at the same time: registration asks the
    allow list before it takes the lock, so a node that is kicked in between
    is registered although it is no longer admitted.  Both requests succeed,
    every poller is told of the node, and the relay refuses it. *)
Theorem register_races_kick env ctx s req env' ctx' s' j :
  let id := req.(rn_Node).(ID) in
  GetObject_400 dec_register rn_zero ctx = Ok req → req.(rn_Node).(Name) ≠ "" → id ≠ "" →
  is_Some (s.(acl).(allow) !! id) → ctx'.(PathVar) "id" = id →
  run (adminKickPeer env' ctx') s = (s', Ok j) → s'.(acl).(allow) !! id = None →
  ∃ order s'' r,
    sched order s [apiNodeRegister env ctx; adminKickPeer env' ctx'] = (s'', [Ret (Ok r); Ret (Ok j)]) ∧
    is_Some (view s'' !! id) ∧ (s''.(logicalTime) = tick s'.(logicalTime)) ∧
    AllowReserve s''.(acl) id = false.
Proof.
  intros id Hreq Hname Hid Hallow Hpath Hkick Hgone.
  set (kick := adminKickPeer env' ctx' : prog (Server DB) reply) in *.
  set (reg := apiNodeRegister env ctx : prog (Server DB) reply).
  assert (∃ rest, sched [0] s [reg; kick] = (s, [rest; kick]) ∧
    ∃ r, sched [0] s' [rest; Ret (Ok j)] =
      (let node := with_LogicalTime (tick s'.(logicalTime)) (with_LastUpdate (env.(now) 0) req.(rn_Node)) in
       with_clock (env.(now) 0) (tick s'.(logicalTime))
         (<[id := {| nr_Node := node; nr_LastPing := env.(now) 2; nr_Token := newNodeToken env |}]> s'.(nodes)) s',
       [Ret (Ok r); Ret (Ok j)])) as (rest & Hfirst & r & Hlast).
  { subst reg. unfold apiNodeRegister. rewrite Hreq. cbn [pbind].
    rewrite bool_decide_false, bool_decide_false by done. cbn.
    rewrite bool_decide_true by done. eexists. split; [by destruct s|]. by eexists. }
  destruct (sched_run kick 1 s [rest; kick]) as [o Ho]; [done|]. rewrite Hkick in Ho. cbn [fst snd] in Ho.
  exists ([0] ++ o ++ [0]). eexists. exists r. split; [|split; [|split]].
  - rewrite sched_app, Hfirst, sched_app, Ho. exact Hlast.
  - unfold view. cbn [nodes with_clock]. rewrite lookup_fmap, lookup_insert_eq. by eexists.
  - done.
  - unfold AllowReserve, gate_has. cbn. by rewrite Hgone.
Qed.
End Properties.

(** ** Witnesses *)

Import ServerEx.

Module MembersEx.
Definition rq_register : request :=
  {| rq_method := "POST"; rq_path := ["api"; "v1"; "nodes"]; rq_authorization := "Bearer secret";
     rq_body := Some (enc_register {| rn_Node := node_a; rn_Token := ""; rn_LogicalTime := 0; rn_LastUpdate := 0 |}) |}.
Definition rq_authorize : request :=
  {| rq_method := "POST"; rq_path := ["api"; "v1"; "authorize"]; rq_authorization := "Bearer secret";
     rq_body := Some (enc_register {| rn_Node := node_a; rn_Token := ""; rn_LogicalTime := 0; rn_LastUpdate := 0 |}) |}.
Definition requests : list (Env * request) := [(env0, rq_authorize); (env0, rq_register)].
End MembersEx.
Import MembersEx.

Lemma registered_are_admitted_witness :
  let s' := serve_all requests server0 in
  is_Some (view s' !! "12D3KooWa") ∧ AllowReserve s'.(acl) "12D3KooWa" = true.
Proof.
  assert (is_Some (view (serve_all requests server0) !! "12D3KooWa")) as Hreg by (vm_compute; by eexists).
  split; [exact Hreg|].
  apply (registered_are_admitted requests server0) with (dest := "12D3KooWa"); [|exact Hreg..].
  intros id. change (nodes server0) with (∅ : gmap string NodeReference). rewrite lookup_empty. by intros [? ?].
Defined.

Lemma register_races_kick_witness :
  ∃ order s'' r j,
    sched order server_a [apiNodeRegister env0 ctx_a; adminKickPeer env0 ctx_a] = (s'', [Ret (Ok r); Ret (Ok j)]) ∧
    is_Some (view s'' !! "12D3KooWa") ∧ AllowReserve s''.(acl) "12D3KooWa" = false.
Proof.
  destruct (run (adminKickPeer env0 ctx_a) server_a) as [s' [j|e]] eqn:Hkick; [|by vm_compute in Hkick].
  destruct (register_races_kick env0 ctx_a server_a
    {| rn_Node := node_a; rn_Token := "tok"; rn_LogicalTime := 0; rn_LastUpdate := 0 |} env0 ctx_a s' j)
    as (order & s'' & r & Hrun & Hreg & _ & Hgate); [by vm_compute|done|done| |done|done| |].
  - vm_compute. by eexists.
  - vm_compute in Hkick. by injection Hkick as <- <-.
  - exists order, s'', r, j. exact (conj Hrun (conj Hreg Hgate)).
Defined.
