(* ===== verification/Service.v ===== *)
(** * Service: a node of the mesh (pkg/mesh/service.go).

    The service keeps the relays, the client of the membership server and the
    peers it has addressed; it opens streams to peers and carries requests
    over them.  The libp2p host is a world [W] with the operations the
    service calls; a request to a peer, a stream or a response is what the
    code sees of it.  NewService is the sequence of calls that joins the
    node to the mesh. *)
From Stdlib Require Import Ascii String.
From S2P Require Import Prelude GoStrings Json Api JsonClient ApiClient Proxy Config Streams.

(** ** State *)

(** [sv_peers] are the ids of the peers whose address was recorded. *)
Record Service := {
  sv_node : PeerNode; sv_relays : list AddrInfo; sv_admin : MeshClient; sv_peers : gmap string string }.
Definition with_peer dest id m := {| sv_node := sv_node m; sv_relays := sv_relays m;
  sv_admin := sv_admin m; sv_peers := <[dest := id]> (sv_peers m) |}.

(** ** Errors that may pass (isTransientDialErr) *)

Definition transient_texts : list string := [
  "dial backoff"; "all dials failed"; "failed to dial"; "no addresses"; "NO_RESERVATION";
  "connection refused"; "connection reset"; "i/o timeout"; "timed out"; "deadline exceeded";
  "transient connection"; "limited connection"; "we don't have a connection to peer"; "stream reset"].
(** [backoff] is errors.Is(err, swarm.ErrDialBackoff). *)
Definition isTransientDialErr (backoff : error → bool) (err : option error) : bool :=
  match err with
  | None => false
  | Some e => backoff e || existsb (λ sub, contains sub (error_string e)) transient_texts
  end.

(** ** Streams to peers *)

Section Streams.
Context {W Stream : Type}.
(** ConnsToPeer: for each connection, is it limited. *)
Context (conns : string → prog W (list bool)).
(** Connect, with WithForceDirectDial or with WithAllowLimitedConn. *)
Context (connect : bool → string → prog W (option error)).
(** NewStream, without and with WithAllowLimitedConn. *)
Context (new_stream : bool → string → prog W (result error Stream)).

Definition no_direct (dest : string) : error :=
  OtherError ("no direct connection to " +:+ dest +:+ " available (waiting for hole-punch)").

(** openStreamDirect: the first connection that is not limited is used. *)
Definition openStreamDirect (dest : string) : prog W (result error Stream) :=
  let* cs := conns dest in
  if existsb negb cs then new_stream false dest
  else
    let* err := connect true dest in
    match err with
    | Some e => Ret (Err e)
    | None =>
        let* cs := conns dest in
        if existsb negb cs then new_stream false dest else Ret (Err (no_direct dest))
    end.

Definition openStream (dest : string) (longLived : bool) : prog W (result error Stream) :=
  let* r := openStreamDirect dest in
  match r with
  | Ok s => Ret (Ok s)
  | Err _ =>
      let* err := connect false dest in
      match err with
      | None => if negb longLived then new_stream true dest else Ret (Err (no_direct dest))
      | Some _ => Ret (Err (no_direct dest))
      end
  end.

(** *** connectNode *)

Context `{!Libp2pText} (add_addrs : string → list string → prog W ()).

Definition sv_state : Type := Service * W.
Definition below {A} (p : prog W A) : prog sv_state A := zoom snd (λ w s, (s.1, w)) p.
Definition service {A} (f : Service → A) : prog sv_state A := atomically (λ s, (s, f s.1)).

(** The first relay is indexed without a check. *)
Definition connectNode (destNode : string) : prog sv_state (exits string) :=
  let* known := service (λ m, sv_peers m !! destNode) in
  match known with
  | Some destID => Ret (Returned destID)
  | None =>
      let* relays := service sv_relays in
      match relays with
      | [] => Ret (Exited "index out of range")
      | relay :: _ =>
          match AddDestViaRelay relay destNode with
          | Exited msg => Ret (Exited msg)
          | Returned (destID, addrs) =>
              let* _ := below (add_addrs destID addrs) in
              let* _ := atomically (λ s, ((with_peer destNode destID s.1, s.2), ())) in
              Ret (Returned destID)
          end
      end
  end.

Definition NewStream (destNode : string) (longLived : bool) : prog sv_state (exits (result error Stream)) :=
  let* id := connectNode destNode in
  match id with
  | Exited msg => Ret (Exited msg)
  | Returned destID => let* r := below (openStream destID longLived) in Ret (Returned r)
  end.

(** ClientForPeer: the id is recorded at once, a stream is opened for every
    connection the client makes. *)
Definition sv_ClientForPeer (peer : PeerNode) (longLived : bool)
    : prog sv_state (exits (prog W (result error Stream))) :=
  let* id := connectNode peer.(ID) in
  Ret (match id with
       | Exited msg => Exited msg
       | Returned destID => Returned (openStream destID longLived)
       end).

(** *** ProxyToNode *)

(** The response of a peer, whose body may break off, and what was written to
    the client. *)
Record peer_response := { pr_code : Z; pr_header : header; pr_body : string; pr_broken : bool }.
Record answer := { an_status : Z; an_header : header; an_body : string }.

(** Header.Add for every value. *)
Definition header_add (k v : string) (h : header) : header := <[k := default [] (h !! k) ++ [v]]> h.
Definition copy_header `{!MapOrder} (seed : nat) (src dst : header) : header :=
  foldl (λ h kv, foldl (λ h v, header_add kv.1 v h) h kv.2) dst (range seed src).

(** http.Error *)
Definition error_answer (msg : string) (code : Z) : answer :=
  {| an_status := code; an_body := msg +:+ str1 newline;
     an_header := {[ "Content-Type" := ["text/plain; charset=utf-8"];
                     "X-Content-Type-Options" := ["nosniff"] ]} |}.

Context `{!MapOrder}.
Context (write_request : Stream → px_request → prog W (option error)).
Context (read_response : Stream → prog W (result error peer_response)).
Context (reset close : Stream → prog W ()).

(** The exchange on an open stream. *)
Definition exchange (seed : nat) (stream : Stream) (r : px_request) : prog W answer :=
  let* err := write_request stream r in
  match err with
  | Some e =>
      let* _ := reset stream in Ret (error_answer (error_string e) StatusServiceUnavailable)
  | None =>
      let* resp := read_response stream in
      match resp with
      | Err e =>
          let* _ := reset stream in Ret (error_answer (error_string e) StatusServiceUnavailable)
      | Ok resp =>
          Ret {| an_status := resp.(pr_code); an_header := copy_header seed resp.(pr_header) ∅;
                 an_body := resp.(pr_body) |}
      end
  end.

Definition ProxyToNode (seed : nat) (dest : PeerNode) (r : px_request) : prog sv_state (exits answer) :=
  let* opened := NewStream dest.(ID) true in
  match opened with
  | Exited msg => Ret (Exited msg)
  | Returned (Err e) => Ret (Returned (error_answer (error_string e) StatusServiceUnavailable))
  | Returned (Ok stream) =>
      let* a := below (exchange seed stream r) in
      let* _ := below (close stream) in
      Ret (Returned a)
  end.

(** *** streamHandler *)

(** The handler of the service on the other side of a stream; it writes its
    response to the stream. *)
Definition streamHandler (read_request : Stream → prog W (result error px_request))
    (handler : px_request → Stream → prog W ()) (stream : Stream) : prog W () :=
  let* req := read_request stream in
  let* _ := match req with
    | Err _ => reset stream
    | Ok req => handler {| pq_method := req.(pq_method); pq_path := req.(pq_path); pq_body := req.(pq_body);
                           pq_header := header_set "X-Mesh" "true" req.(pq_header) |} stream
    end in
  close stream.
End Streams.

(** ** The list of peers *)

(** GetPeerMap copies the fields of every node. *)
Definition sv_GetPeerMap {W} (get_peers : prog W (result error (list PeerNode)))
    : prog W (result error (gmap string PeerNode)) :=
  let* peers := get_peers in
  match peers with
  | Err e => Ret (Err e)
  | Ok peers => Ret (Ok (foldl (λ m p, <[p.(ID) := {| ID := p.(ID); Name := p.(Name);
      LastUpdate := p.(LastUpdate); LogicalTime := p.(LogicalTime) |}]> m) ∅ peers))
  end.

(** Service.diffNodes compares the times of the last update. *)
Definition sv_diffNodes `{!MapOrder} (selfID : string) (old new : gmap string PeerNode)
    : gmap string PeerNode * gmap string PeerNode :=
  let addedOrChanged := foldl (λ acc '(id, newNode),
    if bool_decide (id = selfID) then acc
    else match old !! id with
         | Some oldNode => if bool_decide (oldNode.(LastUpdate) ≠ newNode.(LastUpdate))
                           then <[id := newNode]> acc else acc
         | None => <[id := newNode]> acc
         end) ∅ (range 0 new) in
  let removed := foldl (λ acc '(id, oldNode),
    if bool_decide (id = selfID) then acc
    else if bool_decide (is_Some (new !! id)) then acc else <[id := oldNode]> acc) ∅ (range 1 old) in
  (addedOrChanged, removed).

(** ** What the service knows about a peer *)

(** A connection of the host. *)
Record connection := {
  cn_RemotePeer : string; cn_RemoteMultiaddr : string; cn_LocalMultiaddr : string; cn_Direction : string;
  cn_Security : string; cn_Transport : string; cn_circuit : bool; cn_Limited : bool; cn_streams : list string }.

Definition connection_details (c : connection) : PeerConnectionDetails := {|
  pc_PeerID := c.(cn_RemotePeer); pc_PeerName := ""; pc_Kind := ConnKind c.(cn_circuit) c.(cn_Limited);
  pc_RemoteAddress := c.(cn_RemoteMultiaddr); pc_LocalAddress := c.(cn_LocalMultiaddr);
  pc_Direction := c.(cn_Direction); pc_Security := c.(cn_Security); pc_Multiplexer := c.(cn_Transport);
  pc_StreamCount := Z.of_nat (length c.(cn_streams)); pc_Streams := c.(cn_streams) |}.

(** GetPeerMeshInfo: the addresses of the peer, and all connections of the
    node, whoever they lead to. *)
Definition sv_GetPeerMeshInfo `{!Libp2pText} (addrs : string → list string) (conns : list connection)
    (node : PeerNode) : MeshInfo :=
  match peer_decode node.(ID) with
  | Err _ => {| AdvertisedAddresses := []; Connections := [] |}
  | Ok id => {| AdvertisedAddresses := addrs id; Connections := connection_details <$> conns |}
  end.

(** ** NewService *)

Section NewService.
Context {W K : Type} (rt : Doer W) `{!JsonText} `{!TimeText} `{!NewRequestText} `{!Libp2pText} `{!MapOrder}.
Context (load_key : prog W (result error K)) (peer_id : K → result error string).
(** libp2p.New for the key and the relays, private or not, with addresses to
    advertise as well: the id of the host. *)
Context (new_host : K → list AddrInfo → bool → list string → prog W (result error string)).
Context (close_host : prog W ()).
(** host.Connect to a relay; its error is only logged. *)
Context (connect_relay : AddrInfo → prog W (option error)).
Context (found : result error AddressDiscovery).

(** The addresses a public node advertises; ma.StringCast panics on what is no
    multiaddress. *)
Definition public_addrs (visibility : string * bool) : exits (list string) :=
  let '(addr, isPrivate) := visibility in
  if isPrivate then Returned []
  else match new_multiaddr ("/ip4/" +:+ addr +:+ "/tcp/4001") with
       | Err msg => Exited msg
       | Ok pubTCP =>
           match new_multiaddr ("/ip4/" +:+ addr +:+ "/udp/4001/quic-v1") with
           | Err msg => Exited msg
           | Ok pubUDP => Returned [pubTCP; pubUDP]
           end
       end.

Fixpoint connect_relays (relays : list AddrInfo) : prog W () :=
  match relays with
  | [] => Ret ()
  | r :: relays' => let* _ := connect_relay r in connect_relays relays'
  end.

Definition NewService (seed : nat) (mc : MeshConfig) : prog W (exits (result error Service)) :=
  let failed e := Ret (Returned (Err e)) in
  let mesh := Client_Mesh (NewClient mc.(me_Address) mc.(me_Secret)) "default" in
  let* key := load_key in
  match key with
  | Err e => failed e
  | Ok key =>
  match peer_id key with
  | Err e => failed e
  | Ok nodeID =>
  let* (mesh, err) := MeshClient_Login rt mesh nodeID mc.(me_Secret) in
  match err with
  | Some e => failed (OtherError ("could not login to mesh. err:" +:+ error_string e +:+ str1 newline))
  | None =>
  let* btAddress := MeshClient_GetAddress rt mesh in
  match btAddress with
  | Err e => failed e
  | Ok btAddress =>
  match PeerAddrInfoFromMulti seed btAddress with
  | Exited msg => Ret (Exited msg)
  | Returned relayInfo =>
  let visibility := node_visibility found mc in
  match public_addrs visibility with
  | Exited msg => Ret (Exited msg)
  | Returned extra =>
  let* host := new_host key relayInfo visibility.2 extra in
  match host with
  | Err e => failed e
  | Ok hostID =>
  let* (mesh, err) := MeshClient_Login rt mesh hostID mc.(me_Secret) in
  match err with
  | Some e =>
      let* _ := close_host in
      failed (OtherError ("error authorizing host: " +:+ error_string e))
  | None =>
      let* _ := connect_relays relayInfo in
      Ret (Returned (Ok {| sv_node := NewPeerNode hostID mc.(me_Name); sv_relays := relayInfo;
                           sv_admin := mesh; sv_peers := ∅ |}))
  end end end end end end end end.
End NewService.

(** ** Lemmas *)

Lemma header_add_nil (k v : string) (h : header) : h !! k = None → header_add k v h = <[k := [v]]> h.
Proof. intros Hk. unfold header_add. by rewrite Hk. Qed.

Lemma add_values k vs pre (h : header) :
  h !! k = (if bool_decide (pre = []) then None else Some pre) →
  foldl (λ h v, header_add k v h) h vs =
    if bool_decide (pre ++ vs = []) then h else <[k := pre ++ vs]> h.
Proof.
  revert pre h. induction vs as [|v vs IH]; intros pre h Hk; cbn [foldl].
  - rewrite app_nil_r. case_bool_decide; [done|]. by rewrite insert_id.
  - assert (default [] (h !! k) = pre) as Hpre by (rewrite Hk; by case_bool_decide).
    unfold header_add at 2. rewrite Hpre, (IH (pre ++ [v])).
    + rewrite <-app_assoc. cbn [app]. rewrite !bool_decide_false by (by destruct pre).
      by rewrite insert_insert_eq.
    + rewrite lookup_insert_eq, bool_decide_false; [done|]. by destruct pre.
Qed.

(** Adding the values of a list of keys without repetitions. *)
Definition add_all (l : list (string * list string)) : header :=
  foldl (λ h kv, foldl (λ h v, header_add kv.1 v h) h kv.2) ∅ l.
Lemma add_all_spec l : NoDup l.*1 → add_all l = filter (λ kv, kv.2 ≠ []) (list_to_map (M := header) l).
Proof.
  unfold add_all. induction l as [|[k vs] l IH] using rev_ind; [done|].
  rewrite fmap_app, NoDup_app. intros (Hl & Hk & _). rewrite foldl_app, (IH Hl). cbn [foldl fst snd].
  assert (list_to_map (M := header) l !! k = None) as Hnone.
  { apply not_elem_of_list_to_map_1. intros Hin. apply (Hk k Hin). by left. }
  rewrite (add_values k vs []); [|rewrite map_lookup_filter, Hnone; done].
  rewrite list_to_map_snoc by (by apply not_elem_of_list_to_map). cbn [app].
  case_bool_decide as Hvs.
  - subst vs. by rewrite map_filter_insert_not' by (naive_solver || (intros ?; by rewrite Hnone)).
  - by rewrite map_filter_insert_True.
Qed.

(** Copying a header into an empty one leaves out the keys without values. *)
Lemma copy_header_spec `{!MapOrder} seed (src : header) :
  copy_header seed src ∅ = filter (λ kv, kv.2 ≠ []) src.
Proof.
  unfold copy_header. fold (add_all (range seed src)). rewrite add_all_spec by apply range_nodup_keys.
  f_equal. apply map_eq. intros k. apply option_eq. intros vs.
  rewrite <-elem_of_list_to_map by apply range_nodup_keys. apply elem_of_range.
Qed.

Lemma run_below {W A} (p : prog W A) (s : Service * W) :
  run (below p) s = let '(w, a) := run p s.2 in ((s.1, w), a).
Proof.
  unfold below. rewrite run_zoom; [|done|by intros []|done]. by destruct (run p s.2).
Qed.

(** ** Properties *)

Section ServiceProperties.
Context {W Stream : Type}.
Context (conns : string → prog W (list bool)) (connect : bool → string → prog W (option error)).
Context (new_stream : bool → string → prog W (result error Stream)).

(** A connection that is not limited was seen just before the stream [r] was
    asked for. *)
Definition opened_direct (dest : string) (w w' : W) (r : result error Stream) : Prop :=
  existsb negb (run (conns dest) w).2 = true ∧
  run (new_stream false dest) (run (conns dest) w).1 = (w', r).

Lemma run_openStreamDirect dest w :
  let '(w', r) := run (openStreamDirect conns connect new_stream dest) w in
  (∃ w0, opened_direct dest w0 w' r) ∨ is_ok r = false.
Proof.
  unfold openStreamDirect. rewrite run_bind. destruct (run (conns dest) w) as [w1 cs] eqn:H1.
  destruct (existsb negb cs) eqn:Hcs.
  - destruct (run (new_stream false dest) w1) as [w' r] eqn:Hr. left. exists w.
    unfold opened_direct. rewrite H1. done.
  - rewrite run_bind. destruct (run (connect true dest) w1) as [w2 [e|]]; [by right|].
    rewrite run_bind. destruct (run (conns dest) w2) as [w3 cs'] eqn:H3.
    destruct (existsb negb cs') eqn:Hcs'; [|by right].
    destruct (run (new_stream false dest) w3) as [w' r] eqn:Hr. left. exists w2.
    unfold opened_direct. rewrite H3. done.
Qed.

(** Long requests only run on direct connections.  A stream that
    openStream returns was opened either while a connection to the peer
    without a limit existed, or, for a short-lived stream only, over a
    limited one after a connection could be made; for a long-lived stream the
    only failure is that there is no direct connection. *)
Lemma long_streams_direct dest longLived w w' r :
  run (openStream conns connect new_stream dest longLived) w = (w', r) →
  match r with
  | Ok _ => (∃ w0, opened_direct dest w0 w' r) ∨
            (longLived = false ∧ ∃ w0 w1, run (connect false dest) w0 = (w1, None) ∧
               run (new_stream true dest) w1 = (w', r))
  | Err e => longLived = true → e = no_direct dest
  end.
Proof.
  unfold openStream. rewrite run_bind. pose proof (run_openStreamDirect dest w) as Hd.
  destruct (run (openStreamDirect _ _ _ dest) w) as [w1 [st|e]].
  { intros [= <- <-]. destruct Hd as [Hd|Hd]; [by left|done]. }
  rewrite run_bind. destruct (run (connect false dest) w1) as [w2 [e'|]] eqn:Hc.
  { by intros [= <- <-]. }
  destruct longLived; [by intros [= <- <-]|]. cbn [negb]. intros Hrun.
  destruct r as [st|]; [|done]. right. split; [done|]. by exists w1, w2.
Qed.

Context `{!Libp2pText} (add_addrs : string → list string → prog W ()) `{!MapOrder}.
Context (write_request : Stream → px_request → prog W (option error)).
Context (read_response : Stream → prog W (result error peer_response)).
Context (reset close : Stream → prog W ()).

Abbreviation sv_NewStream := (NewStream conns connect new_stream add_addrs).
Abbreviation sv_ProxyToNode :=
  (ProxyToNode conns connect new_stream add_addrs write_request read_response reset close).

(** The peer answered on the stream, or the client is told 503. *)
Definition relayed (stream : Stream) (a : answer) : Prop :=
  (∃ e, a = error_answer (error_string e) StatusServiceUnavailable) ∨
  (∃ resp w w', run (read_response stream) w = (w', Ok resp) ∧
     a = {| an_status := resp.(pr_code); an_header := filter (λ kv, kv.2 ≠ []) resp.(pr_header);
            an_body := resp.(pr_body) |}).

Lemma run_exchange seed stream r w :
  relayed stream (run (exchange write_request read_response reset seed stream r) w).2.
Proof.
  unfold exchange. rewrite run_bind. destruct (run (write_request stream r) w) as [w1 [e|]].
  { rewrite run_bind. destruct (run (reset stream) w1). left. by exists e. }
  rewrite run_bind. destruct (run (read_response stream) w1) as [w2 [resp|e]] eqn:Hr.
  - right. exists resp, w1, w2. split; [done|]. by rewrite copy_header_spec.
  - rewrite run_bind. destruct (run (reset stream) w2). left. by exists e.
Qed.

(** The peer is known afterwards, under the id that is returned. *)
Lemma run_connectNode dest s s' id :
  run (connectNode add_addrs dest) s = (s', Returned id) → sv_peers s'.1 !! dest = Some id.
Proof.
  unfold connectNode. rewrite run_bind. unfold service. rewrite run_atomically.
  destruct (sv_peers s.1 !! dest) as [known|] eqn:Hk; [by intros [= <- <-]|].
  rewrite run_bind, run_atomically. destruct (sv_relays s.1) as [|relay relays]; [done|].
  destruct (AddDestViaRelay relay dest) as [[destID addrs]|]; [|done].
  rewrite run_bind, run_below. destruct (run (add_addrs destID addrs) s.2).
  rewrite run_bind, run_atomically. intros [= <- <-]. apply lookup_insert_eq.
Qed.

Lemma run_NewStream dest s s' r :
  run (sv_NewStream dest true) s = (s', Returned r) →
  ∃ id, sv_peers s'.1 !! dest = Some id ∧
    match r with
    | Ok _ => ∃ w, opened_direct id w s'.2 r
    | Err e => e = no_direct id
    end.
Proof.
  unfold NewStream. rewrite run_bind. destruct (run (connectNode _ _) s) as [s1 [id|]] eqn:Hc; [|done].
  rewrite run_bind, run_below. destruct (run (openStream _ _ _ id true) s1.2) as [w r'] eqn:Ho.
  intros [= <- <-]. exists id. split; [by apply run_connectNode in Hc|].
  apply long_streams_direct in Ho. destruct r'; [|by apply Ho].
  destruct Ho as [Ho|[? _]]; [exact Ho|done].
Qed.

(** C15: A request for a peer is relayed over a direct connection and always
    answered.  If ProxyToNode returns, the client has its answer: 503 and
    "no direct connection" when no unlimited connection to the peer could be
    had, or a stream was opened on one, and the answer is exactly the status,
    the header values and the body the peer gave on it, or 503; the stream is
    closed at the end in every case. *)
Theorem proxy_to_node_answers seed (dest : PeerNode) r s s' a :
  run (sv_ProxyToNode seed dest r) s = (s', Returned a) →
  ∃ s1 opened id, run (sv_NewStream dest.(ID) true) s = (s1, Returned opened) ∧
    sv_peers s1.1 !! dest.(ID) = Some id ∧
    match opened with
    | Err _ => s' = s1 ∧ a = error_answer (error_string (no_direct id)) StatusServiceUnavailable
    | Ok stream => (∃ w, opened_direct id w s1.2 (Ok stream)) ∧ relayed stream a ∧
                   ∃ w, s' = (s1.1, (run (close stream) w).1)
    end.
Proof.
  unfold ProxyToNode. rewrite run_bind.
  destruct (run (sv_NewStream _ _) s) as [s1 [opened|msg]] eqn:Hopen; [|done].
  destruct (run_NewStream _ _ _ _ Hopen) as (id & Hid & Hr). intros Hrun.
  exists s1, opened, id. split; [done|]. split; [done|]. destruct opened as [stream|e].
  - split; [done|]. rewrite run_bind, run_below in Hrun.
    pose proof (run_exchange seed stream r s1.2) as Hx. destruct (run (exchange _ _ _ _ _ _) _) as [w a'].
    rewrite run_bind, run_below in Hrun. cbn [fst snd] in Hrun.
    destruct (run (close stream) w) as [w' []] eqn:Hclose. injection Hrun as <- <-.
    split; [done|]. exists w. by rewrite Hclose.
  - subst e. by injection Hrun as <- <-.
Qed.
End ServiceProperties.

(** ** Witnesses *)

Import StreamEx.

Module ServiceEx.
(** The world counts the streams that are open. *)
Definition conns (id : string) : prog nat (list bool) := Ret [true; false].
Definition connect (direct : bool) (id : string) : prog nat (option error) := Ret None.
Definition new_stream (limited : bool) (id : string) : prog nat (result error nat) :=
  atomically (λ n, (S n, Ok n)).
Definition add_addrs (id : string) (l : list string) : prog nat () := Ret ().
Definition write_request (stream : nat) (r : px_request) : prog nat (option error) := Ret None.
Definition tags : header := {[ "Content-Type" := ["application/json"]; "Trailer" := [] ]}.
Definition read_response (stream : nat) : prog nat (result error peer_response) :=
  Ret (Ok {| pr_code := 200; pr_header := tags; pr_body := "{}"; pr_broken := false |}).
Definition reset (stream : nat) : prog nat () := Ret ().
Definition close (stream : nat) : prog nat () := atomically (λ n, (pred n, ())).
Definition service0 : Service :=
  {| sv_node := NewPeerNode "a" "alice"; sv_relays := [{| ai_ID := "r"; Addrs := ["/ip4/10.0.0.1"] |}];
     sv_admin := Client_Mesh (NewClient "http://mesh" "") "default"; sv_peers := ∅ |}.
Definition bob : PeerNode := NewPeerNode "b" "bob".
Definition ask : px_request :=
  {| pq_method := "POST"; pq_path := "/v1/chat/completions"; pq_body := Ok "{}"; pq_header := ∅ |}.
End ServiceEx.
Import ServiceEx.

Lemma proxy_to_node_answers_witness :
  run (ProxyToNode conns connect new_stream add_addrs write_request read_response reset close 0 bob ask)
      (service0, 0%nat)
    = ((with_peer "b" "b" service0, 0%nat),
       Returned {| an_status := 200; an_header := {[ "Content-Type" := ["application/json"] ]}; an_body := "{}" |}) ∧
  ∃ w, opened_direct conns new_stream "b" w 1%nat (Ok 0%nat).
Proof.
  set (p := ProxyToNode conns connect new_stream add_addrs write_request read_response reset close 0 bob ask).
  assert (run p (service0, 0%nat) = ((with_peer "b" "b" service0, 0%nat),
       Returned {| an_status := 200; an_header := {[ "Content-Type" := ["application/json"] ]}; an_body := "{}" |}))
    as Hrun by (by vm_compute).
  split; [exact Hrun|].
  destruct (proxy_to_node_answers conns connect new_stream add_addrs write_request read_response reset close
    0 bob ask (service0, 0%nat) _ _ Hrun) as (s1 & opened & id & Hopen & Hid & Hcase).
  vm_compute in Hopen. injection Hopen as <- <-. vm_compute in Hid. injection Hid as <-.
  apply Hcase.
Defined.
