(* ===== verification/PeerStream.v ===== *)
(** * PeerStream: a request over a stream, from ProxyToNode to the handler of
    the peer and back.

    ProxyToNode (pkg/mesh/service.go) writes the request to the stream,
    streamHandler of the peer reads it and calls its handler with a
    streamResponseWriter (stream_response_writer.go), and ProxyToNode reads
    the response from the bytes of that writer.  http.ReadResponse is the
    interface [HttpText]. *)
From Stdlib Require Import Ascii String.
From stdpp Require Import sorting.
From S2P Require Import Prelude GoStrings Json Api JsonClient ApiClient Proxy Config Streams Service.

(** ** What http.ReadResponse reads *)

(** A key in the form textproto keeps: a token, with an upper-case letter at
    the start and after each hyphen, and lower-case letters elsewhere. *)
Definition upper_letter (c : ascii) : bool := bool_decide (65 ≤ nat_of_ascii c ≤ 90).
Definition lower_letter (c : ascii) : bool := bool_decide (97 ≤ nat_of_ascii c ≤ 122).
Fixpoint canonical (start : bool) (k : string) : bool :=
  match k with
  | "" => true
  | String c k' => negb (if start then lower_letter c else upper_letter c) && canonical (bool_decide (c = "-"%char)) k'
  end.
(** The keys that change how a body is read, or are rewritten. *)
Definition framing : list string := ["Connection"; "Content-Length"; "Pragma"; "Trailer"; "Transfer-Encoding"].
Definition field_key (k : string) : bool := bool_decide (k ≠ "") && all_bytes token_byte k && canonical true k.
Definition value_ok (v : string) : bool :=
  all_bytes (λ c, bool_decide (32 ≤ nat_of_ascii c ≤ 126)) v && bool_decide (header_value v = v).
Definition header_text (h : header) : Prop :=
  map_Forall (λ k vs, field_key k = true ∧ vs ≠ [] ∧ forallb value_ok vs = true) h.
(** A final status and a header without framing. *)
Definition message_ok (code : Z) (h : header) : Prop :=
  (200 ≤ code ≤ 599)%Z ∧ header_text h ∧ Forall (λ k, h !! k = None) framing.

(** A header with the length of the body, if there is one. *)
Definition sized (len : option nat) (h : header) : header :=
  match len with Some n => <["Content-Length" := [itoa (Z.of_nat n)]]> h | None => h end.
Definition length_ok (len : option nat) : bool :=
  match len with Some n => bool_decide (Z.of_nat n < 2 ^ 63)%Z | None => true end.

Definition message (code : Z) (h : header) (body : string) : string :=
  ("HTTP/1.1 " +:+ itoa code +:+ " " +:+ StatusText code +:+ crlf) +:+ header_lines h +:+ crlf +:+ body.

(** The responses that have no body, whatever follows the header. *)
Definition bodyless (method : string) (code : Z) : bool :=
  bool_decide (method = "HEAD") || bool_decide (code = 204 ∨ code = 304)%Z.
(** The part of what follows that is the body, and whether it ends too early. *)
Definition read_body (method : string) (code : Z) (len : option nat) (rest : string) : string * bool :=
  if bodyless method code then ("", false)
  else match len with
       | Some n => (take_str n rest, bool_decide (String.length rest < n))
       | None => (rest, false)
       end.

(** http.ReadResponse of what a stream carries until it is closed, for a
    request with a method: nothing is no response; the body of a message is as
    long as its Content-Length says, and without one it is the rest of the
    stream. *)
Class HttpText := {
  http_read : string → string → result error peer_response;
  http_read_empty method : is_ok (http_read method "") = false;
  http_read_message method code len h rest :
    message_ok code h → length_ok len = true →
    http_read method (message code (sized len h) rest) =
      let '(body, broken) := read_body method code len rest in
      Ok {| pr_code := code; pr_header := sized len h; pr_body := body; pr_broken := broken |}
}.

(** *** The text of a length *)

Lemma header_value_id v : all_bytes (λ c, bool_decide (c ∉ [" "; "009"; newline; "013"]%char)) v = true → header_value v = v.
Proof.
  intros Hv. unfold header_value.
  set (left := fix left s := match s with "" => "" | String c s' => _ end).
  assert (∀ s, all_bytes (λ c, bool_decide (c ∉ [" "; "009"; newline; "013"]%char)) s = true → left s = s) as Hleft.
  { intros [|c s]; [done|]. cbn [all_bytes left]. rewrite andb_true_iff, bool_decide_eq_true. intros [Hc _].
    by rewrite bool_decide_false. }
  assert (map_bytes (λ c, if bool_decide (c ∈ [newline; "013"]%char) then " "%char else c) v = v) as ->.
  { clear Hleft left. induction v as [|c v IH]; [done|]. cbn [all_bytes map_bytes] in *.
    rewrite andb_true_iff, bool_decide_eq_true in Hv. destruct Hv as [Hc Hv].
    rewrite IH by done. by rewrite bool_decide_false by set_solver. }
  rewrite (Hleft v Hv), Hleft by (by rewrite all_bytes_reverse). apply reverse_reverse.
Qed.

Lemma itoa_value n : (0 ≤ n < 2 ^ 63)%Z → value_ok (itoa n) = true.
Proof.
  intros Hn. destruct (atoi_itoa n Hn) as (_ & Hd & _). unfold value_ok. apply andb_true_iff. split.
  - revert Hd. apply all_bytes_impl. intros c. unfold digit_byte. rewrite !bool_decide_eq_true. lia.
  - apply bool_decide_eq_true, header_value_id. revert Hd. apply all_bytes_impl. intros c.
    unfold digit_byte. rewrite !bool_decide_eq_true. intros Hc Hin.
    apply elem_of_cons in Hin as [->|Hin]; [by vm_compute in Hc; lia|].
    apply elem_of_cons in Hin as [->|Hin]; [by vm_compute in Hc; lia|].
    apply elem_of_cons in Hin as [->|Hin]; [by vm_compute in Hc; lia|].
    apply list_elem_of_singleton in Hin as ->. by vm_compute in Hc; lia.
Qed.

Lemma sized_text len h : length_ok len = true → header_text h → header_text (sized len h).
Proof.
  intros Hlen Hh. destruct len as [n|]; [|done]. apply map_Forall_insert_2; [|done].
  apply bool_decide_eq_true in Hlen. split; [by vm_compute|]. split; [done|]. cbn [forallb].
  by rewrite itoa_value by lia.
Qed.

(** ** The stream between the two nodes *)

(** What the node has written, what the peer has written back, and whether the
    stream is open. *)
Record pipe := { pp_sent : option px_request; pp_back : string; pp_open : bool }.
Definition idle : pipe := {| pp_sent := None; pp_back := ""; pp_open := true |}.

Section PeerStream.
Context `{!HttpText} `{!MapOrder}.
(** What http.ReadRequest makes of the bytes that Request.Write made of a
    request, and what the handler of the peer does with its writer. *)
Context (recv : px_request → result error px_request) (serve : px_request → list writer_op).

Definition pipe_close (stream : ()) : prog pipe () :=
  atomically (λ p, ({| pp_sent := pp_sent p; pp_back := pp_back p; pp_open := false |}, ())).
Definition pipe_read_request (stream : ()) : prog pipe (result error px_request) :=
  atomically (λ p, (p, match pp_sent p with Some r => recv r | None => Err (OtherError "EOF") end)).
Definition pipe_handler (r : px_request) (stream : ()) : prog pipe () :=
  atomically (λ p, ({| pp_sent := pp_sent p; pp_back := pp_back p +:+ out (foldl do_op new_writer (serve r));
                       pp_open := pp_open p |}, ())).
(** The request goes out and the peer serves it. *)
Definition pipe_write_request (stream : ()) (r : px_request) : prog pipe (option error) :=
  let* _ := atomically (λ p, ({| pp_sent := Some r; pp_back := pp_back p; pp_open := pp_open p |}, ())) in
  let* _ := streamHandler pipe_close pipe_close pipe_read_request pipe_handler stream in
  Ret None.
Definition pipe_read_response (stream : ()) : prog pipe (result error peer_response) :=
  atomically (λ p, (p, http_read (from_option pq_method "" (pp_sent p)) (pp_back p))).

(** The request as the handler of the peer gets it. *)
Definition served (r : px_request) : list writer_op :=
  match recv r with
  | Ok r => serve {| pq_method := r.(pq_method); pq_path := r.(pq_path); pq_body := r.(pq_body);
                     pq_header := header_set "X-Mesh" "true" r.(pq_header) |}
  | Err _ => []
  end.

Lemma run_write_request r back b :
  run (pipe_write_request () r) {| pp_sent := None; pp_back := back; pp_open := b |} =
    ({| pp_sent := Some r; pp_back := back +:+ out (foldl do_op new_writer (served r)); pp_open := false |}, None).
Proof.
  unfold pipe_write_request, streamHandler, served. rewrite run_bind, run_atomically. cbn [pp_back pp_open].
  rewrite run_bind. rewrite run_bind. unfold pipe_read_request at 1. rewrite run_atomically. cbn [pp_sent].
  destruct (recv r) as [r'|e]; [done|]. cbn. by rewrite append_nil_r.
Qed.

Lemma writer_message hs o rest :
  forallb is_header hs = true → is_header o = false →
  out (foldl do_op new_writer (hs ++ o :: rest)) = message (code_of o) (set_headers hs) (written (o :: rest)).
Proof. intros Hhs Ho. by apply stream_response_shape. Qed.

Definition pipe_exchange (seed : nat) : () → px_request → prog pipe answer :=
  exchange pipe_write_request pipe_read_response pipe_close seed.

Lemma run_pipe_exchange seed r b :
  run (pipe_exchange seed () r) {| pp_sent := None; pp_back := ""; pp_open := b |} =
    ({| pp_sent := Some r; pp_back := out (foldl do_op new_writer (served r)); pp_open := false |},
     match http_read r.(pq_method) (out (foldl do_op new_writer (served r))) with
     | Ok resp => {| an_status := resp.(pr_code); an_header := copy_header seed resp.(pr_header) ∅;
                     an_body := resp.(pr_body) |}
     | Err e => error_answer (error_string e) StatusServiceUnavailable
     end).
Proof.
  unfold pipe_exchange, exchange. rewrite run_bind, run_write_request. change ("" +:+ ?x) with x.
  rewrite run_bind. unfold pipe_read_response at 1. rewrite run_atomically. cbn [pp_sent pp_back from_option].
  by destruct (http_read _ _).
Qed.

Lemma copy_header_ok seed h : header_text h → copy_header seed h ∅ = h.
Proof.
  intros Hh. rewrite copy_header_spec. apply map_filter_id. intros k vs Hk. by apply (Hh k vs Hk).
Qed.

Context (conns : string → prog pipe (list bool)) (connect : bool → string → prog pipe (option error)).
Context (new_stream : bool → string → prog pipe (result error ())).
Context `{!Libp2pText} (add_addrs : string → list string → prog pipe ()).

(** C25: A response crosses the stream.  When ProxyToNode has a fresh stream to
    a peer, the peer's handler gets the request that was read, with the mark
    of the mesh, and what it does with its writer is what the client of the
    node gets: the status of its first write, the header as it was then, and
    all the data in order, cut to the length the handler announced if it did.
    A response to HEAD, a 204 and a 304 have no body, whatever the handler
    writes.  The status is a final one (200 to 599), the fields are printable
    and canonical, and the handler sets none of Connection, Pragma, Trailer
    and Transfer-Encoding.  A handler that writes nothing at all, which an
    HTTP server answers with 200, makes the answer 503. *)
Theorem stream_carries_response seed (dest : PeerNode) r (s s1 : sv_state (W := pipe)) b hs
    (Hopen : run (NewStream conns connect new_stream add_addrs dest.(ID) true) s = (s1, Returned (Ok ())))
    (Hfresh : s1.2 = {| pp_sent := None; pp_back := ""; pp_open := b |}) (Hhs : forallb is_header hs = true) :
  let proxied := (run (ProxyToNode conns connect new_stream add_addrs pipe_write_request pipe_read_response
    pipe_close pipe_close seed dest r) s).2 in
  (∀ o rest len h, served r = hs ++ o :: rest → is_header o = false →
     set_headers hs = sized len h → length_ok len = true → message_ok (code_of o) h →
     proxied = Returned {| an_status := code_of o; an_header := set_headers hs;
       an_body := (read_body r.(pq_method) (code_of o) len (written (o :: rest))).1 |}) ∧
  (served r = hs → ∃ e, proxied = Returned (error_answer e StatusServiceUnavailable)).
Proof.
  intros proxied. assert (proxied = Returned (run (pipe_exchange seed () r) s1.2).2) as ->.
  { unfold proxied, ProxyToNode. rewrite run_bind, Hopen, run_bind, run_below. fold (pipe_exchange seed).
    destruct (run (pipe_exchange seed () r) s1.2) as [p a]. by rewrite run_bind, run_below. }
  rewrite Hfresh, run_pipe_exchange. cbn [snd]. split.
  - intros o rest len h -> Ho Hlen Hl Hok. rewrite writer_message, Hlen by done. rewrite http_read_message by done.
    destruct (read_body _ _ _ _) as [body broken]. cbn [pr_code pr_header pr_body fst].
    by rewrite copy_header_ok by (by apply sized_text; [|apply Hok]).
  - intros ->. destruct (writer_headers hs new_writer Hhs eq_refl) as [-> _]. cbn [new_writer out].
    pose proof (http_read_empty (pq_method r)) as He. destruct (http_read _ "") as [|e]; [done|]. by eexists.
Qed.
End PeerStream.

(** ** Witness *)

(** A reader of messages: a status line, the lines of the header up to an empty
    one, and as much of the rest as the Content-Length says. *)
Module HttpReader.
Fixpoint read_fields (fuel : nat) (h : header) (s : string) : header * string :=
  match fuel with
  | O => (h, s)
  | S fuel =>
      let '(line, rest) := cut_at "013" s in
      if bool_decide (line = "") then (h, rest)
      else let '(k, v) := cut_at ":" line in read_fields fuel (header_add k v h) rest
  end.
Definition status_line (code : Z) : string := "HTTP/1.1 " +:+ itoa code +:+ " " +:+ StatusText code.
Definition codes : list Z := seqZ 200 400.
Definition content_length (h : header) : option nat :=
  match h !! "Content-Length" with Some [v] => Z.to_nat <$> atoi v | _ => None end.
Definition read_message (method text : string) : result error peer_response :=
  let '(line, rest) := cut_at "013" text in
  match list_find (λ code, status_line code = line) codes with
  | None => Err (OtherError "malformed HTTP response")
  | Some (_, code) =>
      let '(h, rest) := read_fields (S (String.length rest)) ∅ rest in
      let '(body, broken) := read_body method code (content_length h) rest in
      Ok {| pr_code := code; pr_header := h; pr_body := body; pr_broken := broken |}
  end.

(** A header as the list of its fields. *)
Definition field : Type := string * string.
Definition field_ok (kv : field) : Prop := field_key kv.1 = true ∧ value_ok kv.2 = true.
Definition fields (l : list (string * list string)) : list field := l ≫= λ kv, (λ v, (kv.1, v)) <$> kv.2.
Definition add_fields : header → list field → header := foldl (λ h kv, header_add kv.1 kv.2 h).
Definition field_lines (fs : list field) : string :=
  join "" ((λ kv : field, kv.1 +:+ ": " +:+ kv.2 +:+ crlf) <$> fs).

Lemma field_bytes kv :
  field_ok kv → kv.1 ≠ "" ∧ without ":" kv.1 = true ∧ without "013" (kv.1 +:+ ": " +:+ kv.2) = true.
Proof.
  destruct kv as [k v]. unfold field_ok, field_key, value_ok, without. cbn [fst snd].
  rewrite !andb_true_iff, !bool_decide_eq_true. intros [[[Hk Ht] _] [Hv _]].
  split_and!; [done|..].
  - revert Ht. apply all_bytes_impl. intros c Hc. apply bool_decide_eq_true. by intros ->.
  - rewrite !all_bytes_app, !andb_true_iff. split_and!; [|done|]; [revert Ht|revert Hv]; apply all_bytes_impl;
      intros c Hc; apply bool_decide_eq_true; by intros ->.
Qed.

Lemma join_empty_app l1 l2 : join "" (l1 ++ l2) = join "" l1 +:+ join "" l2.
Proof.
  induction l1 as [|x l1 IH]; [done|]. rewrite <-app_comm_cons, !join_empty_cons, IH. by rewrite append_assoc.
Qed.

Lemma read_field_lines fs body n h :
  length fs < n → Forall field_ok fs → read_fields n h (field_lines fs +:+ crlf +:+ body) = (add_fields h fs, body).
Proof.
  intros Hn Hfs. revert n h Hn. induction Hfs as [|[k v] fs Hkv _ IH]; intros [|n] h Hn; [cbn in Hn; lia|done|cbn in Hn; lia|].
  destruct (field_bytes _ Hkv) as (Hk & Hcolon & Hline). cbn [fst snd] in *.
  unfold field_lines. rewrite fmap_cons, join_empty_cons. fold (field_lines fs). cbn [read_fields fst snd].
  replace (_ +:+ crlf +:+ body) with
    ((k +:+ ": " +:+ v) +:+ String "013" (String newline (field_lines fs +:+ crlf +:+ body)))
    by (by rewrite !append_assoc).
  rewrite cut_at_app by done. rewrite bool_decide_false by (by destruct k).
  change (k +:+ ": " +:+ v) with (k +:+ String ":" (String " " v)). rewrite cut_at_app by done.
  apply IH. cbn in Hn. lia.
Qed.

Lemma fields_short fs : length fs ≤ String.length (field_lines fs).
Proof.
  induction fs as [|[k v] fs IH]; [done|]. unfold field_lines in *. rewrite fmap_cons, join_empty_cons.
  rewrite !length_append. cbn. lia.
Qed.

Lemma add_all_fields l : add_all l = add_fields ∅ (fields l).
Proof.
  unfold add_all. generalize (∅ : header) as h. induction l as [|[k vs] l IH]; intros h; [done|].
  cbn [foldl fst snd]. unfold fields, add_fields in *. rewrite bind_cons, foldl_app, IH. f_equal.
  generalize h. clear. induction vs as [|v vs IH]; [done|]. intros h. apply IH.
Qed.

Lemma header_lines_fields h :
  header_text h → header_lines h = field_lines (fields (merge_sort by_key (map_to_list h))).
Proof.
  intros Hh. unfold header_lines, field_lines.
  assert (Forall (λ kv, field_key kv.1 = true ∧ forallb value_ok kv.2 = true) (merge_sort by_key (map_to_list h))) as Hl.
  { rewrite merge_sort_Permutation. apply Forall_forall. intros [k vs] Hk%elem_of_map_to_list.
    by destruct (Hh k vs Hk) as (? & _ & ?). }
  induction Hl as [|[k vs] l [Hk Hvs] _ IH]; [done|]. unfold fields in *.
  rewrite fmap_cons, join_empty_cons, bind_cons, fmap_app, join_empty_app, IH. f_equal. cbn [fst snd] in *.
  unfold field_key in Hk. rewrite !andb_true_iff, bool_decide_eq_true in Hk. destruct Hk as [[Hk Ht] _].
  rewrite bool_decide_false, Ht by done. cbn [orb negb]. f_equal. rewrite <-list_fmap_compose.
  apply list_fmap_ext. intros i v Hv%list_elem_of_lookup_2. cbn [compose fst snd].
  rewrite forallb_forall in Hvs. specialize (Hvs v). rewrite <-list_elem_of_In in Hvs.
  unfold value_ok in Hvs. rewrite andb_true_iff, bool_decide_eq_true in Hvs. by rewrite (proj2 (Hvs Hv)).
Qed.

Lemma header_of_fields h : header_text h → add_fields ∅ (fields (merge_sort by_key (map_to_list h))) = h.
Proof.
  intros Hh. rewrite <-add_all_fields.
  assert (NoDup (merge_sort by_key (map_to_list h)).*1) as Hnodup.
  { rewrite merge_sort_Permutation. apply NoDup_fst_map_to_list. }
  rewrite add_all_spec by done.
  rewrite (list_to_map_proper _ (map_to_list h)) by (done || apply merge_sort_Permutation).
  rewrite list_to_map_to_list. apply map_filter_id. intros k vs Hk. by apply (Hh k vs Hk).
Qed.

Lemma fields_ok h : header_text h → Forall field_ok (fields (merge_sort by_key (map_to_list h))).
Proof.
  intros Hh. apply Forall_forall. intros kv ([k vs] & Hkv & Hin)%list_elem_of_bind.
  apply list_elem_of_fmap in Hkv as (v & -> & Hv). rewrite merge_sort_Permutation in Hin.
  apply elem_of_map_to_list in Hin. destruct (Hh k vs Hin) as (Hk & _ & Hvs).
  rewrite forallb_forall in Hvs. specialize (Hvs v). rewrite <-list_elem_of_In in Hvs. by split; [|apply Hvs].
Qed.

Lemma status_lines_clean : forallb (λ code, without "013" (status_line code)) codes = true.
Proof. by vm_compute. Qed.
Lemma status_lines_distinct : NoDup (status_line <$> codes).
Proof. apply (bool_decide_unpack _). by vm_compute. Qed.

Lemma find_code code : (200 ≤ code ≤ 599)%Z →
  without "013" (status_line code) = true ∧
  ∃ i, list_find (λ c, status_line c = status_line code) codes = Some (i, code).
Proof.
  intros Hcode. assert (code ∈ codes) as Hin by (apply elem_of_seqZ; lia). split.
  { pose proof status_lines_clean as Hclean. rewrite forallb_forall in Hclean. apply Hclean.
    by apply list_elem_of_In. }
  destruct (list_find_elem_of (λ c, status_line c = status_line code) codes code Hin eq_refl) as [[i c] Hc].
  exists i. rewrite Hc. apply list_find_Some in Hc as (Hi & Hline & _).
  apply list_elem_of_lookup_1 in Hin as [j Hj].
  assert (i = j) as -> by (eapply (NoDup_lookup (status_line <$> codes)); [apply status_lines_distinct|..];
    rewrite list_lookup_fmap, ?Hi, ?Hj; [by cbn; rewrite Hline|done]).
  by simplify_eq.
Qed.

Lemma content_length_sized len h :
  length_ok len = true → h !! "Content-Length" = None → content_length (sized len h) = len.
Proof.
  intros Hlen Hh. unfold content_length. destruct len as [n|]; cbn [sized]; [|by rewrite Hh].
  rewrite lookup_insert_eq. apply bool_decide_eq_true in Hlen.
  destruct (atoi_itoa (Z.of_nat n)) as [-> _]; [lia|]. cbn. by rewrite Nat2Z.id.
Qed.

Lemma read_message_spec method code len h rest :
  message_ok code h → length_ok len = true →
  read_message method (message code (sized len h) rest) =
    let '(body, broken) := read_body method code len rest in
    Ok {| pr_code := code; pr_header := sized len h; pr_body := body; pr_broken := broken |}.
Proof.
  intros (Hcode & Hh & Hframing) Hlen. destruct (find_code _ Hcode) as (Hline & i & Hfind).
  assert (h !! "Content-Length" = None) as Hnone by (rewrite Forall_forall in Hframing; apply Hframing; by right; left).
  pose proof (sized_text _ _ Hlen Hh) as Hs. rewrite <-(content_length_sized len h) at 2 by done.
  revert Hs. generalize (sized len h). clear h len Hh Hframing Hlen Hnone. intros h Hh.
  unfold message. rewrite header_lines_fields by done.
  set (fs := fields (merge_sort by_key (map_to_list h))).
  replace (_ +:+ field_lines fs +:+ crlf +:+ rest) with
    (status_line code +:+ String "013" (String newline (field_lines fs +:+ crlf +:+ rest)))
    by (unfold status_line; by rewrite !append_assoc).
  unfold read_message. rewrite cut_at_app by done. rewrite Hfind.
  rewrite read_field_lines.
  - by unfold fs; rewrite header_of_fields.
  - pose proof (fields_short fs). rewrite length_append. lia.
  - by apply fields_ok.
Qed.
End HttpReader.

Import StreamEx ServiceEx.
Module PeerStreamEx.
#[export] Program Instance http_reader : HttpText := {| http_read := HttpReader.read_message |}.
Next Obligation. done. Qed.
Next Obligation. intros method code len h rest. apply HttpReader.read_message_spec. Qed.

Definition pipe_conns (id : string) : prog pipe (list bool) := Ret [true; false].
Definition pipe_connect (direct : bool) (id : string) : prog pipe (option error) := Ret None.
Definition pipe_stream (limited : bool) (id : string) : prog pipe (result error ()) := Ret (Ok ()).
Definition pipe_addrs (id : string) (l : list string) : prog pipe () := Ret ().
(** The peer reads a Host as well, and answers in pieces. *)
Definition with_host (r : px_request) : result error px_request :=
  Ok {| pq_method := pq_method r; pq_path := pq_path r; pq_body := pq_body r;
        pq_header := header_set "Host" "b" (pq_header r) |}.
Definition plain_header : header := {[ "Content-Type" := ["text/plain"]; "X-Node" := ["b"; "bob"] ]}.
Definition reply_header : header := sized (Some 8) plain_header.
Definition answers (r : px_request) : list writer_op :=
  OpHeader (λ _, reply_header) ::
    if IsSource r then OpWriteHeader StatusNotFound :: [OpWrite "no "; OpHeader (λ _, ∅); OpWrite "model"] else [].
End PeerStreamEx.
Import PeerStreamEx.

Lemma stream_carries_response_witness :
  (run (ProxyToNode pipe_conns pipe_connect pipe_stream pipe_addrs (pipe_write_request with_host answers)
     pipe_read_response pipe_close pipe_close 0 bob ask) (service0, idle)).2 =
    Returned {| an_status := StatusNotFound; an_header := reply_header; an_body := "no model" |}.
Proof.
  edestruct (stream_carries_response with_host answers pipe_conns pipe_connect pipe_stream pipe_addrs 0 bob ask
    (service0, idle)) as [Hanswer _]; [by vm_compute|done|..].
  - instantiate (1 := [OpHeader (λ _, reply_header)]). done.
  - apply (Hanswer (OpWriteHeader StatusNotFound) [OpWrite "no "; OpHeader (λ _, ∅); OpWrite "model"] (Some 8) plain_header);
      [done..|].
    split; [done|]. split.
    + by apply map_Forall_insert_2; [|apply map_Forall_insert_2; [|apply map_Forall_empty]]; vm_compute.
    + by repeat constructor.
Defined.
