(* ===== verification/NodeHost.v ===== *)
(** * NodeHost: how a node of the mesh starts (pkg/mesh).

    NewService makes the node with a handler that answers 501 and without an
    update handler, NewProxy installs both, and Connect waits for a circuit
    address and starts the discovery (service.go, discovery.go).  Streams of
    peers may arrive at any time in between.  [start_step] is this as a step
    relation.  The rest of the file is what is left of the package: mdns.go,
    stream_conn.go and the small operations of the host and the relay. *)
From Stdlib Require Import Ascii String.
From S2P Require Import Prelude GoStrings Json Api JsonClient ApiClient Proxy Config Streams Service PeerStream.

(** ** The discovery manager (discovery.go) *)

Record DiscoveryManager (U : Type) := {
  dm_admin : MeshClient; dm_host : string; dm_node : PeerNode; dm_MDNSEnabled : bool; dm_onUpdate : option U }.
Arguments Build_DiscoveryManager {U}.
Arguments dm_admin {U}.
Arguments dm_host {U}.
Arguments dm_node {U}.
Arguments dm_MDNSEnabled {U}.
Arguments dm_onUpdate {U}.

Definition NewDiscoveryManager {U} (a : MeshClient) (h : string) (node : PeerNode) (MDNSEnabled : bool)
    : DiscoveryManager U :=
  {| dm_admin := a; dm_host := h; dm_node := node; dm_MDNSEnabled := MDNSEnabled; dm_onUpdate := None |}.
Definition UpdateHandler {U} (onUpdate : U) (d : DiscoveryManager U) : DiscoveryManager U :=
  {| dm_admin := dm_admin d; dm_host := dm_host d; dm_node := dm_node d; dm_MDNSEnabled := dm_MDNSEnabled d;
     dm_onUpdate := Some onUpdate |}.

(** The goroutines Serve starts; it returns when its context is done. *)
Inductive routine : Type := MeshEvents | PeerUpdates | MDNS.
#[export] Instance routine_eq : EqDecision routine.
Proof. solve_decision. Defined.
Definition dm_Serve {U} (d : DiscoveryManager U) : list routine :=
  [MeshEvents; PeerUpdates] ++ (if dm_MDNSEnabled d then [MDNS] else []).

(** listenForMeshEvents: the events it asks for, and what it logs of each;
    when the channel is closed it ends the process. *)
Definition mesh_events : list string := [
  "event.EvtLocalAddressesUpdated"; "event.EvtAutoRelayAddrsUpdated"; "event.EvtLocalReachabilityChanged";
  "event.EvtHostReachableAddrsChanged"; "event.EvtNATDeviceTypeChanged"; "event.EvtPeerConnectednessChanged";
  "event.EvtPeerIdentificationCompleted"; "event.EvtPeerIdentificationFailed"; "event.EvtPeerProtocolsUpdated";
  "event.EvtLocalProtocolsUpdated"].
Definition listenForMeshEvents (events : list (string * string)) : list string * exits () :=
  ((λ e, e.1 +:+ ": " +:+ e.2) <$> events, Exited "discovery routine exited").

(** ** mDNS (mdns.go) *)

Section MDNS.
Context {W : Type} (connect : AddrInfo → prog W (option error)).
(** The service with a tag and a notifee. *)
Context (start_mdns : string → (AddrInfo → prog W (list string)) → prog W (option error)).

(** HandlePeerFound: what it logs. *)
Definition HandlePeerFound (show : AddrInfo → string) (pi : AddrInfo) : prog W (list string) :=
  let* err := connect pi in
  Ret (("MDNS Peer Discovery: " +:+ show pi)
       :: match err with Some e => ["MDNS: " +:+ error_string e] | None => [] end).
Definition EnableMDNS (show : AddrInfo → string) : prog W (option error) :=
  start_mdns "ollama-mesh" (HandlePeerFound show).
End MDNS.

(** ** Addresses of streams (stream_conn.go) *)

Record addr := { Network : string; addr_String : string }.
Definition LocalAddr (local_peer : string) : addr := {| Network := "libp2p"; addr_String := local_peer |}.
Definition RemoteAddr (remote_peer : string) : addr := {| Network := "libp2p"; addr_String := remote_peer |}.

(** ** Small operations *)

(** helpers.go: the lines PrintAddrs prints, the id of a key. *)
Definition PrintAddrs (prefix : string) (addrs : list string) (id : string) : list string :=
  prefix :: ((λ a, "  " +:+ a +:+ "/p2p/" +:+ id) <$> addrs).
Definition NodeIDFromKey {K} (IDFromPrivateKey : K → result error string) (key : K) : result error string :=
  IDFromPrivateKey key.

(** GetPeerConnKind prints the kinds of the connections to a known peer and
    the protocols of the node; what it returns is always empty. *)
Definition GetPeerConnKind (m : Service) (conns : string → list connection) (protocols : list string) (id : string)
    : list string * string :=
  match sv_peers m !! id with
  | None => ([], "")
  | Some peerID =>
      (((λ c, ConnKind c.(cn_circuit) c.(cn_Limited) +:+ " " +:+ c.(cn_RemoteMultiaddr)) <$> conns peerID)
       ++ "my protocols:" :: ((λ p, "  " +:+ p) <$> protocols), "")
  end.

(** clearDialBackoff: the peers in backoff, when the network is a swarm. *)
Definition clearDialBackoff (is_swarm : bool) (id : string) (backoff : gset string) : gset string :=
  if is_swarm then backoff ∖ {[id]} else backoff.

(** relay.go: NewRelayOnHost, ID. *)
Record relay_node := { rl_host : string; rl_addrs : list string }.
Definition NewRelayOnHost (host : string) (addrs : list string) : relay_node :=
  {| rl_host := host; rl_addrs := addrs |}.
Definition Relay_ID (r : relay_node) : string := rl_host r.

(** relay.go: Shutdown sends on a channel without a buffer: it blocks, unless
    somebody receives from it, and nothing in the program does. *)
Definition Relay_Shutdown (receivers : nat) : option (option error) :=
  match receivers with O => None | S _ => Some None end.

(** service.go: Close, Node, GetHost and Disconnect; the host of a node is
    what [new_node] was given. *)
Definition Service_Close {W} (close_host : prog W (option error)) : prog W (option error) := close_host.
Definition Service_Node (m : Service) : PeerNode := sv_node m.
Definition Service_Disconnect {W} : prog W (option error) := Ret None.

(** ** The start of a node *)

Definition StatusNotImplemented : Z := 501.
(** http.Error, as what it does with the writer. *)
Definition error_ops (msg : string) (code : Z) : list writer_op := [
  OpHeader (delete "Content-Length"); OpHeader (header_set "Content-Type" "text/plain; charset=utf-8");
  OpHeader (header_set "X-Content-Type-Options" "nosniff"); OpWriteHeader code; OpWrite (msg +:+ str1 newline)].

(** A handler, as what it does with the writer for a request. *)
Abbreviation writer_handler := (px_request → list writer_op).
(** The handler NewService gives the node. *)
Definition not_implemented : writer_handler := λ r, error_ops "not implemented" StatusNotImplemented.

Section Start.
(** What http.ReadRequest makes of a request, and the handlers of the proxy:
    MeshServeHTTP and OnPeerUpdate. *)
Context {U : Type} (recv : px_request → result error px_request) (serve : writer_handler) (update : U).

(** The statements that touch the state shared with the other goroutines: to
    install a handler, to wait for a circuit address, and to start the
    goroutine of the discovery. *)
Inductive call : Type :=
  | CallHandlerFunc (h : writer_handler)
  | CallUpdateHandlerFunc (u : U)
  | CallWaitForAddress
  | GoDiscovery.

(** NewProxy installs its handlers last; Connect. *)
Definition NewProxy_calls : list call := [CallHandlerFunc serve; CallUpdateHandlerFunc update].
Definition Connect_calls : list call := [CallWaitForAddress; GoDiscovery].
(** runProxy makes the service, then the proxy, and runs its Serve, which first
    calls Connect. *)
Definition runProxy_calls : list call := NewProxy_calls ++ Connect_calls.

(** [nd_calls] are the statements left; [nd_spawned] says that the goroutine of
    the discovery was started and has not begun; [nd_served] are the requests
    of the streams so far, each with the bytes that were written back. *)
Record node := {
  nd_calls : list call; nd_handler : writer_handler; nd_discovery : DiscoveryManager U; nd_addrs : list string;
  nd_spawned : bool; nd_routines : list routine; nd_served : list (px_request * string) }.
Definition new_node (d : DiscoveryManager U) : node :=
  {| nd_calls := runProxy_calls; nd_handler := not_implemented; nd_discovery := d; nd_addrs := [];
     nd_spawned := false; nd_routines := []; nd_served := [] |}.

Definition with_calls (cs : list call) (n : node) : node := {| nd_calls := cs; nd_handler := nd_handler n;
  nd_discovery := nd_discovery n; nd_addrs := nd_addrs n; nd_spawned := nd_spawned n;
  nd_routines := nd_routines n; nd_served := nd_served n |}.
Definition WithHandlerFunc (h : writer_handler) (n : node) : node := {| nd_calls := nd_calls n; nd_handler := h;
  nd_discovery := nd_discovery n; nd_addrs := nd_addrs n; nd_spawned := nd_spawned n;
  nd_routines := nd_routines n; nd_served := nd_served n |}.
Definition WithUpdateHandlerFunc (u : U) (n : node) : node := {| nd_calls := nd_calls n; nd_handler := nd_handler n;
  nd_discovery := UpdateHandler u (nd_discovery n); nd_addrs := nd_addrs n; nd_spawned := nd_spawned n;
  nd_routines := nd_routines n; nd_served := nd_served n |}.
Definition spawn (n : node) : node := {| nd_calls := nd_calls n; nd_handler := nd_handler n;
  nd_discovery := nd_discovery n; nd_addrs := nd_addrs n; nd_spawned := true;
  nd_routines := nd_routines n; nd_served := nd_served n |}.
(** The goroutine Connect starts. *)
Definition discover (n : node) : node := {| nd_calls := nd_calls n; nd_handler := nd_handler n;
  nd_discovery := nd_discovery n; nd_addrs := nd_addrs n; nd_spawned := false;
  nd_routines := dm_Serve (nd_discovery n); nd_served := nd_served n |}.
(** The bytes a handler writes to the stream of a request. *)
Definition reply_bytes (h : writer_handler) (r : px_request) : string :=
  out (foldl do_op new_writer (served recv h r)).
(** A stream of a peer: streamHandler calls the handler the node has. *)
Definition stream (r : px_request) (n : node) : node := {| nd_calls := nd_calls n; nd_handler := nd_handler n;
  nd_discovery := nd_discovery n; nd_addrs := nd_addrs n; nd_spawned := nd_spawned n;
  nd_routines := nd_routines n; nd_served := nd_served n ++ [(r, reply_bytes (nd_handler n) r)] |}.
(** The addresses of the host change. *)
Definition with_addrs (addrs : list string) (n : node) : node := {| nd_calls := nd_calls n;
  nd_handler := nd_handler n; nd_discovery := nd_discovery n; nd_addrs := addrs; nd_spawned := nd_spawned n;
  nd_routines := nd_routines n; nd_served := nd_served n |}.

(** One statement of the command; None while it blocks. *)
Definition do_call (c : call) (n : node) : option node :=
  match c with
  | CallHandlerFunc h => Some (WithHandlerFunc h n)
  | CallUpdateHandlerFunc u => Some (WithUpdateHandlerFunc u n)
  | CallWaitForAddress => if bool_decide (circuit_address (nd_addrs n) ≠ "") then Some n else None
  | GoDiscovery => Some (spawn n)
  end.

Inductive start_step : node → node → Prop :=
  | step_call n c cs n' : nd_calls n = c :: cs → do_call c n = Some n' → start_step n (with_calls cs n')
  | step_discover n : nd_spawned n = true → start_step n (discover n)
  | step_stream n r : start_step n (stream r n)
  | step_addrs n addrs : start_step n (with_addrs addrs n).
End Start.
Arguments call : clear implicits.
Arguments node : clear implicits.

Section StartLemmas.
Context {U : Type} (recv : px_request → result error px_request) (serve : writer_handler) (update : U).
Implicit Types (n : node U).
Local Abbreviation start_step := (start_step recv).
Local Abbreviation program := (runProxy_calls serve update).
Local Abbreviation start := (new_node serve update).

(** The bytes of the answer 501, to a request that could be read. *)
Definition refusal (r : px_request) : string :=
  match recv r with
  | Ok _ => "HTTP/1.1 501 Not Implemented" +:+ crlf +:+ "Content-Type: text/plain; charset=utf-8" +:+ crlf
      +:+ "X-Content-Type-Options: nosniff" +:+ crlf +:+ crlf +:+ "not implemented" +:+ str1 newline
  | Err _ => ""
  end.

Lemma not_implemented_bytes r : reply_bytes recv not_implemented r = refusal r.
Proof. unfold reply_bytes, served, refusal. by destruct (recv r); vm_compute. Qed.

(** After [k] statements. *)
Definition progress (k : nat) n : Prop :=
  nd_calls n = drop k program ∧
  nd_handler n = (if decide (1 ≤ k) then serve else not_implemented) ∧
  dm_onUpdate (nd_discovery n) = (if decide (2 ≤ k) then Some update else None) ∧
  (k < 4 → nd_spawned n = false ∧ nd_routines n = []).
Definition served_ok (k : nat) n : Prop :=
  ∃ early late, nd_served n = ((λ r, (r, refusal r)) <$> early) ++ ((λ r, (r, reply_bytes recv serve r)) <$> late) ∧
    (k = 0 → late = []).
Definition routines_ok (d0 : DiscoveryManager U) n : Prop :=
  dm_MDNSEnabled (nd_discovery n) = dm_MDNSEnabled d0 ∧ (nd_routines n = [] ∨ nd_routines n = dm_Serve d0).
(** The host had a circuit address on the way. *)
Definition had_address (d0 : DiscoveryManager U) n : Prop :=
  ∃ m, rtc start_step (start d0) m ∧ rtc start_step m n ∧ circuit_address (nd_addrs m) ≠ "".
Definition start_ok (d0 : DiscoveryManager U) (k : nat) n : Prop :=
  k ≤ 4 ∧ progress k n ∧ served_ok k n ∧ routines_ok d0 n ∧ (3 ≤ k → had_address d0 n).

Local Ltac parts := refine (conj _ (conj _ (conj _ (conj _ _)))).

Lemma had_address_step d0 n n' : start_step n n' → had_address d0 n → had_address d0 n'.
Proof. intros Hstep (m & Hm & Hn & Ha). exists m. split_and!; [done|by eapply rtc_r|done]. Qed.

Lemma call_ok d0 k n c cs n' :
  rtc start_step (start d0) n → start_ok d0 k n → nd_calls n = c :: cs → do_call c n = Some n' →
  start_ok d0 (S k) (with_calls cs n').
Proof.
  intros Hreach (Hk & (Hcalls & Hh & Hu & Hidle) & (early & late & Hs & Hlate) & Hr & Ha) Hn Hdo.
  assert (start_step n (with_calls cs n')) as Hstep by by eapply step_call.
  assert (3 ≤ k → had_address d0 (with_calls cs n')) as Ha' by (intros H3; eapply had_address_step; eauto).
  rewrite Hcalls in Hn. destruct k as [|[|[|[|[|k]]]]]; [..|lia]; cbn in Hn; try done; simplify_eq/=.
  - parts; [lia|by split_and!; [..|intros _; apply Hidle; lia]|by exists early, late|done|lia].
  - parts; [lia|by split_and!; [..|intros _; apply Hidle; lia]|by exists early, late|done|lia].
  - case_bool_decide; simplify_eq/=. parts; [lia|by split_and!; [..|intros _; apply Hidle; lia]|by exists early, late|done|].
    intros _. eexists. split_and!; [exact Hreach|by apply rtc_once|done].
  - parts; [lia|by split_and!; [..|lia]|by exists early, late|done|by intros _; apply Ha'; lia].
Qed.

Lemma step_ok d0 k n n' :
  rtc start_step (start d0) n → start_step n n' → start_ok d0 k n → ∃ k', start_ok d0 k' n'.
Proof.
  intros Hreach Hstep Hok. pose proof (had_address_step d0 _ _ Hstep) as Haddr.
  destruct Hstep as [n c cs n' Hcalls Hdo|n Hsp|n r|n addrs].
  { exists (S k). by eapply call_ok. }
  all: destruct Hok as (Hk & (Hcalls & Hh & Hu & Hidle) & (early & late & Hs & Hlate) & (Hm & Hr) & Ha); exists k.
  all: parts; [done| | | |by intros H3; apply Haddr, Ha].
  - split_and!; [done..|]. intros H4. destruct (Hidle H4). congruence.
  - by exists early, late.
  - split; [done|]. right. cbn [discover nd_routines]. unfold dm_Serve. by rewrite Hm.
  - by split_and!.
  - unfold served_ok. cbn [stream nd_served]. rewrite Hs, Hh. destruct (decide (1 ≤ k)).
    + exists early, (late ++ [r]). split; [by rewrite fmap_app, app_assoc|lia].
    + exists (early ++ [r]), []. rewrite (Hlate ltac:(lia)), not_implemented_bytes, fmap_app. cbn. by rewrite !app_nil_r.
  - by split_and!.
  - by split_and!.
  - by exists early, late.
  - by split_and!.
Qed.

Lemma start_reachable_ok d0 n :
  dm_onUpdate d0 = None → rtc start_step (start d0) n → ∃ k, start_ok d0 k n.
Proof.
  intros Hnew. apply (rtc_ind_r (λ n, ∃ k, start_ok d0 k n)).
  - exists 0. parts; [lia|done|by exists [], []|by split; [|left]|lia].
  - intros n1 n2 Hreach Hstep [k Hok]. by eapply step_ok.
Qed.
End StartLemmas.

Section StartProperties.
Context {U : Type} (recv : px_request → result error px_request) (serve : writer_handler) (update : U).

(** C24: The start of a node keeps its order under every arrival of streams
    and every change of addresses.  From NewService on, the streams of peers
    are answered with the 501 of its handler until the proxy's handler is
    installed, and with what that one writes ever after; the goroutine that
    polls for updates runs only when the update handler is installed, so that
    it never finds none, and only after the host had a circuit address; mDNS
    runs exactly when the configuration enables it. *)
Theorem node_start_in_order (d : DiscoveryManager U) (n : node U) (Hnew : dm_onUpdate d = None)
    (Hreach : rtc (start_step recv) (new_node serve update d) n) :
  (∃ early late, nd_served n =
     ((λ r, (r, refusal recv r)) <$> early) ++ ((λ r, (r, reply_bytes recv serve r)) <$> late)) ∧
  (PeerUpdates ∈ nd_routines n →
     nd_handler n = serve ∧ dm_onUpdate (nd_discovery n) = Some update ∧
     ∃ m, rtc (start_step recv) (new_node serve update d) m ∧ rtc (start_step recv) m n ∧
       circuit_address (nd_addrs m) ≠ "") ∧
  (PeerUpdates ∈ nd_routines n → MDNS ∈ nd_routines n ↔ dm_MDNSEnabled d = true).
Proof.
  destruct (start_reachable_ok recv serve update d n Hnew Hreach)
    as (k & Hk & (_ & Hh & Hu & Hidle) & (early & late & Hs & _) & (_ & Hr) & Ha).
  split; [by exists early, late|]. split.
  - intros Hin. assert (k = 4) as ->.
    { destruct (decide (k < 4)) as [H4|]; [|lia]. destruct (Hidle H4) as [_ Hnone]. rewrite Hnone in Hin.
      by apply not_elem_of_nil in Hin. }
    split_and!; [done|done|]. apply Ha. lia.
  - intros Hin. destruct Hr as [Hr|Hr]; rewrite Hr in *; [by apply not_elem_of_nil in Hin|].
    unfold dm_Serve. destruct (dm_MDNSEnabled d); set_solver.
Qed.
End StartProperties.

(** A peer calls before the proxy is there and after, and the relay gives the
    node an address. *)
Module StartEx.
Definition manager : DiscoveryManager nat :=
  NewDiscoveryManager {| meshId := "default"; transport := NewClient "http://mesh" "" |} "12D3KooWa"
    (NewPeerNode "12D3KooWa" "alice") false.
Definition circuit : string := "/ip4/1.2.3.4/udp/4002/quic-v1/p2p/12D3KooWr/p2p-circuit".
Definition request0 : px_request := {| pq_method := "GET"; pq_path := "/.mesh/models"; pq_body := Ok ""; pq_header := ∅ |}.
Definition hello : writer_handler := λ r, [OpWrite "hello"].
Definition wired : node nat :=
  stream Ok request0 (with_calls [CallWaitForAddress; GoDiscovery] (WithUpdateHandlerFunc 7
    (with_calls [CallUpdateHandlerFunc 7; CallWaitForAddress; GoDiscovery] (WithHandlerFunc hello
      (stream Ok request0 (new_node hello 7 manager))))))%nat.
Definition started : node nat :=
  discover (with_calls [] (spawn (with_calls [GoDiscovery] (with_addrs [circuit] wired)))).
End StartEx.
Import StartEx.

Lemma node_start_in_order_witness :
  (nd_served started).*2 = [refusal Ok request0; "HTTP/1.1 200 OK" +:+ crlf +:+ crlf +:+ "hello"] ∧
  PeerUpdates ∈ nd_routines started ∧ dm_onUpdate (nd_discovery started) = Some 7 ∧ MDNS ∉ nd_routines started.
Proof.
  assert (rtc (start_step Ok) (new_node hello 7 manager) started) as Hreach.
  { eapply rtc_l; [by apply step_stream with (r := request0)|]. eapply rtc_l; [by eapply step_call|].
    eapply rtc_l; [by eapply step_call|]. eapply rtc_l; [by apply step_stream with (r := request0)|].
    eapply rtc_l; [apply step_addrs with (addrs := [circuit])|].
    eapply rtc_l; [by eapply step_call|]. eapply rtc_l; [by eapply step_call|].
    eapply rtc_l; [by apply step_discover|]. apply rtc_refl. }
  destruct (node_start_in_order Ok hello 7 manager started eq_refl Hreach) as (_ & Hupd & Hmdns).
  assert (PeerUpdates ∈ nd_routines started) as Hin by (right; by left).
  split; [by vm_compute|]. split; [done|]. split; [by apply Hupd|]. by rewrite Hmdns.
Defined.
