(* ===== verification/TestMesh.v ===== *)
(** * TestMesh: the in-process mesh of the proxy's tests (testable/).

    An orchestrator keeps the nodes that are connected and tells their update
    handlers who comes and goes; a doer hands a request to the HTTP handler of
    a node and reads the response it wrote.  The nodes are shared through
    pointers: [or_heap] holds them and the orchestrator's map their addresses.
    The handlers are parameters, which run on the state of the orchestrator
    and the world behind it. *)
From Stdlib Require Import Ascii String.
From S2P Require Import Prelude GoStrings Json Api ModelDex JsonClient Proxy Streams.

(** ** The response writer (response_writer.go)
    It is the writer of a stream, writing to a buffer. *)

Definition testResponseWriter : Type := streamResponseWriter.
Definition NewTestResponseWriter : testResponseWriter := new_writer.
Definition tw_Header (f : header → header) (w : testResponseWriter) : testResponseWriter :=
  {| out := out w; hdr := Some (f (default ∅ (hdr w))); status := status w; wroteHdr := wroteHdr w |}.
Definition tw_WriteHeader (code : Z) (w : testResponseWriter) : testResponseWriter :=
  if wroteHdr w then w
  else {| out := out w +:+ ("HTTP/1.1 " +:+ itoa code +:+ " " +:+ StatusText code +:+ crlf)
                 +:+ header_lines (default ∅ (hdr w)) +:+ crlf;
          hdr := hdr w; status := code; wroteHdr := true |}.
Definition tw_Write (p : string) (w : testResponseWriter) : testResponseWriter :=
  let w := if wroteHdr w then w else tw_WriteHeader StatusOK w in
  {| out := out w +:+ p; hdr := hdr w; status := status w; wroteHdr := wroteHdr w |}.
Definition tw_op (w : testResponseWriter) (o : writer_op) : testResponseWriter :=
  match o with
  | OpHeader f => tw_Header f w
  | OpWriteHeader code => tw_WriteHeader code w
  | OpWrite p => tw_Write p w
  end.

(** ** The nodes (mesh.go, orchestrator.go) *)

Section TestMesh.
Context {W H U : Type}.

Record MeshNode := {
  mn_node : PeerNode; httpHandler : option H; updateHandler : option U;
  has_orchestrator : bool }.
Record MeshOrchestrator := { or_nodes : gmap string nat; or_heap : list MeshNode }.
Definition state : Type := MeshOrchestrator * W.

Definition with_nodes m (t : MeshOrchestrator) := {| or_nodes := m; or_heap := or_heap t |}.
Definition with_heap h (t : MeshOrchestrator) := {| or_nodes := or_nodes t; or_heap := h |}.

(** What the handlers of the nodes do; an HTTP handler is what it does with
    its writer. *)
Context (call_http : H → http_request → prog state (list writer_op)).
Context (call_update : U → PeerNode → bool → prog state (option error)).
(** http.ReadResponse of the bytes, for the request. *)
Context (read_response : string → http_request → result error http_response).

Definition NewMeshOrchestrator : MeshOrchestrator := {| or_nodes := ∅; or_heap := [] |}.
(** NewTestableMesh and NewMeshNode make a node; the first has no
    orchestrator. *)
Definition alloc (mn : MeshNode) : prog state nat :=
  atomically (λ s, ((with_heap (or_heap s.1 ++ [mn]) s.1, s.2), length (or_heap s.1))).
Definition NewTestableMesh (node : PeerNode) : prog state nat :=
  alloc {| mn_node := node; httpHandler := None; updateHandler := None; has_orchestrator := false |}.
Definition NewMeshNode (id name : string) : prog state nat :=
  alloc {| mn_node := NewPeerNode id name; httpHandler := None; updateHandler := None; has_orchestrator := true |}.

(** The node behind a pointer; None for a nil pointer. *)
Definition deref (a : nat) : prog state (option MeshNode) := atomically (λ s, (s, or_heap s.1 !! a)).
Definition nil_deref {A} : prog state (exits A) := Ret (Exited "nil pointer dereference").

Definition mesh_node (a : nat) : prog state (exits PeerNode) :=
  let* mn := deref a in
  match mn with Some mn => Ret (Returned (mn_node mn)) | None => nil_deref end.

Definition update_node (f : MeshNode → MeshNode) (a : nat) : prog state () :=
  atomically (λ s, ((with_heap (alter f a (or_heap s.1)) s.1, s.2), ())).
Definition WithHandlerFunc (a : nat) (h : H) : prog state () := update_node (λ mn,
  {| mn_node := mn_node mn; httpHandler := Some h; updateHandler := updateHandler mn;
     has_orchestrator := has_orchestrator mn |}) a.
Definition WithUpdateHandlerFunc (a : nat) (u : U) : prog state () := update_node (λ mn,
  {| mn_node := mn_node mn; httpHandler := httpHandler mn; updateHandler := Some u;
     has_orchestrator := has_orchestrator mn |}) a.

(** onNodeConnected and onNodeDisconnected: the error of the handler is
    dropped, a nil handler panics. *)
Definition notify_node (a : nat) (node : PeerNode) (removed : bool) : prog state (exits ()) :=
  let* mn := deref a in
  match mn ≫= updateHandler with
  | None => nil_deref
  | Some u => let* _ := call_update u node removed in Ret (Returned ())
  end.
Definition onNodeConnected (a : nat) (node : PeerNode) := notify_node a node false.
Definition onNodeDisconnected (a : nat) (node : PeerNode) := notify_node a node true.

Fixpoint notify_all (notify : nat → PeerNode → prog state (exits ())) (l : list nat) (mn : nat)
    : prog state (exits ()) :=
  match l with
  | [] => Ret (Returned ())
  | un :: l' =>
      let* node := mesh_node mn in
      match node with
      | Exited msg => Ret (Exited msg)
      | Returned node =>
          let* r := notify un node in
          match r with Exited msg => Ret (Exited msg) | Returned _ => notify_all notify l' mn end
      end
  end.

Context `{!MapOrder}.

(** The nodes are cloned after the new one was added, and before the one that
    leaves is removed. *)
Definition orch_Connect (seed : nat) (mn : nat) : prog state (exits ()) :=
  let* updateNodes := atomically (λ s,
    match or_heap s.1 !! mn with
    | None => (s, Exited "nil pointer dereference")
    | Some n =>
        let m := <[(mn_node n).(ID) := mn]> (or_nodes s.1) in
        ((with_nodes m s.1, s.2), Returned m)
    end) in
  match updateNodes with
  | Exited msg => Ret (Exited msg)
  | Returned m => notify_all onNodeConnected (range seed m).*2 mn
  end.
Definition orch_Disconnect (seed : nat) (mn : nat) : prog state (exits ()) :=
  let* updateNodes := atomically (λ s,
    match or_heap s.1 !! mn with
    | None => (s, Exited "nil pointer dereference")
    | Some n => ((with_nodes (delete (mn_node n).(ID) (or_nodes s.1)) s.1, s.2), Returned (or_nodes s.1))
    end) in
  match updateNodes with
  | Exited msg => Ret (Exited msg)
  | Returned m => notify_all onNodeDisconnected (range seed m).*2 mn
  end.

(** The methods of a node go to its orchestrator, if it has one. *)
Definition with_orchestrator {A} (p : prog state (exits A)) (a : nat) : prog state (exits A) :=
  let* mn := deref a in
  match mn with
  | Some mn => if has_orchestrator mn then p else nil_deref
  | None => nil_deref
  end.
Definition node_Connect (seed a : nat) : prog state (exits ()) := with_orchestrator (orch_Connect seed a) a.
Definition node_Disconnect (seed a : nat) : prog state (exits ()) := with_orchestrator (orch_Disconnect seed a) a.

(** ** Requests (doer.go) *)

Definition tw_run (ops : list writer_op) : testResponseWriter := foldl tw_op NewTestResponseWriter ops.

(** The doer of a handler: [None] fails to dial. *)
Definition Doer_Do (handler : option H) : Doer state := λ req,
  match handler with
  | None => Ret (Err (OtherError "dial failure"))
  | Some h =>
      let* ops := call_http h req in
      Ret (read_response (out (tw_run ops)) req)
  end.

(** ClientForPeer: a peer that is not connected is a nil node, of which the
    id is taken all the same. *)
Definition orch_ClientForPeer (dest : PeerNode) : prog state (exits (Doer state)) :=
  let* a := atomically (λ s, (s, or_nodes s.1 !! dest.(ID))) in
  match a with
  | None => nil_deref
  | Some a =>
      let* mn := deref a in
      match mn with None => nil_deref | Some mn => Ret (Returned (Doer_Do (httpHandler mn))) end
  end.

(** ProxyToNode: the handler of the destination writes the response. *)
Definition orch_ProxyToNode (dest : PeerNode) (req : http_request) : prog state (exits (list writer_op)) :=
  let* a := atomically (λ s, (s, or_nodes s.1 !! dest.(ID))) in
  match a with
  | None =>
      Ret (Returned [OpHeader (λ h, <["X-Content-Type-Options" := ["nosniff"]]>
                               (<["Content-Type" := ["text/plain; charset=utf-8"]]> (delete "Content-Length" h)));
                     OpWriteHeader StatusServiceUnavailable; OpWrite ("dial failure" +:+ str1 newline)])
  | Some a =>
      let* mn := deref a in
      match mn ≫= httpHandler with
      | None => nil_deref
      | Some h => let* ops := call_http h req in Ret (Returned ops)
      end
  end.

(** GetPeerMap: the nodes behind the cloned map. *)
Fixpoint collect_peers (l : list nat) (m : gmap string PeerNode) : prog state (exits (gmap string PeerNode)) :=
  match l with
  | [] => Ret (Returned m)
  | un :: l' =>
      let* node := mesh_node un in
      match node with
      | Exited msg => Ret (Exited msg)
      | Returned node => collect_peers l' (<[node.(ID) := node]> m)
      end
  end.
Definition orch_GetPeerMap (seed : nat) : prog state (exits (gmap string PeerNode)) :=
  let* m := atomically (λ s, (s, or_nodes s.1)) in
  collect_peers (range seed m).*2 ∅.

(** GetPeerMeshInfo of the orchestrator; that of a node is nil. *)
Definition orch_GetPeerMeshInfo (peer : PeerNode) : prog state MeshInfo :=
  let none := {| AdvertisedAddresses := []; Connections := [] |} in
  let* a := atomically (λ s, (s, or_nodes s.1 !! peer.(ID))) in
  match a with
  | None => Ret none
  | Some a =>
      let* mn := deref a in
      Ret (match mn with
           | None => none
           | Some mn => {| AdvertisedAddresses := [(mn_node mn).(ID)]; Connections := [] |}
           end)
  end.
Definition node_GetPeerMeshInfo (node : PeerNode) : option MeshInfo := None.
End TestMesh.

(** ** Properties *)

Section Properties.
Context {W H U : Type} `{!MapOrder}.
Context (call_http : H → http_request → prog (@state W H U) (list writer_op)).
Context (read_response : string → http_request → result error http_response).

(** The writer of the tests is the writer of the streams. *)
Lemma tw_run_stream ops : tw_run ops = foldl do_op new_writer ops.
Proof. done. Qed.

(** A peer that is not connected is no client that fails to dial, as the
    comment has it, but a panic. *)
Lemma unknown_peer_panics dest (s : @state W H U) :
  or_nodes s.1 !! dest.(ID) = None →
  run (orch_ClientForPeer call_http read_response dest) s = (s, Exited "nil pointer dereference").
Proof. intros Hno. unfold orch_ClientForPeer. rewrite run_bind, run_atomically, Hno. done. Qed.
End Properties.

(** *** Who is told of whom *)

Section Order.
Context {H U : Type} `{!MapOrder}.
(** The handlers that write down their calls. *)
Abbreviation log := (list (U * PeerNode * bool)).
Definition record (u : U) (n : PeerNode) (removed : bool) : prog (@state log H U) (option error) :=
  atomically (λ s, ((s.1, s.2 ++ [(u, n, removed)]), None)).
Implicit Types (s : @state log H U) (l : list (nat * U * PeerNode)).

(** The nodes [l], by address, with their handlers and an orchestrator, under
    different ids. *)
Definition members l s : Prop :=
  Forall (λ x, ∃ mn, or_heap s.1 !! x.1.1 = Some mn ∧ mn_node mn = x.2 ∧
    updateHandler mn = Some x.1.2 ∧ has_orchestrator mn = true) l ∧ NoDup (ID ∘ snd <$> l).
Definition connected l : gmap string nat := list_to_map ((λ x, (x.2.(ID), x.1.1)) <$> l).

Lemma notify_all_record b us un mn s x :
  or_heap s.1 !! mn = Some x →
  Forall2 (λ a u, ∃ n, or_heap s.1 !! a = Some n ∧ updateHandler n = Some u) un us →
  run (notify_all (λ a n, notify_node record a n b) un mn) s =
    ((s.1, s.2 ++ ((λ u, (u, mn_node x, b)) <$> us)), Returned ()).
Proof.
  intros Hx Hall. revert s Hx Hall. revert us. induction un as [|a un IH]; intros us s Hx Hall.
  { inversion Hall; subst. cbn. rewrite app_nil_r. by destruct s. }
  inversion Hall as [|? u ? us' (n & Hn & Hu) Hrest]; subst. cbn [notify_all]. rewrite run_bind.
  unfold mesh_node at 1. rewrite run_bind. unfold deref at 1. rewrite run_atomically, Hx. cbn [run].
  rewrite run_bind. unfold notify_node at 1. rewrite run_bind. unfold deref at 1. rewrite run_atomically, Hn.
  cbn [mbind option_bind]. rewrite Hu, run_bind. unfold record at 1. rewrite run_atomically. cbn [run fst snd].
  rewrite (IH us'); [|done|done]. cbn [fst snd]. by rewrite fmap_cons, <-app_assoc.
Qed.

Lemma connected_snoc l x :
  (x.2.(ID)) ∉ ID ∘ snd <$> l → connected (l ++ [x]) = <[x.2.(ID) := x.1.1]> (connected l).
Proof.
  intros Hx. unfold connected. rewrite fmap_app. cbn [fmap list_fmap]. rewrite list_to_map_snoc; [done|].
  rewrite <-list_fmap_compose. exact Hx.
Qed.

Lemma connected_range seed l :
  NoDup (ID ∘ snd <$> l) → (range seed (connected l)).*2 ≡ₚ (fst ∘ fst <$> l).
Proof.
  intros Hnd. rewrite range_perm. unfold connected. rewrite map_to_list_to_map.
  - by rewrite <-list_fmap_compose.
  - by rewrite <-list_fmap_compose.
Qed.

(** One more node connects. *)
Lemma run_node_Connect seed l x s :
  members (l ++ [x]) s → or_nodes s.1 = connected l →
  ∃ us, us ≡ₚ (snd ∘ fst <$> l ++ [x]) ∧
    run (node_Connect record seed x.1.1) s =
      ((with_nodes (connected (l ++ [x])) s.1, s.2 ++ ((λ u, (u, x.2, false)) <$> us)), Returned ()).
Proof.
  intros [Hall Hnd] Hnodes. destruct (proj1 (Forall_forall _ _) Hall x) as (mn & Hmn & Hnode & Hu & Ho);
    [apply elem_of_app; right; by left|].
  pose proof (connected_range seed (l ++ [x]) Hnd) as Hrange.
  apply Permutation_map_inv in Hrange as (l' & Hl' & Hperm).
  exists (snd ∘ fst <$> l'). split; [by rewrite Hperm|].
  unfold node_Connect, with_orchestrator. rewrite run_bind. unfold deref at 1. rewrite run_atomically, Hmn, Ho.
  unfold orch_Connect. rewrite run_bind, run_atomically, Hmn. cbn [fst snd].
  rewrite Hnode, Hnodes, <-connected_snoc by (rewrite fmap_app in Hnd; apply NoDup_app in Hnd as (_ & Hd & _);
    intros Hin; apply (Hd _ Hin); by left).
  unfold onNodeConnected. rewrite Hl'. rewrite (notify_all_record false (snd ∘ fst <$> l') _ _ _ mn); [|done|].
  - cbn [fst snd]. by rewrite Hnode.
  - rewrite Forall2_fmap. apply Forall_Forall2_diag, Forall_forall. intros y Hy. cbn [or_heap with_nodes].
    destruct (proj1 (Forall_forall _ _) Hall y) as (my & Hmy & _ & Huy & _); [by rewrite Hperm|].
    by exists my.
Qed.

Definition connect_all seed (l : list (nat * U * PeerNode)) s : @state log H U :=
  foldl (λ s x, (run (node_Connect record seed x.1.1) s).1) s l.

(** Who learns of whom in the mesh of the tests: when nodes connect one
    after the other, the handler of a node is called for the node itself and
    for those that connect after it, and never for those that were there
    before.  (A node of the real mesh is told of all the others, and not of
    itself.) *)
Theorem orchestrator_tells_later_nodes seed l h u n removed :
  members l ({| or_nodes := ∅; or_heap := h |}, []) →
  let s := connect_all seed l ({| or_nodes := ∅; or_heap := h |}, []) in
  or_nodes s.1 = connected l ∧
  ((u, n, removed) ∈ s.2 ↔
   removed = false ∧ ∃ i j a a' u' n', i ≤ j ∧ l !! i = Some (a, u, n') ∧ l !! j = Some (a', u', n)).
Proof.
  set (s0 := ({| or_nodes := ∅; or_heap := h |}, []) : @state log H U). revert u n removed.
  assert (members l s0 → or_heap (connect_all seed l s0).1 = h ∧ or_nodes (connect_all seed l s0).1 = connected l ∧
    ∀ u n removed, (u, n, removed) ∈ (connect_all seed l s0).2 ↔
      removed = false ∧ ∃ i j a a' u' n', i ≤ j ∧ l !! i = Some (a, u, n') ∧ l !! j = Some (a', u', n)) as Hgen.
  2: { intros u n removed Hl. by destruct (Hgen Hl) as (_ & ? & ?). }
  induction l as [|x l IH] using rev_ind; intros Hl.
  { split; [done|]. split; [done|]. intros u n removed. cbn. rewrite elem_of_nil. naive_solver. }
  assert (members l s0) as Hl'.
  { destruct Hl as [Hall Hnd]. apply Forall_app in Hall as [Hall _]. rewrite fmap_app in Hnd.
    by apply NoDup_app in Hnd as [Hnd _]. }
  destruct (IH Hl') as (Hheap & Hnodes & Hlog). unfold connect_all in *. rewrite foldl_app. cbn [foldl].
  set (s := foldl _ s0 l) in *.
  destruct (run_node_Connect seed l x s) as (us & Hus & ->).
  { destruct Hl as [Hall Hnd]. split; [|done]. by rewrite Hheap. }
  { done. }
  cbn [fst snd or_heap or_nodes with_nodes]. split; [done|]. split; [done|]. intros u n removed.
  rewrite elem_of_app, Hlog. split.
  - intros [(-> & i & j & a & a' & u' & n' & Hij & Hi & Hj)|(u' & [= -> -> ->] & Hu)%list_elem_of_fmap].
    + split; [done|]. exists i, j, a, a', u', n'. split_and!; [done|by apply lookup_app_l_Some..].
    + split; [done|]. rewrite Hus in Hu. apply list_elem_of_fmap in Hu as ([[a u] n'] & -> & Hy).
      apply list_elem_of_lookup in Hy as [i Hi]. destruct x as [[ax ux] nx].
      exists i, (length l), a, ax, ux, n'. split_and!; [|done|].
      * apply lookup_lt_Some in Hi. rewrite length_app in Hi. simpl in Hi. lia.
      * rewrite lookup_app_r, Nat.sub_diag by done. done.
  - intros (-> & i & j & a & a' & u' & n' & Hij & Hi & Hj). destruct (decide (j < length l)) as [Hlt|Hge].
    + left. split; [done|]. exists i, j, a, a', u', n'. rewrite lookup_app_l in Hi, Hj by lia. done.
    + right. rewrite lookup_app_r in Hj by lia. apply list_lookup_singleton_Some in Hj as [_ ->].
      apply list_elem_of_fmap. exists u. split; [done|]. rewrite Hus. apply list_elem_of_fmap.
      exists (a, u, n'). split; [done|]. by eapply list_elem_of_lookup_2.
Qed.
End Order.

(** ** Witnesses *)

Module TestMeshEx.
#[export] Existing Instance map_order.
Definition left_node : PeerNode := NewPeerNode "000001" "left".
Definition right_node : PeerNode := NewPeerNode "000002" "right".
Definition test_node (n : PeerNode) (u : nat) : @MeshNode () nat :=
  {| mn_node := n; httpHandler := None; updateHandler := Some u; has_orchestrator := true |}.
Definition both : list (nat * nat * PeerNode) := [(0, 10, left_node); (1, 11, right_node)].
Definition two_nodes : list (@MeshNode () nat) := [test_node left_node 10; test_node right_node 11].
End TestMeshEx.
Import TestMeshEx.

Lemma orchestrator_tells_later_nodes_witness :
  let s := connect_all 0 both ({| or_nodes := ∅; or_heap := two_nodes |}, []) in
  (10, right_node, false) ∈ s.2 ∧ (11, left_node, false) ∉ s.2.
Proof.
  assert (members both ({| or_nodes := ∅; or_heap := two_nodes |}, [])) as Hm.
  { split; [|by apply (bool_decide_unpack _); vm_compute].
    repeat constructor; eexists; split_and!; reflexivity. }
  intros s. split.
  - apply (orchestrator_tells_later_nodes 0 both two_nodes 10 right_node false Hm). split; [done|].
    exists 0, 1, 0, 1, 11, left_node. split_and!; [lia|done..].
  - intros Hin. apply (orchestrator_tells_later_nodes 0 both two_nodes 11 left_node false Hm) in Hin
      as (_ & i & j & a & a' & u' & n' & Hij & Hi & Hj).
    destruct i as [|[|[]]], j as [|[|[]]]; simplify_eq/=; lia.
Defined.
