(* ===== verification/Join.v ===== *)
(** * Join: how a node becomes a member, end to end.

    The invitation link of the admin, the redemption (api/redeem.go), the
    configuration written from it (cmd/mesh), the start of the service
    (pkg/mesh) and the registration are run against the server of
    AdminServer over the wire of EndToEnd. *)
From Stdlib Require Import Ascii String.
From S2P Require Import Prelude GoStrings Json Api JsonKV AllowList MagicLink Auth Mux UrlPath AdminServer.
From S2P Require Import AdminAccess AdminRegistry AdminInvites ModelDex JsonClient ApiClient.
From S2P Require Import EndToEnd Proxy Config Streams Service.

(** ** The commands (cmd/mesh/app_join.go, app_proxy.go) *)

Section Commands.
Context {W K : Type} (rt : Doer W).
Context `{!YamlText} `{!JsonText} `{!TimeText} `{!NewRequestText} `{!URLText} `{!Libp2pText} `{!MapOrder}.
(** The key of the node, and the id of a key. *)
Context (load_key : prog W (result error K)) (peer_id : K → result error string).
(** config.yaml: [None] when there is no such file. *)
Context (read : prog W (option (result error string))) (write : string → prog W (option error)).
(** What NewService needs of the host. *)
Context (new_host : K → list AddrInfo → bool → list string → prog W (result error string)).
Context (close_host : prog W ()) (connect_relay : AddrInfo → prog W (option error)).
Context (found : result error AddressDiscovery) (hostname : string).
(** What NewProxy needs: the time and the models of the providers. *)
Context (now : Z) (up : Provider → Upstream).

(** The confirmation of the user: an answer, an aborted form, or an error. *)
Inductive confirm : Type := Answered (yes : bool) | FormAborted | FormFailed (e : error).

(** existingJoinConfig: the configuration to keep and whether to go on. *)
Definition existingJoinConfig (form : confirm) : prog W (result error (option Config * bool)) :=
  let* file := read in
  Ret (match file with
       | None => Ok (None, true)
       | Some file =>
           match LoadConfig hostname file with
           | Err e => Err (OtherError ("load config.yaml: " +:+ error_string e))
           | Ok cfg =>
               match form with
               | FormAborted => Ok (None, false)
               | FormFailed e => Err e
               | Answered yes => Ok (if yes then (Some cfg, true) else (None, false))
               end
           end
       end).

(** runProxy, up to RunInterruptible: the service and the proxy that run. *)
Definition runProxy (seed : nat) (c : Config) : prog W (exits (Service * Proxy)) :=
  let* service := NewService rt load_key peer_id new_host close_host connect_relay found seed c.(cf_Mesh) in
  match service with
  | Exited msg => Ret (Exited msg)
  | Returned (Err e) =>
      Ret (Exited ("Could not initialize mesh err:" +:+ error_string e +:+ str1 newline))
  | Returned (Ok service) =>
      let* file := read in
      let text := match file with Some f => f | None => Err (OtherError "no such file") end in
      Ret (Returned (service, attachAdminController c
        (NewProxy service.(sv_node) c.(Providers) now up text)))
  end.

(** runJoin: an error, nothing when the user stopped, or what runProxy runs. *)
Definition runJoin (seed : nat) (prog_name : string) (args : list string) (form : confirm)
    : prog W (exits (result error (option (Service * Proxy)))) :=
  let done_ r := Ret (Returned r) in
  match args with
  | [link] =>
    if bool_decide (trim_space link = "")
    then done_ (Err (OtherError ("usage: " +:+ prog_name +:+ " join <invite-url>")))
    else
      let* existing := existingJoinConfig form in
      match existing with
      | Err e => done_ (Err e)
      | Ok (_, false) => done_ (Ok None)
      | Ok (existing, true) =>
          let* err := joinWithInvite rt load_key peer_id write hostname (trim_space link) existing in
          match err with
          | Some e => done_ (Err e)
          | None =>
              let* file := read in
              match MustLoadConfig hostname
                      (match file with Some f => f | None => Err (OtherError "no such file") end) with
              | Err msg => Ret (Exited msg)
              | Ok c =>
                  let* running := runProxy seed c in
                  Ret (match running with
                       | Exited msg => Exited msg
                       | Returned sp => Returned (Ok (Some sp))
                       end)
              end
          end
      end
  | _ => done_ (Err (OtherError ("usage: " +:+ prog_name +:+ " join <invite-url>")))
  end.
End Commands.

(** ** A node and its server *)

(** The configuration file of the node, the number of requests it has made,
    and the server; every request meets its own clock and randomness. *)
Record node_world (DB : Type) := {
  nw_file : option string; nw_calls : nat; nw_server : Server DB }.
Arguments nw_file {DB}.
Arguments nw_calls {DB}.
Arguments nw_server {DB}.

Section Join.
Context {DB : Type} `{!Badger DB} `{!JsonText} `{!TimeText} `{!Aead} `{!Hashes} `{!MapOrder}
  `{!NewRequestText} `{!URLText} `{!Libp2pText} `{!BadgerLaws DB}.
Implicit Types (s : Server DB) (env : Env).

Definition node_doer (base : string) (envs : nat → Env) : Doer (node_world DB) := λ req,
  let* n := atomically (λ w, ({| nw_file := nw_file w; nw_calls := S (nw_calls w);
                                 nw_server := nw_server w |}, nw_calls w)) in
  zoom nw_server (λ s w, {| nw_file := nw_file w; nw_calls := nw_calls w; nw_server := s |})
    (server_doer base (envs n) req).
Definition read_config : prog (node_world DB) (option (result error string)) :=
  atomically (λ w, (w, Ok <$> nw_file w)).
Definition write_config (text : string) : prog (node_world DB) (option error) :=
  atomically (λ w, ({| nw_file := Some text; nw_calls := nw_calls w; nw_server := nw_server w |}, None)).

(** The world after one more request that left the server at [s]. *)
Definition called (s : Server DB) (w : node_world DB) : node_world DB :=
  {| nw_file := nw_file w; nw_calls := S (nw_calls w); nw_server := s |}.

(** ** Routes *)

Lemma route_redeem id :
  id ≠ "" → route (routes (DB := DB)) "POST" ["api"; "v1"; "redeem"; id]
    = Some (handle adminRedeemInviteLink, [("id", id)]).
Proof. intros Hid. destruct id as [|c id]; [done|]. find_route. Qed.
Lemma route_login :
  route (routes (DB := DB)) "POST" ["api"; "v1"; "login"] = Some (handle apiNodeLogin, []).
Proof. find_route. Qed.
Lemma route_relay :
  route (routes (DB := DB)) "GET" ["api"; "v1"; "relay"] = Some (authenticated apiRelayGet, []).
Proof. find_route. Qed.

Lemma redeem_path id : plain_segment id = true →
  clean_segments ("/api/v1/redeem/" +:+ id) = Some ["api"; "v1"; "redeem"; id].
Proof.
  intros Hid. change ("/api/v1/redeem/" +:+ id) with (path_of ["api"; "v1"; "redeem"; id]).
  apply clean_segments_plain; [done|]. by repeat constructor.
Qed.

(** ** Redeeming over the wire *)

(** The link is the one of the invitation [id] below the address [base]. *)
Definition link_of (base id link : string) : Prop :=
  ∃ u, url_parse (invite_url_text link) = Ok u ∧ u.(u_Scheme) ≠ "" ∧ u.(u_Host) ≠ "" ∧ u.(u_Path) ≠ "" ∧
    u.(u_Scheme) +:+ "://" +:+ u.(u_Host) = base ∧
    u.(u_EscapedPath) = "/api/v1/redeem/" +:+ id ∧ u.(u_RawQuery) = "".

(** The server holds the invitation, and its clock allows it. *)
Definition invited env s (id : string) (invite : inviteSecret) : Prop :=
  healthy s.(kv) ∧ Get dec_invite invite_zero (inviteKVKey "default" id) s.(kv) = Ok invite ∧
  ¬ expired (env.(now) 0) invite.

(** What the handler draws to make the secret and its hash. *)
Definition draws env (secret hash : string) : Prop :=
  newNodeLoginSecret (env.(rand) 0) = Ok secret ∧ hashLoginSecret (env.(rand) 1) secret = Ok hash.

Lemma secret_utf8 env secret hash : draws env secret hash → utf8_ok secret = true.
Proof.
  intros [Hs _]. unfold newNodeLoginSecret in Hs. destruct (rand env 0); [|done].
  injection Hs as <-. apply hex_encode_utf8.
Qed.

Definition redeemed (invite : inviteSecret) (secret url : string) : RedeemInviteResponse :=
  {| rr_MeshId := invite.(MeshId); rr_MeshSecret := secret; rr_MeshServer := url |}.

Lemma dec_redeem_reply invite secret url :
  dec_redeem_resp (redeem_reply invite secret url)
    {| rr_MeshId := ""; rr_MeshSecret := ""; rr_MeshServer := "" |} = (redeemed invite secret url, true).
Proof. unfold dec_redeem_resp, redeem_reply. by decode_obj. Qed.

Lemma run_redeem_call env base id link (node : PeerNode) invite secret hash s :
  link_of base id link → new_request_err "POST" (base +:+ "/api/v1/redeem/" +:+ id) = None →
  plain_segment id = true → node.(ID) ≠ "" → node_utf8 node = true → node_ok node = true →
  invited env s id invite → draws env secret hash → record_fits env invite node hash →
  utf8_ok invite.(MeshId) = true → utf8_ok s.(advertiseURL) = true →
  ∃ s', run (RedeemInvite (server_doer base env) link node) s
          = (s', Ok (redeemed invite secret s.(advertiseURL))) ∧
    healthy s'.(kv) ∧ s'.(acl).(allow) = <[node.(ID) := ()]> s.(acl).(allow) ∧
    s' = with_kv s'.(kv) (with_acl s'.(acl) s) ∧
    contents s'.(kv) !! meshNodeKVKey invite.(MeshId) node.(ID)
      = Some (json_print (enc_mn (redeem_record env invite node hash))).
Proof.
  intros (u & Hu & Hsch & Hhost & Hpath & Hbase & Hesc & Hq) Hnew Hplain Hnode Hutf8 Hok
    (Hh & Hget & Hexp) Hdraws Hfits Hmesh Hurl. pose proof (plain_segment_ne _ Hplain) as Hid.
  set (ctx := rpc_of {| rq_method := "POST"; rq_path := ["api"; "v1"; "redeem"; id];
    rq_authorization := ""; rq_body := b ← json_print <$> Some (enc_redeem node); json_first b |}
    [("id", id)] None).
  assert (json_utf8 (enc_redeem node) = true) as Henc.
  { unfold node_utf8 in Hutf8. rewrite andb_true_iff in Hutf8. destruct Hutf8 as [Hi Hn].
    unfold enc_redeem, enc_node. cbn [json_utf8 forallb fst snd]. by rewrite Hi, Hn, time_print_utf8. }
  assert (redeem_input env ctx invite node secret hash) as Hin.
  { destruct Hdraws as [Hs Hhash]. split; try done.
    unfold GetObject, ctx. cbn [rpc_body rpc_of rq_body mbind option_bind fmap option_fmap option_map].
    rewrite json_first_print by done. by rewrite dec_redeem_enc. }
  assert (ctx.(PathVar) "id" = id) as Hpv by done.
  destruct (run_redeem_rest env ctx (inviteKVKey "default" id) invite node secret hash s Hh
    (Get_key_ok _ _ _ _ _ Hh Hget) Hexp Hin)
    as (s' & Hrun & Hh' & Hallow & Hs' & _ & _ & Hc).
  pose proof (run_redeem env ctx s) as Hredeem. cbv zeta in Hredeem. rewrite Hpv, Hget, Hrun in Hredeem.
  specialize (Hredeem Hid).
  exists s'. split; [|split_and!; try done].
  - unfold RedeemInvite. rewrite (bool_decide_false _ Hnode). unfold parseInviteURL. rewrite Hu.
    rewrite bool_decide_false by naive_solver. rewrite Hbase, Hesc, Hq. cbn [bool_decide].
    rewrite bool_decide_false by (by intros []). rewrite append_nil_r, run_bind. unfold Client_Post.
    erewrite (run_Client_Do base env _ _ _ ["api"; "v1"; "redeem"; id]); [|done|done|by apply redeem_path|].
    2: { unfold ServeHTTP. cbn [rq_method rq_path].
         rewrite route_redeem by done. unfold handle. rewrite run_bind. change (rpc_of _ _ _) with ctx.
         rewrite Hredeem. reflexivity. }
    cbn [respond r_status r_body]. rewrite bool_decide_false by (intros Hne; by apply Hne).
    change (wire_body _) with (wire_body (BJson (redeem_reply invite secret s.(advertiseURL)))).
    rewrite unmarshal_wire; [by rewrite dec_redeem_reply|]. unfold redeem_reply.
    cbn [json_utf8 forallb fst snd]. by rewrite Hmesh, Hurl, (secret_utf8 _ _ _ Hdraws).
  - rewrite Hc. destruct (OneTime invite); simpl;
      rewrite ?lookup_delete_ne by apply invite_mesh_keys_differ; by rewrite lookup_insert_eq.
Qed.

(** ** Logging in over the wire *)

(** The record under which a node logs in with a secret. *)
Definition can_login s (mesh id secret : string) : Prop :=
  healthy s.(kv) ∧ aes_key_ok s.(magicKey) = true ∧ id ≠ "" ∧ mesh ≠ "" ∧ secret ≠ "" ∧
  utf8_ok id = true ∧ utf8_ok mesh = true ∧ utf8_ok secret = true ∧
  ∃ rec, Get dec_mn mn_zero (meshNodeKVKey mesh id) s.(kv) = Ok rec ∧ rec.(PasswordHash) ≠ "" ∧
    bcrypt_check rec.(PasswordHash) secret = true.

Lemma run_login_call env base (c : MeshClient) id secret nonce s :
  c.(transport).(Address) = base → new_request_err "POST" (base +:+ "/api/v1/login") = None →
  can_login s c.(meshId) id secret → env.(rand) 0 = Some nonce → String.length nonce = nonceSize →
  ∃ token, run (MeshClient_Login (server_doer base env) c id secret) s
      = (s, ({| meshId := c.(meshId); transport := SetToken token c.(transport) |}, None)) ∧
    ∀ env', accepted env' s (SetToken token c.(transport)).
Proof.
  intros Hbase Hnew (Hh & Hkey & Hid & Hmesh & Hsecret & Hidu & Hmu & Hsu & rec & Hget & Hhash & Hcheck)
    Hrand Hnonce.
  destruct (issue_authenticates s.(magicKey) id (env.(now) 0) nonce) as (token & Hissue & Hauth); [done..|].
  destruct (issue_graphic _ _ _ _ _ _ _ Hissue) as [Hg Hne].
  set (req := {| nl_NodeID := id; nl_MeshId := c.(meshId); nl_MeshSecret := secret |}).
  exists token. split.
  - unfold MeshClient_Login. rewrite run_bind. unfold Client_Post.
    erewrite (run_Client_Do base env _ _ _ ["api"; "v1"; "login"]); [|by rewrite Hbase|done|done|].
    2: { unfold ServeHTTP. cbn [rq_method rq_path]. rewrite route_login. unfold handle. rewrite run_bind.
         erewrite (run_login _ _ _ req c.(meshId) rec); [|..]; try done.
         - change (nl_MeshSecret req) with secret. change (nl_NodeID req) with id.
           rewrite (bool_decide_false _ Hhash), Hcheck. cbn [orb negb].
           rewrite Hrand, Hissue. reflexivity.
         - unfold GetObject, rpc_of.
           cbn [rpc_body rq_body mbind option_bind fmap option_fmap option_map].
           rewrite json_first_print; [by rewrite dec_login_enc|].
           unfold enc_login. cbn [json_utf8 forallb fst snd nl_NodeID nl_MeshId nl_MeshSecret].
           by rewrite Hidu, Hmu, Hsu.
         - cbn [nl_MeshId req]. by rewrite bool_decide_false. }
    cbn [respond r_status r_body]. rewrite bool_decide_false by (intros Hn; by apply Hn).
    rewrite unmarshal_wire.
    + unfold dec_login_resp. decode_obj. done.
    + cbn [json_utf8 forallb fst snd]. by rewrite (utf8_graphic _ Hg), Hidu.
  - intros env'. exists {| User := id; Group := "mesh" |}. unfold setAuth. cbn [SetToken cl_token].
    rewrite bool_decide_true by done. apply DoAuth_session with token; [|apply Hauth].
    by apply bearer_token_graphic.
Qed.

(** ** The relay addresses over the wire *)

Lemma run_relay_call env base (c : MeshClient) s :
  c.(transport).(Address) = base → new_request_err "GET" (base +:+ "/api/v1/relay") = None →
  accepted env s c.(transport) → forallb utf8_ok s.(relayAddress) = true →
  u64_ok s.(logicalTime) = true → time_ok s.(lastUpdate) = true →
  run (MeshClient_GetAddress (server_doer base env) c) s = (s, Ok s.(relayAddress)).
Proof.
  intros Hbase Hnew (user & Hauth) Hutf8 Hlt Hlu.
  unfold MeshClient_GetAddress, MeshClient_GetRelay. rewrite !run_bind. unfold Client_Get.
  erewrite (run_Client_Do base env _ _ _ ["api"; "v1"; "relay"]); [|by rewrite Hbase|done|done|].
  2: { unfold ServeHTTP. cbn [rq_method rq_path]. rewrite route_relay.
       rewrite (authenticated_accepted _ _ _ _ _ user) by exact Hauth. reflexivity. }
  cbn [respond r_status r_body]. rewrite bool_decide_false by (intros Hn; by apply Hn).
  rewrite unmarshal_wire.
  - apply bool_decide_eq_true in Hlt. unfold dec_relay. cbn [fst snd id]. decode_obj. rewrite dec_strings. decode_obj. done.
  - cbn [json_utf8 forallb fst snd]. fold (json_utf8 (strings s.(relayAddress))).
    by rewrite strings_utf8, time_print_utf8.
Qed.

(** ** One request at a time *)

Lemma run_node_doer base envs req (w : node_world DB) :
  run (node_doer base envs req) w =
    let '(s, r) := run (server_doer base (envs (nw_calls w)) req) (nw_server w) in (called s w, r).
Proof.
  unfold node_doer. rewrite run_bind, run_atomically, run_zoom; [|done|by intros []|done].
  cbn [nw_file nw_calls nw_server]. by destruct (run (server_doer _ _ _) _).
Qed.

Lemma run_node_call {A} base envs (c : Client) method location inp (dec : option (decoder A)) v w :
  new_request_err method (c.(Address) +:+ location) = None →
  run (Client_Do (node_doer base envs) c method location inp dec v) w =
    let '(s, r) := run (Client_Do (server_doer base (envs (nw_calls w))) c method location inp dec v)
                     (nw_server w) in (called s w, r).
Proof.
  intros Hnew. unfold Client_Do, newRequest. rewrite Hnew, !run_bind, run_node_doer.
  destruct (run (server_doer _ _ _) _) as [s [r|e]]; [|done].
  destruct (hs_body r); [|done]. case_bool_decide; [done|]. destruct dec as [d|]; [|done].
  by destruct (unmarshal d _ v).
Qed.

Ltac node_call :=
  rewrite !run_bind; unfold Client_Post, Client_Get; rewrite run_node_call by done;
  match goal with |- context [run ?p (nw_server ?w)] => by destruct (run p (nw_server w)) as [? [? []]] end.

Lemma run_node_login base envs (c : MeshClient) id secret w :
  new_request_err "POST" (c.(transport).(Address) +:+ "/api/v1/login") = None →
  run (MeshClient_Login (node_doer base envs) c id secret) w =
    let '(s, r) := run (MeshClient_Login (server_doer base (envs (nw_calls w))) c id secret) (nw_server w) in
    (called s w, r).
Proof. intros Hnew. unfold MeshClient_Login. node_call. Qed.

Lemma run_node_relay base envs (c : MeshClient) w :
  new_request_err "GET" (c.(transport).(Address) +:+ "/api/v1/relay") = None →
  run (MeshClient_GetAddress (node_doer base envs) c) w =
    let '(s, r) := run (MeshClient_GetAddress (server_doer base (envs (nw_calls w))) c) (nw_server w) in
    (called s w, r).
Proof. intros Hnew. unfold MeshClient_GetAddress, MeshClient_GetRelay. node_call. Qed.

Lemma run_node_register base envs (c : MeshClient) name id w :
  new_request_err "POST" (c.(transport).(Address) +:+ "/api/v1/nodes") = None →
  run (MeshClient_Register (node_doer base envs) c name id) w =
    let '(s, r) := run (MeshClient_Register (server_doer base (envs (nw_calls w))) c name id) (nw_server w) in
    (called s w, r).
Proof. intros Hnew. unfold MeshClient_Register. node_call. Qed.

Lemma run_node_redeem base envs link node id w :
  link_of base id link → new_request_err "POST" (base +:+ "/api/v1/redeem/" +:+ id) = None →
  node.(ID) ≠ "" →
  run (RedeemInvite (node_doer base envs) link node) w =
    let '(s, r) := run (RedeemInvite (server_doer base (envs (nw_calls w))) link node) (nw_server w) in
    (called s w, r).
Proof.
  intros (u & Hu & Hsch & Hhost & Hpath & Hbase & Hesc & Hq) Hnew Hnode. unfold RedeemInvite.
  rewrite (bool_decide_false _ Hnode). unfold parseInviteURL. rewrite Hu.
  rewrite bool_decide_false by naive_solver. rewrite Hbase, Hesc, Hq. cbn [bool_decide].
  rewrite bool_decide_false by (by intros []). rewrite append_nil_r. node_call.
Qed.

(** ** Starting the service *)

(** The environment of the node: its key, its host and the relays work. *)
Section Node.
Context {K : Type} (load_key : prog (node_world DB) (result error K)) (peer_id : K → result error string).
Context (new_host : K → list AddrInfo → bool → list string → prog (node_world DB) (result error string)).
Context (close_host : prog (node_world DB) ()) (connect_relay : AddrInfo → prog (node_world DB) (option error)).
Context (found : result error AddressDiscovery) (key : K) (nid : string).

Record node_works : Prop := {
  nw_key w : run load_key w = (w, Ok key);
  nw_id : peer_id key = Ok nid;
  nw_host relays private extra w : run (new_host key relays private extra) w = (w, Ok nid);
  nw_relay r w : (run (connect_relay r) w).1 = w }.

Lemma run_connect_relays relays w :
  node_works → run (connect_relays connect_relay relays) w = (w, ()).
Proof.
  intros Hn. induction relays as [|r relays IH]; [done|]. cbn [connect_relays]. rewrite run_bind.
  pose proof (nw_relay Hn r w) as Hr. destruct (run (connect_relay r) w) as [w' e]. simpl in Hr. by subst w'.
Qed.

(** The server admits the node with the secret, and can be asked. *)
Record admits base (envs : nat → Env) seed (relays : list AddrInfo) (secret : string) (n : nat) s : Prop := {
  ad_requests : Forall (λ ml, new_request_err ml.1 (base +:+ ml.2) = None)
    [("POST", "/api/v1/login"); ("GET", "/api/v1/relay"); ("POST", "/api/v1/nodes")];
  ad_login : can_login s "default" nid secret;
  ad_nonces : ∀ k, k ∈ [n; 2 + n] → ∃ nonce, (envs k).(rand) 0 = Some nonce ∧ String.length nonce = nonceSize;
  ad_relays : PeerAddrInfoFromMulti seed s.(relayAddress) = Returned relays;
  ad_utf8 : forallb utf8_ok s.(relayAddress) = true;
  ad_clock : u64_ok s.(logicalTime) = true;
  ad_update : time_ok s.(lastUpdate) = true }.

Lemma run_service_start base envs seed relays extra mc w :
  let s := nw_server w in
  node_works → mc.(me_Address) = base → admits base envs seed relays mc.(me_Secret) (nw_calls w) s →
  public_addrs (node_visibility found mc) = Returned extra →
  ∃ svc, run (NewService (node_doer base envs) load_key peer_id new_host close_host connect_relay found
                seed mc) w
           = ({| nw_file := nw_file w; nw_calls := 3 + nw_calls w; nw_server := s |}, Returned (Ok svc)) ∧
    svc.(sv_node) = NewPeerNode nid mc.(me_Name) ∧ svc.(sv_relays) = relays ∧
    svc.(sv_admin).(transport).(Address) = base ∧
    ∀ env, accepted env s svc.(sv_admin).(transport).
Proof.
  intros s Hn Hbase [Hreq Hlogin Hnonces Hrel Hutf8 Hlt Hlu] Hpub.
  rewrite !Forall_cons in Hreq. destruct Hreq as (Hr1 & Hr2 & _). cbn [fst snd] in Hr1, Hr2.
  destruct (Hnonces (nw_calls w)) as (nonce & Hrand & Hlen); [set_solver|].
  destruct (Hnonces (2 + nw_calls w)) as (nonce' & Hrand' & Hlen'); [set_solver|].
  set (c0 := Client_Mesh (NewClient mc.(me_Address) mc.(me_Secret)) "default").
  destruct (run_login_call (envs (nw_calls w)) base c0 nid mc.(me_Secret) nonce s) as (t1 & Hl1 & Ha1); [done..|].
  set (c1 := {| meshId := meshId c0; transport := SetToken t1 (transport c0) |}).
  destruct (run_login_call (envs (2 + nw_calls w)) base c1 nid mc.(me_Secret) nonce' s)
    as (t2 & Hl2 & Ha2); [done..|].
  unfold NewService. rewrite run_bind, (nw_key Hn), (nw_id Hn). fold c0.
  rewrite run_bind, run_node_login by (by cbn; rewrite Hbase). fold s. rewrite Hl1. fold c1. cbn iota beta.
  rewrite run_bind, run_node_relay by (by cbn; rewrite Hbase).
  cbn [called nw_server nw_calls].
  rewrite (run_relay_call _ base) by done. rewrite Hrel. cbn iota beta zeta. rewrite Hpub. cbn iota beta.
  rewrite run_bind, (nw_host Hn). cbn iota beta.
  rewrite run_bind, run_node_login by (by cbn; rewrite Hbase). cbn [called nw_server nw_calls nw_file].
  change (S (S (nw_calls w))) with (2 + nw_calls w). rewrite Hl2. cbn iota beta.
  rewrite run_bind, run_connect_relays by done.
  eexists. split; [reflexivity|]. done.
Qed.

(** ** Joining *)

(** What a join needs besides the invitation: its link, the default mesh, a
    server that knows the address it is reached at, usable keys, randomness
    and clocks, and names the formats can carry. *)
Record joinable base (envs : nat → Env) seed (relays : list AddrInfo) link (inv : string) (invite : inviteSecret)
    (node : PeerNode) (name secret hash : string) s : Prop := {
  jo_link : link_of base inv (trim_space link);
  jo_nonempty : trim_space link ≠ "";
  jo_inv : plain_segment inv = true;
  jo_requests : Forall (λ ml, new_request_err ml.1 (base +:+ ml.2) = None)
    [("POST", "/api/v1/redeem/" +:+ inv); ("POST", "/api/v1/login"); ("GET", "/api/v1/relay");
     ("POST", "/api/v1/nodes")];
  jo_mesh : invite.(MeshId) = "default";
  jo_draws : draws (envs 0) secret hash;
  jo_secret : secret ≠ "" ∧ hash ≠ "";
  jo_url : trim_space s.(advertiseURL) = base ∧ base ≠ "" ∧ utf8_ok s.(advertiseURL) = true;
  jo_node : node.(ID) = nid ∧ nid ≠ "" ∧ node_utf8 node = true ∧ node_ok node = true;
  jo_name : name ≠ "" ∧ utf8_ok name = true;
  jo_record : mn_ok (redeem_record (envs 0) invite node hash) = true ∧ record_fits (envs 0) invite node hash;
  jo_key : aes_key_ok s.(magicKey) = true;
  jo_nonces k : k ∈ [1; 3] → ∃ nonce, (envs k).(rand) 0 = Some nonce ∧ String.length nonce = nonceSize;
  jo_relays : PeerAddrInfoFromMulti seed s.(relayAddress) = Returned relays ∧
    forallb utf8_ok s.(relayAddress) = true;
  jo_clock : u64_ok s.(logicalTime) = true;
  jo_times : time_ok s.(lastUpdate) = true ∧ time_ok ((envs 4).(now) 0) = true ∧ time_ok time_zero = true }.

Lemma redeemed_admits base envs seed relays link inv invite node name secret hash s s' :
  joinable base envs seed relays link inv invite node name secret hash s →
  healthy s'.(kv) → s' = with_kv s'.(kv) (with_acl s'.(acl) s) →
  contents s'.(kv) !! meshNodeKVKey invite.(MeshId) node.(ID)
    = Some (json_print (enc_mn (redeem_record (envs 0) invite node hash))) →
  admits base envs seed relays secret 1 s'.
Proof.
  intros [? ? ? Hreq Hmesh Hdraws Hsec ? Hnode ? [Hrec _] ? ? ? ? Htimes] Hh Hs' Hc.
  destruct Hnode as (Hid & Hne & Hnu & _). unfold node_utf8 in Hnu. rewrite andb_true_iff, Hid in Hnu.
  rewrite Hmesh, Hid in Hc. rewrite Hs'. clear Hs'.
  destruct Htimes as (? & ? & ?). destruct (mn_ok_spec _ Hrec) as [Hutf8 Hdec]. rewrite !Forall_cons in Hreq.
  split; cbn [magicKey relayAddress logicalTime lastUpdate with_kv with_acl]; [|..|tauto|tauto|done|done].
  - rewrite !Forall_cons. tauto.
  - unfold can_login. cbn [kv magicKey with_kv with_acl]. split_and!; try done; try tauto.
    { by apply (secret_utf8 _ _ _ Hdraws). }
    exists (redeem_record (envs 0) invite node hash). split_and!; [|by apply Hsec|].
    + rewrite Get_healthy, Hc by done. by rewrite unmarshal_print, Hdec.
    + destruct Hdraws as [_ Hhash]. by apply (hash_not_empty _ _ _ _ Hhash).
  - done.
Qed.

Context `{!YamlText} (hostname : string) (form : confirm) (now_ : Z) (up : Provider → Upstream).

(** The configuration the node writes. *)
Definition joined_config s (invite : inviteSecret) (secret : string) (existing : option Config) : Config :=
  configFromInvite hostname (redeemed invite secret s.(advertiseURL)) existing.

Lemma run_join base envs seed relays link inv invite secret hash s existing file text :
  let node := {| ID := nid; Name := join_name hostname existing; LogicalTime := 0; LastUpdate := time_zero |} in
  let c := applyConfigDefaults hostname (joined_config s invite secret existing) in
  node_works → joinable base envs seed relays link inv invite node c.(cf_Mesh).(me_Name) secret hash s →
  invited (envs 0) s inv invite →
  yaml_encode (joined_config s invite secret existing) = Ok text →
  ∃ s', run (joinWithInvite (node_doer base envs) load_key peer_id write_config hostname
          (trim_space link) existing) {| nw_file := file; nw_calls := 0; nw_server := s |}
      = ({| nw_file := Some text; nw_calls := 1; nw_server := s' |}, None) ∧
    MustLoadConfig hostname (Ok text) = Ok c ∧
    admits base envs seed relays secret 1 s' ∧ c.(cf_Mesh).(me_Address) = base ∧
    c.(cf_Mesh).(me_Secret) = secret ∧
    s'.(acl).(allow) = <[nid := ()]> s.(acl).(allow) ∧
    view s' = view s ∧ s'.(logicalTime) = s.(logicalTime).
Proof.
  intros node c Hn Hj Hinvd Htext. pose proof Hj as [Hlink _ Hinv Hreq Hmesh Hdraws _ Hurl Hnode _ [_ Hfits] _ _ _ _ _].
  rewrite Forall_cons in Hreq. destruct Hreq as [Hreq _]. cbn [fst snd] in Hreq.
  destruct Hnode as (_ & Hnid & Hnu & Hnok). destruct Hurl as (Hbase & Hb & Hu).
  destruct (run_redeem_call (envs 0) base inv (trim_space link) node invite secret hash s)
    as (s' & Hrun & Hh & Hallow & Hs' & Hc); try done.
  { by rewrite Hmesh. }
  exists s'. split_and!; try done.
  - unfold joinWithInvite. rewrite run_bind, (nw_key Hn), (nw_id Hn).
    rewrite run_bind, (run_node_redeem base _ _ node inv) by done. cbn [nw_calls nw_server]. rewrite Hrun.
    cbn iota beta. fold (joined_config s invite secret existing). rewrite Htext.
    rewrite run_bind. unfold write_config. rewrite run_atomically. done.
  - unfold MustLoadConfig, LoadConfig. rewrite (yaml_decode_encode _ _ Htext). fold c.
    rewrite bool_decide_false; [done|]. subst base. exact Hb.
  - by apply redeemed_admits with (1 := Hj).
  - by rewrite Hs'.
  - by rewrite Hs'.
Qed.

(** Joining works.  From the link of a valid invitation, `mesh join`
    redeems it, writes config.yaml, and starts the node on what it wrote:
    the service logs in with the secret the redemption drew, uses the relays
    the server names, and its client registers the node under the name of the
    configuration, so that the server lists exactly one more (or renewed)
    node, which is on its allow list. *)
Theorem node_joins base envs seed relays extra prog_name link inv invite secret hash s existing file text :
  let node := {| ID := nid; Name := join_name hostname existing; LogicalTime := 0; LastUpdate := time_zero |} in
  let c := applyConfigDefaults hostname (joined_config s invite secret existing) in
  let w0 := {| nw_file := file; nw_calls := 0; nw_server := s |} in
  node_works → joinable base envs seed relays link inv invite node c.(cf_Mesh).(me_Name) secret hash s →
  invited (envs 0) s inv invite →
  run (existingJoinConfig read_config hostname form) w0 = (w0, Ok (existing, true)) →
  public_addrs (node_visibility found c.(cf_Mesh)) = Returned extra →
  yaml_encode (joined_config s invite secret existing) = Ok text →
  ∃ w svc proxy w' reg,
    run (runJoin (node_doer base envs) load_key peer_id read_config write_config new_host close_host
           connect_relay found hostname now_ up seed prog_name [link] form) w0
      = (w, Returned (Ok (Some (svc, proxy)))) ∧
    nw_file w = Some text ∧ MustLoadConfig hostname (Ok text) = Ok c ∧
    svc.(sv_node) = NewPeerNode nid c.(cf_Mesh).(me_Name) ∧ svc.(sv_relays) = relays ∧
    run (MeshClient_Register (node_doer base envs) svc.(sv_admin) svc.(sv_node).(Name) svc.(sv_node).(ID)) w
      = (w', Ok reg) ∧
    reg.(rg_node) = {| ID := nid; Name := c.(cf_Mesh).(me_Name); LogicalTime := tick s.(logicalTime);
                       LastUpdate := (envs 4).(now) 0 |} ∧
    view (nw_server w') = <[nid := reg.(rg_node)]> (view s) ∧
    is_Some ((nw_server w').(acl).(allow) !! nid).
Proof.
  intros node c w0 Hn Hj Hinvd Hex Hpub Htext.
  destruct (run_join base envs seed relays link inv invite secret hash s existing file text Hn Hj Hinvd Htext)
    as (s' & Hjoin & Hload & Hadm & Haddr & Hsec & Hallow & Hview & Hlt).
  pose proof Hj as [_ Hne _ Hreq _ _ _ _ Hnode Hname _ _ _ _ _ Htimes]. clear Hj.
  fold c in Hload, Haddr, Hsec, Hname, Hpub. fold node in Hjoin, Hnode. clearbody c. fold w0 in Hjoin.
  set (w1 := {| nw_file := Some text; nw_calls := 1; nw_server := s' |}) in *.
  destruct (run_service_start base envs seed relays extra c.(cf_Mesh) w1 Hn Haddr) as
    (svc & Hsvc & Hnodeq & Hrel & Hbase & Hacc); [by rewrite Hsec|exact Hpub|].
  eexists _, svc, _, _, _. split; [|split; [|split; [exact Hload|split; [exact Hnodeq|split; [exact Hrel|]]]]].
  - unfold runJoin. rewrite bool_decide_false by done. rewrite run_bind, Hex. cbn iota beta.
    rewrite run_bind, Hjoin. cbn iota beta. rewrite run_bind. unfold read_config at 1.
    rewrite run_atomically. cbn [nw_file w1 fmap option_fmap option_map]. rewrite Hload.
    unfold runProxy. rewrite run_bind, run_bind, Hsvc. cbn iota beta. rewrite run_bind. unfold read_config.
    rewrite run_atomically. reflexivity.
  - done.
  - rewrite Hnodeq. cbn [NewPeerNode Name ID].
    rewrite !Forall_cons in Hreq. destruct Hreq as (_ & _ & _ & Hreg & _), Htimes as (_ & Hnow & Hzero).
    cbn [fst snd] in Hreg. destruct Hnode as (Hid & Hnid & Hnu & _), Hname as [Hname Hnameu].
    unfold node_utf8 in Hnu. apply andb_true_iff in Hnu as [Hnu _].
    rewrite run_node_register by (by rewrite Hbase). cbn [nw_calls nw_server w1].
    rewrite run_register_call; try done; [|by rewrite Hallow, lookup_insert_eq].
    cbn iota beta. split; [reflexivity|]. cbn [rg_node]. split_and!.
    + by rewrite Hlt.
    + rewrite <-Hview. unfold view. cbn. by rewrite fmap_insert.
    + cbn. rewrite Hallow, lookup_insert_eq. by eexists.
Qed.
End Node.
End Join.

(** ** Leaving *)

(** A kicked node is refused by the gatekeeper.  When the administrator's request to
    delete a node (or to kick it) is answered 200, the gate of the relay, which reads
    the server's allow list, refuses the node a reservation, a dial, a secured
    connection, and a circuit to or from any other peer; what it decides
    about the other peers is unchanged. *)
Theorem kicked_node_gated {DB} `{!Badger DB} `{!JsonText} `{!TimeText} `{!Hashes} `{!MapOrder}
    `{!BadgerLaws DB} env ctx (s s' : Server DB) j :
  let id := ctx.(PathVar) "id" in
  let g := s'.(acl) in
  id ≠ "" → run (adminDeleteNode env ctx) s = (s', Ok j) →
  AllowReserve g id = false ∧ InterceptPeerDial g id = false ∧ InterceptSecured g id = false ∧
  (∀ other, AllowConnect g id other = false ∧ AllowConnect g other id = false) ∧
  ∀ p q, p ≠ id → q ≠ id →
    AllowReserve g p = AllowReserve s.(acl) p ∧ AllowConnect g p q = AllowConnect s.(acl) p q.
Proof.
  intros id g Hid Hrun. destruct (run_adminDeleteNode env ctx s s' _ Hid Hrun) as (_ & _ & _ & Hok).
  destruct (Hok eq_refl) as (_ & Hallow & _). fold g id in Hallow.
  assert (∀ p, gate_has p g = if decide (p = id) then false else gate_has p s.(acl)) as Hgate.
  { intros p. cbn [gate_has allow_list_gate]. rewrite !run_Has. cbn [snd]. rewrite Hallow.
    destruct (decide (p = id)) as [->|Hp]; [by rewrite lookup_delete_eq|by rewrite lookup_delete_ne]. }
  unfold AllowReserve, InterceptPeerDial, InterceptSecured, AllowConnect.
  split_and!; [by rewrite Hgate, decide_True..| |].
  - intros other. rewrite !(Hgate id), decide_True, andb_false_r by done. done.
  - intros p q Hp Hq. by rewrite !Hgate, !decide_False.
Qed.

(** ** A member with a bad id *)

Section BadId.
Context {DB : Type} `{!Badger DB} `{!JsonText} `{!TimeText} `{!Aead} `{!Hashes} `{!MapOrder}
  `{!NewRequestText} `{!Libp2pText} `{!BadgerLaws DB}.
Implicit Types (s : Server DB) (env : Env).

Section Peer.
Context {W Stream : Type} (conns : string → prog W (list bool)) (connect : bool → string → prog W (option error)).
Context (new_stream : bool → string → prog W (result error Stream)) (add_addrs : string → list string → prog W ()).

(** An id that libp2p does not read ends the process that addresses it. *)
Lemma bad_id_exits id e1 e2 (m : Service) (w : W) :
  addr_info_parse id = Err e1 → peer_decode id = Err e2 → sv_relays m ≠ [] → sv_peers m !! id = None →
  ∃ msg, run (connectNode add_addrs id) (m, w) = ((m, w), Exited msg).
Proof.
  intros Hai Hpd Hrel Hnew. unfold connectNode. rewrite run_bind. unfold service. rewrite run_atomically. cbn [fst].
  rewrite Hnew, run_bind, run_atomically. cbn [fst]. destruct (sv_relays m) as [|relay relays]; [done|]. unfold AddDestViaRelay, ParseAddrInfo.
  rewrite Hai, Hpd. eexists. reflexivity.
Qed.
End Peer.

(** C37: One bad id ends every proxy.  The server registers a node under any id
    on its allow list, also one that is no peer id; every other node then finds
    it in the list of peers, and the first attempt to make a client for it, as
    the update of the models does, ends the process instead of failing. *)
Theorem bad_id_ends_peers base env (c : MeshClient) name id e1 e2 s :
  c.(transport).(Address) = base → new_request_err "POST" (base +:+ "/api/v1/nodes") = None →
  id ≠ "" → name ≠ "" → utf8_ok id = true → utf8_ok name = true → time_ok time_zero = true →
  time_ok (env.(now) 0) = true → accepted env s c.(transport) → is_Some (s.(acl).(allow) !! id) →
  addr_info_parse id = Err e1 → peer_decode id = Err e2 →
  ∃ s' reg, run (MeshClient_Register (server_doer base env) c name id) s = (s', Ok reg) ∧
    view s' !! id = Some reg.(rg_node) ∧ reg.(rg_node).(ID) = id ∧
    ∀ (W Stream : Type) conns connect (new_stream : bool → string → prog W (result error Stream)) add_addrs m w longLived,
      sv_relays m ≠ [] → sv_peers m !! id = None →
      ∃ msg, run (sv_ClientForPeer conns connect new_stream add_addrs reg.(rg_node) longLived) (m, w)
        = ((m, w), Exited msg).
Proof.
  intros Hbase Hnew Hid Hname Hidu Hnu Hzero Hnow Hacc Hallow Hai Hpd.
  pose proof (run_register_call base env c name id s Hbase Hnew Hid Hname Hidu Hnu Hzero Hnow Hacc Hallow) as Hrun.
  eexists _, _. split; [exact Hrun|]. split; [|split; [done|]].
  { unfold view. simpl. by rewrite lookup_fmap, lookup_insert_eq. }
  intros W Stream conns connect new_stream add_addrs m w longLived Hrel Hpeer.
  destruct (bad_id_exits add_addrs id e1 e2 m w Hai Hpd Hrel Hpeer) as (msg & Hc).
  exists msg. unfold sv_ClientForPeer. rewrite run_bind. cbn [rg_node ID]. by rewrite Hc.
Qed.
End BadId.

(** ** Witnesses *)

Import ServerEx InviteEx StreamEx WireEx.

Module JoinEx.
Definition base : string := "http://mesh".
Definition link : string := base +:+ "/api/v1/redeem/" +:+ invite_id.
(** The server of the invitation, reached at [base], with one relay. *)
Definition server_j : Server mem :=
  WithRelayAddresses ["/ip4/10.0.0.1@relay"] (WithAdvertiseURL base server_i).
#[export] Instance mesh_urls : URLText :=
  {| url_parse s := if has_prefix base s
       then Ok {| u_Scheme := "http"; u_Host := "mesh"; u_Path := trim_prefix base s;
                  u_EscapedPath := trim_prefix base s; u_RawQuery := "" |}
       else Err "missing protocol scheme" |}.
Definition nid : string := "12D3KooWb".
Definition the_config : Config := joined_config "bob" server_j the_invite secret None.
(** A codec for the one configuration the node writes. *)
#[export, refine] Instance one_config : YamlText :=
  {| yaml_decode t _ := if bool_decide (t = "joined") then Ok the_config else Err (OtherError "yaml");
     yaml_encode c := if bool_decide (c = the_config) then Ok "joined" else Err (OtherError "yaml") |}.
Proof. intros c t. case_bool_decide as Hc; [|done]. intros [= <-]. by subst c. Defined.
Definition envs (n : nat) : Env := env0.
Definition ret_ok {A} (a : A) : prog (node_world mem) (result error A) := Ret (Ok a).
End JoinEx.
Import JoinEx.

Lemma node_joins_witness :
  ∃ w svc proxy w' reg,
    run (runJoin (node_doer base envs) (ret_ok nid) Ok read_config write_config (λ _ _ _ _, ret_ok nid) (Ret ())
           (λ _, Ret None) (Err KeyNotFound) "bob" 0 (λ _, {| up_url_ok := false; up_tags := None;
             up_running := None; up_openai := Err KeyNotFound |}) 0 "mesh" [link] FormAborted)
        {| nw_file := None; nw_calls := 0; nw_server := server_j |}
      = (w, Returned (Ok (Some (svc, proxy)))) ∧
    run (MeshClient_Register (node_doer base envs) svc.(sv_admin) svc.(sv_node).(Name) svc.(sv_node).(ID)) w
      = (w', Ok reg) ∧
    view (nw_server w') = {[ nid := reg.(rg_node) ]} ∧ reg.(rg_node).(Name) = "bob".
Proof.
  edestruct (node_joins (ret_ok nid) Ok (λ _ _ _ _, ret_ok nid) (Ret ()) (λ _, Ret None) (Err KeyNotFound) nid nid
    "bob" FormAborted 0 (λ _, {| up_url_ok := false; up_tags := None;
             up_running := None; up_openai := Err KeyNotFound |}) base envs 0
    [{| ai_ID := "relay"; Addrs := ["/ip4/10.0.0.1"] |}] [] "mesh" link invite_id the_invite secret
    ("$" +:+ secret) server_j None None "joined")
    as (w & svc & proxy & w' & reg & Hrun & _ & _ & _ & _ & Hreg & Hnode & Hview & _).
  - split; by intros.
  - split; try by vm_compute.
    + eexists. split; [by vm_compute|]. by vm_compute.
    + by repeat constructor.
    + intros k _. by exists nonce12.
  - split_and!; [by vm_compute..|]. exact valid.
  - by vm_compute.
  - by vm_compute.
  - by vm_compute.
  - exists w, svc, proxy, w', reg. split; [exact Hrun|]. split; [exact Hreg|]. split; [|by rewrite Hnode].
    by rewrite Hview.
Defined.

Lemma kicked_node_gated_witness :
  let g := (run (adminDeleteNode env0 (ctx "12D3KooWb" JNull)) server_b).1.(acl) in
  AllowReserve server_b.(acl) "12D3KooWb" = true ∧ AllowReserve g "12D3KooWb" = false ∧
  AllowConnect g "12D3KooWa" "12D3KooWb" = false.
Proof.
  destruct (kicked_node_gated env0 (ctx "12D3KooWb" JNull) server_b
    (run (adminDeleteNode env0 (ctx "12D3KooWb" JNull)) server_b).1 (JObj [("NodeID", JStr "12D3KooWb")]))
    as (Hr & _ & _ & Hc & _); [by vm_compute..|].
  split; [by vm_compute|]. split; [exact Hr|]. by apply Hc.
Defined.

Module BadIdEx.
(** Ids are base58: an id with an underscore is none. *)
#[export] Instance strict_ids : Libp2pText := {|
  quoted s := s; addr_info_parse s := Err "invalid p2p multiaddr";
  peer_decode s := if contains "_" s then Err "failed to parse peer ID" else Ok s;
  new_multiaddr s := Ok s; is_circuit := contains "/p2p-circuit" |}.
Definition server_bad : Server mem := with_acl (with_allow {[ "my_node" := () ]} acl0) server0.
Definition admin_client : MeshClient := Client_Mesh (NewClient "http://mesh" "secret") "default".
End BadIdEx.
Import BadIdEx.

Lemma bad_id_ends_peers_witness :
  ∃ s' reg, run (MeshClient_Register (server_doer "http://mesh" env0) admin_client "me" "my_node")
      server_bad = (s', Ok reg) ∧
    view s' !! "my_node" = Some reg.(rg_node) ∧
    ∃ msg, run (sv_ClientForPeer ServiceEx.conns ServiceEx.connect ServiceEx.new_stream ServiceEx.add_addrs
                  reg.(rg_node) true) (ServiceEx.service0, 0%nat)
      = ((ServiceEx.service0, 0%nat), Exited msg).
Proof.
  destruct (bad_id_ends_peers "http://mesh" env0 admin_client "me" "my_node"
    "invalid p2p multiaddr" "failed to parse peer ID" server_bad)
    as (s' & reg & Hrun & Hview & _ & Hexit);
    [by vm_compute..|by eexists; vm_compute|by eexists|reflexivity|reflexivity|].
  exists s', reg. split; [exact Hrun|]. split; [exact Hview|]. by apply Hexit.
Defined.
