(* ===== verification/MeshServes.v ===== *)
(** * MeshServes: a node, its server and its peers in one world.

    What one turn of the polling loop of Discovery does when its calls are
    those of the code: the refresh and the list of peers are answered by the
    server of AdminServer over the wire of EndToEnd, and the handler of the
    updates is OnPeerUpdate of Proxy, which asks the MeshServeHTTP of each
    peer.  The theorem follows a request from the client of a node to the
    provider of a peer. *)
From Stdlib Require Import Ascii String.
From S2P Require Import Prelude GoStrings Json Api JsonKV AllowList MagicLink Auth Mux UrlPath AdminServer.
From S2P Require Import AdminAccess AdminRegistry ModelDex JsonClient ApiClient EndToEnd.
From S2P Require Import Discovery Proxy PeerWire.

(** The membership server, and the proxies that can be reached, by id. *)
Definition mesh_world (DB V : Type) : Type := Server DB * gmap string (@px_state V).

Section Mesh.
Context {DB V : Type} `{!Badger DB} `{!JsonText} `{!TimeText} `{!Aead} `{!Hashes} `{!MapOrder}
  `{!NewRequestText} `{!URLText} `{!GoRetry (mesh_world DB V)}.
Context (unicode_lower : string → string).
(** What the proxies themselves talk to. *)
Context (GetPeerMap : prog V (result error (gmap string PeerNode))) (ClientForPeer : PeerNode → Doer V).
Context (GetPeerMeshInfo : PeerNode → MeshInfo) (admin_rt : Doer V).
Context (base : string) (seed' : nat → nat) (other : outcome → result error http_response).
Implicit Types (s : Server DB) (env : Env) (e : ModelRouter) (ts : gmap string (@px_state V)).

Abbreviation peer_serve := (MeshServeHTTP unicode_lower GetPeerMap ClientForPeer GetPeerMeshInfo admin_rt).

Definition on_server {A} (p : prog (Server DB) A) : prog (mesh_world DB V) A :=
  zoom fst (λ s w, (s, w.2)) p.

Definition peer_base (n : PeerNode) : string := "http://" +:+ n.(Name) +:+ ".mesh".

(** The HTTP client of a peer: one stream to the proxy of that id. *)
Definition to_peer (n : PeerNode) : Doer (mesh_world DB V) := λ req, atomically (λ w,
  match w.2 !! n.(ID) with
  | None => (w, Err (OtherError ("no direct connection to " +:+ n.(ID))))
  | Some t =>
      let '(t', r) := run (peer_doer unicode_lower GetPeerMap ClientForPeer GetPeerMeshInfo admin_rt
                             seed' (peer_base n) other req) t in
      ((w.1, <[n.(ID) := t']> w.2), r)
  end).

(** One turn of the node's loop; each request meets its own clock. *)
Definition node_turn (envs : nat → Env) (seed : nat) (mc : MeshClient) (self : PeerNode) (l : loop)
    : prog (@px_state (mesh_world DB V)) turn :=
  poll_turn
    (λ r, on_world (on_server (Registration_Refresh (server_doer base (envs 0)) r)))
    (on_world (on_server (MeshClient_Register (server_doer base (envs 1)) mc self.(Name) self.(ID))))
    (on_world (on_server (MeshClient_GetPeers (server_doer base (envs 1)) mc)))
    (Some (OnPeerUpdate to_peer seed)) self.(ID) l.

Lemma run_on_server {A} (p : prog (Server DB) A) s ts :
  run (on_server p) (s, ts) = let '(s', a) := run p s in ((s', ts), a).
Proof.
  unfold on_server. rewrite run_zoom; [|done|by intros []|done]. cbn [fst snd]. by destruct (run p s).
Qed.

(** ** The list of peers *)

Lemma route_node_list :
  route (routes (DB := DB)) "GET" ["api"; "v1"; "nodes"] = Some (authenticated apiNodeList, []).
Proof. find_route. Qed.

(** Every registered node is filed under its id and crosses the wire
    unchanged. *)
Definition listable s : Prop :=
  ∀ id n, view s !! id = Some n → n.(ID) = id ∧ node_utf8 n = true ∧ node_ok n = true.

Definition listed seed s : list PeerNode := nr_Node <$> (range seed s.(nodes)).*2.

Lemma listed_spec seed s n : listable s → n ∈ listed seed s ↔ view s !! n.(ID) = Some n.
Proof.
  intros Hs. unfold listed. rewrite list_elem_of_fmap. split.
  - intros (ref & -> & ([id ref'] & -> & Hr%elem_of_range)%list_elem_of_fmap). cbn [snd] in *.
    assert (view s !! id = Some (nr_Node ref')) as Hv by (unfold view; by rewrite lookup_fmap, Hr).
    by rewrite (proj1 (Hs _ _ Hv)).
  - unfold view. rewrite lookup_fmap. intros (ref & Hr & Hn)%fmap_Some. exists ref. split; [done|].
    apply list_elem_of_fmap. exists (n.(ID), ref). split; [done|]. by apply elem_of_range.
Qed.

(** MeshClient.GetPeers, the call and the handler as one. *)
Lemma run_get_peers_call env (c : MeshClient) s :
  c.(transport).(Address) = base → new_request_err "GET" (base +:+ "/api/v1/nodes") = None →
  accepted env s c.(transport) → listable s →
  run (MeshClient_GetPeers (server_doer base env) c) s = (s, Ok (listed (env.(seed) 0) s)).
Proof.
  intros Hbase Hnew (user & Hauth) Hs. unfold MeshClient_GetPeers. rewrite run_bind. unfold Client_Get.
  set (ns := listed (env.(seed) 0) s).
  assert (Forall (λ n, node_utf8 n = true ∧ node_ok n = true) ns) as Hns.
  { apply Forall_forall. intros n Hn%listed_spec; [|done]. by apply (Hs _ _ Hn). }
  rewrite (run_Client_Do base env _ _ _ ["api"; "v1"; "nodes"] _ _ _ s s (Response StatusOK (BJson (enc_nodes ns)))).
  - cbn [r_status r_body]. rewrite bool_decide_false by (intros Hne; by apply Hne).
    rewrite unmarshal_wire.
    + rewrite dec_nodes_enc; [done|]. eapply Forall_impl; [exact Hns|]. by intros ? [].
    + unfold enc_nodes. cbn [json_utf8 forallb fst snd].
      assert (forallb json_utf8 (enc_node <$> ns) = true) as ->; [|done].
      induction Hns as [|n ns' [Hu _] _ IH]; [done|]. rewrite fmap_cons. cbn [forallb].
      rewrite IH. unfold node_utf8 in Hu. apply andb_true_iff in Hu as [Hi Hn].
      unfold enc_node. cbn [json_utf8 forallb fst snd]. by rewrite Hi, Hn, time_print_utf8.
  - by rewrite Hbase.
  - done.
  - done.
  - unfold ServeHTTP. cbn [rq_method rq_path]. rewrite route_node_list.
    rewrite (authenticated_accepted _ _ _ _ _ user) by exact Hauth. reflexivity.
Qed.

Lemma listed_view seed s : listable s → peer_map (listed seed s) = view s.
Proof.
  intros Hs. assert (NoDup (ID <$> listed seed s)) as Hnd.
  { unfold listed. rewrite <-!list_fmap_compose.
    rewrite (list_fmap_ext _ fst); [apply range_nodup_keys|].
    intros i [id ref] Hi%list_elem_of_lookup_2%elem_of_range. cbn [compose].
    apply (Hs id (nr_Node ref)). unfold view. by rewrite lookup_fmap, Hi. }
  assert (∀ ns, NoDup (ID <$> ns) → peer_map ns = list_to_map ((λ n, (ID n, n)) <$> ns)) as Hmap.
  { clear. intros ns. unfold peer_map. induction ns as [|n ns IH] using rev_ind; [done|].
    rewrite !fmap_app, NoDup_app, foldl_app. intros (Hns & Hn & _). cbn [foldl fmap list_fmap].
    rewrite list_to_map_snoc; [by rewrite IH|]. rewrite <-list_fmap_compose. intros Hin.
    apply (Hn (ID n)); [exact Hin|by left]. }
  rewrite Hmap by done. apply map_eq. intros id. apply option_eq. intros n.
  rewrite <-elem_of_list_to_map by by rewrite <-list_fmap_compose.
  rewrite list_elem_of_fmap. split.
  - by intros (n' & [= -> ->] & Hn%listed_spec).
  - intros Hn. exists n. destruct (Hs _ _ Hn) as (<- & _). split; [done|]. by apply listed_spec.
Qed.

(** ** The updates of a turn *)

(** What a peer announces, and the models a router sends to a peer that
    exports them. *)
Definition exported (t : @px_state V) : list ModelRoute := ListExportedModels (seed' 0) t.1.(px_router).
Definition exports ts (n : PeerNode) (model : string) : Prop :=
  ∃ t r, ts !! n.(ID) = Some t ∧ r ∈ exported t ∧ r.(mr_Name) = model.
Definition routed ts (upto : list PeerNode) e (model : string) : Prop :=
  ∃ r n, e.(MeshModels) !! model = Some r ∧ r.(providers) = [] ∧
    peers_of e.(rt_heap) r = {[n.(ID) := shown n]} ∧ n ∈ upto ∧ exports ts n model.

(** A peer that answers, whose table is filed by name, and whose models are
    announced unchanged and not named like a node. *)
Definition reachable s ts (n : PeerNode) : Prop :=
  new_request_err "GET" (peer_base n +:+ "/.mesh/models") = None ∧
  ∃ t, ts !! n.(ID) = Some t ∧ forallb route_ok (exported t) = true ∧
    (∀ k r, t.1.(px_router).(MeshModels) !! k = Some r → r.(mr_Name) = k) ∧
    (∀ r, r ∈ exported t → view s !! r.(mr_Name) = None).

Lemma run_to_peer_models n s ts t :
  new_request_err "GET" (peer_base n +:+ "/.mesh/models") = None → ts !! n.(ID) = Some t →
  forallb route_ok (exported t) = true →
  run (GetModelsMesh to_peer (shown n)) (s, ts) =
    ((s, ts), Ok (models_by_name (announced_form <$> exported t))).
Proof.
  intros Hnew Ht Hok%all_routes_ok.
  pose proof (run_GetModelsMesh unicode_lower GetPeerMap ClientForPeer GetPeerMeshInfo admin_rt seed' other
    (shown n) (λ _, peer_doer unicode_lower GetPeerMap ClientForPeer GetPeerMeshInfo admin_rt seed'
       (peer_base n) other) t eq_refl Hnew Hok) as Hrun.
  unfold GetModelsMesh, Client_Get, Client_Do, newRequest in Hrun |- *.
  change (Address (NewClient ("http://" +:+ Name (shown n) +:+ ".mesh") "")) with (peer_base n) in *.
  rewrite Hnew in Hrun |- *. rewrite run_bind, run_bind in Hrun. rewrite run_bind, run_bind.
  unfold to_peer at 1. rewrite run_atomically. cbn [fst snd]. cbn [shown NewPeerNode ID]. rewrite Ht.
  change (peer_base (shown n)) with (peer_base n).
  destruct (run (peer_doer _ _ _ _ _ _ _ _ _) t) as [t' resp].
  destruct resp as [resp|err]; [|by cbn [run] in Hrun].
  destruct (hs_body resp) as [data|err]; [|by cbn [run] in Hrun].
  case_bool_decide; [by cbn [run] in Hrun|]. destruct (unmarshal dec_models data []) as [v ok].
  cbn [run] in Hrun |- *. injection Hrun as -> Hv. by rewrite Hv, insert_id by done.
Qed.

Lemma exported_found t r :
  (∀ k r, t.1.(px_router).(MeshModels) !! k = Some r → r.(mr_Name) = k) → r ∈ exported t →
  GetModelRoute r.(mr_Name) t.1.(px_router) = Some r ∧ is_Some (GetLocalRoute r).
Proof.
  intros Hnamed. unfold exported, ListExportedModels. rewrite list_elem_of_filter, andb_true_iff.
  intros [[Hlocal _] ([k r'] & -> & Hr%elem_of_range)%list_elem_of_fmap]. cbn [snd] in *.
  unfold GetModelRoute. rewrite (Hnamed _ _ Hr). split; [done|].
  unfold IsLocal in Hlocal. apply bool_decide_eq_true in Hlocal. unfold GetLocalRoute.
  destruct (providers r'); [done|by eexists].
Qed.

(** A map with an entry is allocated: a longer heap has the same. *)
Lemma peers_of_app h ext r (m : gmap string PeerNode) :
  peers_of h r = m → m ≠ ∅ → peers_of (h ++ ext) r = m.
Proof.
  unfold peers_of. intros <- Hne. destruct (peers r) as [l|]; [|done].
  destruct (h !! l) as [m|] eqn:Hl; [by rewrite (lookup_app_l_Some _ _ _ _ Hl)|done].
Qed.

(** The router while a turn is under way: no model is named like a node, and
    what the peers [upto] export is routed. *)
Definition updating s ts (upto : list PeerNode) e : Prop :=
  (∀ id, is_Some (view s !! id) → e.(MeshModels) !! id = None) ∧
  ∀ n model, n ∈ upto → exports ts n model → routed ts upto e model.

Lemma update_one seed s ts upto n p s1 :
  view s !! n.(ID) = Some n → reachable s ts n → updating s ts upto p.(px_router) →
  ∃ p', run (OnPeerUpdate to_peer seed (shown n) false) (p, (s1, ts)) = ((p', (s1, ts)), None) ∧
    updating s ts (upto ++ [n]) p'.(px_router).
Proof.
  intros Hn (Hnew & t & Ht & Hok & Hnamed & Hids) [Hfree Hrouted].
  pose proof (run_to_peer_models n s1 ts t Hnew Ht Hok) as Hget. set (models := models_by_name _) in Hget.
  eexists. split; [by apply run_OnPeerUpdate|]. cbn [px_router broadcast with_router].
  destruct (models_by_name_spec (announced_form <$> exported t)) as [Hsound Hcomplete]. fold models in Hsound, Hcomplete.
  assert (∀ name r, models !! name = Some r → ∃ r0, r0 ∈ exported t ∧ r = announced_form r0 ∧ r0.(mr_Name) = name)
    as Hann by (intros name r [(r0 & -> & Hr0)%list_elem_of_fmap Hname]%Hsound; naive_solver).
  assert (∀ id, is_Some (view s !! id) → models !! id = None) as Hno.
  { intros id [n' Hn']. destruct (models !! id) as [r|] eqn:Hr; [|done].
    destruct (Hann _ _ Hr) as (r0 & Hr0 & _ & <-). by rewrite Hids in Hn'. }
  assert (is_Some (view s !! ID n)) as Hid by by eexists.
  destruct (AddPeerModels_wire seed (shown n) models (px_router p)) as (Hnewr & Hold & ext & Hheap);
    [exact (Hfree _ Hid)|exact (Hno _ Hid)|by intros name r (r0 & _ & -> & _)%Hann|].
  set (e' := AddPeerModels _ _ _ _) in *. split; [intros id Hv; rewrite Hold; auto|].
  assert (∀ model, exports ts n model → routed ts (upto ++ [n]) e' model) as Hthis.
  { intros model Hex. destruct (id Hex) as (t' & r0 & Ht' & Hr0 & <-). simplify_eq.
    destruct (Hcomplete (announced_form r0)) as [r Hr]; [by apply list_elem_of_fmap_2|].
    destruct (Hnewr _ _ Hr) as (r' & Hr' & Hpv & _ & _ & Hpeers).
    destruct (Hann _ _ Hr) as (r1 & _ & -> & _). exists r', n. set_solver. }
  intros n' model [Hn'| ->%list_elem_of_singleton]%elem_of_app Hex; [|by apply Hthis].
  destruct (models !! model) as [r|] eqn:Hr.
  - apply Hthis. destruct (Hann _ _ Hr) as (r0 & Hr0 & _ & Hname). by exists t, r0.
  - destruct (Hrouted _ _ Hn' Hex) as (r & n2 & Hr2 & Hpv & Hpeers & Hin & Hex2). exists r, n2.
    rewrite Hold by done. split_and!; [done..| |set_solver|done]. rewrite Hheap.
    apply peers_of_app; [done|]. apply map_non_empty_singleton.
Qed.

Lemma update_all seed s ts upto todo m good p s1 :
  (∀ n, n ∈ todo → view s !! n.(ID) = Some n ∧ reachable s ts n) → updating s ts upto p.(px_router) →
  ∃ p', run (update_peers (OnPeerUpdate to_peer seed) todo m good) (p, (s1, ts)) = ((p', (s1, ts)), Ok (m, good)) ∧
    updating s ts (upto ++ todo) p'.(px_router).
Proof.
  revert upto p. induction todo as [|n todo IH]; intros upto p Hall Hup.
  { exists p. by rewrite app_nil_r. }
  destruct (Hall n) as [Hn Hreach]; [by left|].
  destruct (update_one seed s ts upto n p s1 Hn Hreach Hup) as (p1 & Hrun & Hup1).
  destruct (IH (upto ++ [n]) p1) as (p' & Hrun' & Hup'); [by intros; apply Hall; right|done|].
  exists p'. rewrite <-app_assoc in Hup'. split; [|done]. cbn [update_peers]. rewrite run_bind.
  change (NewPeerNode (ID n) (Name n)) with (shown n). by rewrite Hrun.
Qed.

(** The peers that are gone: the removals succeed and keep the table. *)
Lemma remove_all seed s ts last gone m good p s1 :
  updating s ts [] p.(px_router) →
  ∃ p', run (remove_peers (OnPeerUpdate to_peer seed) last gone m good) (p, (s1, ts)) = ((p', (s1, ts)), Ok (m, good)) ∧
    updating s ts [] p'.(px_router).
Proof.
  revert p. induction gone as [|n gone IH]; intros p Hup; [by exists p|]. cbn [remove_peers].
  destruct (IH (broadcast (with_router (router_RemovePeer seed (shown n) p.(px_router)) p))) as (p' & Hrun & Hup').
  { split; [exact (proj1 Hup)|]. by intros ? ? ?%not_elem_of_nil. }
  exists p'. split; [|done]. rewrite run_bind. unfold OnPeerUpdate at 1. rewrite run_bind. unfold change.
  rewrite run_atomically. cbn [fst snd]. rewrite run_bind, run_atomically. cbn [fst snd run]. exact Hrun.
Qed.

(** ** The turn *)

(** The node holds a valid registration, the server accepts its requests and
    what they carry, and the list of peers reads well. *)
Record polls envs (mc : MeshClient) (r : Registration) s : Prop := {
  po_base : r.(rg_transport).(Address) = base;
  po_mesh : mc.(transport).(Address) = base;
  po_refresh : new_request_err "POST" (base +:+ "/api/v1/nodes/" +:+ r.(rg_node).(ID)) = None;
  po_list : new_request_err "GET" (base +:+ "/api/v1/nodes") = None;
  po_id : plain_segment r.(rg_node).(ID) = true;
  po_reg : reg_ok r.(rg_node) r.(rg_token);
  po_token : r.(rg_token) ≠ "";
  po_known : nr_Token <$> s.(nodes) !! r.(rg_node).(ID) = Some r.(rg_token);
  po_auth : accepted (envs 0) s r.(rg_transport);
  po_auth' : accepted (envs 1) s mc.(transport);
  po_clock : u64_ok s.(logicalTime) = true ∧ time_ok s.(lastUpdate) = true;
  po_nodes : listable s }.

Lemma run_turn envs seed mc l p s ts :
  let r := l.(lp_registration) in let self := r.(rg_node) in
  polls envs mc r s → s.(logicalTime) ≠ l.(lastLogicalTime) →
  ∃ s', view s' = view s ∧ listable s' ∧
    run (node_turn envs seed mc self l) (p, (s, ts)) =
      run (apply_update self.(ID) (OnPeerUpdate to_peer seed) l r s.(logicalTime)
             (listed ((envs 1).(AdminServer.seed) 0) s')) (p, (s', ts)).
Proof.
  intros r self [Hbase Hmesh Hnew Hlist Hplain Hreg Htok Hknown Hauth Hauth' [Hlt Hlu] Hnodes] Hclock.
  pose proof (run_refresh_call base (envs 0) r s Hbase Hnew Hplain Hreg Hauth Hlt Hlu) as Hrun.
  apply fmap_Some in Hknown as (ref & Href & Htokref). cbn zeta in Hrun.
  destruct (updateNode _ _ _ _) as [m|] eqn:Hup.
  2: { unfold updateNode in Hup. by rewrite bool_decide_false, Href, bool_decide_false in Hup by auto. }
  set (s' := with_clock _ _ m s) in *. assert (view s' = view s) as Hview by by apply updateNode_view in Hup.
  assert (listable s') as Hlisted by (unfold listable; by rewrite Hview).
  exists s'. split_and!; [done..|]. unfold node_turn, poll_turn. rewrite run_bind, run_on_world. cbn [fst snd].
  rewrite run_on_server. fold r. rewrite Hrun. cbn [fst snd negb lastLogicalTime].
  rewrite bool_decide_true by congruence. rewrite run_bind, run_on_world. cbn [fst snd].
  rewrite run_on_server, run_get_peers_call by done. cbn [fst snd]. by destruct l.
Qed.

(** A peer whose entry the node has not seen at its present time. *)
Definition changed s (self : string) (last : gmap string PeerNode) (n : PeerNode) : Prop :=
  view s !! n.(ID) = Some n ∧ n.(ID) ≠ self ∧ LogicalTime <$> last !! n.(ID) ≠ Some n.(LogicalTime).

Lemma run_turn_updates self seed seed1 l r s s' lt ts p :
  view s' = view s → listable s' → keyed l.(lastPeers) →
  (∀ n, changed s self l.(lastPeers) n → reachable s ts n) → updating s ts [] p.(px_router) →
  ∃ p' l' upto, run (apply_update self (OnPeerUpdate to_peer seed) l r lt (listed seed1 s')) (p, (s', ts))
      = ((p', (s', ts)), Continue l') ∧
    l'.(lastLogicalTime) = lt ∧ lastPeers l' = view s ∧ updating s ts upto p'.(px_router) ∧
    ∀ n, n ∈ upto ↔ changed s self l.(lastPeers) n.
Proof.
  intros Heq Hs Hk Hreach Hup. pose proof (listed_view seed1 s' Hs) as Hview. rewrite Heq in Hview.
  assert (∀ n, n ∈ updated_nodes self l.(lastPeers) (listed seed1 s') ↔ changed s self l.(lastPeers) n) as Hin.
  { intros n. unfold changed. by rewrite (elem_of_updated self _ _ n Hk), Hview. }
  destruct (remove_all seed s ts l.(lastPeers) (removed_nodes self l.(lastPeers) (listed seed1 s')) (view s) true
    p s' Hup) as (p1 & Hgone & Hup1).
  destruct (update_all seed s ts [] (updated_nodes self l.(lastPeers) (listed seed1 s')) (view s) true p1 s')
    as (p' & Hrun & Hup'); [|done|].
  { intros n Hn%Hin. split; [apply Hn|by apply Hreach]. }
  eexists p', _, _. split; [|split; [|split; [|split; [exact Hup'|exact Hin]]]].
  - unfold apply_update. unfold removed_nodes, updated_nodes in Hgone, Hrun.
    destruct (diffNodes _ _ _) as [upd rem]. cbn [fst snd] in *.
    rewrite run_bind, Hview, Hgone, run_bind, Hrun. reflexivity.
  - done.
  - done.
Qed.

(** C4: The mesh serves its models, when none of them is named like a node.
    When a node of the mesh polls, the server answers, and the peers that are
    new or changed can be reached, the turn ends with the list of the server
    taken over.  From then on take a client's request to /v1/chat/completions
    or /v1/responses whose model, read in lower case, is the name of a model
    that one of these peers exports: it is sent to one of them that exports
    it, and is handed there to its first local provider, with the body that
    was sent and the provider's token.  (A request to /api/chat is sent as
    well and lost there, and a name with upper-case letters is never found.) *)
Theorem mesh_serves envs seed (mc : MeshClient) (l : loop) p s ts :
  let r := l.(lp_registration) in let self := r.(rg_node) in
  polls envs mc r s → s.(logicalTime) ≠ l.(lastLogicalTime) → keyed l.(lastPeers) →
  (∀ n, changed s self.(ID) l.(lastPeers) n → reachable s ts n) →
  (∀ id, is_Some (view s !! id) → p.(px_router).(MeshModels) !! id = None) →
  ∃ p' s' l', run (node_turn envs seed mc self l) (p, (s, ts)) = ((p', (s', ts)), Continue l') ∧
    view s' = view s ∧ l'.(lastLogicalTime) = s.(logicalTime) ∧ lastPeers l' = view s ∧
    ∀ n model rq sent seed2,
      changed s self.(ID) l.(lastPeers) n → exports ts n model →
      rq.(pq_path) ∈ ["/v1/chat/completions"; "/v1/responses"] → rq.(pq_body) = Ok sent →
      peekModel unicode_lower (limit (maxBody + 1) sent) = model →
      ∃ dest rq' t local,
        (∀ (W : Type) peers_map client info admin (w : W),
           run (px_ServeHTTP unicode_lower peers_map client info admin seed2 rq) (p', w)
             = ((p', w), ToPeer dest rq')) ∧
        exports ts dest model ∧ ts !! dest.(ID) = Some t ∧
        GetModelRoute model t.1.(px_router) ≫= GetLocalRoute = Some local ∧
        run (peer_serve seed2 (mesh_received rq')) t =
          (t, match url_parse local.(lr_BaseURL) with
              | Err _ => not_found "model not found"
              | Ok u => ToUpstream u (direct local (mesh_received rq') (limit (maxBody + 1) sent))
              end).
Proof.
  intros r self Hpolls Hclock Hk Hreach Hfree.
  destruct (run_turn envs seed mc l p s ts Hpolls Hclock) as (s' & Hview & Hlisted & Hrun).
  destruct (run_turn_updates self.(ID) seed ((envs 1).(AdminServer.seed) 0) l r s s' s.(logicalTime) ts p
    Hview Hlisted Hk Hreach) as (p' & l' & upto & Hup & Hclock' & Hpeers & [_ Hrouted] & Hin).
  { split; [done|]. by intros n model ?%not_elem_of_nil. }
  exists p', s', l'. split; [exact (eq_trans Hrun Hup)|]. split_and!; [done..|].
  intros n model rq sent seed2 Hn%Hin Hex Hpath Hsent Hmodel.
  destruct (Hrouted n model Hn Hex) as (route & dest & Hroute & Hpv & Hof & Hdest & Hexd).
  destruct (id Hexd) as (t & r0 & Ht & Hr0 & Hname).
  destruct (Hreach dest) as (_ & t' & Ht' & _ & Hnamed & _); [by apply Hin|]. simplify_eq.
  destruct (exported_found t r0 Hnamed Hr0) as [Hfound [local Hlocal]]. rewrite Hname in Hfound.
  set (body := limit (maxBody + 1) sent) in *.
  exists (shown dest), {| pq_method := rq.(pq_method); pq_path := rq.(pq_path); pq_header := rq.(pq_header);
                          pq_body := Ok body |}, t, local. split_and!; [|done|done| |].
  - intros W peers_map client info admin w. unfold px_ServeHTTP.
    rewrite bool_decide_true by set_solver. rewrite (run_proxyModelRequest _ _ _ _ _ _ Hsent).
    fold body. cbn [fst]. unfold GetModelRoute. rewrite Hroute.
    unfold GetLocalRoute. rewrite Hpv. unfold GetMeshPeerRoute. rewrite Hof.
    assert (range (seed2 0) ({[ID dest := shown dest]} : gmap string PeerNode) = [(ID dest, shown dest)]) as ->; [|done].
    apply Permutation_singleton_r. by rewrite range_perm, map_to_list_singleton.
  - by rewrite Hfound.
  - unfold MeshServeHTTP. cbn [mesh_received pq_path].
    rewrite bool_decide_true by (unfold proxyHandleURLS; set_solver).
    rewrite (run_proxyModelRequest _ _ _ _ body) by done. unfold body at 1 2 3.
    rewrite limit_idemp by (by vm_compute). fold body. rewrite Hfound. by rewrite Hlocal.
Qed.
End Mesh.

(** ** Witnesses *)

Import ServerEx WireEx ProxyEx PeerEx.

Module MeshEx.
(** Alice and Bob are registered; Bob's proxy answers, with the model llama
    of his own provider. *)
Definition node_of (id name : string) (lt : Z) : PeerNode :=
  {| ID := id; Name := name; LogicalTime := lt; LastUpdate := 5 |}.
Definition alice_node : PeerNode := node_of "12D3KooWs" "self" 6.
Definition bob_node : PeerNode := node_of "12D3KooWb" "bob" 7.
Definition ref_of (n : PeerNode) : NodeReference :=
  {| nr_Node := n; nr_Token := "tok"; nr_LastPing := 0 |}.
Definition server_ab : Server mem :=
  with_clock 5 7 {[ "12D3KooWs" := ref_of alice_node; "12D3KooWb" := ref_of bob_node ]} server0.
Definition reg_alice : Registration :=
  {| rg_transport := client0; rg_node := alice_node; rg_token := "tok" |}.
Definition first_poll : loop := {| lp_registration := reg_alice; lastLogicalTime := 0; lastPeers := ∅ |}.
Definition reach : gmap string (@px_state ()) := {[ "12D3KooWb" := bobs ]}.
Definition envs_ab (n : nat) : Env := env0.
Definition empty_alice : Proxy := px_of (NewModelDiscovery self []).

Lemma server_ab_nodes id n :
  view server_ab !! id = Some n → (id, n) = ("12D3KooWs", alice_node) ∨ (id, n) = ("12D3KooWb", bob_node).
Proof.
  unfold view, server_ab. cbn [nodes with_clock]. rewrite fmap_insert, map_fmap_singleton.
  intros [[<- <-]|[_ [<- <-]%lookup_singleton_Some]]%lookup_insert_Some; [by left|by right].
Qed.

Lemma bob_table k r :
  bob_router.(MeshModels) !! k = Some r → k = "llama" ∧ r.(mr_Name) = "llama".
Proof.
  assert (∃ r0, bob_router.(MeshModels) = {[ "llama" := r0 ]} ∧ r0.(mr_Name) = "llama") as (r0 & -> & Hr0).
  { eexists. split; vm_compute; reflexivity. }
  by intros [<- <-]%lookup_singleton_Some.
Qed.

Lemma bob_exports r : r ∈ exported (λ _, 0) bobs → r.(mr_Name) = "llama".
Proof.
  unfold exported, ListExportedModels.
  intros [_ ([k r'] & -> & Hr%elem_of_range)%list_elem_of_fmap]%list_elem_of_filter. by apply bob_table in Hr as [_ ?].
Qed.

Lemma bob_has_model : ∃ r, r ∈ exported (λ _, 0) bobs.
Proof.
  unfold exported. destruct (ListExportedModels _ _) as [|r rs] eqn:Hr; [by vm_compute in Hr|].
  exists r. by left.
Qed.
End MeshEx.
Import MeshEx.

Lemma mesh_serves_witness :
  ∃ p' s' l' dest rq' t u rq'',
    run (node_turn id no_peers (λ _, dial_failure) no_info admin_ok "http://mesh" (λ _, 0) nothing envs_ab 0
           (Client_Mesh client0 "default") alice_node first_poll) (empty_alice, (server_ab, reach))
      = ((p', (s', reach)), Continue l') ∧ l'.(lastLogicalTime) = 7%Z ∧
    run (px_ServeHTTP id no_peers (λ _, dial_failure) no_info admin_ok (λ _, 0) (ask "/v1/responses" "llama"))
      (p', ()) = ((p', ()), ToPeer dest rq') ∧
    reach !! dest.(ID) = Some t ∧
    run (MeshServeHTTP id no_peers (λ _, dial_failure) no_info admin_ok (λ _, 0) (mesh_received rq')) t
      = (t, ToUpstream u rq'').
Proof.
  edestruct (mesh_serves id no_peers (λ _, dial_failure) no_info admin_ok "http://mesh" (λ _, 0) nothing envs_ab 0
    (Client_Mesh client0 "default") first_poll empty_alice server_ab reach)
    as (p' & s' & l' & Hrun & _ & Hclock & _ & Hserve).
  - split; [by vm_compute..| | |by vm_compute|].
    + by eexists; vm_compute.
    + by eexists; vm_compute.
    + intros id n [[= -> ->]|[= -> ->]]%server_ab_nodes; by vm_compute.
  - by vm_compute.
  - intros id n Hn. cbn in Hn. by rewrite lookup_empty in Hn.
  - intros n (Hn & Hself & _). destruct (server_ab_nodes _ _ Hn) as [[= Hid ->]|[= Hid ->]]; [done|].
    split; [done|]. exists bobs. split; [by vm_compute|]. split; [by vm_compute|]. split.
    + by intros k r [-> ->]%bob_table.
    + intros r ->%bob_exports. by vm_compute.
  - intros id _. exact (lookup_empty id).
  - destruct (Hserve bob_node "llama" (ask "/v1/responses" "llama")
      (json_print (JObj [("model", JStr "llama")])) (λ _, 0)) as (dest & rq' & t & local & Hlocal & _ & Ht & _ & Hup).
    + split; [by vm_compute|]. by split.
    + destruct bob_has_model as [r Hr]. exists bobs, r. split; [by vm_compute|]. split; [done|by apply bob_exports].
    + clear; set_solver.
    + done.
    + by vm_compute.
    + exists p', s', l', dest, rq', t. eexists _, _. split; [exact Hrun|]. split; [exact Hclock|].
      split; [apply Hlocal|]. split; [exact Ht|]. exact Hup.
Defined.
