(* ===== verification/MembersRouted.v ===== *)
(** * MembersRouted: a node routes to members of the mesh only.

    Every turn of the polling loop of Discovery with the update handler of
    Proxy keeps the peers of the router among the peers of the last list, in
    every world and whatever the server and the peers answer; so a node that
    an administrator kicks gets no more requests from a node that polled. *)
From Stdlib Require Import Ascii String.
From S2P Require Import Prelude GoStrings Json Durations Api JsonKV AllowList MagicLink Auth Mux UrlPath AdminServer.
From S2P Require Import AdminAccess AdminRegistry AdminInvites ModelDex JsonClient ApiClient EndToEnd.
From S2P Require Import Discovery Proxy PeerWire MeshServes.

Section Router.
Context `{!MapOrder}.

(** Every peer of every route is one of [ids]. *)
Definition routes_within (e : ModelRouter) (ids : gset string) : Prop :=
  ∃ L, all_good e.(rt_heap) L e.(MeshModels) ∧ ∀ n, n ∈ L → n.(ID) ∈ ids.

Lemma within_mono e ids ids' : ids ⊆ ids' → routes_within e ids → routes_within e ids'.
Proof. intros Hsub (L & HL & Hids). exists L. split; [done|]. set_solver. Qed.

Lemma within_route e ids name r seed dest :
  routes_within e ids → GetModelRoute name e = Some r → GetMeshPeerRoute seed e.(rt_heap) r = Some dest →
  dest.(ID) ∈ ids.
Proof.
  intros (L & HL & Hids) Hr Hdest. destruct (HL _ _ Hr) as (l & m & Hl & Hm & Hlive).
  unfold GetMeshPeerRoute, peers_of in Hdest. rewrite Hl, Hm in Hdest. cbn [default] in Hdest.
  apply fmap_Some in Hdest as ([id n] & Hhead & ->). apply head_Some_elem_of, elem_of_range in Hhead.
  destruct (Hlive _ _ Hhead) as [_ Hin]. by apply Hids.
Qed.

Lemma within_remove seed n e ids :
  routes_within e ids → routes_within (router_RemovePeer seed n e) (ids ∖ {[n.(ID)]}).
Proof.
  intros (L & HL & Hids). eexists. split; [by apply remove_good|].
  intros n' [Hne Hn']%list_elem_of_filter. apply Hids in Hn'. set_solver.
Qed.

Lemma within_add seed n models e ids :
  (∀ name r, models !! name = Some r → r.(peers) = None) → routes_within e ids →
  routes_within (AddPeerModels seed n models e) ({[n.(ID)]} ∪ ids).
Proof.
  intros Hwire (L & HL & Hids). exists (n :: L). split.
  - apply AddPeerModels_good; [by left|by apply all_good_mono|]. intros name r Hr. left. by eapply Hwire.
  - intros n' [->|Hn']%elem_of_cons; [set_solver|]. apply Hids in Hn'. set_solver.
Qed.

(** A new node routes to nobody, and after its refreshes to itself. *)
Lemma within_new self ps : routes_within (NewModelDiscovery self ps) {[self.(ID)]}.
Proof. exists []. split; [apply all_good_empty|]. by intros n ?%not_elem_of_nil. Qed.
Lemma within_refresh now up e ids :
  e.(rt_node).(ID) ∈ ids → routes_within e ids → routes_within (Refresh now up e) ids.
Proof.
  intros Hself (L & HL & Hids). exists (e.(rt_node) :: L). split.
  - unfold Refresh. apply refresh_loop_good; [by left|by apply all_good_mono].
  - intros n [->|Hn]%elem_of_cons; [done|by apply Hids].
Qed.
End Router.

(** ** What a peer announces carries no peers *)

Lemma dec_struct_keeps {A} (P : A → Prop) step j old :
  (∀ k v x, P x → P (step k v x).1) → P old → P (dec_struct step j old).1.
Proof.
  intros Hstep Hold. destruct j as [| | | | | |fs]; try done. cbn [dec_struct]. revert old Hold.
  induction fs as [|[k v] fs IH]; intros old Hold; [done|]. cbn [dec_fields].
  pose proof (Hstep k v old Hold) as Hx. destruct (step k v old) as [x ok]. cbn [fst] in Hx.
  pose proof (IH x Hx) as Hy. by destruct (dec_fields step fs x).
Qed.

Lemma dec_list_all {A} (P : A → Prop) (dec : decoder A) zero j old :
  (∀ j, P (dec j zero).1) → Forall P old → Forall P (dec_list dec zero j old).1.
Proof.
  intros Hdec Hold. destruct j as [| | | | |l|]; try done. cbn [dec_list].
  induction l as [|j l IH]; [by constructor|]. cbn [dec_elems]. pose proof (Hdec j) as Hj.
  destruct (dec j zero) as [x ok]. destruct (dec_elems dec zero l) as [xs oks]. by constructor.
Qed.

Section Announced.
Context `{!JsonText} `{!TimeText}.
Lemma dec_route_no_peers j : (dec_route j route_zero).1.(peers) = None.
Proof.
  unfold dec_route. apply (dec_struct_keeps (λ r : ModelRoute, peers r = None)); [|done].
  intros k v [n m c l o t ps pe] Hpe. cbn [peers] in Hpe. subst pe. unfold in_field.
  repeat case_match; simplify_eq; done.
Qed.
Lemma dec_models_no_peers j : Forall (λ r, r.(peers) = None) (dec_models j []).1.
Proof.
  unfold dec_models. apply (dec_struct_keeps (Forall (λ r : ModelRoute, peers r = None))); [|done].
  intros k v rs Hrs. destruct (key_is "models" k); [|done]. apply dec_list_all; [apply dec_route_no_peers|done].
Qed.
Lemma models_by_name_no_peers rs name r :
  Forall (λ r, r.(peers) = None) rs → models_by_name rs !! name = Some r → r.(peers) = None.
Proof.
  intros Hrs Hr. destruct (models_by_name_spec rs) as [Hsound _].
  apply Hsound in Hr as [Hin _]. rewrite Forall_forall in Hrs. by apply Hrs.
Qed.

(** An answer to the call for the models of a peer, whoever gives it. *)
Lemma announced_no_peers {W} `{!NewRequestText} (rt : PeerNode → Doer W) peer w w' models name r :
  run (GetModelsMesh rt peer) w = (w', Ok models) → models !! name = Some r → r.(peers) = None.
Proof.
  unfold GetModelsMesh, Client_Get, Client_Do. rewrite run_bind.
  destruct (newRequest _ _ _ _) as [req|e]; [|done]. rewrite run_bind.
  destruct (run (rt peer req) w) as [w1 [resp|e]]; [|done].
  destruct (hs_body resp) as [data|e]; [|done]. case_bool_decide; [done|].
  unfold unmarshal. destruct (json_parse data) as [j|]; [|done]. pose proof (dec_models_no_peers j) as Hj.
  destruct (dec_models j []) as [rs [|]]; [|done]. cbn [run]. intros [= <- <-]. by apply models_by_name_no_peers.
Qed.

Lemma attempts_ok {W A} n (p : prog W (result error A)) w w' x :
  run (attempts n p) w = (w', Ok x) → ∃ w1, run p w1 = (w', Ok x).
Proof.
  revert w. induction n as [|n IH]; intros w; cbn [attempts]; rewrite run_bind;
    destruct (run p w) as [w1 [y|e]] eqn:Hp; cbn [run]; intros Heq.
  - injection Heq as -> ->. by exists w.
  - done.
  - injection Heq as -> ->. by exists w.
  - by eapply IH.
Qed.
End Announced.

(** ** The loop and the router *)

Section Loop.
Context `{!MapOrder} `{!JsonText} `{!TimeText} `{!NewRequestText}.
Context {W : Type} `{!GoRetry W} (rt : PeerNode → Doer W) (seed : nat) (self : string).
Implicit Types (x : @px_state W) (m : gmap string PeerNode).

Abbreviation update := (OnPeerUpdate rt seed).
Abbreviation within x ids := (routes_within x.1.(px_router) ids).

Lemma removal_within n x ids :
  within x ids → (run (update n true) x).2 = None ∧ within (run (update n true) x).1 (ids ∖ {[n.(ID)]}).
Proof. intros Hx. split; [done|]. by apply within_remove. Qed.

(** An update that fails leaves the table alone. *)
Lemma update_within n x ids :
  n.(ID) ∈ ids → within x ids → within (run (update n false) x).1 ids.
Proof.
  intros Hn Hx. unfold OnPeerUpdate. rewrite run_bind. unfold change at 1. rewrite run_atomically. cbn [fst snd].
  rewrite run_bind, run_on_world. cbn [fst snd]. rewrite retry_attempts.
  destruct (run (attempts 3 _) x.2) as [w [models|e]] eqn:Hrun; [|exact Hx].
  apply attempts_ok in Hrun as [w1 Hrun]. cbn [fst snd].
  rewrite !run_bind. unfold change. rewrite !run_atomically. cbn [fst snd run px_router broadcast with_router].
  eapply within_mono; [|apply within_add; [|exact Hx]]; [set_solver|].
  intros name r. by eapply announced_no_peers.
Qed.

Lemma remove_peers_within last gone m good x ids :
  within x ids →
  let '(x', res) := run (remove_peers update last gone m good) x in
  res = Ok (m, good) ∧ within x' (ids ∖ list_to_set (ID <$> gone)).
Proof.
  revert x ids. induction gone as [|n gone IH]; intros x ids Hx; cbn [remove_peers].
  { cbn [run]. split; [done|]. eapply within_mono; [|exact Hx]. set_solver. }
  rewrite run_bind. destruct (removal_within (shown n) x ids Hx) as [Hnone Hx1].
  change (NewPeerNode (ID n) (Name n)) with (shown n).
  destruct (run (update (shown n) true) x) as [x1 err]. cbn [fst snd] in *. subst err.
  specialize (IH x1 _ Hx1). destruct (run (remove_peers _ _ _ _ _) x1) as [x' res]. destruct IH as [-> Hx'].
  split; [done|]. eapply within_mono; [|exact Hx']. cbn [shown NewPeerNode ID]. set_solver.
Qed.

Lemma update_peers_within todo m good x ids :
  keyed m → (∀ n, n ∈ todo → n.(ID) ∈ dom m) → dom m ⊆ ids → within x ids →
  ∃ x' m' good', run (update_peers update todo m good) x = (x', Ok (m', good')) ∧
    dom m' = dom m ∧ keyed m' ∧ within x' ids.
Proof.
  intros Hk Hin Hsub. revert m good x Hk Hin Hsub.
  induction todo as [|n todo IH]; intros m good x Hk Hin Hsub Hx; cbn [update_peers].
  { by exists x, m, good. }
  assert (ID n ∈ dom m) as Hn by (apply Hin; by left).
  rewrite run_bind. change (NewPeerNode (ID n) (Name n)) with (shown n).
  assert (within (run (update (shown n) false) x).1 ids) as Hx1 by (apply update_within; [by apply Hsub|done]).
  destruct (run (update (shown n) false) x) as [x1 [e|]]; cbn [fst] in Hx1.
  - apply elem_of_dom in Hn as [c Hc]. rewrite Hc. set (c' := with_LastUpdate time_zero c).
    assert (dom (<[c'.(ID) := c']> m) = dom m) as Hdom.
    { rewrite dom_insert_L. cbn [c' with_LastUpdate ID]. rewrite (Hk _ _ Hc).
      apply subseteq_union_1_L, singleton_subseteq_l, elem_of_dom. by eexists. }
    destruct (IH (<[c'.(ID) := c']> m) false x1) as (x' & m' & good' & Hrun & Hdom' & Hk' & Hx'); [..|exact Hx1|].
    + by apply keyed_insert.
    + intros n' Hn'. rewrite Hdom. apply Hin. by right.
    + by rewrite Hdom.
    + exists x', m', good'. by rewrite Hdom', Hdom.
  - apply IH; [done| |done..]. intros n' Hn'. apply Hin. by right.
Qed.

(** The handler and the loop leave the node of the router. *)
Definition same_node x x' : Prop := x'.1.(px_router).(rt_node) = x.1.(px_router).(rt_node).
#[export] Instance same_node_pre : PreOrder same_node.
Proof. split; [done|]. unfold same_node. intros x y z Hxy Hyz. by rewrite Hyz. Qed.

Lemma world_same_node {A} (p : prog W A) : respects (λ _, True) same_node (on_world p).
Proof.
  eapply (respects_zoom _ _ _ _ _ (λ _, True) (λ _ _, True)); [|done..].
  induction p as [a|f next IH]; by constructor.
Qed.

Lemma change_same_node f :
  (∀ p : Proxy, (f p).(px_router).(rt_node) = p.(px_router).(rt_node)) →
  respects (λ _, True) same_node (change (W := W) f).
Proof. intros Hf. apply respects_atomically. intros x _. split; [done|]. apply Hf. Qed.

Lemma update_same_node n remove : respects (λ _, True) same_node (update n remove).
Proof.
  unfold OnPeerUpdate. destruct remove.
  - repeat (apply respects_bind; [by apply change_same_node|intros _]). constructor.
  - apply respects_bind; [by apply change_same_node|intros _].
    apply respects_bind; [apply world_same_node|]. intros [models|e]; [|constructor].
    apply respects_bind; [|intros _; apply respects_bind; [by apply change_same_node|constructor]].
    apply change_same_node. intros p. unfold AddPeerModels. cbn [px_router with_router].
    by destruct (add_peer_models _ _ _ _).
Qed.

Lemma turn_same_node refresh register get_peers l :
  respects (λ _, True) same_node
    (poll_turn (λ r, on_world (refresh r)) (on_world register) (on_world get_peers) (Some update) self l).
Proof.
  assert (∀ last gone m good, respects (λ _, True) same_node (remove_peers update last gone m good)) as Hrem.
  { intros last gone. induction gone as [|n gone IH]; intros m good; [constructor|]. cbn [remove_peers].
    apply respects_bind; [apply update_same_node|]. intros [e|]; [|done]. by destruct (last !! _); [|constructor]. }
  assert (∀ todo m good, respects (λ _, True) same_node (update_peers update todo m good)) as Hupd.
  { intros todo. induction todo as [|n todo IH]; intros m good; [constructor|]. cbn [update_peers].
    apply respects_bind; [apply update_same_node|]. intros [e|]; [|done]. by destruct (m !! _); [|constructor]. }
  unfold poll_turn. apply respects_bind; [apply world_same_node|]. intros [reg [[valid lt] [e|]]]; [constructor|].
  destruct valid; cbn [negb].
  - case_bool_decide; [|constructor]. apply respects_bind; [apply world_same_node|]. intros [ps|e]; [|constructor].
    unfold apply_update. destruct (diffNodes _ _ _). apply respects_bind; [done|]. intros [[m good]|]; [|constructor].
    apply respects_bind; [done|]. intros [[m' good']|]; constructor.
  - apply respects_bind; [apply world_same_node|]. intros [r|]; constructor.
Qed.

(** The router of a node, once its peers are those of the last list. *)
Definition in_step (l : loop) x : Prop :=
  keyed l.(lastPeers) ∧ within x (dom l.(lastPeers) ∪ {[self]}).

Lemma apply_update_within l reg lt ps x :
  in_step l x →
  ∃ x' l', run (apply_update self update l reg lt ps) x = (x', Continue l') ∧
    dom (lastPeers l') = dom (peer_map ps) ∧ in_step l' x'.
Proof.
  intros [Hk Hx]. unfold apply_update.
  pose proof (λ n, elem_of_removed self l.(lastPeers) ps n Hk) as Hgone.
  pose proof (λ n, elem_of_updated self l.(lastPeers) ps n Hk) as Hnew.
  unfold removed_nodes, updated_nodes in Hgone, Hnew.
  destruct (diffNodes _ _ _) as [upd gone]. cbn [fst snd] in *. rewrite run_bind.
  pose proof (remove_peers_within l.(lastPeers) (range 2 gone).*2 (peer_map ps) true x _ Hx) as Hrem.
  destruct (run (remove_peers _ _ _ _ _) x) as [x1 res]. destruct Hrem as [-> Hx1]. rewrite run_bind.
  destruct (update_peers_within (range 3 upd).*2 (peer_map ps) true x1 (dom (peer_map ps) ∪ {[self]}))
    as (x' & m' & good' & -> & Hdom & Hk' & Hx').
  - apply peer_map_keyed.
  - intros n Hn%Hnew. apply elem_of_dom. by eexists; apply Hn.
  - set_solver.
  - eapply within_mono; [|exact Hx1]. intros id [[Hid|?]%elem_of_union Hng]%elem_of_difference; [|set_solver].
    apply elem_of_union. destruct (decide (id = self)) as [->|Hself]; [right; set_solver|left].
    apply elem_of_dom in Hid as [n Hn]. apply elem_of_dom.
    destruct (peer_map ps !! id) as [c|] eqn:Hc; [by eexists|]. exfalso. apply Hng, elem_of_list_to_set.
    apply list_elem_of_fmap. exists n. rewrite Hgone. by rewrite (Hk _ _ Hn).
  - eexists x', _. split; [done|]. split; [exact Hdom|]. split; [done|]. cbn [lastPeers]. by rewrite Hdom.
Qed.

(** Whatever the server and the peers answer, a turn does not panic and
    leaves the router in step with the list of peers. *)
Lemma poll_turn_in_step refresh register get_peers l x :
  in_step l x →
  ∃ x' l', run (poll_turn (λ r, on_world (refresh r)) (on_world register) (on_world get_peers)
                  (Some update) self l) x = (x', Continue l') ∧ in_step l' x'.
Proof.
  intros Hx.
  set (stay reg lt := {| lp_registration := reg; lastLogicalTime := lt; lastPeers := l.(lastPeers) |}).
  assert (∀ reg lt w, ∃ x' l', ((x.1, w), Continue (stay reg lt)) = (x', Continue l') ∧ in_step l' x') as Hstay
    by (intros reg lt w; by eexists (x.1, w), _).
  unfold poll_turn. rewrite run_bind, run_on_world.
  destruct (run (refresh _) x.2) as [w [reg [[valid lt] [e|]]]]; cbn [fst snd]; [apply Hstay|].
  destruct valid; cbn [negb].
  - case_bool_decide; [|apply Hstay]. rewrite run_bind, run_on_world. cbn [snd].
    destruct (run get_peers w) as [w' [ps|e]]; cbn [fst snd]; [|apply Hstay].
    edestruct (apply_update_within (stay reg (lastLogicalTime l)) reg lt ps (x.1, w'))
      as (x' & l' & Hrun & _ & Hx'); [exact Hx|]. by exists x', l'.
  - rewrite run_bind, run_on_world. cbn [snd]. destruct (run register w) as [w' [r|e]]; cbn [fst snd]; apply Hstay.
Qed.

End Loop.

Section Lived.
Context `{!MapOrder} `{!JsonText} `{!TimeText} `{!NewRequestText}.
Context {W : Type} `{!GoRetry W} (rt : PeerNode → Doer W) (self : string).
Implicit Types (x : @px_state W).

(** The states of a node with its loop: it starts without peers, refreshes
    the models of its providers, polls, and does what leaves its router. *)
Inductive lived : loop → @px_state W → Prop :=
  | lived_start reg node ps p w :
      node.(ID) = self → p.(px_router) = NewModelDiscovery node ps →
      lived {| lp_registration := reg; lastLogicalTime := 0; lastPeers := ∅ |} (p, w)
  | lived_refresh l p now up w :
      lived l (p, w) → lived l (with_router (Refresh now up p.(px_router)) p, w)
  | lived_other l x x' :
      lived l x → x'.1.(px_router) = x.1.(px_router) → lived l x'
  | lived_turn seed refresh register get_peers l x x' l' :
      lived l x →
      run (poll_turn (λ r, on_world (refresh r)) (on_world register) (on_world get_peers)
             (Some (OnPeerUpdate rt seed)) self l) x = (x', Continue l') →
      lived l' x'.

Lemma lived_in_step l x : lived l x → in_step self l x ∧ x.1.(px_router).(rt_node).(ID) = self.
Proof.
  induction 1 as [reg node ps p w Hid Hp|l p now up w _ [[Hk Hx] Hid]|l x x' _ [[Hk Hx] Hid] Heq
    |seed refresh register get_peers l x x' l' _ [Hx Hid] Hrun].
  - split; [split|].
    + intros id n Hn. cbn [lastPeers] in Hn. by rewrite lookup_empty in Hn.
    + cbn [fst]. rewrite Hp. eapply within_mono; [|apply within_new]. rewrite Hid. set_solver.
    + cbn [fst]. by rewrite Hp.
  - destruct Hx as (L & HL & Hids). cbn [fst] in *. split; [split; [done|]|].
    + apply within_refresh; [rewrite Hid; set_solver|by exists L].
    + destruct (refresh_loop_good 0 now up (rt_providers (px_router p)) (px_router p) (rt_node (px_router p) :: L))
        as [_ Heq]; [by left|by apply all_good_mono|]. cbn [px_router with_router]. unfold Refresh. by rewrite Heq.
  - unfold in_step. by rewrite Heq.
  - destruct (poll_turn_in_step rt seed self refresh register get_peers l x Hx) as (x2 & l2 & Hrun2 & Hx2).
    rewrite Hrun2 in Hrun. injection Hrun as <- <-. split; [done|].
    destruct (respects_run _ _ _ x (turn_same_node rt seed self refresh register get_peers l) I) as [_ Hsame].
    rewrite Hrun2 in Hsame. unfold same_node in Hsame. cbn [fst] in Hsame. by rewrite Hsame.
Qed.
End Lived.

(** ** Requests *)

(** A request that leaves for a peer leaves for one the router knows. *)
Lemma served_within `{!MapOrder} `{!JsonText} `{!TimeText} `{!NewRequestText} `{!URLText} {W : Type}
    unicode_lower GetPeerMap ClientForPeer GetPeerMeshInfo admin_rt seed r (x x' : @px_state W) dest r' ids :
  routes_within x.1.(px_router) ids →
  run (px_ServeHTTP unicode_lower GetPeerMap ClientForPeer GetPeerMeshInfo admin_rt seed r) x
    = (x', ToPeer dest r') →
  dest.(ID) ∈ ids.
Proof.
  intros Hx. unfold px_ServeHTTP. case_bool_decide.
  - destruct (pq_body r) as [sent|e] eqn:Hb; [|by unfold proxyModelRequest; rewrite Hb].
    rewrite (run_proxyModelRequest _ _ _ _ _ _ Hb). intros [= _ Hout].
    destruct (GetModelRoute _ _) as [route|] eqn:Hroute; [|done].
    destruct (GetLocalRoute route) as [local|]; [by destruct (url_parse _)|].
    destruct (GetMeshPeerRoute _ _ route) as [d|] eqn:Hdest; [|done]. injection Hout as -> _.
    by eapply within_route.
  - intros Hrun. pose proof (mux_stays GetPeerMap ClientForPeer GetPeerMeshInfo admin_rt seed r x) as Hstays.
    by rewrite Hrun in Hstays.
Qed.

(** ** A kick, and the next turn of another node *)

Section Kick.
Context {DB V : Type} `{!Badger DB} `{!JsonText} `{!TimeText} `{!Aead} `{!Hashes} `{!MapOrder}
  `{!NewRequestText} `{!URLText} `{!GoRetry (mesh_world DB V)} `{!BadgerLaws DB}.
Context (unicode_lower : string → string).
Context (GetPeerMap : prog V (result error (gmap string PeerNode))) (ClientForPeer : PeerNode → Doer V).
Context (GetPeerMeshInfo : PeerNode → MeshInfo) (admin_rt : Doer V).
Context (base : string) (seed' : nat → nat) (other : outcome → result error http_response).
Implicit Types (s : Server DB) (env : Env) (ts : gmap string (@px_state V)).

Abbreviation to_peer' := (to_peer unicode_lower GetPeerMap ClientForPeer GetPeerMeshInfo admin_rt seed' other).
Abbreviation node_turn' :=
  (node_turn unicode_lower GetPeerMap ClientForPeer GetPeerMeshInfo admin_rt base seed' other).

(** The clock of the server moves with the node. *)
Lemma delete_clock env ctx s s' j :
  let id := ctx.(PathVar) "id" in
  is_Some (s.(nodes) !! id) → run (adminDeleteNode env ctx) s = (s', Ok j) →
  s'.(logicalTime) = tick s.(logicalTime).
Proof.
  intros id Hreg. unfold adminDeleteNode. fold id. case_bool_decide; [done|].
  unfold meshKeysForNode. rewrite run_bind, run_reads. destruct (ForEach _ _ _ _) as [ks|e]; [|done].
  rewrite run_bind, run_atomically. cbn [fst snd]. rewrite run_bind, run_on_acl.
  rewrite (bool_decide_true _ Hreg), andb_false_r, run_bind. unfold drop_node. rewrite (bool_decide_true _ Hreg).
  set (s1 := with_acl _ _). destruct (run (delete_keys ks) s1) as [s2 [[]|e]] eqn:Hdel; [|done].
  apply run_delete_keys in Hdel as (d & -> & _). by intros [= <- _].
Qed.

(** C5: A kicked node gets no more requests.  After an administrator kicked a
    registered node, the next turn of every other node that still polls, with
    an id that a path carries as one segment, whatever peers can be reached
    and whatever they answer, ends with the peers of the server taken over; from then on each request that the
    node sends to a peer goes to a registered node, and never to the kicked
    one. *)
Theorem kicked_node_unrouted env ctx s s1 j envs seed mc l p ts :
  let id := ctx.(PathVar) "id" in let r := l.(lp_registration) in let self := r.(rg_node) in
  id ≠ "" → is_Some (s.(nodes) !! id) → id ≠ self.(ID) → run (adminKickPeer env ctx) s = (s1, Ok j) →
  lived to_peer' self.(ID) l (p, (s1, ts)) → polls base envs mc r s1 →
  (0 ≤ l.(lastLogicalTime) ≤ s.(logicalTime) ∧ s.(logicalTime) < 2 ^ 64 - 1)%Z →
  ∃ p' w' l', run (node_turn' envs seed mc self l) (p, (s1, ts)) = ((p', w'), Continue l') ∧
    dom (lastPeers l') = dom s.(nodes) ∖ {[id]} ∧
    ∀ (W : Type) peers_map client info admin seed2 rq (w : W) x' dest rq',
      run (px_ServeHTTP unicode_lower peers_map client info admin seed2 rq) (p', w) = (x', ToPeer dest rq') →
      dest.(ID) ≠ id ∧ is_Some (s1.(nodes) !! dest.(ID)).
Proof.
  intros id r self Hid Hreg Hself Hkick [Hlived _]%lived_in_step Hpolls Hclock.
  assert (s1.(nodes) = delete id s.(nodes)) as Hnodes.
  { by apply (run_adminDeleteNode env ctx s s1 _ Hid) in Hkick as (_ & _ & _ & Hok); apply Hok. }
  apply delete_clock in Hkick; [|done].
  destruct (run_turn unicode_lower GetPeerMap ClientForPeer GetPeerMeshInfo admin_rt base seed' other
    envs seed mc l p s1 ts Hpolls) as (s2 & Hview & Hlisted & Hrun).
  { rewrite Hkick. unfold tick. rewrite Z.mod_small; lia. }
  destruct (apply_update_within to_peer' seed self.(ID) l r s1.(logicalTime)
    (listed ((envs 1).(AdminServer.seed) 0) s2) (p, (s2, ts)))
    as ([p' w'] & l' & Hrun' & Hdom & _ & Hin); [exact Hlived|].
  rewrite listed_view, Hview in Hdom by done. unfold view in Hdom. rewrite dom_fmap_L, Hnodes, dom_delete_L in Hdom.
  exists p', w', l'. split; [exact (eq_trans Hrun Hrun')|]. split; [done|].
  intros W peers_map client info admin seed2 rq w x' dest rq' Hserve.
  assert (dest.(ID) ∈ dom (lastPeers l') ∪ {[self.(ID)]}) as Hdest
    by (eapply served_within; [|exact Hserve]; exact Hin).
  assert (is_Some (s1.(nodes) !! self.(ID))) as Hmine.
  { pose proof (po_known _ _ _ _ _ Hpolls) as Hk. by apply fmap_Some in Hk as (ref & Href & _); eexists. }
  rewrite Hdom in Hdest. apply elem_of_union in Hdest as [Hdest| ->%elem_of_singleton]; [|done].
  split; [|rewrite Hnodes; apply elem_of_dom; by rewrite dom_delete_L].
  by apply elem_of_difference in Hdest as [_ Hne%not_elem_of_singleton].
Qed.
End Kick.

(** ** Witness *)

Import ServerEx InviteEx WireEx ProxyEx PeerEx MeshEx.

Module KickEx.
(** Alice polls and routes to Bob; then Bob is kicked. *)
Definition turn_of : loop → prog (@px_state (mesh_world mem ())) turn :=
  node_turn (DB := mem) id no_peers (λ _, dial_failure) no_info admin_ok "http://mesh" (λ _, 0) nothing envs_ab 0
    (Client_Mesh client0 "default") alice_node.
Definition polled : @px_state (mesh_world mem ()) * turn :=
  run (turn_of first_poll) (empty_alice, (server_ab, reach)).
Definition second_poll : loop := match polled.2 with Continue l => l | Panic _ => first_poll end.
Definition kicked : Server mem * reply := run (adminKickPeer env0 (ctx "12D3KooWb" JNull)) polled.1.2.1.
Definition llama : prog (@px_state ()) outcome :=
  px_ServeHTTP id no_peers (λ _, dial_failure) no_info admin_ok (λ _, 0) (ask "/v1/responses" "llama").
Definition asked (p : Proxy) : outcome := (run llama (p, ())).2.

Lemma alice_registered : lp_registration second_poll = reg_alice.
Proof. by vm_compute. Qed.

Lemma kicked_listable : listable kicked.1.
Proof.
  assert (view kicked.1 = {[ "12D3KooWs" := alice_node ]}) as Hview by by vm_compute.
  unfold listable. rewrite Hview. clear Hview. intros i n [<- <-]%lookup_singleton_Some. by vm_compute.
Qed.

Lemma alice_polled :
  lived (to_peer id no_peers (λ _, dial_failure) no_info admin_ok (λ _, 0) nothing) "12D3KooWs" second_poll
    (polled.1.1, (kicked.1, polled.1.2.2)).
Proof.
  assert (run (turn_of first_poll) (empty_alice, (server_ab, reach))
    = ((polled.1.1, (polled.1.2.1, polled.1.2.2)), Continue second_poll)) as Hrun by by vm_compute.
  apply (lived_other _ _ _ (polled.1.1, (polled.1.2.1, polled.1.2.2))); [|done].
  unfold turn_of, node_turn in Hrun. eapply lived_turn; [|exact Hrun]. by apply (lived_start _ _ reg_alice self []).
Qed.
End KickEx.
Import KickEx.

Lemma kicked_node_unrouted_witness :
  (∃ rq, asked polled.1.1 = ToPeer (shown bob_node) rq) ∧
  ∃ p' w' l', run (turn_of second_poll) (polled.1.1, (kicked.1, polled.1.2.2)) = ((p', w'), Continue l') ∧
    ∀ dest rq', asked p' = ToPeer dest rq' → dest.(ID) ≠ "12D3KooWb".
Proof.
  split; [by eexists; vm_compute|].
  destruct (kicked_node_unrouted id no_peers (λ _, dial_failure) no_info admin_ok "http://mesh" (λ _, 0) nothing
    env0 (ctx "12D3KooWb" JNull) polled.1.2.1 kicked.1 (JObj [("NodeID", JStr "12D3KooWb")]) envs_ab 0
    (Client_Mesh client0 "default") second_poll polled.1.1 polled.1.2.2) as (p' & w' & l' & Hrun & _ & Hserve).
  - done.
  - eexists. by vm_compute.
  - intros Heq. by vm_compute in Heq.
  - by vm_compute.
  - rewrite alice_registered. exact alice_polled.
  - rewrite alice_registered. split; [by vm_compute..| | |by vm_compute|].
    + by eexists; vm_compute.
    + by eexists; vm_compute.
    + exact kicked_listable.
  - by vm_compute.
  - exists p', w', l'. split; [exact Hrun|]. intros dest rq' Hask.
    destruct (run llama (p', ())) as [x' o] eqn:Hout.
    unfold asked in Hask. rewrite Hout in Hask. cbn [snd] in Hask. subst o. by apply Hserve in Hout as [? _].
Defined.
