(* ===== verification/Init.v ===== *)
(** * Init: the first installation (cmd/mesh/app_init.go).

    `mesh init` asks for the settings, writes config.yaml and creates the two
    keys.  The directory is a map from file names to contents; the form is
    what the user left in it, or how it ended. *)
From Stdlib Require Import Ascii String.
From S2P Require Import Prelude GoStrings Json Api Proxy Config Streams Service Join.

Definition defaultNodeKeyPath : string := "node.key".
Definition defaultRelayKeyPath : string := "relay.key".
Definition defaultConfigPath : string := "config.yaml".

Record installSettings := {
  is_NodeKeyPath : string; is_RelayKeyPath : string; is_ConfigPath : string;
  is_ProxyListen : string; is_OllamaVersion : string; is_MeshName : string; is_AdminAddress : string;
  is_AdminSecret : string; is_AdminPort : Z; is_RelayPort : Z; is_PublicAddress : string; is_AppPort : Z;
  is_ForcePrivate : bool; is_MDNSEnabled : bool; is_ProviderID : string; is_ProviderType : string;
  is_ProviderURL : string; is_ModelDiscovery : string }.

(** What the form shows before it is filled in: the settings, and the texts of
    the three ports. *)
Record form_values := {
  fv_settings : installSettings; fv_adminPort : string; fv_relayPort : string; fv_appPort : string;
  fv_write : bool }.
Definition form_defaults : form_values := {|
  fv_settings := {|
    is_NodeKeyPath := defaultNodeKeyPath; is_RelayKeyPath := defaultRelayKeyPath;
    is_ConfigPath := defaultConfigPath; is_ProxyListen := DefaultProxyListen; is_OllamaVersion := "0.33.0";
    is_MeshName := ""; is_AdminAddress := "http://127.0.0.1:4002"; is_AdminSecret := ""; is_AdminPort := 0;
    is_RelayPort := 0; is_PublicAddress := "auto"; is_AppPort := 0; is_ForcePrivate := false;
    is_MDNSEnabled := true; is_ProviderID := "localhost"; is_ProviderType := "ollama";
    is_ProviderURL := "http://localhost:11434"; is_ModelDiscovery := "pinned" |};
  fv_adminPort := itoa DefaultAdminPort; fv_relayPort := itoa DefaultRelayPort; fv_appPort := itoa 0;
  fv_write := true |}.

(** strconv.Atoi with its error dropped; the form only lets a number through. *)
Definition atoi_or_zero (s : string) : Z := default 0%Z (atoi (trim_space s)).

(** The form is accepted only with ports that validatePort accepts. *)
Definition ports_valid (v : form_values) : bool :=
  bool_decide (validatePort v.(fv_adminPort) = None) && bool_decide (validatePort v.(fv_relayPort) = None)
  && bool_decide (validatePort v.(fv_appPort) = None).

(** The directory. *)
Abbreviation files := (gmap string string).
Definition fileExists (path : string) (fs : files) : bool := bool_decide (is_Some (fs !! path)).

Section Init.
Context {K : Type} (UnmarshalPrivateKey : string → result error K) (MarshalPrivateKey : K → result error string).
(** fmt's %q *)
Context (quote : string → string).
(** The form, filled in from the defaults: what it ends with. *)
Inductive form_end : Type := Filled (v : form_values) | Aborted_ | Failed (e : error).

Definition generateAdminSecret (rand : option string) : result error string :=
  match rand with Some b => Ok (hex_encode b) | None => Err (OtherError "rand: read failed") end.

(** The form has no field for the paths. *)
Definition with_ports_secret (v : form_values) (secret : string) : installSettings :=
  let s := v.(fv_settings) in {|
    is_NodeKeyPath := defaultNodeKeyPath; is_RelayKeyPath := defaultRelayKeyPath;
    is_ConfigPath := defaultConfigPath;
    is_ProxyListen := is_ProxyListen s; is_OllamaVersion := is_OllamaVersion s; is_MeshName := is_MeshName s;
    is_AdminAddress := is_AdminAddress s; is_AdminSecret := secret;
    is_AdminPort := atoi_or_zero v.(fv_adminPort); is_RelayPort := atoi_or_zero v.(fv_relayPort);
    is_PublicAddress := is_PublicAddress s; is_AppPort := atoi_or_zero v.(fv_appPort);
    is_ForcePrivate := is_ForcePrivate s; is_MDNSEnabled := is_MDNSEnabled s; is_ProviderID := is_ProviderID s;
    is_ProviderType := is_ProviderType s; is_ProviderURL := is_ProviderURL s;
    is_ModelDiscovery := is_ModelDiscovery s |}.

(** collectInstallSettings: None when the user aborted. *)
Definition collectInstallSettings (form : form_end) (rand : option string) : result error (option installSettings) :=
  match form with
  | Aborted_ => Ok None
  | Failed e => Err e
  | Filled v =>
      if negb v.(fv_write) then Err (OtherError "aborted")
      else
        let secret := is_AdminSecret v.(fv_settings) in
        if bool_decide (trim_space secret = "") then
          match generateAdminSecret rand with
          | Err e => Err e
          | Ok sec => Ok (Some (with_ports_secret v sec))
          end
        else Ok (Some (with_ports_secret v secret))
  end.

Definition defaultConfigYAML (s : installSettings) : string := lines [
  "proxy:";
  "  # The listen address for the Ollama proxy endpoint";
  "  listen: " +:+ quote (is_ProxyListen s);
  "  # The version of ollama to report as";
  "  version: " +:+ quote (is_OllamaVersion s);
  "";
  "mesh:";
  "  name: " +:+ quote (is_MeshName s);
  "  # Admin (Mesh Authentication Controller) API Path and secret";
  "  #  This points at a server that controls access to the mesh for member nodes";
  "  #";
  "  #  admin_address - HTTP(S) endpoint proxies use to register.";
  "  #                  The admin node must be hosted publicly or exposed to the";
  "  #                  internet via port forwarding (TCP on admin_port).";
  "  #  admin_secret  - is the admin controller password";
  "  #  admin_port    - is the port the controller should bind to (if behind nat this is the port to forward to the server)";
  "  admin_address: " +:+ quote (is_AdminAddress s);
  "  admin_secret: " +:+ quote (is_AdminSecret s);
  "  admin_port: " +:+ itoa (is_AdminPort s);
  "  relay_port: " +:+ itoa (is_RelayPort s);
  "  # The public address the relay server should announce itself as";
  "  #   When the server is directly on the internet this can be " +:+ String "034" (String "034" " and the public ip will be selected");
  "  #   IF the relay/controller is behind NAT with ports forwarded to it, this should be the address of the";
  "  #   router";
  "  #";
  "  #    " +:+ String "034" ("auto" +:+ String "034" " - use an automatic scheme to determine your address");
  "  #";
  "  public_address: " +:+ quote (is_PublicAddress s);
  "";
  "  # The app port to bind to for our MESH network";
  "  #   for mesh proxy this can be set to zero";
  "  #   for mesh relay this must be set to a valid port number";
  "  app_port: " +:+ itoa (is_AppPort s);
  "  # Force " +:+ String "034" ("mesh proxy" +:+ String "034" " to think it is behind NAT (for hole punching)");
  "  force_private: " +:+ bool_text (is_ForcePrivate s);
  "  # Enable/Discover of other LOCAL mesh proxy instances using MDNS (On Local Lan)";
  "  mdns_enabled: " +:+ bool_text (is_MDNSEnabled s);
  "";
  "providers:";
  "  - id: " +:+ is_ProviderID s;
  "    # only ollama is supported currently";
  "    type: " +:+ is_ProviderType s;
  "    # Base url of this server";
  "    base_url: " +:+ quote (is_ProviderURL s);
  "    # Controls how models are treated";
  "    # all       - all models that are known to";
  "    # pinned    - only currently loaded models are exported (prevents model thrashing)";
  "    # whitelist - only models in the whitelist (models:) are exported";
  "    model_discovery: " +:+ is_ModelDiscovery s;
  "    models:"].

(** The part of the directory LoadOrCreateKey looks at. *)
Definition key_of (path : string) (fs : files) : key_file :=
  match fs !! path with Some b => KeyBytes b | None => KeyMissing end.
Definition put_key (path : string) (k : key_file) (fs : files) : files :=
  match k with KeyBytes b => <[path := b]> fs | _ => fs end.

(** [generate] are the fresh keys; [write_err] is how a write of a file ends. *)
Context (generate : string → result error K) (write_err : string → option error).
Definition key_at (path : string) : prog files (result error K) :=
  zoom (key_of path) (put_key path)
    (LoadOrCreateKey UnmarshalPrivateKey MarshalPrivateKey path (generate path) (write_err path)).

(** What a run ended with: the message of an abort, or the settings. *)
Inductive init_result : Type := InitAborted | InitError (e : error) | InitReady (s : installSettings).

(** [overwrite] is the answer to the question about existing files. *)
Definition initializeNewInstall (overwrite : confirm) (form : form_end) (rand : option string)
    : prog files init_result :=
  let* existing := atomically (λ fs : files,
    (fs, filter (λ p, fileExists p fs = true) [defaultNodeKeyPath; defaultRelayKeyPath; defaultConfigPath])) in
  let install :=
    match collectInstallSettings form rand with
    | Err e => if bool_decide (error_string e = "aborted") then Ret InitAborted else Ret (InitError e)
    | Ok None => Ret InitAborted
    | Ok (Some settings) =>
        match write_err (is_ConfigPath settings) with
        | Some e => Ret (InitError (OtherError ("write " +:+ is_ConfigPath settings +:+ ": " +:+ error_string e)))
        | None =>
            let* _ := atomically (λ fs : files, (<[is_ConfigPath settings := defaultConfigYAML settings]> fs, ())) in
            let create path k := (let* key := key_at path in
              match key with
              | Err e => Ret (InitError (OtherError ("create " +:+ path +:+ ": " +:+ error_string e)))
              | Ok _ => k
              end) in
            create (is_NodeKeyPath settings) (create (is_RelayKeyPath settings) (Ret (InitReady settings)))
        end
    end in
  match existing with
  | [] => install
  | _ => match overwrite with
         | FormAborted => Ret InitAborted
         | FormFailed e => Ret (InitError e)
         | Answered yes => if yes then install else Ret InitAborted
         end
  end.
End Init.

(** ** Lemmas *)

Section InitLemmas.
Context {K : Type} (Unmarshal : string → result error K) (Marshal : K → result error string).
Context (generate : string → result error K) (write_err : string → option error).

(** A key is created in its file, or nothing happens to the directory. *)
Lemma run_key_at path fs fs' r :
  path ≠ "" → run (key_at Unmarshal Marshal generate write_err path) fs = (fs', r) →
  (fs' = fs ∨ (fs !! path = None ∧ ∃ b, fs' = <[path := b]> fs)) ∧
  (is_ok r = true → is_Some (fs' !! path)).
Proof.
  intros Hpath. unfold key_at, LoadOrCreateKey. rewrite (bool_decide_false _ Hpath).
  destruct (fs !! path) as [b|] eqn:Hf.
  - assert (key_of path fs = KeyBytes b) as Hk by (unfold key_of; by rewrite Hf).
    simpl. rewrite Hk. simpl. rewrite insert_id by done. intros [= <- <-]. split; [by left|]. by rewrite Hf.
  - assert (key_of path fs = KeyMissing) as Hk by (unfold key_of; by rewrite Hf).
    simpl. rewrite Hk. simpl.
    destruct (generate path) as [k|e]; [|intros [= <- <-]; by split; [left|]].
    destruct (Marshal k) as [b|e]; [|intros [= <- <-]; by split; [left|]].
    destruct (write_err path); [intros [= <- <-]; by split; [left|]|].
    intros [= <- <-]. split; [right; split; [done|by exists b]|]. by rewrite lookup_insert_eq.
Qed.

(** No file but config.yaml is changed, and only keys are added. *)
Definition keeps (fs fs' : files) : Prop :=
  (∀ path b, path ≠ defaultConfigPath → fs !! path = Some b → fs' !! path = Some b) ∧
  (∀ path, path ∉ [defaultConfigPath; defaultNodeKeyPath; defaultRelayKeyPath] → fs' !! path = fs !! path).

#[export] Instance keeps_preorder : PreOrder keeps.
Proof.
  split; [by split|]. intros fs1 fs2 fs3 [Hk Ho] [Hk' Ho']. split; [by eauto|].
  intros path Hpath. by rewrite Ho', Ho.
Qed.

Lemma keeps_config fs text : keeps fs (<[defaultConfigPath := text]> fs).
Proof. split; intros path; [intros b ? ?; by rewrite lookup_insert_ne|]. intros ?. rewrite lookup_insert_ne; set_solver. Qed.

Lemma keeps_key path fs fs' r :
  path ∈ [defaultNodeKeyPath; defaultRelayKeyPath] →
  run (key_at Unmarshal Marshal generate write_err path) fs = (fs', r) →
  keeps fs fs' ∧ fs' !! defaultConfigPath = fs !! defaultConfigPath ∧ (is_ok r = true → is_Some (fs' !! path)).
Proof.
  intros Hpath Hrun. apply run_key_at in Hrun as [[->|(Hnone & b & ->)] Hok]; [by split_and!| |by set_solver].
  split_and!; [|rewrite lookup_insert_ne; set_solver|done]. split; intros p.
  - intros b' _ Hp. rewrite lookup_insert_ne; [done|]. intros ->. congruence.
  - intros Hp. rewrite lookup_insert_ne; [done|]. set_solver.
Qed.

Lemma keeps_is_some path fs fs' : path ≠ defaultConfigPath → keeps fs fs' → is_Some (fs !! path) → is_Some (fs' !! path).
Proof. intros Hp [Hk _] [b Hb]. exists b. by apply Hk. Qed.

Lemma collected_paths form rand settings :
  collectInstallSettings form rand = Ok (Some settings) →
  is_NodeKeyPath settings = defaultNodeKeyPath ∧ is_RelayKeyPath settings = defaultRelayKeyPath ∧
  is_ConfigPath settings = defaultConfigPath.
Proof.
  unfold collectInstallSettings. destruct form as [v| |e]; [|done..]. destruct (negb _); [done|].
  case_bool_decide; [destruct (generateAdminSecret rand); [|done]|]; by intros [= <-].
Qed.

(** How a run of `mesh init` ends, and what it leaves in the directory. *)
Lemma run_init quote overwrite form rand fs fs' r :
  run (initializeNewInstall Unmarshal Marshal quote generate write_err overwrite form rand) fs = (fs', r) →
  keeps fs fs' ∧
  match r with
  | InitAborted => fs' = fs
  | InitReady settings => fs' !! defaultConfigPath = Some (defaultConfigYAML quote settings) ∧
      is_Some (fs' !! defaultNodeKeyPath) ∧ is_Some (fs' !! defaultRelayKeyPath)
  | InitError _ => True
  end.
Proof.
  unfold initializeNewInstall. rewrite run_bind, run_atomically.
  set (install := match collectInstallSettings form rand with Err e => _ | Ok _ => _ end).
  assert (∀ p, p = install ∨ (∃ e, p = Ret (InitError e)) ∨ p = Ret InitAborted →
    run p fs = (fs', r) → keeps fs fs' ∧ match r with
      | InitAborted => fs' = fs
      | InitReady settings => fs' !! defaultConfigPath = Some (defaultConfigYAML quote settings) ∧
          is_Some (fs' !! defaultNodeKeyPath) ∧ is_Some (fs' !! defaultRelayKeyPath)
      | InitError _ => True
      end) as Hmain.
  2: { intros Hrun. eapply Hmain; [|exact Hrun]. destruct (filter _ _); [by left|].
       destruct overwrite as [[]| |e]; eauto. }
  intros p [->|[[e ->]| ->]]; [|by intros [= <- <-]..]. subst install.
  destruct (collectInstallSettings form rand) as [[settings|]|e] eqn:Hset.
  - assert (is_NodeKeyPath settings = defaultNodeKeyPath ∧ is_RelayKeyPath settings = defaultRelayKeyPath ∧
      is_ConfigPath settings = defaultConfigPath) as (-> & -> & ->) by (by apply collected_paths in Hset).
    destruct (write_err defaultConfigPath); [by intros [= <- <-]|].
    rewrite run_bind, run_atomically, run_bind. set (fs1 := <[_ := _]> fs).
    destruct (run (key_at _ _ _ _ defaultNodeKeyPath) fs1) as [fs2 r2] eqn:H2.
    apply keeps_key in H2 as (Hk2 & Hc2 & Hok2); [|by left].
    pose proof (keeps_config fs (defaultConfigYAML quote settings)) as Hk1.
    fold fs1 in Hk1. destruct r2 as [k2|e2]; [|intros [= <- <-]; split; [by etrans|done]].
    rewrite run_bind. destruct (run (key_at _ _ _ _ defaultRelayKeyPath) fs2) as [fs3 r3] eqn:H3.
    apply keeps_key in H3 as (Hk3 & Hc3 & Hok3); [|by right; left].
    destruct r3 as [k3|e3]; intros [= <- <-]; (split; [etrans; [exact Hk1|by etrans]|]); [|done].
    split; [by rewrite Hc3, Hc2; apply lookup_insert_eq|]. split; [|by apply Hok3].
    apply keeps_is_some with fs2; [done..|by apply Hok2].
  - by intros [= <- <-].
  - case_bool_decide; by intros [= <- <-].
Qed.

(** C34: Installing again is safe for the identities of the node: whatever the
    user answers, a run of `mesh init` changes no file but config.yaml and
    never an existing key; when it is aborted or the form fails it changes
    nothing at all; and when it says the install is ready, config.yaml is the
    text made of the settings and both keys exist. *)
Theorem init_keeps_keys quote overwrite form rand fs fs' r :
  run (initializeNewInstall Unmarshal Marshal quote generate write_err overwrite form rand) fs = (fs', r) →
  keeps fs fs' ∧
  match r with
  | InitAborted => fs' = fs
  | InitReady settings => fs' !! defaultConfigPath = Some (defaultConfigYAML quote settings) ∧
      is_Some (fs' !! defaultNodeKeyPath) ∧ is_Some (fs' !! defaultRelayKeyPath)
  | InitError _ => True
  end.
Proof. apply run_init. Qed.
End InitLemmas.

(** ** Witnesses *)

Lemma init_keeps_keys_witness :
  ∃ settings, run (initializeNewInstall (K := string) Ok Ok (λ s, s) (λ _, Ok "fresh") (λ _, None)
      (Answered true) (Filled form_defaults) (Some "0123")) {[ "node.key" := "mine"; "notes.txt" := "n" ]}
    = ({[ "node.key" := "mine"; "notes.txt" := "n"; "relay.key" := "fresh";
          "config.yaml" := defaultConfigYAML (λ s, s) settings ]}, InitReady settings) ∧
    keeps {[ "node.key" := "mine"; "notes.txt" := "n" ]}
      {[ "node.key" := "mine"; "notes.txt" := "n"; "relay.key" := "fresh";
         "config.yaml" := defaultConfigYAML (λ s, s) settings ]}.
Proof.
  exists (with_ports_secret form_defaults "30313233").
  match goal with |- ?H ∧ _ => assert H as Hrun by (by vm_compute) end.
  split; [exact Hrun|]. by destruct (init_keeps_keys Ok Ok (λ _, Ok "fresh") (λ _, None) (λ s, s)
    (Answered true) (Filled form_defaults) (Some "0123") _ _ _ Hrun).
Defined.
