(* ===== verification/InitForm.v ===== *)
(** * InitForm: the form of `mesh init` (cmd/mesh/app_init.go, collectInstallSettings).

    The form is data: groups of inputs, confirmations and selections, each on
    a variable of the settings.  How the form library runs it is a hypothesis
    of the theorem, what its documentation says: the user edits the variables
    of the fields, a selection only to one of its options and an input to one
    line of text, and the form is accepted when every input passes its
    validation.  The texts the fields
    show are kept as they are. *)
From Stdlib Require Import Ascii String.
From S2P Require Import Prelude GoStrings Json Log Api Proxy Config Streams Service Join Init.

(** ** The variables the fields point to *)

Inductive text_var : Type :=
  | PProxyListen | POllamaVersion | PMeshName | PAdminAddress | PAdminSecret | PPublicAddress
  | PProviderID | PProviderType | PProviderURL | PModelDiscovery
  | PadminPort | PrelayPort | PappPort.
Inductive bool_var : Type := PForcePrivate | PMDNSEnabled | Pwrite.
#[export] Instance text_var_eq : EqDecision text_var.
Proof. solve_decision. Defined.
#[export] Instance bool_var_eq : EqDecision bool_var.
Proof. solve_decision. Defined.

Definition read_text (x : text_var) (v : form_values) : string :=
  let s := v.(fv_settings) in
  match x with
  | PProxyListen => is_ProxyListen s | POllamaVersion => is_OllamaVersion s | PMeshName => is_MeshName s
  | PAdminAddress => is_AdminAddress s | PAdminSecret => is_AdminSecret s
  | PPublicAddress => is_PublicAddress s | PProviderID => is_ProviderID s
  | PProviderType => is_ProviderType s | PProviderURL => is_ProviderURL s
  | PModelDiscovery => is_ModelDiscovery s
  | PadminPort => v.(fv_adminPort) | PrelayPort => v.(fv_relayPort) | PappPort => v.(fv_appPort)
  end.
Definition read_bool (x : bool_var) (v : form_values) : bool :=
  match x with
  | PForcePrivate => is_ForcePrivate v.(fv_settings) | PMDNSEnabled => is_MDNSEnabled v.(fv_settings)
  | Pwrite => v.(fv_write)
  end.

(** The values with each variable read through [text] and [bool]. *)
Definition store_vars (text : text_var → string) (bool : bool_var → bool) (v : form_values) : form_values :=
  let s := v.(fv_settings) in {|
    fv_settings := {|
      is_NodeKeyPath := is_NodeKeyPath s; is_RelayKeyPath := is_RelayKeyPath s;
      is_ConfigPath := is_ConfigPath s; is_ProxyListen := text PProxyListen;
      is_OllamaVersion := text POllamaVersion; is_MeshName := text PMeshName;
      is_AdminAddress := text PAdminAddress; is_AdminSecret := text PAdminSecret;
      is_AdminPort := is_AdminPort s; is_RelayPort := is_RelayPort s;
      is_PublicAddress := text PPublicAddress; is_AppPort := is_AppPort s;
      is_ForcePrivate := bool PForcePrivate; is_MDNSEnabled := bool PMDNSEnabled;
      is_ProviderID := text PProviderID; is_ProviderType := text PProviderType;
      is_ProviderURL := text PProviderURL; is_ModelDiscovery := text PModelDiscovery |};
    fv_adminPort := text PadminPort; fv_relayPort := text PrelayPort; fv_appPort := text PappPort;
    fv_write := bool Pwrite |}.
Definition write_text (x : text_var) (t : string) (v : form_values) : form_values :=
  store_vars (λ y, if decide (y = x) then t else read_text y v) (λ y, read_bool y v) v.
Definition write_bool (x : bool_var) (b : bool) (v : form_values) : form_values :=
  store_vars (λ y, read_text y v) (λ y, if decide (y = x) then b else read_bool y v) v.

(** ** The form *)

Inductive field : Type :=
  | Input (title description placeholder : string) (value : text_var) (validate : option (string → option error))
  | Confirm (title description affirmative negative : string) (value : bool_var)
  | Select (title description : string) (options : list (string * string)) (value : text_var).
Record group := { g_fields : list field; g_title : string; g_description : string }.

Definition install_form : list group := [
  {| g_fields := [
       Input "Proxy listen address"
         "Local HTTP address for the Ollama/OpenAI proxy and the /ui dashboard. Example: :8080"
         DefaultProxyListen PProxyListen None;
       Input "Reported Ollama version" "Version string returned to Ollama-compatible clients."
         "0.33.0" POllamaVersion None];
     g_title := "Proxy"; g_description := "How this node presents the local HTTP API." |};
  {| g_fields := [
       Input "Node name" "Human-readable name on the mesh. Leave empty to use the hostname at startup."
         "(hostname)" PMeshName None;
       Input "Admin address"
         "HTTP(S) URL of the mesh admin this proxy registers with. The admin node must be reachable from the internet (public host or NAT port-forward of the admin port). For hybrid/standalone on this machine use http://127.0.0.1:<admin_port>."
         "http://127.0.0.1:4002" PAdminAddress None;
       Input "Admin secret" "Shared password for the admin API. Leave empty to generate a random secret."
         "generate random" PAdminSecret None;
       Input "Admin port" "TCP port the admin controller binds for mesh admin / proxy+admin. Forward this if behind NAT."
         (itoa DefaultAdminPort) PadminPort (Some validatePort)];
     g_title := "Admin"; g_description := "Membership controller this node talks to. It must be public or port-forwarded." |};
  {| g_fields := [
       Input "Relay port" "TCP+UDP port for the libp2p circuit relay (NAT traversal). Forward both protocols on a public relay."
         (itoa DefaultRelayPort) PrelayPort (Some validatePort);
       Input "Public address"
         "IP the relay advertises. Use auto to discover it, or a concrete IP when ports are forwarded through NAT."
         "auto" PPublicAddress None;
       Input "Mesh app port"
         "libp2p listen port. 0 lets a proxy pick an ephemeral port; relay/hybrid nodes typically use the relay port."
         (itoa 0) PappPort (Some validatePort);
       Confirm "Force private reachability?"
         "If yes, this proxy always behaves as if it is behind NAT and prefers hole punching / relay paths."
         "Yes" "No" PForcePrivate;
       Confirm "Enable mDNS?"
         "Discover other Speakeasy proxies on the local LAN, in addition to the admin membership list."
         "Yes" "No" PMDNSEnabled];
     g_title := "Network"; g_description := "How this node joins the libp2p mesh." |};
  {| g_fields := [
       Input "Local provider id" "Label for the local Ollama backend in config.yaml." "localhost" PProviderID None;
       Select "Provider type" "Backend type. Only ollama is implemented today." [("ollama", "ollama")] PProviderType;
       Input "Ollama base URL" "Where this node’s Ollama HTTP API listens." "http://localhost:11434" PProviderURL None;
       Select "Model discovery" "Which local models to export onto the mesh."
         [("all — every model Ollama knows", "all"); ("pinned — only currently loaded models", "pinned");
          ("whitelist — only names listed under providers[].models", "whitelist")] PModelDiscovery];
     g_title := "Ollama"; g_description := "Which local models this node shares." |};
  {| g_fields := [
       Confirm "Write these settings?"
         "Creates config.yaml. Existing node.key / relay.key files are kept; missing keys are created."
         "Write" "Abort" Pwrite];
     g_title := "Confirm"; g_description := "" |} ].

(** ** Running a form *)

Definition fields_of (form : list group) : list field := form ≫= g_fields.

Inductive edit (form : list group) : form_values → form_values → Prop :=
  | edit_input v title descr hold x validate t :
      Input title descr hold x validate ∈ fields_of form → edit form v (write_text x t v)
  | edit_confirm v title descr yes no x b :
      Confirm title descr yes no x ∈ fields_of form → edit form v (write_bool x b v)
  | edit_select v title descr options x label t :
      Select title descr options x ∈ fields_of form → (label, t) ∈ options → edit form v (write_text x t v).

Definition field_accepts (v : form_values) (f : field) : bool :=
  match f with
  | Input _ _ _ x (Some validate) => bool_decide (validate (read_text x v) = None)
  | _ => true
  end.
Definition accepted (form : list group) (v : form_values) : bool := forallb (field_accepts v) (fields_of form).

(** What can stand in an input, which has a single line: runes that are no
    control characters. *)
Definition typed_rune (r : string) : bool :=
  match nat_of_ascii <$> list_ascii_of_string r with
  | [a] => bool_decide (32 ≤ a ≤ 126)
  | [a; b] => negb (bool_decide (a = 194 ∧ b < 160))
  | [a; b; c] => negb (bool_decide ([a; b; c] = [239; 191; 189]))
  | _ => true
  end.
Definition typable (t : string) : bool := forallb typed_rune (runes t).
Definition field_typed (v : form_values) (f : field) : bool :=
  match f with Input _ _ _ x _ => typable (read_text x v) | _ => true end.
Definition typed (form : list group) (v : form_values) : bool := forallb (field_typed v) (fields_of form).

(** What the documentation of the form library says of [run], the ends a form
    can have when it starts on some values. *)
Record form_library (run : list group → form_values → form_end → Prop) : Prop := {
  run_filled form v v' : run form v (Filled v') → rtc (edit form) v v' ∧ accepted form v' = true;
  run_fills form v v' : rtc (edit form) v v' → accepted form v' = true → typed form v' = true →
    run form v (Filled v') }.

(** ** What the form lets through *)

Definition discoveries : list string := ["all"; "pinned"; "whitelist"].

(** The values the form can be submitted with. *)
Record submitted (v : form_values) : Prop := {
  sub_type : is_ProviderType v.(fv_settings) = "ollama";
  sub_discovery : is_ModelDiscovery v.(fv_settings) ∈ discoveries;
  sub_hidden : ∃ text bool, v = store_vars text bool form_defaults;
}.

Lemma store_hidden text bool v :
  (∃ text bool, v = store_vars text bool form_defaults) →
  ∃ text' bool', store_vars text bool v = store_vars text' bool' form_defaults.
Proof. intros (? & ? & ->). by exists text, bool. Qed.

(** What the fields of the form are, as one check of the whole form: inputs
    are not on the two selected variables, and the selections offer a provider
    type or a discovery. *)
Definition field_ok (f : field) : bool :=
  match f with
  | Input _ _ _ x _ => bool_decide (x ≠ PProviderType ∧ x ≠ PModelDiscovery)
  | Confirm _ _ _ _ _ => true
  | Select _ _ options x =>
      forallb (λ o, bool_decide (x = PProviderType ∧ o.2 = "ollama" ∨ x = PModelDiscovery ∧ o.2 ∈ discoveries)) options
  end.

Lemma form_field_ok f : f ∈ fields_of install_form → field_ok f = true.
Proof.
  rewrite list_elem_of_In. apply forallb_forall. by vm_compute.
Qed.

Lemma edit_submitted v v' : edit install_form v v' → submitted v → submitted v'.
Proof.
  intros Hedit [Ht Hd Hv]. destruct Hedit as [v ? ? ? x ? t Hf|v|v ? ? options x label t Hf Ho].
  - apply form_field_ok in Hf. cbn in Hf. apply bool_decide_eq_true in Hf as [H1 H2].
    split; [| |by apply store_hidden]; cbn; by rewrite decide_False.
  - by split; [..|apply store_hidden].
  - apply form_field_ok in Hf. cbn in Hf. rewrite forallb_forall in Hf.
    rewrite list_elem_of_In in Ho. apply Hf, bool_decide_eq_true in Ho. cbn in Ho.
    destruct Ho as [[-> ->]|[-> Ho]]; (split; [..|by apply store_hidden]); done.
Qed.

(** ** What can be entered *)

(** The inputs and the confirmations of the form, by their variable. *)
Definition is_input (x : text_var) (f : field) : bool :=
  match f with Input _ _ _ y _ => bool_decide (x = y) | _ => false end.
Definition is_confirm (x : bool_var) (f : field) : bool :=
  match f with Confirm _ _ _ _ y => bool_decide (x = y) | _ => false end.
Definition is_option (x : text_var) (t : string) (f : field) : bool :=
  match f with Select _ _ options y => bool_decide (x = y ∧ t ∈ options.*2) | _ => false end.

Lemma can_enter x t v :
  x ≠ PProviderType → x ≠ PModelDiscovery → edit install_form v (write_text x t v).
Proof.
  intros Ht Hd. assert (existsb (is_input x) (fields_of install_form) = true) as Hex by by destruct x.
  apply existsb_exists in Hex as ([title descr hold y validate| |] & Hin & Hx); [|done..].
  apply bool_decide_eq_true in Hx as <-. apply list_elem_of_In in Hin. by eapply edit_input.
Qed.
Lemma can_confirm x b v : edit install_form v (write_bool x b v).
Proof.
  assert (existsb (is_confirm x) (fields_of install_form) = true) as Hex by by destruct x.
  apply existsb_exists in Hex as ([|title descr yes no y|] & Hin & Hx); [done| |done].
  apply bool_decide_eq_true in Hx as <-. apply list_elem_of_In in Hin. by eapply edit_confirm.
Qed.
Lemma can_select x t v :
  x = PProviderType ∧ t = "ollama" ∨ x = PModelDiscovery ∧ t ∈ discoveries → edit install_form v (write_text x t v).
Proof.
  intros Hxt. assert (existsb (is_option x t) (fields_of install_form) = true) as Hex.
  { destruct Hxt as [[-> ->]|[-> Ht]]; [by vm_compute|].
    repeat (apply elem_of_cons in Ht as [-> |Ht]; [by vm_compute|]). by apply not_elem_of_nil in Ht. }
  apply existsb_exists in Hex as ([| |title descr options y] & Hin & Hx); [done..|].
  apply bool_decide_eq_true in Hx as [<- Ho]. apply list_elem_of_In in Hin.
  apply list_elem_of_fmap in Ho as ([label t'] & -> & Ho). by eapply edit_select.
Qed.

(** Values that may be submitted are reached one field after the other. *)
Lemma submitted_reached v : submitted v → rtc (edit install_form) form_defaults v.
Proof.
  intros [Ht Hd (text & bool & ->)]. cbn in Ht, Hd.
  set (texts := [PProxyListen; POllamaVersion; PMeshName; PAdminAddress; PAdminSecret; PPublicAddress;
    PProviderID; PProviderType; PProviderURL; PModelDiscovery; PadminPort; PrelayPort; PappPort]).
  set (bools := [PForcePrivate; PMDNSEnabled; Pwrite]).
  assert (∀ xs v0, rtc (edit install_form) v0 (foldl (λ v x, write_text x (text x) v) v0 xs)) as Htexts.
  { induction xs as [|x xs IH]; intros v0; [done|]. cbn [foldl]. etrans; [|apply IH]. apply rtc_once.
    destruct (decide (x = PProviderType)) as [-> |]; [apply can_select; by left|].
    destruct (decide (x = PModelDiscovery)) as [-> |]; [apply can_select; by right|]. by apply can_enter. }
  assert (∀ xs v0, rtc (edit install_form) v0 (foldl (λ v x, write_bool x (bool x) v) v0 xs)) as Hbools.
  { induction xs as [|x xs IH]; intros v0; [done|]. cbn [foldl]. etrans; [|apply IH]. apply rtc_once, can_confirm. }
  etrans; [apply (Htexts texts)|]. apply (Hbools bools).
Qed.

(** The ports of the form are numbers that fit. *)
Lemma accepted_ports v : accepted install_form v = ports_valid v.
Proof.
  unfold accepted, ports_valid. cbn [fields_of install_form mbind list_bind g_fields app forallb field_accepts read_text].
  by rewrite !andb_true_l, !andb_true_r, !andb_assoc.
Qed.

Lemma valid_port s : validatePort s = None → ∃ n, atoi (trim_space s) = Some n ∧ (0 ≤ n ≤ 65535)%Z.
Proof.
  unfold validatePort. destruct (atoi (trim_space s)) as [n|]; [|done].
  case_bool_decide; [done|]. intros _. exists n. split; [done|lia].
Qed.

Lemma length_hex s : String.length (hex_encode s) = 2 * String.length s.
Proof. induction s as [|c s IH]; [done|]. cbn [hex_encode String.length]. rewrite IH. lia. Qed.

(** What the settings of a submitted form hold. *)
Record sound (v : form_values) (rand : string) (s : installSettings) : Prop := {
  snd_admin : atoi (trim_space v.(fv_adminPort)) = Some (is_AdminPort s) ∧ (0 ≤ is_AdminPort s ≤ 65535)%Z;
  snd_relay : atoi (trim_space v.(fv_relayPort)) = Some (is_RelayPort s) ∧ (0 ≤ is_RelayPort s ≤ 65535)%Z;
  snd_app : atoi (trim_space v.(fv_appPort)) = Some (is_AppPort s) ∧ (0 ≤ is_AppPort s ≤ 65535)%Z;
  snd_type : is_ProviderType s = "ollama";
  snd_discovery : is_ModelDiscovery s ∈ discoveries;
  snd_secret : (trim_space (is_AdminSecret s) ≠ "" ∧ is_AdminSecret s = is_AdminSecret v.(fv_settings)) ∨
               (is_AdminSecret s = hex_encode rand ∧ String.length (is_AdminSecret s) = 64);
  snd_paths : is_NodeKeyPath s = defaultNodeKeyPath ∧ is_RelayKeyPath s = defaultRelayKeyPath ∧
              is_ConfigPath s = defaultConfigPath }.

Lemma with_ports_sound v rand secret :
  submitted v → ports_valid v = true →
  (trim_space secret ≠ "" ∧ secret = is_AdminSecret v.(fv_settings)) ∨
    (secret = hex_encode rand ∧ String.length secret = 64) →
  sound v rand (with_ports_secret v secret).
Proof.
  intros [Ht Hd _] Hports Hsecret. unfold ports_valid in Hports.
  apply andb_true_iff in Hports as [[Ha Hr]%andb_true_iff Hp]. apply bool_decide_eq_true in Ha, Hr, Hp.
  apply valid_port in Ha as (a & Ha & ?), Hr as (r & Hr & ?), Hp as (p & Hp & ?).
  split; [..|done]; cbn; unfold atoi_or_zero; rewrite ?Ha, ?Hr, ?Hp; done.
Qed.

(** C33: The form lets exactly the valid settings through: whatever the user
    edits, the values it is accepted with have ports that are numbers between
    0 and 65535 and one of the offered provider types and discoveries, and any
    such values can be entered whose texts hold no line breaks and no other
    control characters.  When the user confirms, there are settings;
    they hold these ports as numbers, never the zero of a text that does not
    parse, and the default paths, and the admin secret is the one that was
    entered, which is not blank, or 64 digits made of 32 random bytes. *)
Theorem init_form_valid form_runs (Hlib : form_library form_runs) (v : form_values) (rand : string)
    (Hrand : String.length rand = 32) :
  (form_runs install_form form_defaults (Filled v) → submitted v ∧ ports_valid v = true) ∧
  (submitted v → ports_valid v = true → typed install_form v = true → form_runs install_form form_defaults (Filled v)) ∧
  (form_runs install_form form_defaults (Filled v) →
   (v.(fv_write) = true → ∃ s, collectInstallSettings (Filled v) (Some rand) = Ok (Some s)) ∧
   ∀ s, collectInstallSettings (Filled v) (Some rand) = Ok (Some s) → sound v rand s).
Proof.
  assert (form_runs install_form form_defaults (Filled v) → submitted v ∧ ports_valid v = true) as Honly.
  { rewrite <-accepted_ports. intros [Hv Hports]%Hlib. split; [|done].
    assert (submitted form_defaults) as Hdef.
    { split; [done|by right; left|]. by exists (λ x, read_text x form_defaults), (λ x, read_bool x form_defaults). }
    revert Hdef. induction Hv as [|v1 v2 v3 Hedit _ IH]; [done|]. intros Hv1. apply IH; [done|].
    by eapply edit_submitted. }
  split; [exact Honly|]. split.
  { rewrite <-accepted_ports. intros Hv Hports Htyped. apply Hlib; [by apply submitted_reached|done|done]. }
  intros [Hsub Hports]%Honly. unfold collectInstallSettings. split.
  - intros ->. cbn [negb generateAdminSecret]. case_bool_decide; by eexists.
  - intros s. destruct (negb _); [done|]. cbn [generateAdminSecret].
    case_bool_decide as Hblank; intros [= <-]; apply with_ports_sound; auto.
    right. split; [done|]. rewrite length_hex, Hrand. done.
Qed.

(** A user who changes a port and the discovery, and leaves the secret blank. *)
Definition edited : form_values :=
  write_text PModelDiscovery "all" (write_text PrelayPort " 4010 " form_defaults).

(** A library that does no more than its documentation says. *)
Definition form_run (form : list group) (v : form_values) (e : form_end) : Prop :=
  match e with Filled v' => rtc (edit form) v v' ∧ accepted form v' = true ∧ typed form v' = true | _ => True end.

Lemma init_form_valid_witness :
  sound edited "0123456789abcdef0123456789abcdef"
    (with_ports_secret edited (hex_encode "0123456789abcdef0123456789abcdef")) ∧
  is_RelayPort (with_ports_secret edited "") = 4010%Z.
Proof.
  split; [|by vm_compute].
  assert (form_library form_run) as Hlib by (split; unfold form_run; tauto).
  destruct (init_form_valid form_run Hlib edited "0123456789abcdef0123456789abcdef" eq_refl) as (_ & Hsub & Hform).
  apply Hform; [|by vm_compute]. apply Hsub; [|by vm_compute..].
  split; [done|by left|]. do 2 eexists. unfold edited, write_text. reflexivity.
Defined.
