(* ===== verification/Commands.v ===== *)
(** * Commands: the entry points of the programs (cmd/mesh, cmd/admincli).

    Which command a command line runs, and what `mesh admin` starts: the
    membership server and the relay, which share the allow list. *)
From Stdlib Require Import Ascii String.
From S2P Require Import Prelude GoStrings Json Api JsonKV AllowList MagicLink Auth AdminServer.
From S2P Require Import JsonClient ApiClient Proxy Config Streams Service Join Init.

(** ** mesh (cmd/mesh/main.go) *)

Inductive mesh_command : Type :=
  | Usage
  | RunInit
  | RunJoin (args : list string)
  | RunProxy (c : Config)
  | RunAdmin (c : Config)
  | RunHybrid (c : Config)
  | Fatal (msg : string).

(** [args] is os.Args; [lower] is strings.ToLower. *)
Definition main (lower : string → string) (config : result string Config) (args : list string) : mesh_command :=
  match args with
  | _ :: arg :: rest =>
      let cmd := lower arg in
      if bool_decide (cmd = "init") then RunInit
      else if bool_decide (cmd = "join") then RunJoin rest
      else match config with
           | Err msg => Fatal msg
           | Ok c =>
               if bool_decide (cmd = "proxy") then RunProxy c
               else if bool_decide (cmd = "admin") then RunAdmin c
               else if bool_decide (cmd ∈ ["proxy+admin"; "standalone"; "hybrid"]) then RunHybrid c
               else Usage
           end
  | _ => Usage
  end.

Definition runHybrid (c : Config) : option error := Some (OtherError "hybrid mode not implemented").

(** GetAllowList and Close of the server (pkg/admin/server.go): a server that
    is nil has nothing to close, the others close their store. *)
Definition GetAllowList {DB} (s : Server DB) : AllowList := acl s.
Definition Server_Close {DB} (close : DB → option error) (s : option (option (option DB)))
    : option (option (option DB)) * option error :=
  match s with
  | None => (None, None)
  | Some store => let '(store, err) := Store_Close close store in (Some store, err)
  end.

(** OutboundIP of pkg/admin/server.go has the text of the one of pkg/autoip. *)
Definition Server_OutboundIP {W} : (string → string → prog W (result error local_addr)) → prog W (result error string) :=
  OutboundIP.

(** ** mesh admin (cmd/mesh/app_relay.go, pkg/mesh/relay.go) *)

(** A relay: the id of its host and the addresses the host announces. *)
Record Relay := { rl_ID : string; rl_Addrs : list string }.

Section Relay.
Context `{!Libp2pText} {K : Type}.
(** libp2p.New with the key: the id of the host. *)
Context (new_host : K → result error string).

(** ma.StringCast panics on what is no multiaddress. *)
Fixpoint StringCasts (l : list string) : exits (list string) :=
  match l with
  | [] => Returned []
  | a :: l' =>
      match new_multiaddr a with
      | Err msg => Exited msg
      | Ok m => match StringCasts l' with Exited msg => Exited msg | Returned ms => Returned (m :: ms) end
      end
  end.

(** NewRelay, which always has public addresses and a gate here. *)
Definition NewRelay (key : K) (publicAddress : list string) (relayPort : Z) : exits (result error Relay) :=
  match StringCasts ((λ a, "/ip4/" +:+ a +:+ "/udp/" +:+ itoa relayPort +:+ "/quic-v1") <$> publicAddress) with
  | Exited msg => Exited msg
  | Returned addrs =>
      match new_host key with
      | Err e => Returned (Err e)
      | Ok id => Returned (Ok {| rl_ID := id; rl_Addrs := addrs |})
      end
  end.

Definition adminDBPath (env : string) : string :=
  let p := trim_space env in if bool_decide (p ≠ "") then p else "admin.jkv".

Context {DB : Type} `{!Badger DB}.

(** runAdminAndRelay: nothing without a public address, or the server and
    the relay that run; the gate of the relay is the allow list of the
    server.  [magic], [acl0] and [db] are what NewServer makes and opens. *)
Definition runAdminAndRelay (config : Config) (found : result error AddressDiscovery)
    (key : result error K) (magic : result error EncryptionKey) (acl0 : AllowList) (db : result error DB)
    : exits (result error (option (Server DB * Relay))) :=
  let fatal e := Exited ("Could not initialize relay service. Err:" +:+ error_string e +:+ str1 newline) in
  match key with
  | Err e => Returned (Err e)
  | Ok key =>
      let discovered := discoverPublicAddress found config in
      if bool_decide (discovered = "") then Returned (Ok None)
      else
        match magic, db with
        | Err e, _ => fatal e
        | Ok _, Err e => fatal e
        | Ok magic, Ok db =>
            let server := WithAdvertiseURL config.(cf_Admin).(ac_Address)
              (NewServer config.(cf_Admin).(ac_Secret) "" acl0 db magic) in
            match NewRelay key [discovered] config.(cf_Admin).(RelayPort) with
            | Exited msg => Exited msg
            | Returned (Err e) => fatal e
            | Returned (Ok relay) =>
                Returned (Ok (Some (WithRelayAddresses
                  (Relay_GetAddresses relay.(rl_Addrs) relay.(rl_ID)) server, relay)))
            end
        end
  end.
End Relay.
