(* ===== verification/InitConfig.v ===== *)
(** * InitConfig: what `mesh init` writes is what the other commands load.

    defaultConfigYAML (cmd/mesh/app_init.go) makes the text of config.yaml,
    LoadConfig (pkg/core/config.go) reads it.  The file is followed from the
    form to `mesh join` and to the server that `mesh admin` starts on it. *)
From Stdlib Require Import Ascii String.
From S2P Require Import Prelude GoStrings Json Durations Api JsonKV AllowList MagicLink Auth Mux AdminServer.
From S2P Require Import AdminAccess AdminRegistry AdminInvites ModelDex JsonClient ApiClient Proxy Config Streams.
From S2P Require Import YamlDoc Service Join Init Commands.

(** ** The document of `mesh init` *)

Definition init_lines (s : installSettings) : list yline := [
  LTop "proxy";
  LComment 2 " The listen address for the Ollama proxy endpoint";
  LField "listen" (Quoted (is_ProxyListen s));
  LComment 2 " The version of ollama to report as";
  LField "version" (Quoted (is_OllamaVersion s));
  LBlank;
  LTop "mesh";
  LField "name" (Quoted (is_MeshName s));
  LComment 2 " Admin (Mesh Authentication Controller) API Path and secret";
  LComment 2 "  This points at a server that controls access to the mesh for member nodes";
  LComment 2 "";
  LComment 2 "  admin_address - HTTP(S) endpoint proxies use to register.";
  LComment 2 "                  The admin node must be hosted publicly or exposed to the";
  LComment 2 "                  internet via port forwarding (TCP on admin_port).";
  LComment 2 "  admin_secret  - is the admin controller password";
  LComment 2 "  admin_port    - is the port the controller should bind to (if behind nat this is the port to forward to the server)";
  LField "admin_address" (Quoted (is_AdminAddress s));
  LField "admin_secret" (Quoted (is_AdminSecret s));
  LField "admin_port" (Int_ (is_AdminPort s));
  LField "relay_port" (Int_ (is_RelayPort s));
  LComment 2 " The public address the relay server should announce itself as";
  LComment 2 ("   When the server is directly on the internet this can be " +:+ dquote "" +:+ " and the public ip will be selected");
  LComment 2 "   IF the relay/controller is behind NAT with ports forwarded to it, this should be the address of the";
  LComment 2 "   router";
  LComment 2 "";
  LComment 2 ("    " +:+ dquote "auto" +:+ " - use an automatic scheme to determine your address");
  LComment 2 "";
  LField "public_address" (Quoted (is_PublicAddress s));
  LBlank;
  LComment 2 " The app port to bind to for our MESH network";
  LComment 2 "   for mesh proxy this can be set to zero";
  LComment 2 "   for mesh relay this must be set to a valid port number";
  LField "app_port" (Int_ (is_AppPort s));
  LComment 2 (" Force " +:+ dquote "mesh proxy" +:+ " to think it is behind NAT (for hole punching)");
  LField "force_private" (Word (bool_text (is_ForcePrivate s)));
  LComment 2 " Enable/Discover of other LOCAL mesh proxy instances using MDNS (On Local Lan)";
  LField "mdns_enabled" (Word (bool_text (is_MDNSEnabled s)));
  LBlank;
  LTop "providers";
  LItem "id" (Word (is_ProviderID s));
  LComment 4 " only ollama is supported currently";
  LMore "type" (Word (is_ProviderType s));
  LComment 4 " Base url of this server";
  LMore "base_url" (Quoted (is_ProviderURL s));
  LComment 4 " Controls how models are treated";
  LComment 4 " all       - all models that are known to";
  LComment 4 " pinned    - only currently loaded models are exported (prevents model thrashing)";
  LComment 4 " whitelist - only models in the whitelist (models:) are exported";
  LMore "model_discovery" (Word (is_ModelDiscovery s));
  LMore "models" Null_].

(** The settings that the text carries as they are: printable texts, and a
    provider whose id and kind need no quotes. *)
Definition name_ok (s : string) : bool := word_ok s && bool_decide (s ∉ ["true"; "false"]).
Definition settings_ok (s : installSettings) : bool :=
  forallb printable [is_ProxyListen s; is_OllamaVersion s; is_MeshName s; is_AdminAddress s; is_AdminSecret s;
                     is_PublicAddress s; is_ProviderURL s]
  && forallb name_ok [is_ProviderID s; is_ProviderType s; is_ModelDiscovery s]
  && forallb (λ n, bool_decide (0 ≤ n ≤ 65535)%Z) [is_AdminPort s; is_RelayPort s; is_AppPort s].

(** What is read from it: the address, the secret and the ports of the
    administration and the port of the node are under keys without a tag. *)
Definition init_config (s : installSettings) : Config := {|
  Listen := is_ProxyListen s;
  cf_Admin := cf_Admin config_zero;
  cf_Mesh := {| me_Name := is_MeshName s; me_Address := ""; me_Secret := ""; me_MeshId := "";
                me_PublicAddress := is_PublicAddress s; Port := 0; ForcePrivate := is_ForcePrivate s;
                MDNSEnabled := is_MDNSEnabled s |};
  Providers := [ {| pv_ID := is_ProviderID s; pv_Type := is_ProviderType s; pv_BaseURL := is_ProviderURL s;
                    pv_Token := ""; pv_Private := false; pv_Discovery := is_ModelDiscovery s; pv_Models := [] |} ] |}.

Lemma init_text quote s :
  (∀ x, printable x = true → quote x = dquote x) → settings_ok s = true →
  defaultConfigYAML quote s = lines (line_text <$> init_lines s).
Proof.
  intros Hq. unfold settings_ok. cbn [forallb]. rewrite !andb_true_iff. intros Hs. destruct_and! Hs.
  unfold defaultConfigYAML. rewrite !Hq by done. reflexivity.
Qed.

Lemma init_lines_ok s : settings_ok s = true → forallb line_ok (init_lines s) = true.
Proof.
  unfold settings_ok, name_ok. cbn [forallb]. rewrite !andb_true_iff, !bool_decide_eq_true. intros Hs. destruct_and! Hs.
  unfold init_lines. cbn [forallb line_ok scalar_ok].
  repeat match goal with
    | |- _ && _ = true => apply andb_true_iff; split
    | |- bool_decide _ = true => apply bool_decide_eq_true; lia
    | |- word_ok (bool_text ?b) = true => by destruct b
    | |- _ = true => assumption || by vm_compute
    end.
Qed.

Lemma as_string_word s old : name_ok s = true → as_string (Word s) old = Some s.
Proof. unfold name_ok. rewrite andb_true_iff, bool_decide_eq_true. intros [_ Hs]. cbn. by rewrite bool_decide_false. Qed.
Lemma as_bool_text b old : as_bool (Word (bool_text b)) old = Some b.
Proof. by destruct b. Qed.

Lemma init_document s : settings_ok s = true → ∃ doc,
  group (init_lines s) = Some doc ∧ document_ok doc = true ∧ decode_config doc config_zero = Some (init_config s).
Proof.
  unfold settings_ok. cbn [forallb]. rewrite !andb_true_iff. intros Hs. destruct_and! Hs.
  eexists. split; [reflexivity|]. split; [by vm_compute|].
  lazy -[as_string as_bool as_int bool_text]. rewrite !as_bool_text, !as_string_word by done. reflexivity.
Qed.

(** ** What the other commands find *)

Section Installed.
Context `{!YamlText} `{!YamlBlocks}.

Lemma load_init quote hostname s :
  (∀ x, printable x = true → quote x = dquote x) → settings_ok s = true →
  LoadConfig hostname (Ok (defaultConfigYAML quote s)) = Ok (applyConfigDefaults hostname (init_config s)).
Proof.
  intros Hq Hs. destruct (init_document s Hs) as (doc & Hgroup & Hdoc & Hdec).
  unfold LoadConfig. rewrite (init_text _ _ Hq Hs).
  by rewrite (yaml_reads _ _ _ (init_lines_ok s Hs) Hgroup Hdoc Hdec).
Qed.

(** Loading applies the defaults once and for all. *)
Lemma defaults_idem hostname c :
  applyConfigDefaults hostname (applyConfigDefaults hostname c) = applyConfigDefaults hostname c.
Proof.
  destruct c as [l [aa as_ ap ar apub] [n a se i p po f m] ps].
  unfold applyConfigDefaults. cbn [Listen cf_Admin cf_Mesh ac_Address ac_Secret AdminPort RelayPort ac_PublicAddress
    me_Name me_Address me_Secret me_MeshId me_PublicAddress Port ForcePrivate MDNSEnabled Providers].
  do 2 f_equal; repeat case_bool_decide; done || congruence || (unfold DefaultRelayPort, DefaultAdminPort in *; lia).
Qed.

Context {K : Type} (Unmarshal : string → result error K) (Marshal : K → result error string).
Context (generate : string → result error K) (write_err : string → option error).

(** C32: From `mesh init` to a node that can start.  When init reports success
    on settings whose texts are printable ASCII and whose provider has an id,
    a type and a discovery that are plain words (a lower-case letter, then
    letters, digits, and any of _ - . ), config.yaml loads, as the listen
    address, the name, the visibility and the provider of the form, with the
    defaults.  What the form asked for the administration and the port of
    the node is not read: the secret and the address are empty, the ports are
    the defaults, and `mesh proxy` and `mesh admin` refuse the file for its
    missing address.  After a redemption whose server has an address, `mesh
    join` writes a file they accept, with the mesh, the id and the secret of
    the answer, and everything else as init left it: still no secret for the
    administration. *)
Theorem install_then_join quote hostname overwrite form rand fs fs' s :
  (∀ x, printable x = true → quote x = dquote x) → settings_ok s = true →
  run (initializeNewInstall Unmarshal Marshal quote generate write_err overwrite form rand) fs = (fs', InitReady s) →
  ∃ text c, fs' !! defaultConfigPath = Some text ∧ LoadConfig hostname (Ok text) = Ok c ∧
    c = applyConfigDefaults hostname (init_config s) ∧
    cf_Admin c = {| ac_Address := ""; ac_Secret := ""; AdminPort := DefaultAdminPort; RelayPort := DefaultRelayPort;
                    ac_PublicAddress := "" |} ∧ Port (cf_Mesh c) = 0%Z ∧
    MustLoadConfig hostname (Ok text) = Err "Mesh.Address must be set in config.yaml" ∧
    ∀ resp data, yaml_encode (configFromInvite hostname resp (Some c)) = Ok data → trim_space resp.(rr_MeshServer) ≠ "" →
      MustLoadConfig hostname (Ok data) = Ok (with_mesh (λ m, {| me_Name := me_Name m;
        me_Address := trim_space resp.(rr_MeshServer); me_Secret := resp.(rr_MeshSecret); me_MeshId := resp.(rr_MeshId);
        me_PublicAddress := me_PublicAddress m; Port := Port m; ForcePrivate := ForcePrivate m;
        MDNSEnabled := MDNSEnabled m |}) c).
Proof.
  intros Hq Hs Hrun. apply run_init in Hrun as (_ & Hfile & _).
  exists (defaultConfigYAML quote s), (applyConfigDefaults hostname (init_config s)).
  pose proof (load_init quote hostname s Hq Hs) as Hload.
  split; [done|]. split; [done|]. split_and!; try done.
  { unfold MustLoadConfig. by rewrite Hload. }
  intros resp data Henc Haddr. unfold MustLoadConfig, LoadConfig. rewrite (yaml_decode_encode _ _ Henc).
  pose proof (defaults_idem hostname (init_config s)) as Hidem.
  set (c := applyConfigDefaults hostname (init_config s)) in *.
  assert (∀ f, (∀ m, me_Name (f m) = me_Name m ∧ Port (f m) = Port m) →
    (∀ m n p, f {| me_Name := n; me_Address := me_Address m; me_Secret := me_Secret m; me_MeshId := me_MeshId m;
       me_PublicAddress := me_PublicAddress m; Port := p; ForcePrivate := ForcePrivate m; MDNSEnabled := MDNSEnabled m |} =
      {| me_Name := n; me_Address := me_Address (f m); me_Secret := me_Secret (f m); me_MeshId := me_MeshId (f m);
       me_PublicAddress := me_PublicAddress (f m); Port := p; ForcePrivate := ForcePrivate (f m);
       MDNSEnabled := MDNSEnabled (f m) |}) →
    applyConfigDefaults hostname (with_mesh f c) = with_mesh f (applyConfigDefaults hostname c)) as Hcomm.
  { intros f Hf Hf'. destruct c as [l a m ps]. unfold applyConfigDefaults, with_mesh.
    cbn [Listen cf_Admin cf_Mesh Providers]. destruct (Hf m) as [-> ->]. by rewrite Hf'. }
  unfold configFromInvite. cbn [default]. rewrite Hcomm by done. rewrite Hidem.
  by rewrite bool_decide_false.
Qed.
End Installed.

(** ** The administration without a secret *)

(** A bearer token of one no-break space: net/http trims only spaces and tabs
    of a header's value, strings.TrimSpace every Unicode blank. *)
Definition blank_bearer : string := "Bearer " +:+ String "194" (String "160" "").

Section Open.
Context {DB : Type} `{!Badger DB} `{!JsonText} `{!TimeText} `{!Aead} `{!Hashes} `{!MapOrder} `{!Libp2pText} {K : Type}.
Context (new_host : K → result error string).

Lemma admin_server_secret config found key magic acl0 (db : result error DB) srv relay :
  runAdminAndRelay new_host config found key magic acl0 db = Returned (Ok (Some (srv, relay))) →
  adminKey srv = ac_Secret (cf_Admin config).
Proof.
  unfold runAdminAndRelay. destruct key as [key|]; [|done]. case_bool_decide; [done|].
  destruct magic as [magic|]; [|done]. destruct db as [db|]; [|done].
  destruct (NewRelay _ _ _ _) as [[r|]|]; [|done..]. by intros [= <- <-].
Qed.

Lemma blank_is_admin magic now :
  DoAuth (server_auth "" magic now) blank_bearer = (Some {| User := "admin"; Group := "admin" |}, StatusOK).
Proof.
  unfold DoAuth. change (trim_space (drop_str (String.length bearer) blank_bearer)) with "".
  by change (_ && _) with true.
Qed.

(** C18: Without a secret everybody is the administrator.  `mesh admin` starts
    on a configuration whose admin.secret is empty, as it is after `mesh init`
    and `mesh join`; the server it starts then runs every handler of the
    administration, as the administrator, for a request whose bearer token is
    a blank. *)
Theorem admin_without_secret_open config found key magic acl0 (db : result error DB) srv relay fn vars env rq :
  ac_Secret (cf_Admin config) = "" →
  runAdminAndRelay new_host config found key magic acl0 db = Returned (Ok (Some (srv, relay))) →
  route routes rq.(rq_method) rq.(rq_path) = Some (authenticated (asAdmin fn), vars) →
  rq.(rq_authorization) = blank_bearer →
  run (ServeHTTP env rq) srv =
    let '(srv', r) := run (fn env (rpc_of rq vars (Some {| User := "admin"; Group := "admin" |}))) srv in
    (srv', respond r).
Proof.
  intros Hsecret Hrun Hroute Hauth. apply admin_server_secret in Hrun. rewrite Hsecret in Hrun.
  unfold ServeHTTP. rewrite Hroute.
  by rewrite (authenticated_accepted _ _ _ _ _ {| User := "admin"; Group := "admin" |})
    by (unfold auth_of; rewrite Hrun, Hauth; apply blank_is_admin).
Qed.
End Open.

(** ** Witness *)

Module InitConfigEx.
Export YamlCodec.
Definition named : form_values :=
  let f := fv_settings form_defaults in {|
    fv_settings := {|
      is_NodeKeyPath := is_NodeKeyPath f; is_RelayKeyPath := is_RelayKeyPath f; is_ConfigPath := is_ConfigPath f;
      is_ProxyListen := is_ProxyListen f; is_OllamaVersion := is_OllamaVersion f;
      is_MeshName := "my " +:+ dquote "box"; is_AdminAddress := is_AdminAddress f; is_AdminSecret := "s3cret";
      is_AdminPort := 0; is_RelayPort := 0; is_PublicAddress := is_PublicAddress f; is_AppPort := 0;
      is_ForcePrivate := is_ForcePrivate f; is_MDNSEnabled := is_MDNSEnabled f; is_ProviderID := is_ProviderID f;
      is_ProviderType := is_ProviderType f; is_ProviderURL := is_ProviderURL f;
      is_ModelDiscovery := is_ModelDiscovery f |};
    fv_adminPort := "4102"; fv_relayPort := "4101"; fv_appPort := "4100"; fv_write := true |}.
Definition settings : installSettings := with_ports_secret named "s3cret".
Definition installed : files * init_result :=
  run (initializeNewInstall (K := string) Ok Ok dquote (λ _, Ok "key") (λ _, None) (Answered true) (Filled named) None) ∅.
Definition redeemed : RedeemInviteResponse :=
  {| rr_MeshId := "default"; rr_MeshSecret := "hunter2"; rr_MeshServer := "http://mesh.example:4002" |}.
End InitConfigEx.
Import InitConfigEx.

Lemma install_then_join_witness :
  ∃ text c data, LoadConfig "box" (Ok text) = Ok c ∧ ac_Secret (cf_Admin c) = "" ∧
    yaml_encode (configFromInvite "box" redeemed (Some c)) = Ok data ∧
    ∃ c', MustLoadConfig "box" (Ok data) = Ok c' ∧ me_Name (cf_Mesh c') = "my " +:+ dquote "box" ∧
      me_Secret (cf_Mesh c') = "hunter2" ∧ ac_Secret (cf_Admin c') = "".
Proof.
  destruct (install_then_join (K := string) Ok Ok (λ _, Ok "key") (λ _, None) dquote "box" (Answered true)
    (Filled named) None ∅ (fst installed) settings) as (text & c & Hfile & Hload & Hc & Hadmin & _ & _ & Hjoin).
  - done.
  - by vm_compute.
  - by vm_compute.
  - exists text, c, (config_text (configFromInvite "box" redeemed (Some c))). split; [done|]. split; [by rewrite Hadmin|].
    assert (yaml_encode (configFromInvite "box" redeemed (Some c)) =
      Ok (config_text (configFromInvite "box" redeemed (Some c)))) as Henc by (rewrite Hc; by vm_compute).
    split; [done|]. eexists. split; [by apply (Hjoin redeemed _ Henc)|]. rewrite Hc. by vm_compute.
Defined.

Import ServerEx StreamEx.

Module OpenEx.
Definition start : exits (result error (option (Server mem * Relay))) :=
  runAdminAndRelay (K := string) Ok (defaultJoinConfig "box")
    (Ok {| Public := "203.0.113.7"; Outbound := "203.0.113.7" |}) (Ok "relay") (Ok key32) acl0 (Ok (Mem ∅ false)).
Definition list_nodes : request :=
  {| rq_method := "GET"; rq_path := ["api"; "v1"; "admin"; "nodes"]; rq_authorization := blank_bearer; rq_body := None |}.
End OpenEx.
Import OpenEx.

Lemma admin_without_secret_open_witness :
  match start with
  | Returned (Ok (Some (srv, _))) => r_status (run (ServeHTTP env0 list_nodes) srv).2 = StatusOK
  | _ => False
  end.
Proof.
  destruct start as [[[[srv relay]|]|]|] eqn:Hstart; [|by vm_compute in Hstart..].
  rewrite (admin_without_secret_open (K := string) Ok (defaultJoinConfig "box") _ _ _ _ _ _ _ adminListNodes [] env0 list_nodes eq_refl Hstart eq_refl eq_refl).
  vm_compute in Hstart. injection Hstart as <- <-. by vm_compute.
Defined.
