(* ===== verification/AdminCli.v ===== *)
(** * AdminCli: the administration command line (cmd/admincli).

    Every action is a program on the world of the server, that ends with the
    text it prints and its error.  Tables are lists of rows of cells (the
    tabwriter only aligns them). *)
From Stdlib Require Import Ascii String.
From S2P Require Import Prelude GoStrings Json Durations Api JsonKV AllowList MagicLink Auth Mux AdminServer.
From S2P Require Import AdminAccess AdminRegistry AdminInvites JsonClient ApiClient EndToEnd.

(** The flags and arguments of a command; the lifetime is a duration. *)
Record command := {
  fl_addr : string; fl_token : string; fl_mesh : string; fl_name : string; fl_id : string;
  fl_once : bool; fl_lifetime : Z; cmd_args : list string }.

Inductive output : Type := Line (s : string) | Row (cells : list string).
(** The output of an action and its error. *)
Definition action_result : Type := list output * option error.

Definition requireToken (c : command) : option error :=
  if bool_decide (trim_space c.(fl_token) = "")
  then Some (OtherError "--token is required (or set SPEAKEASY_ADMIN_TOKEN)") else None.
Definition newAPI (c : command) : Client := NewClient (trim_right_byte slash c.(fl_addr)) c.(fl_token).
Definition meshClient (c : command) : MeshClient := Client_Mesh (newAPI c) c.(fl_mesh).
Definition requireArg (c : command) (name : string) : result error string :=
  let v := trim_space (default "" (head c.(cmd_args))) in
  if bool_decide (v = "") then Err (OtherError (name +:+ " is required")) else Ok v.

(** client.go MeshList *)
Definition Client_MeshList (c : Client) : list (string * string) := [("default", "Default mesh")].

Section Actions.
Context {W : Type} (rt : Doer W) `{!UintOfFloat} `{!JsonText} `{!TimeText} `{!NewRequestText} `{!URLText}.
(** Time.Format(time.RFC3339) *)
Context (rfc3339 : Z → string).

Definition invite_request (c : command) : CreateInviteRequest :=
  {| ci_Name := c.(fl_name); ci_LifetimeSec := uint64_of_float (Seconds c.(fl_lifetime)); ci_OneTime := c.(fl_once);
     ci_MeshId := c.(fl_mesh) |}.
Definition adminInvite (c : command) : prog W action_result :=
  let* resp := AdminClient_CreateInvite rt (newAPI c) (invite_request c) in
  Ret (match resp with
       | Err e => ([], Some e)
       | Ok resp => ([Line ("invite id:   " +:+ resp.(ir_InviteId));
                      Line ("invite link: " +:+ resp.(ir_InviteLink))], None)
       end).

(** An action on the argument [name], that prints [word] and the argument. *)
Definition on_arg (c : command) (name word : string) (act : string → prog W (option error)) : prog W action_result :=
  match requireArg c name with
  | Err e => Ret ([], Some e)
  | Ok id =>
      let* err := act id in
      Ret (match err with Some e => ([], Some e) | None => ([Line (word +:+ id)], None) end)
  end.

Definition adminDeleteInvite (c : command) : prog W action_result :=
  on_arg c "invite id" "deleted invite " (AdminClient_DeleteInvite rt (newAPI c)).
Definition adminKick (c : command) : prog W action_result :=
  on_arg c "peer id" "kicked " (AdminClient_KickPeer rt (newAPI c)).
Definition nodeUnregister (c : command) : prog W action_result :=
  on_arg c "peer id" "unregistered " (MeshClient_Unregister rt (meshClient c)).

Definition listMeshes (c : command) : prog W action_result :=
  Ret (Row ["ID"; "DESCRIPTION"] :: ((λ m, Row [m.1; m.2]) <$> Client_MeshList (newAPI c)), None).

Definition redeemInvite (c : command) : prog W action_result :=
  match requireArg c "invite url" with
  | Err e => Ret ([], Some e)
  | Ok link =>
      let* resp := RedeemInvite rt link
        {| ID := c.(fl_id); Name := c.(fl_name); LogicalTime := 0; LastUpdate := time_zero |} in
      Ret (match resp with
           | Err e => ([], Some e)
           | Ok resp => ([Line ("mesh id:     " +:+ resp.(rr_MeshId));
                          Line ("mesh secret: " +:+ resp.(rr_MeshSecret));
                          Line ("server:      " +:+ resp.(rr_MeshServer))], None)
           end)
  end.

Definition nodeList (c : command) : prog W action_result :=
  let* nodes := MeshClient_GetPeers rt (meshClient c) in
  Ret (match nodes with
       | Err e => ([], Some e)
       | Ok nodes => (Row ["NAME"; "ID"; "UPDATED"] ::
           ((λ n, Row [n.(Name); n.(ID);
              if bool_decide (n.(LastUpdate) ≠ time_zero) then rfc3339 n.(LastUpdate) else ""]) <$> nodes), None)
       end).

(** The body of the action is commented out. *)
Definition nodeAuthorize (c : command) : prog W action_result := Ret ([], None).

Definition nodeRegister (c : command) : prog W action_result :=
  let* r := MeshClient_Register rt (meshClient c) c.(fl_name) c.(fl_id) in
  Ret (match r with
       | Err e => ([], Some e)
       | Ok _ => ([Line ("registered " +:+ c.(fl_name) +:+ " (" +:+ c.(fl_id) +:+ ")")], None)
       end).

Definition nodeRelay (c : command) : prog W action_result :=
  let* r := MeshClient_GetRelay rt (meshClient c) in
  Ret (match r with
       | Err e => ([], Some e)
       | Ok (addrs, updated, logical) =>
           ((if bool_decide (updated ≠ time_zero) then [Line ("updated: " +:+ rfc3339 updated)] else [])
            ++ Line ("logical: " +:+ itoa logical) :: (Line <$> addrs), None)
       end).

(** The commands and what they require before the action. *)
Definition with_token (c : command) (action : prog W action_result) : prog W action_result :=
  match requireToken c with Some e => Ret ([], Some e) | None => action end.

Definition newCommand (path : list string) (c : command) : option (prog W action_result) :=
  match path with
  | ["node"; sub] =>
      with_token c <$>
        (if bool_decide (sub ∈ ["list"; "ls"; "peers"]) then Some (nodeList c)
         else if bool_decide (sub ∈ ["authorize"; "auth"]) then Some (nodeAuthorize c)
         else if bool_decide (sub = "register") then Some (nodeRegister c)
         else if bool_decide (sub ∈ ["unregister"; "rm"]) then Some (nodeUnregister c)
         else if bool_decide (sub ∈ ["relay"; "address"]) then Some (nodeRelay c) else None)
  | ["admin"; sub] =>
      with_token c <$>
        (if bool_decide (sub = "invite") then Some (adminInvite c)
         else if bool_decide (sub = "delete-invite") then Some (adminDeleteInvite c)
         else if bool_decide (sub = "kick") then Some (adminKick c) else None)
  | ["redeem"] => Some (redeemInvite c)
  | ["meshes"] => Some (with_token c (listMeshes c))
  | _ => None
  end.
End Actions.
