(* ===== verification/AdminCommands.v ===== *)
(** * AdminCommands: the tables of the administration command line (cmd/admincli).

    adminCommand, nodeCommand and newCommand build a tree of commands for the
    command line library; the tree is data here, with the actions of AdminCli.
    How the library walks it is [AdminCli.newCommand]; the lemmas show that
    each name and alias of the tables selects its own action there. *)
From Stdlib Require Import Ascii String.
From S2P Require Import Prelude GoStrings Json Durations Api JsonKV AllowList MagicLink Auth Mux AdminServer.
From S2P Require Import AdminAccess AdminRegistry AdminInvites JsonClient ApiClient EndToEnd AdminCli.

Inductive flag_kind : Type := StringFlag | DurationFlag | BoolFlag.
Record flag := { f_kind : flag_kind; f_name : string; f_aliases : list string; f_usage : string;
                 f_value : string; f_sources : list string; f_required : bool }.
Definition flag_of (k : flag_kind) (name usage : string) (required : bool) : flag :=
  {| f_kind := k; f_name := name; f_aliases := []; f_usage := usage; f_value := ""; f_sources := [];
     f_required := required |}.

(** A command and its subcommands; [A] is the type of the actions. *)
Inductive cli_command (A : Type) : Type :=
  Cmd (Name : string) (Aliases : list string) (Usage ArgsUsage : string) (Before : option (command → option error))
      (Flags : list flag) (Action : option A) (Commands : list (cli_command A)).
Arguments Cmd {A}.
Definition names {A} (c : cli_command A) : list string :=
  let 'Cmd name aliases _ _ _ _ _ _ := c in name :: aliases.
Definition before {A} (c : cli_command A) : option (command → option error) :=
  let 'Cmd _ _ _ _ b _ _ _ := c in b.
Definition action {A} (c : cli_command A) : option A := let 'Cmd _ _ _ _ _ _ a _ := c in a.
Definition commands {A} (c : cli_command A) : list (cli_command A) := let 'Cmd _ _ _ _ _ _ _ cs := c in cs.

Section Tables.
Context {W : Type} (rt : Doer W) `{!UintOfFloat} `{!JsonText} `{!TimeText} `{!NewRequestText} `{!URLText}.
Context (rfc3339 : Z → string).
Local Abbreviation cmd := (cli_command (command → prog W action_result)).

Definition adminCommand : cmd := Cmd "admin" [] "Admin operations" "" (Some requireToken) [] None [
  Cmd "invite" [] "Create a mesh invite link" "" None [
    flag_of StringFlag "name" "name attached to invited nodes" false;
    flag_of DurationFlag "lifetime" "invite lifetime (0 = forever)" false;
    flag_of BoolFlag "once" "expire after first redeem" false] (Some (adminInvite rt)) [];
  Cmd "delete-invite" [] "Delete an invite by id" "INVITE_ID" None [] (Some (adminDeleteInvite rt)) [];
  Cmd "kick" [] "Kick a peer from the mesh" "PEER_ID" None [] (Some (adminKick rt)) []].

Definition nodeCommand : cmd := Cmd "node" [] "Mesh node operations" "" (Some requireToken) [] None [
  Cmd "list" ["ls"; "peers"] "List registered mesh nodes" "" None [] (Some (nodeList rt rfc3339)) [];
  Cmd "authorize" ["auth"] "Authorize a peer ID onto the mesh ACL" "PEER_ID" None [] (Some nodeAuthorize) [];
  Cmd "register" [] "Register a named node" "" None [
    flag_of StringFlag "name" "node name" true;
    flag_of StringFlag "id" "node peer id" true] (Some (nodeRegister rt)) [];
  Cmd "unregister" ["rm"] "Unregister a node" "PEER_ID" None [] (Some (nodeUnregister rt)) [];
  Cmd "relay" ["address"] "Show mesh relay multiaddrs" "" None [] (Some (nodeRelay rt rfc3339)) []].

Definition command_tree : cmd := Cmd "admincli" [] "Speakeasy admin and node CLI" "" None [
    {| f_kind := StringFlag; f_name := "addr"; f_aliases := ["a"]; f_usage := "admin HTTP address";
       f_value := "http://127.0.0.1:4002"; f_sources := ["SPEAKEASY_ADMIN_ADDR"]; f_required := false |};
    {| f_kind := StringFlag; f_name := "token"; f_aliases := ["t"]; f_usage := "admin bearer token";
       f_value := ""; f_sources := ["SPEAKEASY_ADMIN_TOKEN"]; f_required := false |};
    {| f_kind := StringFlag; f_name := "mesh"; f_aliases := ["m"]; f_usage := "mesh id";
       f_value := "default"; f_sources := []; f_required := false |}] None [
  nodeCommand;
  adminCommand;
  Cmd "redeem" [] "Redeem an invite link (public, no admin token)" "INVITE_URL" None [
    flag_of StringFlag "id" "node peer id" true;
    flag_of StringFlag "name" "node name" false] (Some (redeemInvite rt)) [];
  Cmd "meshes" [] "List meshes this token can access" "" (Some requireToken) [] (Some (listMeshes)) []].

(** ** The tables and the walk agree *)

(** The commands that a path of names selects: at each level the one with the
    name or alias. *)
Inductive selects : cmd → list string → list cmd → Prop :=
  | selects_here c : selects c [] []
  | selects_sub c name path sub subs :
      sub ∈ commands c → name ∈ names sub → selects sub path subs → selects c (name :: path) (sub :: subs).

(** Every Before on the way, then the action of the last command. *)
Definition run_before (c : cmd) (cl : command) (k : prog W action_result) : prog W action_result :=
  match before c with
  | Some b => match b cl with Some e => Ret ([], Some e) | None => k end
  | None => k
  end.
Fixpoint run_selected (cl : command) (cs : list cmd) : option (prog W action_result) :=
  match cs with
  | [] => None
  | [c] => (λ a, run_before c cl (a cl)) <$> action c
  | c :: cs => run_before c cl <$> run_selected cl cs
  end.

(** At every level of the tree a name belongs to one command. *)
Definition level_ok (cs : list cmd) : Prop := NoDup (cs ≫= names).

Lemma names_are_unique :
  level_ok (commands command_tree) ∧ level_ok (commands nodeCommand) ∧ level_ok (commands adminCommand).
Proof. split_and!; apply (bool_decide_unpack _); by vm_compute. Qed.

Ltac pick_row :=
  repeat match goal with
  | H : _ ∈ _ :: _ |- _ => apply elem_of_cons in H as [->|H]
  | H : _ ∈ [] |- _ => by apply not_elem_of_nil in H
  end.
(** The last command of a path: it has no subcommands. *)
Ltac last_row :=
  match goal with H : selects (Cmd _ _ _ _ _ _ _ _) _ _ |- _ => inversion H; subst; clear H end;
  [|match goal with H : _ ∈ commands (Cmd _ _ _ _ _ _ _ []) |- _ => by apply not_elem_of_nil in H end];
  match goal with H : run_selected _ _ = Some _ |- _ => injection H as <-; reflexivity end.

(** What a path of names selects is what the walk runs. *)
Lemma selected_actions path cs cl a :
  selects command_tree path cs → run_selected cl cs = Some a → newCommand rt rfc3339 path cl = Some a.
Proof.
  intros Hsel Hrun. inversion Hsel as [|c name path' sub subs Hsub Hname Hrest]; subst; [done|].
  cbn [commands command_tree] in Hsub. pick_row; cbn in Hname; pick_row; try last_row.
  all: inversion Hrest as [|c' name' path'' sub' subs' Hsub' Hname' Hrest']; subst; [done|].
  all: cbn [commands nodeCommand adminCommand] in Hsub'; pick_row; cbn in Hname'; pick_row; last_row.
Qed.

(** What the walk runs is selected by the path. *)
Lemma newCommand_heads path cl a :
  newCommand rt rfc3339 path cl = Some a →
  path = ["redeem"] ∨ path = ["meshes"] ∨ ∃ sub, path = ["node"; sub] ∨ path = ["admin"; sub].
Proof. unfold newCommand. intros Hrun. repeat case_match; try done; subst; eauto 6. Qed.

(** Rows by their numbers. *)
Lemma selects_one i name sub :
  commands command_tree !! i = Some sub → name ∈ names sub → selects command_tree [name] [sub].
Proof. intros Hsub ?. apply selects_sub; [by eapply list_elem_of_lookup_2|done|apply selects_here]. Qed.
Lemma selects_two i j name name' sub sub' :
  commands command_tree !! i = Some sub → name ∈ names sub →
  commands sub !! j = Some sub' → name' ∈ names sub' →
  selects command_tree [name; name'] [sub; sub'].
Proof.
  intros Hi ? Hj ?. do 2 (eapply selects_sub; [by eapply list_elem_of_lookup_2|done|]). apply selects_here.
Qed.

Ltac names := cbn [names nodeCommand adminCommand]; set_solver.
Ltac sub_row i j Hrun := eexists; split; [by eapply (selects_two i j); [reflexivity|names|reflexivity|names]|exact Hrun].

Lemma actions_selected path cl a :
  newCommand rt rfc3339 path cl = Some a → ∃ cs, selects command_tree path cs ∧ run_selected cl cs = Some a.
Proof.
  intros Hrun. destruct (newCommand_heads _ _ _ Hrun) as [-> |[-> |(sub & [-> | ->])]]; cbn [newCommand] in Hrun.
  - eexists. split; [by eapply (selects_one 2); [reflexivity|names]|exact Hrun].
  - eexists. split; [by eapply (selects_one 3); [reflexivity|names]|exact Hrun].
  - case_bool_decide; [sub_row 0 0 Hrun|]. case_bool_decide; [sub_row 0 1 Hrun|].
    case_bool_decide; [sub_row 0 2 Hrun|]. case_bool_decide; [sub_row 0 3 Hrun|].
    by case_bool_decide; [sub_row 0 4 Hrun|].
  - case_bool_decide; [sub_row 1 0 Hrun|]. case_bool_decide; [sub_row 1 1 Hrun|].
    by case_bool_decide; [sub_row 1 2 Hrun|].
Qed.

(** The tables of the command line and the walk agree: a path of names is
    run exactly when the tree has a command for it, and what runs is the
    action of that command after every Before on the way, so that every
    command of node and admin and the list of meshes asks for the token
    first, and redeem does not.  No name or alias is used twice at a level of
    the tree. *)
Theorem command_tree_runs (path : list string) (cl : command) (a : prog W action_result) :
  (newCommand rt rfc3339 path cl = Some a ↔ ∃ cs, selects command_tree path cs ∧ run_selected cl cs = Some a) ∧
  level_ok (commands command_tree) ∧ level_ok (commands nodeCommand) ∧ level_ok (commands adminCommand).
Proof.
  split; [|apply names_are_unique]. split; [apply actions_selected|].
  intros (cs & Hsel & Hrun). by eapply selected_actions.
Qed.
End Tables.

(** main: an error goes to the standard error and ends the program with 1. *)
Definition admincli_main (r : action_result) : list output * list string * Z :=
  match r.2 with None => (r.1, [], 0%Z) | Some e => (r.1, [error_string e], 1%Z) end.
