(* ===== verification/AdminWire.v ===== *)
(** * AdminWire: the administration command line against the server.

    The actions of AdminCli run over the wire of EndToEnd, so that what the
    administrator types, what the handler does and what is printed are one
    program; an invitation is followed from the command that creates it to
    the node that joined with it, and a kick to what the node can still do. *)
From Stdlib Require Import Ascii String.
From S2P Require Import Prelude GoStrings Json Durations Api JsonKV AllowList MagicLink Auth Mux UrlPath AdminServer.
From S2P Require Import AdminAccess AdminRegistry AdminInvites ModelDex JsonClient ApiClient EndToEnd.
From S2P Require Import Proxy Config Streams Service Join AdminCli.

Section Lifetime.
Context `{!UintOfFloat}.

(** What the expiry of an invitation is for a lifetime that is not negative. *)
Lemma lifetime_kept (cmd : command) t :
  let d := cmd.(fl_lifetime) in
  let expires := invite_expiry t (invite_request cmd).(ci_LifetimeSec) in
  (0 ≤ d < 2 ^ 63 →
   (d < Second → expires = 0) ∧
   (Second ≤ d → unix t + d / Second ≤ expires ≤ unix t + d / Second + 1) ∧
   (Second ≤ d → d mod Second = 0 ∨ d < 2 ^ 23 * Second → expires = unix t + d / Second))%Z.
Proof.
  intros d expires Hd. unfold expires. cbn [invite_request ci_LifetimeSec]. fold d.
  destruct (seconds_cut d Hd) as [Hcut Hexact]. set (l := uint64_of_float (Seconds d)) in *.
  assert (0 ≤ d / Second ≤ max_lifetime)%Z as Hs.
  { unfold Second, max_lifetime. split; [apply Z.div_pos; lia|]. apply Z.lt_succ_r, Z.div_lt_upper_bound; lia. }
  assert (l ≤ max_lifetime)%Z as Hmax.
  { destruct (decide (d / Second = max_lifetime)%Z) as [Heq|]; [|lia]. rewrite Hexact; [lia|]. by right; right. }
  split_and!.
  - intros Hlt. rewrite (Z.div_small d) in Hexact by lia. by rewrite Hexact by (right; left; lia).
  - intros Hge. assert (1 ≤ d / Second)%Z by (apply Z.div_le_lower_bound; unfold Second in *; lia).
    rewrite invite_expiry_exact by lia. lia.
  - intros Hge Hcase. assert (1 ≤ d / Second)%Z by (apply Z.div_le_lower_bound; unfold Second in *; lia).
    rewrite invite_expiry_exact by lia. rewrite Hexact; [done|]. destruct Hcase as [?|Hlt]; [by left|right; left].
    apply Z.div_lt_upper_bound; unfold Second in *; lia.
Qed.

(** The machine's answer to the seconds of a negative lifetime, when it wraps
    them: the product on the server wraps back. *)
Lemma wrapped_expiry t d :
  (- 2 ^ 63 ≤ d ≤ - Second → invite_expiry t (2 ^ 64 + Z.quot d Second) = unix t + Z.quot d Second)%Z.
Proof.
  intros Hd. set (q := Z.quot d Second).
  assert (- 9223372036 ≤ q ≤ -1)%Z as Hq by (unfold q, Second in *; Z.to_euclidean_division_equations; lia).
  clearbody q. unfold invite_expiry. rewrite bool_decide_true by lia.
  assert (int64 (2 ^ 64 + q) = q) as -> by (unfold int64; rewrite <-(Z.mod_unique_pos _ _ 1 (q + 2 ^ 63)); lia).
  rewrite int64_small by (unfold Second; lia). unfold unix, Second. rewrite Z.div_add by lia. done.
Qed.

Lemma negative_lifetime (cmd : command) t :
  let d := cmd.(fl_lifetime) in
  let expires := invite_expiry t (invite_request cmd).(ci_LifetimeSec) in
  (- 2 ^ 63 ≤ d < 0 →
   (- Second < d → expires = 0) ∧
   (d ≤ - Second → expires = invite_expiry t (uint64_out (Seconds d))) ∧
   (d ≤ - Second → uint64_out (Seconds d) = 2 ^ 64 + Z.quot d Second → expires = unix t + Z.quot d Second) ∧
   (d ≤ - Second → uint64_out (Seconds d) = 0 → expires = 0))%Z.
Proof.
  intros d expires Hd. unfold expires. cbn [invite_request ci_LifetimeSec]. fold d.
  rewrite (seconds_negative d Hd). split_and!.
  - intros Hs. by rewrite bool_decide_true.
  - intros Hs. by rewrite bool_decide_false by lia.
  - intros Hs Hout. rewrite bool_decide_false, Hout by lia. apply wrapped_expiry. lia.
  - intros Hs Hout. by rewrite bool_decide_false, Hout by lia.
Qed.
End Lifetime.

Section AdminWire.
Context {DB : Type} `{!Badger DB} `{!JsonText} `{!TimeText} `{!Aead} `{!Hashes} `{!MapOrder}
  `{!NewRequestText} `{!URLText} `{!BadgerLaws DB} `{!UintOfFloat}.
Context (rfc3339 : Z → string).
Implicit Types (s : Server DB) (env : Env).

(** The client's token is the admin secret of the server. *)
Definition admin_accepted env s (c : Client) : Prop :=
  ∃ user, DoAuth (server_auth s.(adminKey) s.(magicKey) (env.(now) 9)) (setAuth c)
            = (Some user, StatusOK) ∧ user.(Group) = "admin".

(** ** The routes of the administrator *)

Lemma route_create :
  route (routes (DB := DB)) "POST" ["api"; "v1"; "admin"; "invite"]
    = Some (authenticated (asAdmin adminCreateInviteLink), []).
Proof. find_route. Qed.
Lemma route_delete_node id :
  id ≠ "" → route (routes (DB := DB)) "DELETE" ["api"; "v1"; "admin"; "nodes"; id]
    = Some (authenticated (asAdmin adminDeleteNode), [("id", id)]).
Proof. intros Hid. destruct id as [|c id]; [done|]. find_route. Qed.

Lemma delete_node_path id : plain_segment id = true →
  clean_segments ("/api/v1/admin/nodes/" +:+ id) = Some ["api"; "v1"; "admin"; "nodes"; id].
Proof.
  intros Hid. change ("/api/v1/admin/nodes/" +:+ id) with (path_of ["api"; "v1"; "admin"; "nodes"; id]).
  apply clean_segments_plain; [done|]. by repeat constructor.
Qed.

(** A route of the administrator runs its handler. *)
Lemma run_as_admin (fn : handler) env (c : Client) rq vars s :
  admin_accepted env s c → rq.(rq_authorization) = setAuth c →
  ∃ user, run (authenticated (asAdmin fn) env rq vars) s =
    let '(s', r) := run (fn env (rpc_of rq vars (Some user))) s in (s', respond r).
Proof.
  intros (user & Hauth & Hgroup) Hrq. exists user. unfold auth_of in *.
  rewrite (authenticated_accepted _ _ _ _ _ user) by (unfold auth_of; by rewrite Hrq).
  unfold asAdmin. cbn [rpc_user rpc_of]. by rewrite bool_decide_false by (rewrite Hgroup; by intros []).
Qed.

(** ** admin invite *)

(** AdminClient.CreateInvite, the call and the handler as one. *)
Lemma run_create_call base env (c : command) b s :
  let req := invite_request c in
  let id := invitePublicID (uuid_string b) in
  let invite := created_invite env req (uuid_string b) in
  (newAPI c).(Address) = base → new_request_err "POST" (base +:+ "/api/v1/admin/invite") = None →
  admin_accepted env s (newAPI c) → healthy s.(kv) → env.(rand) 0 = Some b →
  utf8_ok c.(fl_name) = true → utf8_ok c.(fl_mesh) = true →
  utf8_ok id = true → utf8_ok (invite_link s id) = true →
  badger_entry (inviteKVKey "default" id) (json_print (enc_invite invite)) = true →
  ∃ d, healthy d ∧ contents d !! inviteKVKey "default" id = Some (json_print (enc_invite invite)) ∧
    run (adminInvite (server_doer base env) c) s =
      (with_kv d s, ([Line ("invite id:   " +:+ id); Line ("invite link: " +:+ invite_link s id)], None)).
Proof.
  intros req id invite Hbase Hnew Hadm Hh Hrand Hname Hmesh Hid Hlink Hfits.
  assert (u64_ok (uint64_of_float (Seconds c.(fl_lifetime))) = true) as Hlife
    by (apply bool_decide_eq_true, uint64_of_float_range).
  destruct (run_kv_Put (inviteKVKey "default" id) (enc_invite invite) s Hh Hfits) as (d & Hput & Hd & Hc).
  exists d. split; [done|]. split; [by rewrite Hc, lookup_insert_eq|].
  unfold adminInvite, AdminClient_CreateInvite. rewrite !run_bind. unfold Client_Post.
  set (sent := {| ci_Name := ci_Name (invite_request c); ci_LifetimeSec := ci_LifetimeSec (invite_request c);
    ci_OneTime := ci_OneTime (invite_request c); ci_MeshId := if bool_decide _ then _ else _ |}).
  assert (json_utf8 (enc_create sent) = true) as Henc.
  { unfold enc_create, sent, invite_request. cbn [json_utf8 forallb fst snd ci_Name ci_LifetimeSec ci_OneTime ci_MeshId].
    rewrite Hname. case_bool_decide; [done|]. by rewrite Hmesh. }
  destruct (run_as_admin adminCreateInviteLink env (newAPI c) {| rq_method := "POST";
    rq_path := ["api"; "v1"; "admin"; "invite"]; rq_authorization := setAuth (newAPI c);
    rq_body := b ← json_print <$> Some (enc_create sent); json_first b |} [] s Hadm eq_refl) as (user & Hrun).
  set (j := JObj [("InviteId", JStr id); ("InviteLink", JStr (invite_link s id))]).
  rewrite (run_Client_Do base env _ _ _ ["api"; "v1"; "admin"; "invite"] _ _ _ s (with_kv d s) (respond (Ok j))).
  - cbn [respond r_status r_body]. rewrite bool_decide_false by (intros Hne; by apply Hne).
    rewrite unmarshal_wire by (cbn [j json_utf8 forallb fst snd]; by rewrite Hid, Hlink).
    unfold dec_create_resp, j. decode_obj. done.
  - by rewrite Hbase.
  - done.
  - done.
  - unfold ServeHTTP. cbn [rq_method rq_path]. rewrite route_create, Hrun.
    unfold adminCreateInviteLink, GetObject. cbn [rpc_body rpc_of rq_body mbind option_bind fmap option_fmap option_map].
    rewrite json_first_print by done. rewrite dec_create_enc by done. cbn [pbind].
    rewrite bool_decide_false.
    2: { unfold sent, invite_request. cbn [ci_MeshId]. by case_bool_decide. }
    rewrite Hrand. cbn [pbind newInviteID]. fold id.
    change {| UUID := _ |} with invite.
    rewrite run_bind, Hput. done.
Qed.

(** C35: How long an invitation from the command line lives.  `admincli admin
    invite`, run by an administrator while the store works, stores an
    invitation and prints its link, whatever its lifetime.  For a lifetime
    that is not negative the invitation expires after its whole seconds, or,
    rounded in the last nanoseconds of a second beyond 97 days, one second
    later, so that the product of seconds and nanoseconds on the server never
    wraps; a lifetime below one second is cut to 0, which the server takes for
    ever.  A negative lifetime above minus one second is cut to 0 as well.
    From minus one second down the integer that the command sends is not
    defined by the language: on a machine that wraps it the invitation is born
    expired, on one that makes it 0 it never expires. *)
Theorem invite_lifetime_bounds base env (cmd : command) b s :
  let d := cmd.(fl_lifetime) in
  let id := invitePublicID (uuid_string b) in
  let invite := created_invite env (invite_request cmd) (uuid_string b) in
  let t := env.(now) 0 in
  (newAPI cmd).(Address) = base → new_request_err "POST" (base +:+ "/api/v1/admin/invite") = None →
  admin_accepted env s (newAPI cmd) → healthy s.(kv) → env.(rand) 0 = Some b →
  utf8_ok cmd.(fl_name) = true → utf8_ok cmd.(fl_mesh) = true →
  utf8_ok id = true → utf8_ok (invite_link s id) = true →
  badger_entry (inviteKVKey "default" id) (json_print (enc_invite invite)) = true →
  (- 2 ^ 63 ≤ d < 2 ^ 63)%Z →
  ∃ s' expires, run (adminInvite (server_doer base env) cmd) s =
      (s', ([Line ("invite id:   " +:+ id); Line ("invite link: " +:+ invite_link s id)], None)) ∧
    contents s'.(kv) !! inviteKVKey "default" id = Some (json_print (enc_invite
      {| UUID := uuid_string b; MeshId := "default"; OneTime := cmd.(fl_once); Expires := expires;
         InviteAs := cmd.(fl_name) |})) ∧
    ((- Second < d < Second → expires = 0) ∧
     (Second ≤ d → unix t + d / Second ≤ expires ≤ unix t + d / Second + 1) ∧
     (Second ≤ d → d mod Second = 0 ∨ d < 2 ^ 23 * Second → expires = unix t + d / Second) ∧
     (d ≤ - Second → expires = invite_expiry t (uint64_out (Seconds d))) ∧
     (d ≤ - Second → uint64_out (Seconds d) = 2 ^ 64 + Z.quot d Second → expires = unix t + Z.quot d Second) ∧
     (d ≤ - Second → uint64_out (Seconds d) = 0 → expires = 0))%Z.
Proof.
  intros d id invite t Hbase Hnew Hadm Hh Hrand Hname Hmesh Hid Hlink Hfits Hd.
  destruct (run_create_call base env cmd b s) as (db & _ & Hstored & Hrun); [done..|].
  exists (with_kv db s), invite.(Expires). split; [exact Hrun|]. split; [exact Hstored|].
  destruct (decide (0 ≤ d)%Z) as [Hpos|Hneg].
  - destruct (lifetime_kept cmd t) as (E1 & E2 & E3); [unfold d in *; lia|].
    split_and!; [intros ?; apply E1; unfold d in *; lia|exact E2|exact E3|unfold Second in *; lia..].
  - destruct (negative_lifetime cmd t) as (E1 & E2 & E3 & E4); [unfold d in *; lia|].
    split_and!; [intros ?; apply E1; unfold d in *; lia|unfold Second in *; lia..|exact E2|exact E3|exact E4].
Qed.

Lemma joinable_kv `{!Libp2pText} nid base envs seed relays link inv invite node name secret hash d s :
  joinable nid base envs seed relays link inv invite node name secret hash s →
  joinable nid base envs seed relays link inv invite node name secret hash (with_kv d s).
Proof. by intros []. Qed.

Section Joins.
Context `{!Libp2pText} `{!YamlText} {K : Type}.
Context (load_key : prog (node_world DB) (result error K)) (peer_id : K → result error string).
Context (new_host : K → list AddrInfo → bool → list string → prog (node_world DB) (result error string)).
Context (close_host : prog (node_world DB) ()) (connect_relay : AddrInfo → prog (node_world DB) (option error)).
Context (found : result error AddressDiscovery) (key : K) (nid hostname : string).
Context (form : confirm) (now_ : Z) (up : Provider → Upstream).

(** C11: From the administrator's command to a member.  `admincli admin invite`
    prints the id and the link of a new invitation; `mesh join` on another
    machine, given that link before it expires, redeems it, writes
    config.yaml and starts the node on what it wrote: the service logs in
    with the secret the redemption drew and uses the relays the server names, and its
    client registers the node under the name of the configuration, so that
    the server lists exactly one more (or renewed) node, which is on its
    allow list. *)
Theorem invitation_admits_node base env envs (cmd : command) b seed relays extra prog_name secret hash s
    existing file text :
  let inv := invitePublicID (uuid_string b) in
  let invite := created_invite env (invite_request cmd) (uuid_string b) in
  let link := invite_link s inv in
  let node := {| ID := nid; Name := join_name hostname existing; LogicalTime := 0; LastUpdate := time_zero |} in
  let c := applyConfigDefaults hostname (joined_config hostname s invite secret existing) in
  let w0 s := {| nw_file := file; nw_calls := 0; nw_server := s |} in
  (newAPI cmd).(Address) = base → trim_space cmd.(fl_token) ≠ "" →
  new_request_err "POST" (base +:+ "/api/v1/admin/invite") = None →
  admin_accepted env s (newAPI cmd) → healthy s.(kv) → env.(rand) 0 = Some b →
  utf8_ok cmd.(fl_name) = true → utf8_ok cmd.(fl_mesh) = true →
  utf8_ok (uuid_string b) = true → utf8_ok inv = true → utf8_ok link = true → int64_ok invite.(Expires) = true →
  badger_entry (inviteKVKey "default" inv) (json_print (enc_invite invite)) = true →
  ¬ expired ((envs 0).(now) 0) invite →
  node_works load_key peer_id new_host connect_relay key nid →
  joinable nid base envs seed relays link inv invite node c.(cf_Mesh).(me_Name) secret hash s →
  (∀ s, run (existingJoinConfig read_config hostname form) (w0 s) = (w0 s, Ok (existing, true))) →
  public_addrs (node_visibility found c.(cf_Mesh)) = Returned extra →
  yaml_encode (joined_config hostname s invite secret existing) = Ok text →
  ∃ act s1 w svc proxy w' reg,
    newCommand (server_doer base env) rfc3339 ["admin"; "invite"] cmd = Some act ∧
    run act s = (s1, ([Line ("invite id:   " +:+ inv); Line ("invite link: " +:+ link)], None)) ∧
    run (runJoin (node_doer base envs) load_key peer_id read_config write_config new_host close_host
           connect_relay found hostname now_ up seed prog_name [link] form) (w0 s1)
      = (w, Returned (Ok (Some (svc, proxy)))) ∧
    nw_file w = Some text ∧ svc.(sv_node) = NewPeerNode nid c.(cf_Mesh).(me_Name) ∧ svc.(sv_relays) = relays ∧
    run (MeshClient_Register (node_doer base envs) svc.(sv_admin) svc.(sv_node).(Name) svc.(sv_node).(ID)) w
      = (w', Ok reg) ∧
    reg.(rg_node) = {| ID := nid; Name := c.(cf_Mesh).(me_Name); LogicalTime := tick s.(logicalTime);
                       LastUpdate := (envs 4).(now) 0 |} ∧
    view (nw_server w') = <[nid := reg.(rg_node)]> (view s) ∧
    is_Some ((nw_server w').(acl).(allow) !! nid).
Proof.
  intros inv invite link node c w0 Hbase Htoken Hnew Hadm Hh Hrand Hname Hmesh Huuid Hinv Hlink Hexp64 Hfits Hexp
    Hn Hj Hex Hpub Htext.
  destruct (run_create_call base env cmd b s Hbase Hnew Hadm Hh Hrand Hname Hmesh Hinv Hlink Hfits)
    as (d & Hd & Hstored & Hrun). fold inv invite link in Hstored, Hrun.
  assert (invited (envs 0) (with_kv d s) inv invite) as Hinvd.
  { split_and!; [done| |done]. rewrite Get_healthy by done. cbn [kv with_kv]. rewrite Hstored.
    rewrite unmarshal_print; [by rewrite dec_invite_enc|]. cbn. by rewrite Huuid, Hname. }
  destruct (node_joins load_key peer_id new_host close_host connect_relay found key nid hostname form now_ up
    base envs seed relays extra prog_name link inv invite secret hash (with_kv d s) existing file text Hn)
    as (w & svc & proxy & w' & reg & Hjoin & Hfile & _ & Hsvc & Hrel & Hreg & Hnode & Hview & Hallow);
    [by apply joinable_kv|done|by apply Hex|done|done|].
  eexists _, (with_kv d s), w, svc, proxy, w', reg. split.
  { cbn [newCommand]. rewrite bool_decide_true by done. cbn [fmap option_fmap option_map]. reflexivity. }
  split_and!; try done. unfold with_token, requireToken. by rewrite bool_decide_false.
Qed.
End Joins.

(** ** admin kick *)

(** Every member record of the store can be read. *)
Definition records_ok s : Prop :=
  ∀ k v, has_prefix "/mesh/" k = true → contents s.(kv) !! k = Some v → (unmarshal dec_mn v mn_zero).2 = true.

Lemma for_each_mesh_keys_ok id items acc :
  (∀ k r, (k, r) ∈ items → ∃ v, r = Ok v ∧ (unmarshal dec_mn v mn_zero).2 = true) →
  ∃ ks, for_each (mesh_key_of id) items acc = Ok ks.
Proof.
  revert acc. induction items as [|[k r] items IH]; intros acc Hall; [by exists acc|].
  destruct (Hall k r) as (v & -> & Hv); [by left|]. cbn [for_each].
  assert (∃ acc', mesh_key_of id k v acc = Ok acc') as [acc' ->].
  { unfold mesh_key_of. destruct (parseMeshNodeKVKey k) as [[m n]|]; [|by eexists].
    case_bool_decide; [by eexists|]. destruct (unmarshal dec_mn v mn_zero) as [rec ok]. cbn [snd] in Hv.
    subst ok. cbn [negb]. case_bool_decide; by eexists. }
  apply IH. intros k' r' Hin. apply (Hall k'). by right.
Qed.

Lemma run_delete_keys_healthy ks s :
  healthy s.(kv) → Forall (λ k, badger_key k = true) ks → ∃ d, run (delete_keys ks) s = (with_kv d s, Ok ()) ∧ healthy d.
Proof.
  intros Hh Hks. revert s Hh. induction Hks as [|k ks Hk _ IH]; intros s Hh; [by exists s.(kv); destruct s|].
  destruct (run_kv_Delete k s Hh Hk) as (d & Hrun & Hd & _).
  destruct (IH (with_kv d s) Hd) as (d' & Hrun' & Hd'). exists d'. split; [|done].
  cbn [delete_keys]. by rewrite run_bind, Hrun.
Qed.

(** While the store works, a registered node can be deleted. *)
Lemma run_delete_registered env ctx s :
  let id := ctx.(PathVar) "id" in
  id ≠ "" → healthy s.(kv) → records_ok s → is_Some (s.(nodes) !! id) →
  ∃ s', run (adminDeleteNode env ctx) s = (s', Ok (JObj [("NodeID", JStr id)])) ∧ healthy s'.(kv).
Proof.
  intros id Hid Hh Hrec Hreg. unfold adminDeleteNode. fold id. rewrite (bool_decide_false _ Hid).
  unfold meshKeysForNode, ForEach. rewrite run_bind, run_reads.
  destruct (for_each_mesh_keys_ok id (txn_items "/mesh/" s.(kv)) []) as [ks Hks].
  { intros k r Hin. pose proof (healthy_items _ _ _ _ Hh Hin) as Hok. destruct r as [v|]; [|done].
    exists v. split; [done|]. apply (Hrec k); [|by eapply items_ok].
    apply (items_keys "/mesh/" s.(kv)). by apply (list_elem_of_fmap_2 fst) in Hin. }
  rewrite Hks. assert (Forall (λ k, badger_key k = true) ks) as Hkeys.
  { apply for_each_mesh_keys in Hks as (Hsub & _). apply Forall_forall.
    intros k [?%not_elem_of_nil|[[_ Hk]%items_keys _]]%Hsub; [done|]. by apply (healthy_keys _ _ Hh). }
  rewrite run_bind, run_atomically. cbn [fst snd]. rewrite run_bind, run_on_acl.
  rewrite (bool_decide_true _ Hreg), andb_false_r, run_bind.
  set (s1 := with_acl _ _). assert (s1.(kv) = s.(kv)) as Hkv by apply drop_node_spec.
  destruct (run_delete_keys_healthy ks s1) as (d & -> & Hd); [by rewrite Hkv|done|]. by exists (with_kv d s1).
Qed.

Lemma run_Client_Delete base env (c : Client) location segs s s' resp :
  new_request_err "DELETE" (c.(Address) +:+ location) = None → c.(Address) = base →
  clean_segments location = Some segs →
  run (ServeHTTP env {| rq_method := "DELETE"; rq_path := segs;
    rq_authorization := setAuth c; rq_body := None |}) s = (s', resp) → resp.(r_status) = StatusOK →
  run (Client_Delete (server_doer base env) c location) s = (s', None).
Proof.
  intros Hnew Hbase Hsegs Hrun Hok. unfold Client_Delete, Client_Do, newRequest. rewrite Hnew, !run_bind.
  unfold server_doer. rewrite run_bind. unfold server_request. cbn [hq_method hq_url hq_auth hq_body fmap option_fmap option_map mbind option_bind].
  subst base. rewrite trim_prefix_app, Hsegs, Hrun. cbn [run wire_response hs_body hs_code].
  by rewrite bool_decide_false by (intros Hne; by apply Hne).
Qed.

(** A node without a record is refused, whatever it sends. *)
Lemma run_login_refused base env (c : MeshClient) id secret s :
  c.(transport).(Address) = base → new_request_err "POST" (base +:+ "/api/v1/login") = None →
  id ≠ "" → utf8_ok id = true → utf8_ok c.(meshId) = true → utf8_ok secret = true → healthy s.(kv) →
  contents s.(kv) !! meshNodeKVKey (if bool_decide (c.(meshId) = "") then "default" else c.(meshId)) id = None →
  ∃ e, run (MeshClient_Login (server_doer base env) c id secret) s = (s, (c, Some e)).
Proof.
  intros Hbase Hnew Hid Hidu Hmu Hsu Hh Hnone.
  set (req := {| nl_NodeID := id; nl_MeshId := c.(meshId); nl_MeshSecret := secret |}).
  set (ctx := rpc_of {| rq_method := "POST"; rq_path := ["api"; "v1"; "login"];
    rq_authorization := setAuth c.(transport); rq_body := b ← json_print <$> Some (enc_login req); json_first b |} [] None).
  assert (GetObject dec_login nl_zero ctx = Ok req) as Hreq.
  { unfold GetObject, ctx, rpc_of. cbn [rpc_body rq_body mbind option_bind fmap option_fmap option_map].
    rewrite json_first_print; [by rewrite dec_login_enc|].
    unfold enc_login. cbn [json_utf8 forallb fst snd nl_NodeID nl_MeshId nl_MeshSecret req]. by rewrite Hidu, Hmu, Hsu. }
  assert (∃ code msg, run (apiNodeLogin env ctx) s = (s, Err (ApiError code msg)) ∧ code ≠ StatusOK)
    as (code & msg & Hlogin & Hcode).
  { destruct (decide (secret = "")) as [Hs|Hs].
    - eexists _, _. unfold apiNodeLogin. rewrite Hreq. cbn [pbind].
      rewrite bool_decide_true by (by right). by split.
    - destruct (run_login_missing env ctx s req _ Hreq Hid Hs eq_refl Hnone) as (e & Hrun & He).
      rewrite (He Hh) in Hrun. by eexists _, _. }
  eexists. unfold MeshClient_Login. rewrite run_bind. unfold Client_Post.
  erewrite (run_Client_Do base env _ _ _ ["api"; "v1"; "login"]); [|by rewrite Hbase|done|done|].
  2: { unfold ServeHTTP. cbn [rq_method rq_path]. rewrite route_login. unfold handle. rewrite run_bind.
       change (rpc_of _ _ _) with ctx. rewrite Hlogin. reflexivity. }
  cbn [respond http_error r_status r_body]. by rewrite bool_decide_true.
Qed.

(** C19: `admincli admin kick` locks a node out, for an id that a path carries
    as one segment.  For a registered node the command of an administrator
    succeeds while the store works, and prints what it did; then the registry
    and the allow list have lost that node and nothing else, the gate of the
    relay's host refuses every new connection, to the node or from it, and a
    login as that node fails on the wire whatever secret it sends, and changes
    nothing. *)
Theorem kick_locks_out base env (cmd : command) id s :
  trim_space (default "" (head cmd.(cmd_args))) = id → plain_segment id = true → utf8_ok id = true →
  (newAPI cmd).(Address) = base → trim_space cmd.(fl_token) ≠ "" →
  new_request_err "DELETE" (base +:+ "/api/v1/admin/nodes/" +:+ id) = None →
  admin_accepted env s (newAPI cmd) → healthy s.(kv) → records_ok s → is_Some (view s !! id) →
  ∃ act s', newCommand (server_doer base env) rfc3339 ["admin"; "kick"] cmd = Some act ∧
    run act s = (s', ([Line ("kicked " +:+ id)], None)) ∧
    view s' = delete id (view s) ∧ s'.(acl).(allow) = delete id s.(acl).(allow) ∧
    InterceptPeerDial s'.(acl) id = false ∧ InterceptSecured s'.(acl) id = false ∧
    ∀ env' (c : MeshClient) secret,
      c.(transport).(Address) = base → new_request_err "POST" (base +:+ "/api/v1/login") = None →
      utf8_ok c.(meshId) = true → has_byte slash c.(meshId) = false → utf8_ok secret = true →
      ∃ e, run (MeshClient_Login (server_doer base env') c id secret) s' = (s', (c, Some e)).
Proof.
  intros Harg Hseg Hutf8 Hbase Htoken Hnew Hadm Hh Hrec Hreg.
  assert (plain id) as [Hid Hslash].
  { pose proof (plain_segment_ne _ Hseg). by apply plain_segment_spec in Hseg as ((_ & _ & _ & ?) & _). }
  destruct (run_as_admin adminDeleteNode env (newAPI cmd) {| rq_method := "DELETE";
    rq_path := ["api"; "v1"; "admin"; "nodes"; id]; rq_authorization := setAuth (newAPI cmd); rq_body := None |}
    [("id", id)] s Hadm eq_refl) as (user & Hrun).
  set (ctx := rpc_of _ _ _) in Hrun. assert (ctx.(PathVar) "id" = id) as Hpv by done.
  destruct (run_delete_registered env ctx s) as (s' & Hdel & Hh'); [by rewrite Hpv|done|done| |].
  { rewrite Hpv. unfold view in Hreg. by rewrite lookup_fmap, fmap_is_Some in Hreg. }
  rewrite Hdel in Hrun. rewrite Hpv in *.
  destruct (run_adminDeleteNode env ctx s s' _ Hid Hdel) as (_ & _ & _ & Hok).
  destruct (Hok eq_refl) as (Hnodes & Hallow & Hgone). rewrite Hpv in Hnodes, Hallow, Hgone.
  assert (gate_has id s'.(acl) = false) as Hgate.
  { cbn [gate_has allow_list_gate]. by rewrite run_Has, Hallow, lookup_delete_eq. }
  eexists _, s'. split.
  { cbn [newCommand]. rewrite !bool_decide_false, bool_decide_true by done.
    cbn [fmap option_fmap option_map]. reflexivity. }
  split_and!.
  - unfold with_token, requireToken. rewrite bool_decide_false by done.
    unfold adminKick, on_arg, requireArg. rewrite Harg, bool_decide_false by done. rewrite run_bind.
    unfold AdminClient_KickPeer, AdminClient_DeleteNode.
    rewrite (run_Client_Delete base env _ _ ["api"; "v1"; "admin"; "nodes"; id] s s' (respond (Ok (JObj [("NodeID", JStr id)])))); try done.
    + by rewrite Hbase.
    + by apply delete_node_path.
    + unfold ServeHTTP. cbn [rq_method rq_path]. by rewrite route_delete_node.
  - unfold view. by rewrite Hnodes, fmap_delete.
  - done.
  - exact Hgate.
  - exact Hgate.
  - intros env' c secret Hb Hl Hm Hms Hs. apply run_login_refused; try done.
    apply Hgone; [|by split]. case_bool_decide as Hc; [by split|by split].
Qed.
End AdminWire.

(** ** Witnesses *)

Import ServerEx InviteEx StreamEx WireEx JoinEx.

Module CliEx.
(** A server with a relay and no invitation, and the commands of its
    administrator. *)
Definition server_n : Server mem :=
  WithRelayAddresses ["/ip4/10.0.0.1@relay"] (WithAdvertiseURL base server0).
Definition cli (args : list string) : command :=
  {| fl_addr := "http://mesh/"; fl_token := "secret"; fl_mesh := ""; fl_name := "guest"; fl_id := "";
     fl_once := true; fl_lifetime := 3600 * Second; cmd_args := args |}.
Definition printed (t : Z) : string := itoa t.
(** amd64 wraps what is negative; above, it answers with the integer indefinite. *)
#[export, refine] Instance amd64 : UintOfFloat := {| uint64_out f := (match f with
  | SpecFloat.S754_finite true m e =>
      (- (if bool_decide (0 ≤ e) then Zpos m * 2 ^ e else Zpos m / 2 ^ (- e))) mod 2 ^ 64
  | _ => 2 ^ 63
  end)%Z |}.
Proof. intros f. destruct f as [| | |[]]; try done. apply Z.mod_pos_bound. done. Defined.

Lemma cli_admin (s : Server mem) args : s.(adminKey) = "secret" → admin_accepted env0 s (newAPI (cli args)).
Proof. intros Hkey. eexists. rewrite Hkey. split; by vm_compute. Qed.
End CliEx.
Import CliEx.

Definition lived (d : Z) : command :=
  {| fl_addr := "http://mesh/"; fl_token := "secret"; fl_mesh := ""; fl_name := "guest"; fl_id := "";
     fl_once := true; fl_lifetime := d; cmd_args := [] |}.
(** The invitation the command leaves in the store for a lifetime. *)
Definition leaves (d expires : Z) : Prop :=
  ∃ s', run (adminInvite (server_doer base env0) (lived d)) server_n
      = (s', ([Line ("invite id:   " +:+ invite_id); Line ("invite link: " +:+ link)], None)) ∧
    contents s'.(kv) !! inviteKVKey "default" invite_id = Some (json_print (enc_invite
      {| UUID := uuid_string nonce12; MeshId := "default"; OneTime := true; Expires := expires; InviteAs := "guest" |})).

Lemma invite_lifetime_bounds_witness :
  leaves 500000000 0 ∧ leaves (90 * Second) (unix (env0.(now) 0) + 90) ∧
  leaves (- 5500000000) (unix (env0.(now) 0) - 5).
Proof.
  split; [|split].
  - destruct (invite_lifetime_bounds printed base env0 (lived 500000000) nonce12 server_n) as (s' & x & Hrun & Hst & Hshort & _);
      [by vm_compute|by vm_compute|exact (cli_admin server_n [] eq_refl)|by vm_compute..|].
    exists s'. assert (x = 0)%Z as -> by (apply Hshort; split; reflexivity). exact (conj Hrun Hst).
  - destruct (invite_lifetime_bounds printed base env0 (lived (90 * Second)) nonce12 server_n)
      as (s' & x & Hrun & Hst & _ & _ & Hexact & _);
      [by vm_compute|by vm_compute|exact (cli_admin server_n [] eq_refl)|by vm_compute..|].
    exists s'. assert (x = unix (env0.(now) 0) + 90)%Z as -> by (apply Hexact; [discriminate|left; reflexivity]).
    exact (conj Hrun Hst).
  - destruct (invite_lifetime_bounds printed base env0 (lived (- 5500000000)) nonce12 server_n)
      as (s' & x & Hrun & Hst & _ & _ & _ & _ & Hwrap & _);
      [by vm_compute|by vm_compute|exact (cli_admin server_n [] eq_refl)|by vm_compute..|].
    exists s'. assert (x = unix (env0.(now) 0) - 5)%Z as -> by (apply Hwrap; [discriminate|vm_compute; reflexivity]).
    exact (conj Hrun Hst).
Defined.

Lemma invitation_admits_node_witness :
  ∃ act s1 w svc proxy w' reg,
    newCommand (server_doer base env0) printed ["admin"; "invite"] (cli []) = Some act ∧
    run act server_n = (s1, ([Line ("invite id:   " +:+ invite_id); Line ("invite link: " +:+ link)], None)) ∧
    run (runJoin (node_doer base envs) (ret_ok nid) Ok read_config write_config (λ _ _ _ _, ret_ok nid) (Ret ())
           (λ _, Ret None) (Err KeyNotFound) "bob" 0 (λ _, {| up_url_ok := false; up_tags := None;
             up_running := None; up_openai := Err KeyNotFound |}) 0 "mesh" [link] FormAborted)
        {| nw_file := None; nw_calls := 0; nw_server := s1 |}
      = (w, Returned (Ok (Some (svc, proxy)))) ∧
    run (MeshClient_Register (node_doer base envs) svc.(sv_admin) svc.(sv_node).(Name) svc.(sv_node).(ID)) w
      = (w', Ok reg) ∧
    view (nw_server w') = {[ nid := reg.(rg_node) ]} ∧ reg.(rg_node).(Name) = "bob".
Proof.
  edestruct (invitation_admits_node printed (ret_ok nid) Ok (λ _ _ _ _, ret_ok nid) (Ret ()) (λ _, Ret None)
    (Err KeyNotFound) nid nid "bob" FormAborted 0 (λ _, {| up_url_ok := false; up_tags := None;
             up_running := None; up_openai := Err KeyNotFound |}) base env0 envs (cli []) nonce12 0
    [{| ai_ID := "relay"; Addrs := ["/ip4/10.0.0.1"] |}] [] "mesh" secret ("$" +:+ secret) server_n None None "joined")
    as (act & s1 & w & svc & proxy & w' & reg & Hcmd & Hrun & Hjoin & _ & _ & _ & Hreg & Hnode & Hview & _).
  all: cbv zeta.
  - by vm_compute.
  - by vm_compute.
  - by vm_compute.
  - by apply cli_admin.
  - by vm_compute.
  - by vm_compute.
  - by vm_compute.
  - by vm_compute.
  - by vm_compute.
  - by vm_compute.
  - by vm_compute.
  - by vm_compute.
  - by vm_compute.
  - exact valid.
  - split; by intros.
  - split; try by vm_compute.
    + eexists. split; [by vm_compute|]. by vm_compute.
    + by repeat constructor.
    + intros k _. by exists nonce12.
  - intros s. by vm_compute.
  - by vm_compute.
  - by vm_compute.
  - exists act, s1, w, svc, proxy, w', reg. split; [exact Hcmd|]. split; [exact Hrun|]. split; [exact Hjoin|].
    split; [exact Hreg|]. split; [|by rewrite Hnode]. by rewrite Hview.
Defined.

Lemma kick_locks_out_witness :
  ∃ act s', newCommand (server_doer base env0) printed ["admin"; "kick"] (cli [" 12D3KooWa "]) = Some act ∧
    run act server_a = (s', ([Line "kicked 12D3KooWa"], None)) ∧
    view s' = ∅ ∧ InterceptSecured s'.(acl) "12D3KooWa" = false ∧
    ∃ e, run (MeshClient_Login (server_doer base env0) (Client_Mesh client0 "") "12D3KooWa" secret) s'
      = (s', (Client_Mesh client0 "", Some e)).
Proof.
  destruct (kick_locks_out printed base env0 (cli [" 12D3KooWa "]) "12D3KooWa" server_a)
    as (act & s' & Hcmd & Hrun & Hview & _ & _ & Hgate & Hlogin).
  - by vm_compute.
  - by split.
  - done.
  - by vm_compute.
  - by vm_compute.
  - done.
  - by apply cli_admin.
  - by vm_compute.
  - intros k v _ Hk. by vm_compute in Hk.
  - by eexists; vm_compute.
  - exists act, s'. split; [exact Hcmd|]. split; [exact Hrun|]. split; [rewrite Hview; by vm_compute|].
    split; [exact Hgate|]. by apply Hlogin.
Defined.
