(* ===== verification/Lifecycle.v ===== *)
(** * Lifecycle: how the processes run and end.

    RunInterruptible (pkg/core/utilities.go) runs the services of a command
    until all have returned: `mesh admin` the membership server and the
    relay, `mesh proxy` the proxy.  A service is a state machine of the
    goroutines of its Serve; [run_next] lists the states the process can go
    to by itself, [happens] is what comes from outside: an interrupt, a
    listener that fails (a port in use), a circuit address that the host
    gets.  The deadline of Shutdown is not modelled. *)
From Stdlib Require Import Ascii String.
From S2P Require Import Prelude GoStrings Json Api.

(** http.Server: the goroutine in ListenAndServe: not started, serving, told to stop by
    Shutdown, gone. *)
Inductive listener : Type := NotStarted | Listening | Closed | Exited.
Definition shutdown (l : listener) : listener := match l with Listening => Closed | _ => l end.

(** ** Server.Serve and Listen of the membership server (pkg/admin/server.go) *)

Inductive admin_pc : Type :=
  | Selecting                       (* select on ctx.Done and errCh *)
  | Stopping                        (* Shutdown was called, <-errCh *)
  | Closing (err : option error)    (* s.Close() *)
  | ServeReturned (err : option error).
(** [as_errCh] is the content of the channel, [as_store] tells whether the
    store is open. *)
Record admin := { as_pc : admin_pc; as_listener : listener; as_errCh : list (option error); as_store : bool }.
Definition admin_init : admin :=
  {| as_pc := Selecting; as_listener := Listening; as_errCh := []; as_store := true |}.

(** ListenAndServe returned: the goroutine sends on errCh and is gone. *)
Definition listener_exits (r : option error) (a : admin) : admin := {| as_pc := as_pc a;
  as_listener := Exited; as_errCh := as_errCh a ++ [r]; as_store := as_store a |}.
(** A receive on errCh. *)
Definition receive (a : admin) : list admin :=
  match as_errCh a with
  | [] => []
  | r :: ch => [{| as_pc := Closing r; as_listener := as_listener a; as_errCh := ch; as_store := as_store a |}]
  end.

Definition admin_next (cancelled : bool) (a : admin) : list admin :=
  match as_listener a with Closed => [listener_exits None a] | _ => [] end ++
  match as_pc a with
  | Selecting =>
      (if cancelled then [{| as_pc := Stopping; as_listener := shutdown (as_listener a);
                             as_errCh := as_errCh a; as_store := as_store a |}] else [])
      ++ receive a
  | Stopping => receive a
  | Closing r => [{| as_pc := ServeReturned r; as_listener := as_listener a; as_errCh := as_errCh a;
                     as_store := false |}]
  | ServeReturned _ => []
  end.

(** Listen: Serve with a context that is never cancelled. *)
Definition Listen_next : admin → list admin := admin_next false.

(** ** Relay.Serve (pkg/mesh/relay.go) *)

(** The host is closed when Serve returns; relay.New that fails panics. *)
Inductive relay_pc : Type := RelayStarting | RelayServing | RelayPanicked | RelayReturned.
#[export] Instance relay_pc_eq : EqDecision relay_pc.
Proof. solve_decision. Defined.

(** ** Proxy.Serve (pkg/proxy/proxy.go) *)

(** [Connecting]: in Service.Connect, waiting for a circuit address. *)
Inductive proxy_pc : Type := Connecting | Waiting | ProxyReturned.
#[export] Instance proxy_pc_eq : EqDecision proxy_pc.
Proof. solve_decision. Defined.
Record proxy_run := { pr_pc : proxy_pc; pr_listener : listener; pr_log : list string }.
Definition proxy_init : proxy_run := {| pr_pc := Connecting; pr_listener := NotStarted; pr_log := [] |}.

(** The end of the goroutine that serves: [closed] is errors.Is(err,
    http.ErrServerClosed). *)
Definition proxy_listener_exits (closed : bool) (p : proxy_run) : proxy_run :=
  {| pr_pc := pr_pc p; pr_listener := Exited;
     pr_log := pr_log p ++ (if closed then ["proxy Service Failed"] else []) ++ ["Proxy Service Exited"] |}.
Definition proxy_next (cancelled : bool) (p : proxy_run) : list proxy_run :=
  match pr_listener p with Closed => [proxy_listener_exits true p] | _ => [] end ++
  match pr_pc p with
  | Waiting => if cancelled then [{| pr_pc := ProxyReturned; pr_listener := shutdown (pr_listener p);
                                     pr_log := pr_log p |}] else []
  | _ => []
  end.

(** ** RunInterruptible (pkg/core/utilities.go) *)

Inductive service : Type := Admin (a : admin) | RelayNode (pc : relay_pc) | ProxyNode (p : proxy_run).

Section Process.
(** What relay.New returns. *)
Context (relay_new : option error).

Definition relay_next (cancelled : bool) (pc : relay_pc) : list relay_pc :=
  match pc with
  | RelayStarting => [match relay_new with None => RelayServing | Some _ => RelayPanicked end]
  | RelayServing => if cancelled then [RelayReturned] else []
  | _ => []
  end.

Definition service_next (cancelled : bool) (x : service) : list service :=
  match x with
  | Admin a => Admin <$> admin_next cancelled a
  | RelayNode pc => RelayNode <$> relay_next cancelled pc
  | ProxyNode p => ProxyNode <$> proxy_next cancelled p
  end.
Definition serve_returned (x : service) : bool :=
  match x with
  | Admin a => match as_pc a with ServeReturned _ => true | _ => false end
  | RelayNode pc => match pc with RelayReturned => true | _ => false end
  | ProxyNode p => match pr_pc p with ProxyReturned => true | _ => false end
  end.

(** A goroutine of the wait group: in Serve, or ended; what the service
    itself started goes on after that. *)
Record task := { tk_service : service; tk_ended : bool }.
(** [ps_signal]: an interrupt in the channel of capacity 1, [ps_handler]:
    the goroutine that takes the first one is there. *)
Record process := { ps_cancelled : bool; ps_signal : bool; ps_handler : bool; ps_tasks : list task }.

Definition RunInterruptible (services : list service) : process :=
  {| ps_cancelled := false; ps_signal := false; ps_handler := true;
     ps_tasks := (λ x, {| tk_service := x; tk_ended := false |}) <$> services |}.

Definition crashed (p : process) : bool :=
  existsb (λ t, match tk_service t with RelayNode RelayPanicked => true | _ => false end) (ps_tasks p).
(** wg.Wait() is over. *)
Definition ended (p : process) : bool := forallb tk_ended (ps_tasks p).

Definition with_task (c : bool) (i : nat) (t : task) (p : process) : process :=
  {| ps_cancelled := c; ps_signal := ps_signal p; ps_handler := ps_handler p; ps_tasks := <[i := t]> (ps_tasks p) |}.

(** The moves of task [i]: those of its service, and the end of the
    goroutine, which cancels the context. *)
Definition task_next (p : process) (i : nat) (t : task) : list process :=
  ((λ x, with_task (ps_cancelled p) i {| tk_service := x; tk_ended := tk_ended t |} p)
     <$> service_next (ps_cancelled p) (tk_service t))
  ++ (if serve_returned (tk_service t) && negb (tk_ended t)
      then [with_task true i {| tk_service := tk_service t; tk_ended := true |} p] else []).

Definition run_next (p : process) : list process :=
  if crashed p then []
  else (if ps_signal p && ps_handler p
        then [{| ps_cancelled := true; ps_signal := false; ps_handler := false; ps_tasks := ps_tasks p |}] else [])
       ++ mjoin (imap (task_next p) (ps_tasks p)).
Definition run_step (p p' : process) : Prop := p' ∈ run_next p.

(** RunInterruptibleContext: the context is the caller's; a service that
    returns does not end the others. *)
Definition RunInterruptibleContext (cancelled : bool) (services : list service) : process :=
  {| ps_cancelled := cancelled; ps_signal := false; ps_handler := false;
     ps_tasks := (λ x, {| tk_service := x; tk_ended := false |}) <$> services |}.
Definition context_task_next (p : process) (i : nat) (t : task) : list process :=
  ((λ x, with_task (ps_cancelled p) i {| tk_service := x; tk_ended := tk_ended t |} p)
     <$> service_next (ps_cancelled p) (tk_service t))
  ++ (if serve_returned (tk_service t) && negb (tk_ended t)
      then [with_task (ps_cancelled p) i {| tk_service := tk_service t; tk_ended := true |} p] else []).
Definition context_next (p : process) : list process :=
  if crashed p then [] else mjoin (imap (context_task_next p) (ps_tasks p)).

(** What comes from outside. *)
Inductive service_happens : service → service → Prop :=
  | admin_listen_fails e a : as_listener a = Listening →
      service_happens (Admin a) (Admin (listener_exits (Some e) a))
  | proxy_listen_fails p : pr_listener p = Listening →
      service_happens (ProxyNode p) (ProxyNode (proxy_listener_exits false p))
  | proxy_connects p : pr_pc p = Connecting →
      service_happens (ProxyNode p) (ProxyNode {| pr_pc := Waiting; pr_listener := Listening; pr_log := pr_log p |}).
Inductive happens : process → process → Prop :=
  | interrupt p : happens p {| ps_cancelled := ps_cancelled p; ps_signal := true; ps_handler := ps_handler p;
                               ps_tasks := ps_tasks p |}
  | outside p i t x : ps_tasks p !! i = Some t → service_happens (tk_service t) x →
      happens p (with_task (ps_cancelled p) i {| tk_service := x; tk_ended := tk_ended t |} p).

Definition moves (p p' : process) : Prop := run_step p p' ∨ happens p p'.
End Process.

(** With the caller's context nothing but the caller cancels: whatever the
    services do, those that are left go on. *)
Lemma context_not_cancelled relay_new p p' :
  rtc (λ p p', p' ∈ context_next relay_new p) p p' → ps_cancelled p' = ps_cancelled p.
Proof.
  induction 1 as [p|p p1 p' Hstep _ IH]; [done|]. rewrite IH. unfold context_next in Hstep.
  destruct (crashed p); [by apply not_elem_of_nil in Hstep|].
  apply list_elem_of_join in Hstep as (l & Hl & (i & t & -> & Ht)%elem_of_lookup_imap).
  unfold context_task_next in Hl. apply elem_of_app in Hl as [(x & -> & _)%list_elem_of_fmap|Hl]; [done|].
  destruct (_ && _); [|by apply not_elem_of_nil in Hl]. by apply list_elem_of_singleton in Hl as ->.
Qed.

(** ** The processes end their work *)

Section Lifecycles.
Context (relay_new : option error).
Local Abbreviation run_next := (run_next relay_new).
Local Abbreviation run_step := (run_step relay_new).
Local Abbreviation service_next := (service_next relay_new).

(** A bound on the moves that are left. *)
Definition listener_work (l : listener) : nat := match l with Closed => 1 | _ => 0 end.
Definition service_work (x : service) : nat :=
  match x with
  | Admin a => listener_work (as_listener a) +
      match as_pc a with Selecting => 6 | Stopping => 4 | Closing _ => 2 | ServeReturned _ => 0 end
  | RelayNode pc => match pc with RelayStarting => 2 | RelayServing => 1 | _ => 0 end
  | ProxyNode p => listener_work (pr_listener p) +
      match pr_pc p with Connecting => 4 | Waiting => 2 | ProxyReturned => 0 end
  end.
Definition task_work (t : task) : nat := service_work (tk_service t) + if tk_ended t then 0 else 1.
Definition work (p : process) : nat := sum_list_with task_work (ps_tasks p) + if ps_handler p then 1 else 0.

Lemma service_next_work c x x' : x' ∈ service_next c x → service_work x' < service_work x.
Proof.
  destruct x as [[pc l ch st]|pc|[pc l lg]]; cbn [Lifecycle.service_next]; intros (y & -> & Hy)%list_elem_of_fmap.
  - unfold admin_next, receive in Hy.
    destruct l, pc, c, ch; cbn in Hy; rewrite ?elem_of_cons, ?elem_of_nil in Hy;
      destruct_or?; subst; cbn; try done; lia.
  - destruct pc, c, relay_new; cbn in Hy; rewrite ?elem_of_cons, ?elem_of_nil in Hy;
      destruct_or?; subst; cbn; try done; lia.
  - unfold proxy_next in Hy.
    destruct l, pc, c; cbn in Hy; rewrite ?elem_of_cons, ?elem_of_nil in Hy;
      destruct_or?; subst; cbn; try done; lia.
Qed.

(** A step of the process: the handler of the interrupt, or a task. *)
Lemma elem_of_run_next p p' :
  p' ∈ run_next p ↔ crashed p = false ∧
    ((ps_signal p && ps_handler p = true ∧
      p' = {| ps_cancelled := true; ps_signal := false; ps_handler := false; ps_tasks := ps_tasks p |}) ∨
     ∃ i t, ps_tasks p !! i = Some t ∧ p' ∈ task_next relay_new p i t).
Proof.
  unfold Lifecycle.run_next. destruct (crashed p).
  { split; [by intros ?%not_elem_of_nil|naive_solver]. }
  rewrite elem_of_app, list_elem_of_join. setoid_rewrite elem_of_lookup_imap. split.
  - intros [Hs|(l & Hl & i & t & -> & Ht)]; [|naive_solver]. split; [done|]. left.
    destruct (_ && _); [|by apply not_elem_of_nil in Hs]. by apply list_elem_of_singleton in Hs.
  - intros [_ [[-> ->]|(i & t & Ht & Hp)]]; [left; by left|]. right. eexists. split; [exact Hp|]. by eexists _, _.
Qed.

Lemma elem_of_task_next p i t p' :
  p' ∈ task_next relay_new p i t ↔
    (∃ x, x ∈ service_next (ps_cancelled p) (tk_service t) ∧
       p' = with_task (ps_cancelled p) i {| tk_service := x; tk_ended := tk_ended t |} p) ∨
    (serve_returned (tk_service t) = true ∧ tk_ended t = false ∧
       p' = with_task true i {| tk_service := tk_service t; tk_ended := true |} p).
Proof.
  unfold task_next. rewrite elem_of_app, list_elem_of_fmap.
  assert (∀ (b : bool) (y : process), p' ∈ (if b then [y] else []) ↔ b = true ∧ p' = y) as Hif.
  { intros [] y; [rewrite list_elem_of_singleton; naive_solver|].
    split; [by intros ?%not_elem_of_nil|naive_solver]. }
  rewrite Hif, andb_true_iff, negb_true_iff. naive_solver.
Qed.

Lemma sum_list_insert (f : task → nat) l i t t' :
  l !! i = Some t → f t' < f t → sum_list_with f (<[i := t']> l) < sum_list_with f l.
Proof.
  revert i. induction l as [|x l IH]; intros [|i]; simpl; [done|done|intros [= ->]; lia|].
  intros Hi Hf. specialize (IH i Hi Hf). lia.
Qed.

Lemma run_step_work p p' : run_step p p' → work p' < work p.
Proof.
  intros [_ [[Hs ->]|(i & t & Ht & Hp)]]%elem_of_run_next.
  { apply andb_true_iff in Hs as [_ Hh]. unfold work. rewrite Hh. cbn. lia. }
  unfold work. apply elem_of_task_next in Hp as [(x & Hx%service_next_work & ->)|(_ & He & ->)];
    cbn [ps_tasks ps_handler with_task].
  - apply Nat.add_lt_mono_r. eapply sum_list_insert; [exact Ht|]. unfold task_work. cbn. lia.
  - apply Nat.add_lt_mono_r. eapply sum_list_insert; [exact Ht|]. unfold task_work. rewrite He. cbn. lia.
Qed.

Lemma run_steps_bounded n p p' : nsteps run_step n p p' → n + work p' ≤ work p.
Proof. induction 1 as [|n p p1 p' Hs%run_step_work _ IH]; lia. Qed.

(** ** What holds in every state that can be reached *)

(** The message of the goroutine that listens is on its way until Serve
    takes it; the store is closed when Serve returns. *)
Definition admin_ok (a : admin) : Prop :=
  match as_listener a with
  | NotStarted => False
  | Listening => as_errCh a = [] ∧ as_pc a = Selecting
  | Closed => as_errCh a = [] ∧ as_pc a = Stopping
  | Exited => match as_pc a with
              | Selecting | Stopping => length (as_errCh a) = 1
              | _ => as_errCh a = []
              end
  end ∧ match as_pc a with ServeReturned _ => as_store a = false | _ => as_store a = true end.
Definition service_ok (x : service) : Prop :=
  match x with
  | Admin a => admin_ok a
  | RelayNode _ => True
  | ProxyNode p => match pr_pc p with Connecting => pr_listener p = NotStarted | _ => True end
  end.
Definition task_ok (c : bool) (t : task) : Prop :=
  service_ok (tk_service t) ∧ (tk_ended t = true → c = true ∧ serve_returned (tk_service t) = true).
Definition process_ok (p : process) : Prop :=
  (ps_handler p = false → ps_cancelled p = true) ∧ Forall (task_ok (ps_cancelled p)) (ps_tasks p).

Lemma service_next_ok c x x' :
  x' ∈ service_next c x → service_ok x → service_ok x' ∧ (serve_returned x = true → serve_returned x' = true).
Proof.
  destruct x as [[pc l ch st]|pc|[pc l lg]]; cbn [Lifecycle.service_next]; intros (y & -> & Hy)%list_elem_of_fmap.
  - unfold admin_next, receive in Hy. unfold service_ok, admin_ok. cbn. intros [Hl Hst].
    destruct l, pc, c, ch as [|r [|]]; cbn in Hy, Hl; rewrite ?elem_of_cons, ?elem_of_nil in Hy;
      destruct_or?; destruct_and?; subst; cbn; try done; by split_and?.
  - by destruct pc, c, relay_new; cbn in Hy; rewrite ?elem_of_cons, ?elem_of_nil in Hy; destruct_or?; subst.
  - unfold proxy_next in Hy. cbn. intros Hl.
    by destruct l, pc, c; cbn in Hy; rewrite ?elem_of_cons, ?elem_of_nil in Hy; destruct_or?; subst.
Qed.

Lemma service_happens_ok x x' :
  service_happens x x' → service_ok x → service_ok x' ∧ (serve_returned x = true → serve_returned x' = true).
Proof.
  destruct 1 as [e [pc l ch st] Hl|[pc l lg] Hl|[pc l lg] Hpc]; cbn in *; subst.
  - unfold admin_ok. cbn. intros [[-> ->] Hst]. by split_and?.
  - by destruct pc.
  - done.
Qed.

Lemma task_ok_mono c t : task_ok c t → task_ok true t.
Proof. intros [Hx He]. split; [done|]. intros Ht. by destruct (He Ht). Qed.

Lemma moves_ok p p' : moves relay_new p p' → process_ok p → process_ok p'.
Proof.
  intros Hm [Hh Ht]. assert (Forall (task_ok true) (ps_tasks p)) as Htrue.
  { eapply Forall_impl; [exact Ht|]. apply task_ok_mono. }
  destruct Hm as [[_ [[_ ->]|(i & t & Hi & Hp)]]%elem_of_run_next|Hp].
  - by split.
  - pose proof (Forall_lookup_1 _ _ _ _ Ht Hi) as [Hx He].
    apply elem_of_task_next in Hp as [(x & Hnext & ->)|(Hret & _ & ->)]; cbn.
    + destruct (service_next_ok _ _ _ Hnext Hx) as [Hx' Hr]. split; [done|]. apply Forall_insert; [done|].
      split; [done|]. intros Hend. destruct (He Hend). auto.
    + split; [done|]. by apply Forall_insert.
  - destruct Hp as [p|p i t x Hi Hx']; [by split|]. cbn.
    pose proof (Forall_lookup_1 _ _ _ _ Ht Hi) as [Hx He].
    destruct (service_happens_ok _ _ Hx' Hx) as [Hx'' Hr]. split; [done|]. apply Forall_insert; [done|].
    split; [done|]. intros Hend. destruct (He Hend). auto.
Qed.

Lemma reachable_ok services p :
  Forall service_ok services → rtc (moves relay_new) (RunInterruptible services) p → process_ok p.
Proof.
  intros Hall Hreach. assert (process_ok (RunInterruptible services)) as Hinit.
  { split; [done|]. cbn. apply Forall_fmap. eapply Forall_impl; [exact Hall|]. by intros x Hx. }
  induction Hreach as [p|p p1 p2 Hm _ IH]; [done|]. apply IH. by eapply moves_ok.
Qed.

(** The services of a process are those it started with, as long as it
    runs. *)
Definition kind (x : service) : nat := match x with Admin _ => 0 | RelayNode _ => 1 | ProxyNode _ => 2 end.

Lemma moves_kinds p p' :
  moves relay_new p p' → kind ∘ tk_service <$> ps_tasks p' = kind ∘ tk_service <$> ps_tasks p.
Proof.
  assert (∀ i t x e, ps_tasks p !! i = Some t → kind x = kind (tk_service t) →
    kind ∘ tk_service <$> <[i := {| tk_service := x; tk_ended := e |}]> (ps_tasks p)
      = kind ∘ tk_service <$> ps_tasks p) as Hins.
  { intros i t x e Hi Hx. rewrite list_fmap_insert. apply list_insert_id.
    rewrite list_lookup_fmap, Hi. cbn. by rewrite Hx. }
  intros [[_ [[_ ->]|(i & t & Hi & Hp)]]%elem_of_run_next|Hp]; [done| |].
  - apply elem_of_task_next in Hp as [(x & Hnext & ->)|(_ & _ & ->)]; cbn; [|by apply (Hins _ t)].
    apply (Hins _ t); [done|]. destruct (tk_service t); cbn in Hnext;
      by apply list_elem_of_fmap in Hnext as (y & -> & _).
  - destruct Hp as [p|p i t x Hi Hx]; [done|]. cbn. apply (Hins _ t); [done|]. by destruct Hx.
Qed.

(** A process that cannot move has taken its interrupt, and its tasks wait. *)
Lemma quiescent p :
  run_next p = [] → crashed p = false →
  ps_signal p && ps_handler p = false ∧
  ∀ i t, ps_tasks p !! i = Some t →
    service_next (ps_cancelled p) (tk_service t) = [] ∧ (serve_returned (tk_service t) = true → tk_ended t = true).
Proof.
  intros Hq Hc. assert (∀ p', ¬ (p' ∈ run_next p)) as Hno by (intros p'; rewrite Hq; apply not_elem_of_nil).
  split.
  - destruct (ps_signal p && ps_handler p) eqn:Hs; [|done]. exfalso. eapply Hno.
    apply elem_of_run_next. split; [done|]. by left.
  - intros i t Hi. assert (∀ p', ¬ (p' ∈ task_next relay_new p i t)) as Hnt.
    { intros p' Hp. apply (Hno p'). apply elem_of_run_next. split; [done|]. right. by exists i, t. }
    split.
    + apply elem_of_nil_inv. intros x Hx. eapply Hnt. apply elem_of_task_next. left. by exists x.
    + intros Hr. destruct (tk_ended t) eqn:He; [done|]. exfalso. eapply Hnt. apply elem_of_task_next. by right.
Qed.

(** The server waits for ever only while it serves and was not told to
    stop. *)
Lemma admin_quiescent c a :
  admin_ok a → admin_next c a = [] → c = true ∨ as_listener a = Exited →
  (∃ err, as_pc a = ServeReturned err) ∧ as_store a = false ∧ as_listener a = Exited.
Proof.
  destruct a as [pc l ch st]. unfold admin_ok, admin_next, receive. cbn. intros [Hl Hst] Hnext Hwhy.
  destruct l, pc, c, ch as [|r [|]]; cbn in *; destruct_and?; destruct_or?; simplify_eq; try done; by eauto.
Qed.
End Lifecycles.

(** ** Properties *)

(** The commands `mesh admin` and `mesh proxy`, once their services are
    made. *)
Definition mesh_admin : process := RunInterruptible [Admin admin_init; RelayNode RelayStarting].
Definition mesh_proxy : process := RunInterruptible [ProxyNode proxy_init].

(** C28: `mesh admin` ends in order.  Whatever happened before, the process
    makes finitely many moves of its own; and when it rests although it was
    interrupted or its server lost its listener (the port was taken, say),
    both services have returned, the store is closed and the server no
    longer listens, so that RunInterruptible returns, unless the relay
    panicked at its start. *)
Theorem admin_process_ends relay_new p :
  rtc (moves relay_new) mesh_admin p →
  (∀ n p', nsteps (run_step relay_new) n p p' → n ≤ work p) ∧
  ∃ a pc, tk_service <$> ps_tasks p = [Admin a; RelayNode pc] ∧
    (run_next relay_new p = [] → ps_signal p = true ∨ ps_cancelled p = true ∨ as_listener a = Exited →
     pc = RelayPanicked ∨
     (ended p = true ∧ pc = RelayReturned ∧ (∃ err, as_pc a = ServeReturned err) ∧
      as_store a = false ∧ as_listener a = Exited)).
Proof.
  intros Hreach. split; [intros n p' Hn%run_steps_bounded; lia|].
  assert (process_ok p) as [Hhandler Htasks] by (eapply reachable_ok; [|exact Hreach]; by repeat constructor).
  assert (kind ∘ tk_service <$> ps_tasks p = [0; 1]) as Hkinds.
  { clear Hhandler Htasks. assert (kind ∘ tk_service <$> ps_tasks mesh_admin = [0; 1]) as Hk by done.
    revert Hk. induction Hreach as [p|p p1 p2 Hm _ IH]; [done|]. intros Hk. apply IH.
    by rewrite (moves_kinds _ _ _ Hm). }
  destruct (ps_tasks p) as [|[x1 e1] [|[x2 e2] [|]]] eqn:Heq; try done. cbn in Hkinds.
  destruct x1 as [a|?|?]; try done. destruct x2 as [?|pc|?]; try done. exists a, pc. split; [done|]. intros Hq Hwhy.
  rewrite !Forall_cons in Htasks. destruct Htasks as ([Ha He1] & [_ He2] & _). cbn in Ha, He1, He2.
  destruct (decide (pc = RelayPanicked)) as [Hp|Hp]; [by left|right].
  assert (crashed p = false) as Hcrash by (unfold crashed; rewrite Heq; by destruct pc).
  destruct (quiescent _ _ Hq Hcrash) as [Hsig Htask].
  destruct (Htask 0 {| tk_service := Admin a; tk_ended := e1 |}) as [Hn1 Hr1]; [by rewrite Heq|].
  destruct (Htask 1 {| tk_service := RelayNode pc; tk_ended := e2 |}) as [Hn2 Hr2]; [by rewrite Heq|].
  cbn in Hn1, Hn2, Hr1, Hr2. apply fmap_nil_inv in Hn1, Hn2.
  assert (ps_cancelled p = true ∨ as_listener a = Exited) as Hwhy'.
  { destruct Hwhy as [Hs|[Hc|Hl]]; [|by left|by right]. rewrite Hs in Hsig. left. by apply Hhandler. }
  destruct (admin_quiescent _ _ Ha Hn1 Hwhy') as ([err Hpc] & Hstore & Hl). rewrite Hpc in Hr1, He1.
  assert (ps_cancelled p = true) as Hc by (by apply He1, Hr1). rewrite Hc in Hn2.
  assert (pc = RelayReturned) as -> by (by destruct pc, relay_new).
  unfold ended. rewrite Heq. cbn. rewrite Hr1, Hr2 by done. split_and!; [done..| |done|done]. by exists err.
Qed.

(** A proxy that was not interrupted: it did not return, and a failure of
    its listener was not logged. *)
Definition proxy_ok (p : process) : Prop :=
  ∃ r e, ps_tasks p = [{| tk_service := ProxyNode r; tk_ended := e |}] ∧
    (ps_cancelled p = false → ps_handler p = true ∧ e = false ∧ pr_pc r ≠ ProxyReturned ∧
       pr_listener r ≠ Closed ∧ "proxy Service Failed" ∉ pr_log r).

Lemma proxy_moves_ok relay_new p p' : moves relay_new p p' → proxy_ok p → proxy_ok p'.
Proof.
  intros Hm (r & e & Heq & Hr). destruct Hm as [[_ [[_ ->]|(i & t & Hi & Hp)]]%elem_of_run_next|Hp].
  - by exists r, e.
  - rewrite Heq in Hi. apply list_lookup_singleton_Some in Hi as [-> <-].
    apply elem_of_task_next in Hp as [(x & Hnext & ->)|(Hret & _ & ->)];
      [|exists r, true; unfold with_task; cbn; by rewrite Heq].
    cbn in Hnext. apply list_elem_of_fmap in Hnext as (r' & -> & Hnext). exists r', e.
    unfold with_task. cbn. rewrite Heq. split; [done|]. intros Hc. destruct (Hr Hc) as (Hh & He & Hpc & Hl & Hlog).
    rewrite Hc in Hnext. exfalso. destruct r as [pc l lg]. cbn in *.
    unfold proxy_next in Hnext. by destruct l, pc; cbn in Hnext; try (by apply not_elem_of_nil in Hnext).
  - destruct Hp as [p|p i t x Hi Hx]; [by exists r, e|].
    rewrite Heq in Hi. apply list_lookup_singleton_Some in Hi as [-> <-]. cbn in Hx.
    unfold with_task, proxy_ok. cbn. rewrite Heq.
    inversion Hx as [|r0 Hl|r0 Hpc]; subst; eexists _, e; (split; [reflexivity|]); intros Hc;
      destruct (Hr Hc) as (? & ? & Hpc' & ? & Hlog); split_and!; try done.
    cbn. rewrite elem_of_app, list_elem_of_singleton. by intros [?|?].
Qed.

(** C29: `mesh proxy` ends only on an interrupt, and only once it is connected.
    As long as there was no interrupt the process stays, also when its
    listener failed (the port was taken), which it does not log as a failure;
    and when it rests after an interrupt it has ended exactly if the host had
    got a circuit address before: while the proxy waits for one, the
    interrupt is taken and the process goes on. *)
Theorem proxy_ends_only_connected relay_new p :
  rtc (moves relay_new) mesh_proxy p →
  (∀ n p', nsteps (run_step relay_new) n p p' → n ≤ work p) ∧
  ∃ r, tk_service <$> ps_tasks p = [ProxyNode r] ∧
    (ps_signal p = false → ps_cancelled p = false →
       run_next relay_new p = [] ∧ ended p = false ∧ "proxy Service Failed" ∉ pr_log r) ∧
    (run_next relay_new p = [] → ps_signal p = true ∨ ps_cancelled p = true →
       ended p = bool_decide (pr_pc r ≠ Connecting)).
Proof.
  intros Hreach. split; [intros n p' Hn%run_steps_bounded; lia|].
  assert (process_ok p) as [Hhandler Htasks] by (eapply reachable_ok; [|exact Hreach]; by repeat constructor).
  assert (proxy_ok p) as (r & e & Heq & Hr).
  { clear Hhandler Htasks. assert (proxy_ok mesh_proxy) as Hok.
    { eexists _, _. split; [done|]. intros _. split_and!; try done. cbn. by apply not_elem_of_nil. }
    induction Hreach as [p|p p1 p2 Hm _ IH]; [done|]. by eapply IH, proxy_moves_ok. }
  exists r. rewrite Heq. split; [done|].
  assert (crashed p = false) as Hcrash by (unfold crashed; by rewrite Heq). split.
  - intros Hs Hc. destruct (Hr Hc) as (Hh & -> & Hpc & Hl & Hlog). split_and!; [| |done].
    + apply elem_of_nil_inv. intros p' [_ [[Hsig _]|(i & t & Hi & Hp)]]%elem_of_run_next.
      { by rewrite Hs in Hsig. }
      rewrite Heq in Hi. apply list_lookup_singleton_Some in Hi as [-> <-].
      apply elem_of_task_next in Hp as [(x & Hx & _)|(Hret & _)]; cbn in *.
      * apply list_elem_of_fmap in Hx as (r' & _ & Hx). rewrite Hc in Hx. unfold proxy_next in Hx.
        by destruct r as [[] [] ?]; cbn in *; try (by apply not_elem_of_nil in Hx).
      * by destruct (pr_pc r).
    + unfold ended. by rewrite Heq.
  - intros Hq Hwhy. destruct (quiescent _ _ Hq Hcrash) as [Hsig Htask].
    assert (ps_cancelled p = true) as Hc.
    { destruct Hwhy as [Hs|Hc]; [|done]. rewrite Hs in Hsig. by apply Hhandler. }
    destruct (Htask 0 _ ltac:(by rewrite Heq)) as [Hn Hret]. cbn in Hn, Hret. apply fmap_nil_inv in Hn.
    rewrite Heq in Htasks. apply Forall_singleton in Htasks as [_ He]. cbn in He.
    rewrite Hc in Hn. unfold ended. rewrite Heq. cbn. destruct r as [pc l lg]. cbn in *. rewrite andb_true_r.
    destruct pc; cbn; [|by destruct l|by apply Hret]. destruct e; [|done]. by destruct (He eq_refl).
Qed.

(** ** Witnesses *)

Module LifecycleEx.
(** One order of the process's own moves, the first that is possible each
    time. *)
Fixpoint settle (relay_new : option error) (fuel : nat) (p : process) : process :=
  match fuel, run_next relay_new p with
  | S fuel, p' :: _ => settle relay_new fuel p'
  | _, _ => p
  end.

Lemma settle_moves relay_new fuel p : rtc (moves relay_new) p (settle relay_new fuel p).
Proof.
  revert p. induction fuel as [|fuel IH]; intros p; [done|]. cbn [settle].
  destruct (run_next relay_new p) as [|p' ps] eqn:Hn; [done|]. eapply rtc_l; [|apply IH].
  left. unfold run_step. rewrite Hn. by left.
Qed.

(** The port of the server is taken. *)
Definition in_use : error := OtherError "listen tcp :8079: bind: address already in use".
Definition port_taken : process :=
  with_task false 0 {| tk_service := Admin (listener_exits (Some in_use) admin_init); tk_ended := false |} mesh_admin.
Definition admin_end : process := settle None 20 port_taken.
Lemma admin_end_reachable : rtc (moves None) mesh_admin admin_end.
Proof.
  eapply rtc_l; [|apply settle_moves]. right.
  apply (outside mesh_admin 0 {| tk_service := Admin admin_init; tk_ended := false |}); [done|].
  by apply admin_listen_fails.
Qed.

(** Ctrl-C while the proxy waits for an address. *)
Definition interrupted : process :=
  {| ps_cancelled := false; ps_signal := true; ps_handler := true; ps_tasks := ps_tasks mesh_proxy |}.
Definition stuck : process := settle None 20 interrupted.
Lemma stuck_reachable : rtc (moves None) mesh_proxy stuck.
Proof. eapply rtc_l; [|apply settle_moves]. right. apply (interrupt mesh_proxy). Qed.
End LifecycleEx.
Import LifecycleEx.

Lemma admin_process_ends_witness :
  ended admin_end = true ∧
  ∃ a, tk_service <$> ps_tasks admin_end = [Admin a; RelayNode RelayReturned] ∧ as_store a = false.
Proof.
  destruct (admin_process_ends None admin_end admin_end_reachable) as (_ & a & pc & Heq & Hend).
  assert (∃ a', tk_service <$> ps_tasks admin_end = [Admin a'; RelayNode RelayReturned] ∧ as_listener a' = Exited)
    as (a' & Heq' & Hl) by (eexists; split; vm_compute; reflexivity).
  rewrite Heq in Heq'. injection Heq' as -> ->.
  destruct Hend as [Hp|(He & _ & _ & Hs & _)]; [by vm_compute|by right; right|done|].
  split; [exact He|]. by exists a'.
Defined.

Lemma proxy_ends_only_connected_witness :
  run_next None stuck = [] ∧ ps_cancelled stuck = true ∧ ended stuck = false.
Proof.
  destruct (proxy_ends_only_connected None stuck stuck_reachable) as (_ & r & Heq & _ & Hend).
  assert (run_next None stuck = []) as Hq by (by vm_compute). split; [exact Hq|]. split; [by vm_compute|].
  rewrite Hend; [|exact Hq|right; by vm_compute].
  vm_compute in Heq. injection Heq as <-. reflexivity.
Defined.
