(* ===== verification/Notifier.v ===== *)
(** * Notifier: waking the web clients of a node (pkg/proxy/socket).

    Every web socket has a client with a reader and a writer goroutine; the
    notifier keeps the clients in a map that only its Poll goroutine changes.
    Register, Deregister and Broadcast send actions over a buffered channel.
    [step] is the transition relation of all these goroutines: each
    constructor is one channel operation or one turn of a loop.  The web
    socket library appears as the ways its calls can end. *)
From stdpp Require Import sets gmap list relations.
From S2P Require Import Prelude.

(** ** State *)

(** A client is named by a number, in place of its pointer. *)
Inductive Action : Type :=
  | register (c : nat)
  | deregister (c : nat)
  | broadcast.
#[export] Instance Action_eq_dec : EqDecision Action.
Proof. solve_decision. Defined.

(** Where the reader is: Handle waits to register the client, the reader waits
    for messages, it waits to deregister, or it ended. *)
Inductive reader : Type := Registering | Reading | Deregistering | ReaderDone.
#[export] Instance reader_eq_dec : EqDecision reader.
Proof. solve_decision. Defined.

(** [wakeup] is the number of tokens in the channel; [sent] the "wakeup"
    messages that were written. *)
Record ws_client := {
  cl_reader : reader; cl_writer : bool; cl_open : bool; wakeup : nat; sent : nat }.
Definition with_reader r c := {| cl_reader := r; cl_writer := cl_writer c; cl_open := cl_open c;
  wakeup := wakeup c; sent := sent c |}.
Definition with_conn writer op c := {| cl_reader := cl_reader c; cl_writer := writer; cl_open := op;
  wakeup := wakeup c; sent := sent c |}.
Definition with_wakeup w s c := {| cl_reader := cl_reader c; cl_writer := cl_writer c; cl_open := cl_open c;
  wakeup := w; sent := s |}.

(** [clients] is the map, [action] the channel, [in_hand] the action Poll has
    received and not yet processed. *)
Record Notifier := {
  clients : gset nat; action : list Action; in_hand : option Action; socks : gmap nat ws_client }.
Definition with_action l n := {| clients := clients n; action := l; in_hand := in_hand n; socks := socks n |}.
Definition with_socks m n := {| clients := clients n; action := action n; in_hand := in_hand n; socks := m |}.

Definition NewNotifier : Notifier := {| clients := ∅; action := []; in_hand := None; socks := ∅ |}.
Definition action_cap : nat := 64.
Definition wakeup_cap : nat := 8.

(** ** Operations *)

(** A send that does not block; the action is dropped when the channel is
    full. *)
Definition Broadcast (n : Notifier) : Notifier :=
  if bool_decide (length (action n) < action_cap) then with_action (action n ++ [broadcast]) n else n.

(** Register and Deregister send and wait while the channel is full. *)
Definition send_action (a : Action) (n : Notifier) : option Notifier :=
  if bool_decide (length (action n) < action_cap) then Some (with_action (action n ++ [a]) n) else None.
Definition Register (c : nat) : Notifier → option Notifier := send_action (register c).
Definition Deregister (c : nat) : Notifier → option Notifier := send_action (deregister c).

(** Client.Wakeup, another send that does not block. *)
Definition Wakeup (c : ws_client) : ws_client :=
  if bool_decide (wakeup c < wakeup_cap) then with_wakeup (S (wakeup c)) (sent c) c else c.
Definition ws_Close (c : ws_client) : ws_client := with_conn (cl_writer c) false c.

(** A turn of Poll with the action it received. *)
Definition poll_action (a : Action) (n : Notifier) : Notifier :=
  match a with
  | register c => {| clients := {[ c ]} ∪ clients n; action := action n; in_hand := None; socks := socks n |}
  | deregister c => {| clients := clients n ∖ {[ c ]}; action := action n; in_hand := None;
                       socks := alter ws_Close c (socks n) |}
  | broadcast => {| clients := clients n; action := action n; in_hand := None;
                    socks := map_imap (λ c s, Some (if decide (c ∈ clients n) then Wakeup s else s)) (socks n) |}
  end.

(** Handle: the socket was upgraded. *)
Definition new_client : ws_client :=
  {| cl_reader := Registering; cl_writer := false; cl_open := true; wakeup := 0; sent := 0 |}.

(** ** Transitions *)

Inductive step (n : Notifier) : Notifier → Prop :=
  | step_upgrade c :
      socks n !! c = None → step n (with_socks (<[c := new_client]> (socks n)) n)
  (** Register, then both goroutines start. *)
  | step_register c s :
      socks n !! c = Some s → cl_reader s = Registering → length (action n) < action_cap →
      step n (with_action (action n ++ [register c])
        (with_socks (<[c := with_conn true (cl_open s) (with_reader Reading s)]> (socks n)) n))
  (** ReadMessage failed. *)
  | step_read_error c s :
      socks n !! c = Some s → cl_reader s = Reading →
      step n (with_socks (<[c := with_reader Deregistering s]> (socks n)) n)
  | step_deregister c s :
      socks n !! c = Some s → cl_reader s = Deregistering → length (action n) < action_cap →
      step n (with_action (action n ++ [deregister c])
        (with_socks (<[c := with_reader ReaderDone s]> (socks n)) n))
  (** The writer took a token and wrote "wakeup". *)
  | step_write c s k :
      socks n !! c = Some s → cl_writer s = true → cl_open s = true → wakeup s = S k →
      step n (with_socks (<[c := with_wakeup k (S (sent s)) s]> (socks n)) n)
  (** The writer took a token and could not write: it closes the connection. *)
  | step_write_error c s k :
      socks n !! c = Some s → cl_writer s = true → wakeup s = S k →
      step n (with_socks (<[c := with_conn false false (with_wakeup k (sent s) s)]> (socks n)) n)
  (** A ping could not be written. *)
  | step_ping_error c s :
      socks n !! c = Some s → cl_writer s = true →
      step n (with_socks (<[c := with_conn false false s]> (socks n)) n)
  | step_broadcast : step n (Broadcast n)
  (** Poll receives an action, and processes it under the lock. *)
  | step_receive a l :
      in_hand n = None → action n = a :: l →
      step n {| clients := clients n; action := l; in_hand := Some a; socks := socks n |}
  | step_process a : in_hand n = Some a → step n (poll_action a n).

(** Register and Deregister are these steps. *)
Lemma Register_step c s n n' :
  socks n !! c = Some s → cl_reader s = Registering → Register c n = Some n' →
  step n (with_socks (<[c := with_conn true (cl_open s) (with_reader Reading s)]> (socks n')) n').
Proof. unfold Register, send_action. case_bool_decide; [|done]. intros Hc Hs [= <-]. by apply (step_register n c s). Qed.
Lemma Deregister_step c s n n' :
  socks n !! c = Some s → cl_reader s = Deregistering → Deregister c n = Some n' →
  step n (with_socks (<[c := with_reader ReaderDone s]> (socks n')) n').
Proof. unfold Deregister, send_action. case_bool_decide; [|done]. intros Hc Hs [= <-]. by apply (step_deregister n c s). Qed.

Definition reachable (n : Notifier) : Prop := rtc step NewNotifier n.

(** What is still to be processed, in order. *)
Definition pending (n : Notifier) : list Action := option_list (in_hand n) ++ action n.

(** ** The clients in the map *)

Definition about (c : nat) (a : Action) : bool :=
  match a with register d | deregister d => bool_decide (d = c) | broadcast => false end.
Definition pending_of (c : nat) (n : Notifier) : list Action := filter (λ a, about c a = true) (pending n).

(** A client is in the map from the processing of its registration to the
    processing of its deregistration, which come in this order. *)
Definition tracked (c : nat) (s : option ws_client) (p : list Action) (m : gset nat) : Prop :=
  match (cl_reader <$> s) with
  | None | Some Registering => p = [] ∧ c ∉ m
  | Some Reading | Some Deregistering => (p = [register c] ∧ c ∉ m) ∨ (p = [] ∧ c ∈ m)
  | Some ReaderDone =>
      (p = [register c; deregister c] ∧ c ∉ m) ∨ (p = [deregister c] ∧ c ∈ m) ∨
      (p = [] ∧ (c ∉ m) ∧ (cl_open <$> s) = Some false)
  end.
Definition tracks (n : Notifier) : Prop := ∀ c, tracked c (socks n !! c) (pending_of c n) (clients n).
(** The channels keep their capacity. *)
Definition bounded (n : Notifier) : Prop :=
  length (action n) ≤ action_cap ∧ map_Forall (λ _ s, wakeup s ≤ wakeup_cap) (socks n).

Lemma pending_of_append c a l n :
  action n = l → pending_of c (with_action (l ++ [a]) n) = pending_of c n ++ filter (λ a, about c a = true) [a].
Proof. intros <-. unfold pending_of, pending. simpl. by rewrite app_assoc, filter_app. Qed.

Lemma filter_about c a : filter (λ a, about c a = true) [a] = if about c a then [a] else [].
Proof. rewrite filter_cons. case_decide as Ha; by destruct (about c a). Qed.

(** Only the state of a client changes, and not in a way that matters here. *)
Lemma tracked_update c s s' p m :
  cl_reader <$> s' = cl_reader <$> s → ((cl_open <$> s) = Some false → cl_open <$> s' = Some false) →
  tracked c s p m → tracked c s' p m.
Proof. unfold tracked. intros -> Hopen. destruct (cl_reader <$> s) as [[]|]; naive_solver. Qed.

(** The map of the sockets changes at one client. *)
Lemma tracks_socks n c s s' :
  tracks n → socks n !! c = s → cl_reader <$> s = cl_reader <$> Some s' →
  ((cl_open <$> s) = Some false → cl_open s' = false) → tracks (with_socks (<[c := s']> (socks n)) n).
Proof.
  intros Hn Hs Hr Hopen d. simpl. destruct (decide (c = d)) as [<-|Hne].
  - rewrite lookup_insert_eq. eapply tracked_update; [..|apply Hn]; rewrite Hs; [done|].
    intros Ho. simpl. by rewrite Hopen.
  - rewrite lookup_insert_ne by done. apply Hn.
Qed.

(** Poll processes the action it has in hand. *)
Lemma tracks_process n a : tracks n → in_hand n = Some a → tracks (poll_action a n).
Proof.
  intros Hn Hh d. specialize (Hn d). unfold pending_of, pending in *. rewrite Hh in Hn. simpl in Hn.
  rewrite filter_cons in Hn. set (p := filter (λ a, about d a = true) (action n)) in *.
  assert (filter (λ a, about d a = true) (pending (poll_action a n)) = p) as Hp by (by destruct a).
  fold (pending (poll_action a n)). rewrite Hp. clear Hp. destruct a as [c|c|]; simpl in *.
  - destruct (decide (c = d)) as [->|Hne].
    + rewrite bool_decide_true, decide_True in Hn by done. unfold tracked in *.
      destruct (cl_reader <$> socks n !! d) as [[]|]; [naive_solver|..|naive_solver].
      * right. destruct Hn as [[[= ->] _]|[? _]]; [set_solver|done].
      * right. destruct Hn as [[[= ->] _]|[? _]]; [set_solver|done].
      * right; left. destruct Hn as [[[= ->] _]|[[? _]|[? _]]]; [set_solver|done..].
    + rewrite bool_decide_false, decide_False in Hn by done.
      assert (d ∈ {[c]} ∪ clients n ↔ d ∈ clients n) as Hiff by set_solver.
      unfold tracked in *. destruct (cl_reader <$> socks n !! d) as [[]|]; by rewrite Hiff.
  - destruct (decide (c = d)) as [->|Hne].
    + rewrite bool_decide_true, decide_True in Hn by done. unfold tracked in *. rewrite lookup_alter_eq.
      destruct (socks n !! d) as [s|]; simpl in *; [|naive_solver].
      destruct (cl_reader s); [naive_solver| | |].
      * destruct Hn as [[? _]|[? _]]; done.
      * destruct Hn as [[? _]|[? _]]; done.
      * right; right. destruct Hn as [[? _]|[[[= ->] _]|[? _]]]; [done|set_solver|done].
    + rewrite bool_decide_false, decide_False in Hn by done. rewrite lookup_alter_ne by done.
      assert (d ∈ clients n ∖ {[c]} ↔ d ∈ clients n) as Hiff by set_solver.
      unfold tracked in *. destruct (cl_reader <$> socks n !! d) as [[]|]; by rewrite Hiff.
  - rewrite map_lookup_imap.
    eapply tracked_update; [..|exact Hn]; destruct (socks n !! d) as [s|]; simpl; try done.
    + f_equal. case_decide; [|done]. unfold Wakeup. by case_bool_decide.
    + intros [= Ho]. case_decide; [|by rewrite Ho]. unfold Wakeup. case_bool_decide; simpl; by rewrite Ho.
Qed.

Lemma tracks_step n n' : tracks n → step n n' → tracks n'.
Proof.
  intros Hn Hstep. destruct Hstep as [c Hs|c s Hs Hr Hl|c s Hs Hr|c s Hs Hr Hl|c s k Hs _ _ _|c s k Hs _ _|c s Hs _
    | |a l Hh Ha|a Hh].
  - intros d. specialize (Hn d). simpl. destruct (decide (c = d)) as [<-|Hne].
    + rewrite lookup_insert_eq. by rewrite Hs in Hn.
    + by rewrite lookup_insert_ne.
  - intros d. specialize (Hn d). rewrite pending_of_append, filter_about by done. simpl.
    destruct (decide (c = d)) as [<-|Hne].
    + rewrite lookup_insert_eq, bool_decide_true by done. rewrite Hs in Hn. unfold tracked in *. simpl in *.
      rewrite Hr in Hn. destruct Hn as [Hp Hm]. unfold pending_of, pending in *. simpl. rewrite Hp. by left.
    + rewrite lookup_insert_ne, bool_decide_false, app_nil_r by done. apply Hn.
  - intros d. specialize (Hn d). simpl. destruct (decide (c = d)) as [<-|Hne].
    + rewrite lookup_insert_eq. rewrite Hs in Hn. unfold tracked in *. simpl in *. by rewrite Hr in Hn.
    + by rewrite lookup_insert_ne.
  - intros d. specialize (Hn d). rewrite pending_of_append, filter_about by done. simpl.
    destruct (decide (c = d)) as [<-|Hne].
    + rewrite lookup_insert_eq, bool_decide_true by done. rewrite Hs in Hn. unfold tracked in *. simpl in *.
      rewrite Hr in Hn. unfold pending_of, pending in *. simpl.
      destruct Hn as [[Hp Hm]|[Hp Hm]]; rewrite Hp; [by left|by right; left].
    + rewrite lookup_insert_ne, bool_decide_false, app_nil_r by done. apply Hn.
  - by eapply tracks_socks; [done..|]; intros [= ?].
  - by eapply tracks_socks.
  - by eapply tracks_socks.
  - unfold Broadcast. case_bool_decide; [|done]. intros d. rewrite pending_of_append, filter_about by done.
    simpl. rewrite app_nil_r. apply Hn.
  - intros d. specialize (Hn d). unfold pending_of, pending in *. by rewrite Hh, Ha in Hn.
  - by apply tracks_process.
Qed.

Lemma bounded_step n n' : bounded n → step n n' → bounded n'.
Proof.
  unfold bounded. intros [Ha Hw] Hstep.
  destruct Hstep as [c Hs|c s Hs Hr Hl|c s Hs Hr|c s Hs Hr Hl|c s k Hs _ _ Hk|c s k Hs _ Hk|c s Hs _
    | |a l Hh Hl|a Hh]; simpl; rewrite ?length_app; simpl;
    try (split; [lia|]; try apply map_Forall_insert_2; try done; simpl; try apply (Hw _ _ Hs)).
  - unfold wakeup_cap. lia.
  - specialize (Hw _ _ Hs). simpl in Hw. lia.
  - specialize (Hw _ _ Hs). simpl in Hw. lia.
  - unfold Broadcast. case_bool_decide; simpl; rewrite ?length_app; simpl; split; (lia || done).
  - rewrite Hl in Ha. simpl in Ha. split; [lia|done].
  - destruct a as [c|c|]; simpl; split; try done.
    + intros d s. rewrite lookup_alter_Some. intros [(-> & s' & Hs & ->)|[_ Hs]]; by apply (Hw _ _ Hs).
    + intros d s. rewrite map_lookup_imap. destruct (socks n !! d) as [s'|] eqn:Hs; [|done].
      intros [= <-]. specialize (Hw _ _ Hs). simpl in Hw. case_decide; [|done].
      unfold Wakeup. case_bool_decide; simpl; lia.
Qed.

Lemma reachable_inv n : reachable n → tracks n ∧ bounded n.
Proof.
  intros Hn. eapply (rtc_ind_r (λ n, tracks n ∧ bounded n) NewNotifier); [..|exact Hn].
  - split; [intros c; split; set_solver|]. by split; [unfold action_cap; simpl; lia|].
  - intros n1 n2 _ Hstep [Ht Hb]. split; [by eapply tracks_step|by eapply bounded_step].
Qed.

(** ** Poll, run until nothing is pending *)

Fixpoint Poll (fuel : nat) (n : Notifier) : Notifier :=
  match fuel with
  | O => n
  | S fuel =>
      match in_hand n, action n with
      | Some a, _ => Poll fuel (poll_action a n)
      | None, [] => n
      | None, a :: l => Poll fuel (poll_action a
          {| clients := clients n; action := l; in_hand := Some a; socks := socks n |})
      end
  end.

Lemma pending_poll_action a n : pending (poll_action a n) = action n.
Proof. by destruct a. Qed.

(** One turn, whether the action is in hand or still in the channel. *)
Lemma Poll_turn fuel n a l :
  pending n = a :: l → ∃ n1, in_hand n1 = Some a ∧ action n1 = l ∧ clients n1 = clients n ∧ socks n1 = socks n ∧
    rtc step n n1 ∧ Poll (S fuel) n = Poll fuel (poll_action a n1).
Proof.
  unfold pending. cbn [Poll]. destruct (in_hand n) as [a'|] eqn:Hh; simpl.
  - intros [= -> <-]. exists n. by split_and!.
  - intros Ha. rewrite Ha. eexists. split_and!; [..|reflexivity]; try done.
    apply rtc_once. by apply step_receive.
Qed.

(** Poll drains the channel, as a run of the system, in as many turns as there
    are actions, and leaves the readers alone. *)
Lemma Poll_drains fuel n :
  length (pending n) ≤ fuel →
  pending (Poll fuel n) = [] ∧ rtc step n (Poll fuel n) ∧
  ∀ c, cl_reader <$> (socks (Poll fuel n) !! c) = cl_reader <$> (socks n !! c).
Proof.
  revert n. induction fuel as [|fuel IH]; intros n Hl.
  { destruct (pending n) eqn:Hp; [|simpl in Hl; lia]. by split_and!. }
  destruct (pending n) as [|a l] eqn:Hp.
  - assert (Poll (S fuel) n = n) as ->; [|by split_and!]. unfold pending in Hp. simpl.
    destruct (in_hand n); [done|]. simpl in Hp. by rewrite Hp.
  - destruct (Poll_turn fuel n a l Hp) as (n1 & Hh & Ha & _ & Hs & Hrun & ->).
    destruct (IH (poll_action a n1)) as (Hpend & Hrun' & Hread); [rewrite pending_poll_action, Ha; simpl in Hl; lia|].
    split_and!; [done| |].
    + etrans; [exact Hrun|]. eapply rtc_l; [by apply step_process|exact Hrun'].
    + intros c. rewrite Hread, <-Hs. destruct a as [d|d|]; simpl; [done|..].
      * destruct (decide (d = c)) as [->|]; [rewrite lookup_alter_eq|by rewrite lookup_alter_ne].
        by destruct (socks n1 !! c).
      * rewrite map_lookup_imap. destruct (socks n1 !! c) as [s|]; simpl; [|done].
        case_decide; [|done]. unfold Wakeup. by case_bool_decide.
Qed.

Definition running (s : option ws_client) : Prop :=
  cl_reader <$> s = Some Reading ∨ cl_reader <$> s = Some Deregistering.

Lemma tracked_settled n c :
  tracks n → pending n = [] → (c ∈ clients n ↔ running (socks n !! c)).
Proof.
  intros Hn Hp. specialize (Hn c). unfold pending_of, running in *. rewrite Hp in Hn. unfold tracked in Hn.
  destruct (cl_reader <$> (socks n !! c)) as [[]|]; naive_solver.
Qed.

Lemma running_poll_action a n c : running (socks n !! c) → running (socks (poll_action a n) !! c).
Proof.
  unfold running. intros Hr.
  assert (cl_reader <$> (socks (poll_action a n) !! c) = cl_reader <$> (socks n !! c)) as ->; [|done].
  destruct a as [d|d|]; simpl; [done|..].
  - destruct (decide (d = c)) as [->|]; [rewrite lookup_alter_eq|by rewrite lookup_alter_ne].
    by destruct (socks n !! c).
  - rewrite map_lookup_imap. destruct (socks n !! c) as [s|]; simpl; [|done].
    case_decide; [|done]. unfold Wakeup. by case_bool_decide.
Qed.

Lemma rtc_tracks n n' : tracks n → rtc step n n' → tracks n'.
Proof. intros Hn Hrun. induction Hrun; [done|]. eauto using tracks_step. Qed.

(** When the broadcast is reached, everything before it was processed. *)
Lemma Poll_wakes l n c :
  tracks n → pending n = l ++ [broadcast] → running (socks n !! c) →
  ∃ s, socks (Poll (S (length l)) n) !! c = Some s ∧ 1 ≤ wakeup s.
Proof.
  revert n. induction l as [|a l IH]; intros n Hn Hp Hr.
  - destruct (Poll_turn 0 n broadcast [] Hp) as (n1 & Hh & Ha & Hc & Hs & Hrun & Hpoll).
    cbn [length]. rewrite Hpoll. cbn [Poll poll_action socks clients]. rewrite map_lookup_imap, Hs.
    assert (c ∈ clients n1) as Hin.
    { apply rtc_tracks with (1 := Hn) in Hrun. specialize (Hrun c). unfold tracked, pending_of, pending in Hrun.
      rewrite Hh, Ha, Hs in Hrun. simpl in Hrun. rewrite filter_cons in Hrun. simpl in Hrun.
      unfold running in Hr. destruct Hr as [Hr|Hr]; rewrite Hr in Hrun; naive_solver. }
    destruct (socks n !! c) as [s|]; [|by destruct Hr]. simpl. rewrite decide_True by done.
    eexists. split; [done|]. unfold Wakeup, wakeup_cap. case_bool_decide; simpl; lia.
  - destruct (Poll_turn (S (length l)) n a (l ++ [broadcast]) Hp) as (n1 & Hh & Ha & Hc & Hs & Hrun & Hpoll).
    cbn [length]. rewrite Hpoll. apply IH.
    + eapply tracks_step; [by eapply rtc_tracks|by apply step_process].
    + by rewrite pending_poll_action.
    + apply running_poll_action. by rewrite Hs.
Qed.

(** ** Properties *)

(** C26: The notifier neither leaks nor forgets a client.  In every state the
    goroutines can reach, the channels are within their capacity, a client
    whose reader ended is in the map only while its deregistration is on its
    way, and one whose reader runs is missing only while its registration is;
    once nothing is pending the map is exactly the set of the running
    readers, and the connection of every client that left is closed. *)
Theorem notifier_tracks_connections n :
  reachable n →
  bounded n ∧
  (∀ c, c ∈ clients n → running (socks n !! c) ∨ deregister c ∈ pending n) ∧
  (∀ c, running (socks n !! c) → c ∈ clients n ∨ register c ∈ pending n) ∧
  (pending n = [] → ∀ c, (c ∈ clients n ↔ running (socks n !! c)) ∧
     (cl_reader <$> (socks n !! c) = Some ReaderDone → cl_open <$> (socks n !! c) = Some false)).
Proof.
  intros [Hn Hb]%reachable_inv.
  assert (∀ c a l, pending_of c n = a :: l → ∀ b, b ∈ a :: l → b ∈ pending n) as Hin.
  { intros c a l Hp b Hb'. rewrite <-Hp in Hb'. by apply list_elem_of_filter in Hb' as [_ ?]. }
  split; [done|]. split_and!.
  - intros c Hc. specialize (Hn c). unfold tracked, running in *.
    destruct (cl_reader <$> (socks n !! c)) as [[]|] eqn:Hr; try naive_solver.
    destruct Hn as [[_ ?]|[[Hp _]|(_ & ? & _)]]; [done| |done]. right. apply (Hin _ _ _ Hp). by left.
  - intros c [Hr|Hr]; specialize (Hn c); unfold tracked in Hn; rewrite Hr in Hn;
      (destruct Hn as [[Hp _]|[_ ?]]; [right; apply (Hin _ _ _ Hp); by left|by left]).
  - intros Hp c. split; [by apply tracked_settled|]. intros Hr. specialize (Hn c). unfold tracked in Hn.
    rewrite Hr in Hn. unfold pending_of in Hn. rewrite Hp in Hn. naive_solver.
Qed.

(** C27: A broadcast wakes every client.  If the channel has room, Broadcast
    followed by as many turns of Poll as there are actions ends with nothing
    pending, and then every client whose reader was running holds a token, so
    that its writer sends "wakeup". *)
Theorem broadcast_wakes_all n :
  reachable n → length (action n) < action_cap →
  let n' := Poll (S (length (pending n))) (Broadcast n) in
  reachable n' ∧ pending n' = [] ∧
  ∀ c, running (socks n !! c) → ∃ s, socks n' !! c = Some s ∧ 1 ≤ wakeup s ≤ wakeup_cap.
Proof.
  intros Hn Hroom n'. destruct (reachable_inv n Hn) as [Ht _].
  assert (step n (Broadcast n)) as Hstep by constructor.
  assert (pending (Broadcast n) = pending n ++ [broadcast]) as Hp.
  { unfold Broadcast, pending. rewrite bool_decide_true by done. simpl. by rewrite app_assoc. }
  destruct (Poll_drains (S (length (pending n))) (Broadcast n)) as (Hdone & Hrun & _).
  { rewrite Hp, length_app. simpl. lia. }
  fold n' in Hdone, Hrun. assert (reachable n') as Hn'.
  { unfold reachable. etrans; [exact Hn|by eapply rtc_l]. }
  split_and!; [done..|]. intros c Hc.
  destruct (Poll_wakes (pending n) (Broadcast n) c) as (s & Hs & Hw); [by eapply tracks_step|done| |].
  { unfold Broadcast. by case_bool_decide. }
  exists s. split; [done|]. split; [done|]. destruct (reachable_inv n' Hn') as [_ [_ Hb]]. by apply (Hb c s).
Qed.

(** ** Witnesses *)

Module NotifierEx.
(** Two clients, one of them gone, and the actions not yet processed. *)
Definition reading : ws_client := {| cl_reader := Reading; cl_writer := true; cl_open := true; wakeup := 0; sent := 0 |}.
Definition gone : ws_client := {| cl_reader := ReaderDone; cl_writer := true; cl_open := true; wakeup := 0; sent := 0 |}.
Definition busy : Notifier :=
  {| clients := ∅; action := [register 0; register 1; deregister 1]; in_hand := None;
     socks := {[ 0 := reading; 1 := gone ]} |}.

Lemma busy_reachable : reachable busy.
Proof.
  unfold reachable. eapply rtc_l; [by apply (step_upgrade _ 0)|].
  eapply rtc_l; [apply (step_register _ 0 new_client); [done..|simpl; unfold action_cap; lia]|].
  eapply rtc_l; [by apply (step_upgrade _ 1)|].
  eapply rtc_l; [apply (step_register _ 1 new_client); [done..|simpl; unfold action_cap; lia]|].
  eapply rtc_l; [by apply (step_read_error _ 1 reading)|].
  eapply rtc_l; [by apply (step_deregister _ 1 (with_reader Deregistering reading)); [..|simpl; unfold action_cap; lia]|].
  apply (eq_rect_r (rtc step _) (rtc_refl _ _)). by vm_compute.
Qed.
End NotifierEx.
Import NotifierEx.

Lemma notifier_tracks_connections_witness :
  reachable busy ∧ bounded busy ∧ (running (socks busy !! 0) → 0 ∈ clients busy ∨ register 0 ∈ pending busy).
Proof.
  destruct (notifier_tracks_connections busy busy_reachable) as (Hb & _ & Hrun & _).
  split; [exact busy_reachable|]. split; [exact Hb|]. apply Hrun.
Defined.

Lemma broadcast_wakes_all_witness :
  let n' := Poll 4 (Broadcast busy) in
  clients n' = {[ 0 ]} ∧ pending n' = [] ∧ ∃ s, socks n' !! 0 = Some s ∧ 1 ≤ wakeup s.
Proof.
  destruct (broadcast_wakes_all busy busy_reachable) as (_ & Hp & Hw); [simpl; unfold action_cap; lia|].
  split; [by vm_compute|]. split; [exact Hp|].
  destruct (Hw 0) as (s & Hs & Hl & _); [by left|]. by exists s.
Defined.
